(* ===== verification/_CoqProject ===== *)
-Q . S2P
Prelude.v
Anlock.v
Types.v
Machine.v
Demo.v
Idxset.v
RunQueue.v
PagerQueue.v
TaskRef.v
Loop.v
Interrupts.v
TaskExit.v
Paging.v
PidMap.v
Thread.v
ThreadExit.v
SocketList.v
DescTable.v
PendingList.v
Socket.v
MsgQueue.v
SocketLink.v
SocketSend.v
SocketHangup.v
SocketOpen.v
SocketConnect.v
TaskLife.v
TaskCreate.v
TaskStart.v
TaskKill.v
Interface.v
Internal.v
Typed.v
KillJob.v
Steps.v
Guard.v
Calm.v
Smp.v
Atomic.v
Order.v
Polite.v
Contract.v
Deadlock.v
Race.v
