(* ===== verification/Prelude.v ===== *)
(** * anscheduler: a verification development

    anscheduler is a preemptive scheduler with tasks, threads, messages between
    tasks, demand paging and interrupts for the kernel of a multiprocessor machine,
    written in C. It is a library: the platform below it (allocation, page tables,
    CPU context, timers) is a list of functions that the kernel provides
    (include/anscheduler/functions.h), the system calls above it are the kernel's.

    ** Parts of the program and their files

    - Prelude.v (this file): machine words, linked chains, generic lemmas.
    - Anlock.v: the ticket spin lock (lib/anlock/src/anlock.c). Each access to the
      lock word is one atomic step of a transition system of any number of CPUs.
    - Types.v: the structures of include/anscheduler/types.h and the memory [kst].
    - Machine.v: programs ([prog]), their execution ([run]), the platform functions
      of functions.h, and the tactics that execute programs symbolically.
    - Demo.v: a concrete platform and concrete memories for the witnesses.
    - Idxset.v: index sets (lib/anidxset/src/anidxset.c, src/util.c).
    - RunQueue.v, Loop.v: src/loop.c; the scheduling queue, and choosing, switching
      and giving up threads.
    - PagerQueue.v, Paging.v: src/paging.c; the queue of page faults for the system
      pager, and the page-fault handler.
    - TaskRef.v, TaskExit.v, TaskLife.v: src/task.c; reference counts and kill jobs,
      exit, and creation, launch and destruction, with the correctness of creation
      (TaskCreate.v), launch (TaskStart.v) and destruction: of the threads (TaskKill.v)
      and of all that is left (KillJob.v).
    - Interrupts.v: src/interrupts.c; the interrupt thread and the mask of
      interrupts it has not seen.
    - PidMap.v: src/pidmap.c; the table of tasks and the pool of identifiers.
    - Thread.v, ThreadExit.v: src/thread.c; stacks, polling and creation, and
      deallocation and exit.
    - SocketList.v, DescTable.v, PendingList.v: src/socketlist.c; its operations, the
      correctness of the hash table of descriptors and of the list of descriptors
      with messages.
    - Socket.v, MsgQueue.v, SocketLink.v, SocketSend.v, SocketHangup.v, SocketOpen.v,
      SocketConnect.v: src/socket.c; its operations, the message queues, closing and
      releasing, sending from end to end, hanging up, opening and connecting.
    - Interface.v: the functions that the headers of include/anscheduler declare for
      the kernel ([entry], [entry_code]), with the sections of code in which the
      headers allow them ([entry_section]). Internal.v: those that src/pidmap.h,
      src/socketlist.h and the tops of src/thread.c, src/task.c and src/socket.c
      declare for the scheduler itself ([internal]).
    - Typed.v: an invariant of the memory that every function of the interface
      preserves.
    - Steps.v: systems of CPUs that execute the interface's functions one access at a
      time ([sys_step]), and their agreement with [run].
    - Guard.v, Calm.v, Smp.v, Atomic.v: reference counts of tasks and descriptors in
      such systems: what it means to touch a count under its lock only, that all
      functions do, the invariant of a system that follows, and what single calls do to
      a count while other CPUs run anything between their accesses.
    - Order.v, Polite.v, Contract.v, Deadlock.v: critical sections, the order of locks
      and the static variables they guard: the discipline, that all functions follow
      it, what follows for one call, and what follows for systems of CPUs. Race.v: what
      follows for the static variables.

    Definitions have the names of the C functions, types and fields (fields carry the
    structure's name: [thread_queueNext] is [queueNext] of [thread_t]). A loop whose
    body is needed by a lemma is a definition of its own ([next_thread_body]), as is a
    stretch of a long function ([push_locked], [release_thread]).

    ** The model of execution

    The memory [kst] has one heap per structure type, from addresses to records, so
    that pointers alias as in C; freed memory leaves every heap. A function body is a
    [prog]: atomic accesses, [while] loops, saving the thread's state and leaving for
    another thread. [run n c p s] executes [p] on CPU [c]. It ends in [Done] with a
    result, or in [Stop]: the CPU runs another thread, idles or aborts ([s_leave]),
    waits for a lock that is held ([s_deadlock]), or the access is undefined in C
    ([s_ub]: null or freed pointers, indexes out of bounds, bad frees and unlocks,
    oversized shifts, unbalanced critical sections). That a theorem's conclusion is
    [Done], or [Stop (s_leave _)], thus includes memory safety and the absence of
    self-deadlock. Words wrap at their width ([u8], [u16], [u32], [u64]).

    [run] is sequential: it describes what one CPU does between other CPUs' accesses,
    under the locks it takes, until the CPU switches to another thread. Systems of CPUs
    (Steps.v) interleave: a step is one access of one CPU to memory, the timer's tick in
    code outside critical sections, saving a thread, running a thread (new, saved or
    interrupted), or a call of the kernel in the section that the header asks for. A
    thread's saved code goes on where it stopped, on whichever CPU runs it. A call made
    in such a system while the other CPUs wait does what [run] says. The ticket lock is
    a transition system of its own (Anlock.v), whose theorems are what
    [anscheduler_lock] as one access assumes.

    ** Fuel

    [n] bounds the iterations of each [while] loop and is the only bound; a theorem
    asks for more iterations than the list at hand is long ([length q < n]) and then
    states the result, so that it includes termination. Loops with a C counter
    ([for_], [for_each]) need no fuel.

    ** What the theorems show

    - The memory: every function of the scheduler, wherever it ends, leaves structures
      in live memory, one type per address, arrays of their declared lengths.
    - The lock: mutual exclusion, first come first served, progress, with tickets
      that wrap around.
    - All CPUs together, under every interleaving: a call that takes or gives up a
      reference, or ends a count, is one atomic event that its result tells of, and no
      reference is granted after the end; no CPU waits for a
      lock it holds itself, directly or through others; a thread that is switched away,
      interrupted or done has given back its locks, with one exception; the scheduler's
      static variables change under their locks only; every function, of the interface
      or internal, ends in the section of code in which its declaration allows it, with
      the locks held that were held before, and waits for locks of others only, but for
      the job that destroys a task.
    - Index sets: an index in use is never handed out again, indexes come in order, a
      set survives allocation failures.
    - The scheduler: the queue implements a list; the first ready thread is chosen;
      every ready thread comes closer to the CPU with each resignation; dead threads
      leave the queue; the last reference to a killed task starts its kill job once.
    - Tasks and threads: kills are final; creating a task or a thread is all or
      nothing; a launched task is found and its threads are queued; stacks never
      overlap; exiting gives up what the thread held; the kill job of a task without
      sockets frees exactly what belonged to the task; identifiers are unique and find
      their task.
    - Interrupts and faults: none is lost, each is seen once and in order, the
      polling thread is woken at once.
    - Sockets: opening one is all or nothing but for one leak; connecting it creates
      the other end, once, and tells it; two bounded first-in first-out queues of
      messages; a message sent is pending at the other end and wakes a polling thread;
      closing is final; the last reference takes a closed descriptor out of both lists
      of its task and starts its hang-up; hanging up tells an open other end with the
      close code, and the second hang-up frees the socket with every message.

    Modelling showed places where the code does not do what it means to; theorems of
    the files state them next to the correctness theorems they limit:
    [loop_delete_twice_miscounts], [descriptor_find_never_returns],
    [pop_then_not_pending_keeps_descriptor], [pidmap_unset_unregistered_wipes_bucket],
    [page_fault_write_race_kills], [wait_socket_gone_waits_for_itself],
    [lost_lock_stays_locked], [connect_aborts_on_closed_receiver],
    [socket_new_opens_connector] (the lost socket), [socket_connect_reaches_task] (the
    mark that stays after a failure).

    ** Assumptions

    The class [Platform] holds what the platform decides: results of allocations and
    page-table updates, address translation, contents of uninitialised memory.
    [PlatformOk] states what functions.h documents of it: allocations are fresh and
    page-aligned, translation is invertible. Demo.v has an instance.

    ** Not modelled

    The platform itself and the test platform (test/, inline assembly and POSIX
    threads); [anscheduler_timer_set_far], [anscheduler_timer_cancel],
    [anscheduler_inc] and [anscheduler_cpu_notify_dead], which the scheduler never
    calls; the [ui] field of a task and the saved registers, which belong to the
    platform. The theorems on the contents of lists and tables are about [run]; for
    interleaved CPUs the reference counts, critical sections, lock order and the locking
    of static variables ([pagerThread], which the source does not lock, aside) are
    proved. [anscheduler_pager_lock], [anscheduler_intd_lock] and their unlocking
    functions leave a lock to the kernel on purpose: what they do is in Contract.v, the
    systems of Deadlock.v and Race.v are without them ([plain_call]). Of
    the kill job's wait for open sockets (whose outcome depends on other threads, and
    which may wait for itself) and of the asynchronous sending of Socket.v the
    well-typedness, critical sections, lock order and use of reference counts are
    proved, not what they do to the lists. Contents of pages are not modelled: that a
    page is zeroed is an event in the log of the platform ([ev_zero]), as is the freeing
    of memory. The functions that [anscheduler_loop_push_kernel] may start are the
    three that the scheduler starts ([kernel_fn]): the code of a function of the kernel's
    own is not here. The shift [1 << 31] of interrupts.c, which C leaves undefined, has
    the value that compilers give it ([shift_one]). *)
From stdpp Require Export base numbers list gmap fin_maps strings.

Global Open Scope Z_scope.

(** ** Machine words

    A [w]-bit unsigned word is a [Z] in [[0, 2^w)]; arithmetic that the C code
    performs on [uint8_t], [uint32_t] and [uint64_t] wraps. *)
Definition u8 (x : Z) : Z := x mod 2 ^ 8.
Definition u16 (x : Z) : Z := x mod 2 ^ 16.
Definition u32 (x : Z) : Z := x mod 2 ^ 32.
Definition u64 (x : Z) : Z := x mod 2 ^ 64.

(** The null pointer. Pointers are addresses, that is, words. *)
Definition NULL : Z := 0.

(** [test_flag v f]: the C condition [v & f]. *)
Definition test_flag (v f : Z) : bool := negb (Z.land v f =? 0).

(** ** Link chains

    A chain is described by two link functions [nx] and [pv] (the contents of
    the [next] and [last] fields of the nodes, as the heap has them) and the
    list of the nodes' addresses. *)
Definition hd0 (e : Z) (l : list Z) : Z := default e (head l).
Definition lst (b : Z) (l : list Z) : Z := default b (last l).

(** A doubly linked segment: [b] is what the first node's [last] field holds,
    [e] is what the final node's [next] field holds. *)
Fixpoint dlseg (nx pv : Z → Z) (b : Z) (l : list Z) (e : Z) : Prop :=
  match l with
  | [] => True
  | p :: l' => p ≠ NULL ∧ pv p = b ∧ nx p = hd0 e l' ∧ dlseg nx pv p l' e
  end.

(** A complete NULL-terminated doubly linked list without sharing. *)
Definition dll (nx pv : Z → Z) (l : list Z) : Prop :=
  NoDup l ∧ dlseg nx pv NULL l NULL.

(** A NULL-terminated singly linked list without sharing. *)
Fixpoint slseg (nx : Z → Z) (l : list Z) : Prop :=
  match l with
  | [] => True
  | p :: l' => p ≠ NULL ∧ nx p = hd0 NULL l' ∧ slseg nx l'
  end.

Definition sll (nx : Z → Z) (l : list Z) : Prop := NoDup l ∧ slseg nx l.

(** ** Lemmas *)

Lemma u64_small x : 0 ≤ x < 2 ^ 64 → u64 x = x.
Proof. apply Z.mod_small. Qed.

Lemma u32_small x : 0 ≤ x < 2 ^ 32 → u32 x = x.
Proof. apply Z.mod_small. Qed.

Lemma u64_range x : 0 ≤ u64 x < 2 ^ 64.
Proof. apply Z.mod_pos_bound. lia. Qed.

Lemma u32_range x : 0 ≤ u32 x < 2 ^ 32.
Proof. apply Z.mod_pos_bound. lia. Qed.

Lemma hd0_app e l1 l2 : hd0 e (l1 ++ l2) = hd0 (hd0 e l2) l1.
Proof. by destruct l1. Qed.

Lemma lst_cons b p l : lst b (p :: l) = lst p l.
Proof. unfold lst. destruct l as [|q l]; [done|]. rewrite last_cons_cons.
  destruct (last (q :: l)) eqn:E; [done|]. by apply last_None in E. Qed.

Lemma lst_app b l1 l2 : lst b (l1 ++ l2) = lst (lst b l1) l2.
Proof.
  revert b. induction l1 as [|p l1 IH]; intros b; [done|].
  by rewrite <- app_comm_cons, !lst_cons, IH.
Qed.

Lemma lst_snoc b l p : lst b (l ++ [p]) = p.
Proof. by rewrite lst_app. Qed.

Lemma lst_elem_of b l : l ≠ [] → lst b l ∈ l.
Proof.
  destruct l as [|p l]; [done|intros _]. revert b p.
  induction l as [|q l IH]; intros b p; rewrite lst_cons; [set_solver|].
  specialize (IH p q). set_solver.
Qed.

Lemma hd0_elem_of e l : l ≠ [] → hd0 e l ∈ l.
Proof. destruct l; [done|]. intros _. cbn. set_solver. Qed.

(** Segments are closed under concatenation, in both directions. *)
Lemma dlseg_app nx pv b l1 l2 e :
  dlseg nx pv b (l1 ++ l2) e ↔
  dlseg nx pv b l1 (hd0 e l2) ∧ dlseg nx pv (lst b l1) l2 e.
Proof.
  revert b. induction l1 as [|p l1 IH]; intros b; [naive_solver|].
  cbn [app dlseg]. rewrite lst_cons, IH, hd0_app. naive_solver.
Qed.

Lemma dlseg_nonnull nx pv b l e p : dlseg nx pv b l e → p ∈ l → p ≠ NULL.
Proof.
  revert b. induction l as [|q l IH]; intros b; [set_solver|].
  cbn. intros (? & _ & _ & H) [->|Hp]%elem_of_cons; [done|eauto].
Qed.

(** Links outside the segment do not matter. *)
Lemma dlseg_ext nx pv nx' pv' b l e :
  (∀ p, p ∈ l → nx' p = nx p) → (∀ p, p ∈ l → pv' p = pv p) →
  dlseg nx pv b l e → dlseg nx' pv' b l e.
Proof.
  revert b. induction l as [|p l IH]; intros b Hn Hp; [done|].
  cbn. intros (? & ? & ? & ?).
  rewrite Hn, Hp by set_solver. repeat split; auto.
  apply IH; auto; intros; [apply Hn|apply Hp]; set_solver.
Qed.

(** Redirecting the outgoing link of the final node. *)
Lemma dlseg_relink_end nx pv nx' pv' b l e e' :
  NoDup l →
  (∀ p, p ∈ l → nx' p = if decide (p = lst b l) then e' else nx p) →
  (∀ p, p ∈ l → pv' p = pv p) →
  dlseg nx pv b l e → dlseg nx' pv' b l e'.
Proof.
  revert b. induction l as [|p l IH]; intros b Hnd Hn Hp; [done|].
  apply NoDup_cons in Hnd as [Hpl Hnd]. cbn. intros (? & ? & Hnx & Hseg).
  assert (∀ q, q ∈ p :: l → nx' q = if decide (q = lst p l) then e' else nx q)
    as Hn' by (intros q Hq; rewrite Hn, lst_cons; done).
  clear Hn. rename Hn' into Hn.
  repeat split; [done|rewrite Hp; set_solver| |].
  - rewrite Hn by set_solver. destruct l as [|q l]; [by rewrite decide_True|].
    rewrite decide_False; [done|].
    intros Heq. apply Hpl. rewrite Heq. by apply lst_elem_of.
  - eapply IH; eauto; intros; [rewrite Hn|rewrite Hp]; set_solver.
Qed.

(** Redirecting the incoming back link of the first node. *)
Lemma dlseg_relink_begin nx pv nx' pv' b b' l e :
  NoDup l →
  (∀ p, p ∈ l → nx' p = nx p) →
  (∀ p, p ∈ l → pv' p = if decide (p = hd0 e l) then b' else pv p) →
  dlseg nx pv b l e → dlseg nx' pv' b' l e.
Proof.
  destruct l as [|p l]; [done|]. intros [Hpl Hnd]%NoDup_cons Hn Hp.
  cbn. intros (? & ? & ? & ?). cbn in Hp.
  rewrite Hn, Hp, decide_True by set_solver. repeat split; auto.
  eapply dlseg_ext; [| |done]; intros q Hq; [apply Hn; set_solver|].
  rewrite Hp, decide_False; set_solver.
Qed.

Lemma dll_nil nx pv : dll nx pv [].
Proof. split; [constructor|done]. Qed.

Lemma dll_NoDup nx pv l : dll nx pv l → NoDup l.
Proof. by intros []. Qed.

Lemma dll_nonnull nx pv l p : dll nx pv l → p ∈ l → p ≠ NULL.
Proof. intros [_ H]. by eapply dlseg_nonnull. Qed.

Lemma dll_ext nx pv nx' pv' l :
  (∀ p, p ∈ l → nx' p = nx p) → (∀ p, p ∈ l → pv' p = pv p) →
  dll nx pv l → dll nx' pv' l.
Proof. intros ?? []. split; [done|by eapply dlseg_ext]. Qed.

(** What the links of an inner node are. *)
Lemma dll_links nx pv l1 x l2 :
  dll nx pv (l1 ++ x :: l2) → nx x = hd0 NULL l2 ∧ pv x = lst NULL l1.
Proof. intros [_ H]. apply dlseg_app in H as (_ & _ & ? & ? & _). done. Qed.

(** A node with two null links is the only node of its list. *)
Lemma dll_alone nx pv l1 x l2 :
  dll nx pv (l1 ++ x :: l2) → nx x = NULL → pv x = NULL → l1 = [] ∧ l2 = [].
Proof.
  intros Hd Hn Hp. destruct (dll_links _ _ _ _ _ Hd) as [Hn' Hp'].
  split.
  - destruct (decide (l1 = [])) as [|Hl]; [done|].
    destruct (dll_nonnull _ _ _ (lst NULL l1) Hd); [|congruence].
    pose proof (lst_elem_of NULL _ Hl). set_solver.
  - destruct (decide (l2 = [])) as [|Hl]; [done|].
    destruct (dll_nonnull _ _ _ (hd0 NULL l2) Hd); [|congruence].
    pose proof (hd0_elem_of NULL _ Hl). set_solver.
Qed.

(** Unlinking a node. *)
Lemma dll_remove nx pv nx' pv' l1 x l2 :
  dll nx pv (l1 ++ x :: l2) →
  (∀ p, p ∈ l1 ++ l2 → nx' p = if decide (p = pv x) then nx x else nx p) →
  (∀ p, p ∈ l1 ++ l2 → pv' p = if decide (p = nx x) then pv x else pv p) →
  dll nx' pv' (l1 ++ l2).
Proof.
  intros Hd Hn Hp. destruct (dll_links _ _ _ _ _ Hd) as [Hnx Hpv].
  assert (∀ q, q ∈ l1 ++ x :: l2 → q ≠ NULL) as Hnn by eauto using dll_nonnull.
  destruct Hd as [Hnd Hs]. apply NoDup_app in Hnd as (Hnd1 & Hdis & Hnd2).
  apply NoDup_cons in Hnd2 as [Hx2 Hnd2].
  apply dlseg_app in Hs as [Hs1 (_ & _ & _ & Hs2)].
  rewrite Hpv in *. rewrite Hnx in *.
  split; [apply NoDup_app; set_solver|].
  apply dlseg_app. split.
  - eapply dlseg_relink_end; [done| | |exact Hs1]; intros p Hpl.
    + apply Hn. set_solver.
    + rewrite Hp by set_solver. apply decide_False. intros ->.
      destruct l2 as [|q l2]; [by eapply Hnn; [|reflexivity]; set_solver|].
      cbn in *. set_solver.
  - eapply dlseg_relink_begin; [done| | |exact Hs2]; intros p Hpl.
    + rewrite Hn by set_solver. apply decide_False. intros ->.
      destruct (decide (l1 = [])) as [->|Hl];
        [by eapply Hnn; [|reflexivity]; set_solver|].
      pose proof (lst_elem_of NULL _ Hl). set_solver.
    + apply Hp. set_solver.
Qed.

(** Linking a node in at the end. *)
Lemma dll_push_back nx pv nx' pv' l x :
  dll nx pv l → x ∉ l → x ≠ NULL →
  (∀ p, p ∈ l → nx' p = if decide (p = lst NULL l) then x else nx p) →
  (∀ p, p ∈ l → pv' p = pv p) →
  nx' x = NULL → pv' x = lst NULL l →
  dll nx' pv' (l ++ [x]).
Proof.
  intros [Hnd Hs] ??????. split.
  - apply NoDup_app. split; [done|]. split; [set_solver|apply NoDup_singleton].
  - apply dlseg_app. split; [|done]. by eapply dlseg_relink_end.
Qed.

(** Linking a node in at the front. *)
Lemma dll_push_front nx pv nx' pv' l x :
  dll nx pv l → x ∉ l → x ≠ NULL →
  (∀ p, p ∈ l → nx' p = nx p) →
  (∀ p, p ∈ l → pv' p = if decide (p = hd0 NULL l) then x else pv p) →
  nx' x = hd0 NULL l → pv' x = NULL →
  dll nx' pv' (x :: l).
Proof.
  intros [Hnd Hs] ??????. split; [by constructor|].
  cbn. repeat split; auto. by eapply dlseg_relink_begin.
Qed.

Lemma slseg_app nx l1 l2 :
  slseg nx (l1 ++ l2) → slseg nx l2.
Proof. induction l1; cbn; naive_solver. Qed.

Lemma slseg_ext nx nx' l :
  (∀ p, p ∈ l → nx' p = nx p) → slseg nx l → slseg nx' l.
Proof.
  induction l as [|p l IH]; intros Hn; [done|]. cbn. intros (? & ? & ?).
  rewrite Hn by set_solver. repeat split; auto. apply IH; set_solver.
Qed.

Lemma dll_sll nx pv l : dll nx pv l → sll nx l.
Proof.
  intros Hd. split; [by destruct Hd|]. destruct Hd as [_ Hd]. revert Hd.
  generalize NULL at 1. induction l as [|p l IH]; intros b; simpl; naive_solver.
Qed.

Lemma sll_nil nx : sll nx [].
Proof. split; [constructor|done]. Qed.

Lemma sll_nonnull nx l p : sll nx l → p ∈ l → p ≠ NULL.
Proof. intros [_ H]. induction l; [set_solver|]. cbn in H.
  intros [->|?]%elem_of_cons; naive_solver. Qed.

Lemma sll_ext nx nx' l :
  (∀ p, p ∈ l → nx' p = nx p) → sll nx l → sll nx' l.
Proof. intros ? []. split; [done|]. by eapply slseg_ext. Qed.

Lemma sll_tail nx p l : sll nx (p :: l) → sll nx l ∧ p ∉ l ∧ p ≠ NULL ∧ nx p = hd0 NULL l.
Proof. intros [[??]%NoDup_cons (? & ? & ?)]. repeat split; auto. Qed.

Lemma slseg_push_back nx nx' b l x :
  NoDup l → slseg nx l → x ≠ NULL →
  (∀ p, p ∈ l → nx' p = if decide (p = lst b l) then x else nx p) →
  nx' x = NULL →
  slseg nx' (l ++ [x]).
Proof.
  revert b. induction l as [|p l IH]; intros b Hnd Hs Hx Hn Hnx; [done|].
  apply NoDup_cons in Hnd as [Hpl Hnd]. cbn in Hs. destruct Hs as (? & Hl & ?).
  assert (∀ q, q ∈ p :: l → nx' q = if decide (q = lst p l) then x else nx q)
    as Hn' by (intros q Hq; rewrite Hn, lst_cons; done).
  clear Hn. rename Hn' into Hn.
  cbn [app slseg]. split; [done|split].
  - rewrite Hn, hd0_app by set_solver.
    destruct l as [|q l]; [by rewrite decide_True|].
    rewrite decide_False; [done|]. intros Heq. apply Hpl. rewrite Heq. by apply lst_elem_of.
  - apply (IH p); auto. intros. apply Hn. set_solver.
Qed.

Lemma sll_push_back nx nx' l x :
  sll nx l → x ∉ l → x ≠ NULL →
  (∀ p, p ∈ l → nx' p = if decide (p = lst NULL l) then x else nx p) →
  nx' x = NULL →
  sll nx' (l ++ [x]).
Proof.
  intros [Hnd Hs] ????. split.
  - apply NoDup_app. split; [done|]. split; [set_solver|apply NoDup_singleton].
  - by eapply slseg_push_back.
Qed.

Lemma u64_add_idemp_l a b : u64 (u64 a + b) = u64 (a + b).
Proof. apply Zplus_mod_idemp_l. Qed.


Lemma lst_ne t q : t ∉ q → t ≠ NULL → lst NULL q ≠ t.
Proof.
  intros Ht H0 <-. destruct q as [|p q]; [done|]. by apply Ht, lst_elem_of.
Qed.

Lemma hd0_ne t q : t ∉ q → t ≠ NULL → hd0 NULL q ≠ t.
Proof.
  intros Ht H0 <-. destruct q as [|p q]; [done|]. by apply Ht, hd0_elem_of.
Qed.

Lemma lst_null nx pv q : dll nx pv q → lst NULL q = NULL → q = [].
Proof.
  intros Hd Hl. destruct (decide (q = [])) as [|Hq]; [done|].
  by destruct (dll_nonnull _ _ _ _ Hd (lst_elem_of NULL q Hq)).
Qed.

Lemma hd0_null nx pv q : dll nx pv q → hd0 NULL q = NULL → q = [].
Proof.
  intros Hd Hl. destruct (decide (q = [])) as [|Hq]; [done|].
  by destruct (dll_nonnull _ _ _ _ Hd (hd0_elem_of NULL q Hq)).
Qed.

Lemma u64_succ_length {A} (q : list A) t :
  u64 (u64 (Z.of_nat (length q)) + 1) = u64 (Z.of_nat (length (q ++ [t]))).
Proof. rewrite u64_add_idemp_l, length_app. simpl. f_equal. lia. Qed.

Lemma u64_pred_length {A} (l1 l2 : list A) x :
  u64 (u64 (Z.of_nat (length (l1 ++ x :: l2))) - 1)
  = u64 (Z.of_nat (length (l1 ++ l2))).
Proof.
  unfold u64. rewrite Zminus_mod_idemp_l, !length_app. simpl. f_equal. lia.
Qed.

Lemma dll_neighbours nx pv l1 x l2 :
  dll nx pv (l1 ++ x :: l2) → lst NULL l1 ≠ x ∧ hd0 NULL l2 ≠ x.
Proof.
  intros Hd. assert (x ≠ NULL) by (eapply dll_nonnull; [done|set_solver]).
  apply dll_NoDup, NoDup_app in Hd as (_ & Hdis & [Hx2 _]%NoDup_cons).
  split; [apply lst_ne|apply hd0_ne]; set_solver.
Qed.

Lemma hd0_remove nx pv l1 x l2 :
  dll nx pv (l1 ++ x :: l2) →
  (if decide (hd0 NULL (l1 ++ x :: l2) = x) then hd0 NULL l2
   else hd0 NULL (l1 ++ x :: l2)) = hd0 NULL (l1 ++ l2).
Proof.
  intros Hd. destruct l1 as [|p l1]; [by rewrite decide_True|]. simpl.
  apply dll_NoDup in Hd. rewrite decide_False; [done|].
  apply NoDup_cons in Hd as [Hp _]. set_solver.
Qed.

Lemma lst_remove nx pv l1 x l2 :
  dll nx pv (l1 ++ x :: l2) →
  (if decide (lst NULL (l1 ++ x :: l2) = x) then lst NULL l1
   else lst NULL (l1 ++ x :: l2)) = lst NULL (l1 ++ l2).
Proof.
  intros Hd. rewrite !lst_app, lst_cons.
  apply dll_NoDup, NoDup_app in Hd as (_ & _ & [Hx _]%NoDup_cons).
  destruct l2 as [|p l2]; [by rewrite decide_True|].
  rewrite !lst_cons. rewrite decide_False; [done|].
  intros Heq. apply Hx. rewrite <- Heq, <- (lst_cons x). by apply lst_elem_of.
Qed.

(** Filters that agree on the list's elements agree. *)
Lemma filter_ext_in {A} (P Q : A → Prop) `{∀ x, Decision (P x), ∀ x, Decision (Q x)} (l : list A) :
  (∀ x, x ∈ l → P x ↔ Q x) → filter P l = filter Q l.
Proof.
  induction l as [|x l IH]; intros HPQ; [done|].
  rewrite !filter_cons, IH by set_solver.
  destruct (decide (P x)), (decide (Q x)); try done; exfalso; set_solver.
Qed.

Lemma filter_all {A} (P : A → Prop) `{∀ x, Decision (P x)} (l : list A) :
  (∀ x, x ∈ l → P x) → filter P l = l.
Proof.
  induction l as [|x l IH]; intros HP; [done|].
  rewrite filter_cons_True, IH by set_solver. done.
Qed.

Lemma bind_ext_in {A B} (f g : A → list B) (l : list A) :
  (∀ x, x ∈ l → f x = g x) → l ≫= f = l ≫= g.
Proof.
  induction l as [|x l IH]; intros Hfg; [done|]. cbn.
  rewrite Hfg by set_solver. f_equal. apply IH. set_solver.
Qed.

(** ** Automation shared by the components *)
Create HintDb links discriminated.
#[export] Hint Resolve dll_nil dll_NoDup dll_nonnull sll_nil sll_nonnull : links.
