(* ===== verification/Anlock.v ===== *)
(** * Anlock: the ticket spin lock of lib/anlock

    The only component whose own atomic steps matter: everywhere else a lock is
    taken in one step. The lock is a 64-bit word, CPUs are numbered, and a step is
    one atomic access to the word by one CPU. *)
From S2P Require Import Prelude.

(** ** The accesses of src/anlock.c *)

Definition anlock_initialize : Z := 0.

(** [(uint32_t)(v & 0xffffffffL)] and [(uint32_t)(v >> 32L)]. *)
Definition lower (v : Z) : Z := u32 (Z.land v 0xffffffff).
Definition upper (v : Z) : Z := u32 (Z.shiftr v 32).

(** Where a CPU is: outside, in the [while] loop of [anlock_lock_waiting] with its
    value of [waitUntil], or past it. *)
Inductive cpu_state := outside | spinning (waitUntil : Z) | holding.

(** [anlock_lock_waiting] up to the loop: the word after the fetch-and-add, and
    where the CPU goes. *)
Definition anlock_fetch (word : Z) : Z * cpu_state :=
  let oldValue := word in
  (u64 (oldValue + 1),
   if decide (lower oldValue = 0) then holding
   else spinning (u32 (upper oldValue + lower oldValue))).

(** One iteration of the loop: does it return? *)
Definition anlock_poll (word waitUntil : Z) : bool := Z.shiftr word 32 =? waitUntil.

(** [lock addq $0xffffffff, (lock)]. *)
Definition anlock_unlock (word : Z) : Z := u64 (word + 0xffffffff).

(** [anlock_lock_waiting] against the words its successive accesses read: how
    often it calls [fn] before it returns, if it returns within these reads. *)
Definition anlock_lock_waiting (oldValue : Z) (reads : list Z) : option nat :=
  match (anlock_fetch oldValue).2 with
  | spinning waitUntil =>
      (λ '(k, _), k) <$> list_find (λ w, anlock_poll w waitUntil = true) reads
  | _ => Some 0%nat
  end.

(** [read_value_atomically] adds 0 to the word and yields it. *)
Definition read_value_atomically (word : Z) : Z * Z := (u64 (word + 0), word).

(** [anlock_lock] is [anlock_lock_waiting] without a callback. *)
Definition anlock_lock (oldValue : Z) (reads : list Z) : bool :=
  bool_decide (is_Some (anlock_lock_waiting oldValue reads)).

(** ** The transition system of [ncpu] CPUs and one lock *)

Record lockst := mk_lockst { word : Z; cpus : nat → cpu_state }.

Definition lock_init : lockst := mk_lockst anlock_initialize (λ _, outside).

Definition set_cpu (i : nat) (v : cpu_state) (f : nat → cpu_state) : nat → cpu_state :=
  λ j, if decide (j = i) then v else f j.

Inductive label := arrive (i : nat) | poll (i : nat) | enter (i : nat) | release (i : nat).

Inductive lock_step (ncpu : nat) : label → lockst → lockst → Prop :=
  | step_arrive i s : (i < ncpu)%nat → cpus s i = outside →
      lock_step ncpu (arrive i) s
        (mk_lockst (anlock_fetch (word s)).1
           (set_cpu i (anlock_fetch (word s)).2 (cpus s)))
  | step_poll i s w : cpus s i = spinning w → anlock_poll (word s) w = false →
      lock_step ncpu (poll i) s s
  | step_enter i s w : cpus s i = spinning w → anlock_poll (word s) w = true →
      lock_step ncpu (enter i) s (mk_lockst (word s) (set_cpu i holding (cpus s)))
  | step_release i s : cpus s i = holding →
      lock_step ncpu (release i) s
        (mk_lockst (anlock_unlock (word s)) (set_cpu i outside (cpus s))).

Inductive reachable (ncpu : nat) : lockst → Prop :=
  | reach_init : reachable ncpu lock_init
  | reach_step s s' l : reachable ncpu s → lock_step ncpu l s s' → reachable ncpu s'.

(** ** Abstract specification: a first-come first-served lock

    A queue of CPUs, and whether its head has entered. *)
Record fifo := mk_fifo { queue : list nat; entered : bool }.

Definition fifo_step (l : label) (a : fifo) : option fifo :=
  match l with
  | arrive i =>
      if decide (i ∈ queue a) then None
      else Some (mk_fifo (queue a ++ [i]) (entered a || bool_decide (queue a = [])))
  | poll i => if decide (i ∈ queue a) then Some a else None
  | enter i =>
      match queue a with
      | j :: _ => if decide (i = j) then
                    if entered a then None else Some (mk_fifo (queue a) true)
                  else None
      | [] => None
      end
  | release i =>
      match queue a with
      | j :: q => if decide (i = j) then
                    if entered a then Some (mk_fifo q false) else None
                  else None
      | [] => None
      end
  end.

(** ** The simulation relation

    The low half of the word counts the queue, the high half is the ticket of its
    head, and the [k]-th CPU of the queue waits for the [k]-th ticket after it. *)
Definition state_of (b : Z) (a : fifo) (i : nat) : cpu_state :=
  match list_find (eq i) (queue a) with
  | None => outside
  | Some (k, _) =>
      if decide (k = 0%nat ∧ entered a = true) then holding
      else spinning (u32 (b + Z.of_nat k))
  end.

Record lock_rel (ncpu : nat) (s : lockst) (a : fifo) : Prop := {
  lr_word : ∃ b, 0 ≤ b < 2 ^ 32 ∧ word s = b * 2 ^ 32 + Z.of_nat (length (queue a)) ∧
              ∀ i, cpus s i = state_of b a i;
  lr_nodup : NoDup (queue a);
  lr_cpu i : i ∈ queue a → (i < ncpu)%nat;
  lr_empty : queue a = [] → entered a = false;
}.

(** ** Lemmas *)

Lemma cpus_length ncpu q :
  NoDup q → (∀ i, i ∈ q → (i < ncpu)%nat) → (length q ≤ ncpu)%nat.
Proof.
  intros Hd Hc. transitivity (length (seq 0 ncpu)); [|by rewrite length_seq].
  apply submseteq_length, NoDup_submseteq; [done|]. intros i Hi. apply elem_of_seq. auto with lia.
Qed.

Lemma queue_length ncpu s a : lock_rel ncpu s a → (length (queue a) ≤ ncpu)%nat.
Proof. intros [_ Hd Hc _]. by apply cpus_length. Qed.

(** The halves of a word. *)
Lemma lower_word b n : 0 ≤ n < 2 ^ 32 → lower (b * 2 ^ 32 + n) = n.
Proof.
  intros Hn. unfold lower, u32. change 0xffffffff with (Z.ones 32).
  rewrite Z.land_ones by lia. rewrite Zmod_mod, Z.add_comm, Z_mod_plus_full.
  by apply Z.mod_small.
Qed.

Lemma high_word b n : 0 ≤ n < 2 ^ 32 → Z.shiftr (b * 2 ^ 32 + n) 32 = b.
Proof.
  intros Hn. rewrite Z.shiftr_div_pow2 by lia. rewrite Z.div_add_l by lia.
  rewrite Z.div_small by lia. lia.
Qed.

Lemma upper_word b n : 0 ≤ n < 2 ^ 32 → 0 ≤ b < 2 ^ 32 → upper (b * 2 ^ 32 + n) = b.
Proof. intros. unfold upper. rewrite high_word by done. by apply u32_small. Qed.

(** Adding 0xffffffff moves one unit from the low to the high half. *)
Lemma word_release b n :
  0 ≤ b < 2 ^ 32 → 0 ≤ n < 2 ^ 32 - 1 →
  u64 (b * 2 ^ 32 + (n + 1) + 0xffffffff) = u32 (b + 1) * 2 ^ 32 + n.
Proof.
  unfold u64, u32. intros Hb Hn. destruct (decide (b = 2 ^ 32 - 1)) as [->|].
  - symmetry. replace ((2 ^ 32 - 1 + 1) mod 2 ^ 32) with 0 by done.
    apply Z.mod_unique with 1; lia.
  - rewrite (Z.mod_small (b + 1)), Z.mod_small by lia. lia.
Qed.

(** Tickets of one queue are distinct although they wrap around. *)
Lemma ticket_head b k : 0 ≤ b < 2 ^ 32 → 0 ≤ k < 2 ^ 32 → u32 (b + k) = b → k = 0.
Proof.
  unfold u32. intros Hb Hk Heq. destruct (decide (b + k < 2 ^ 32)).
  - rewrite Z.mod_small in Heq by lia. lia.
  - replace (b + k) with (b + k - 2 ^ 32 + 1 * 2 ^ 32) in Heq by lia.
    rewrite Z_mod_plus_full, Z.mod_small in Heq by lia. lia.
Qed.

Lemma find_snoc_ne {A} `{EqDecision A} (i j : A) q :
  i ≠ j → list_find (eq i) (q ++ [j]) = list_find (eq i) q.
Proof.
  intros Hne. induction q as [|x q IH]; simpl; [by rewrite decide_False|].
  case_decide; [done|]. by rewrite IH.
Qed.

Lemma find_absent {A} `{EqDecision A} (i : A) q : i ∉ q → list_find (eq i) q = None.
Proof. intros Hi. apply list_find_None, Forall_forall. intros x Hx ->. done. Qed.

Lemma find_snoc {A} `{EqDecision A} (i : A) q :
  i ∉ q → list_find (eq i) (q ++ [i]) = Some (length q, i).
Proof.
  induction q as [|x q IH]; intros Hi; simpl; [by rewrite decide_True|].
  rewrite decide_False by set_solver. rewrite IH by set_solver. done.
Qed.

Lemma state_of_outside b a i : state_of b a i = outside → i ∉ queue a.
Proof.
  unfold state_of. destruct (list_find _ _) as [[k x]|] eqn:Hf.
  - case_decide; done.
  - intros _. apply list_find_None in Hf. rewrite Forall_forall in Hf.
    intros Hi. by apply (Hf i).
Qed.

Lemma state_of_holding b a i :
  state_of b a i = holding → ∃ q, queue a = i :: q ∧ entered a = true.
Proof.
  unfold state_of. destruct (list_find _ _) as [[k x]|] eqn:Hf; [|done].
  case_decide as Hk; [|done]. intros _. destruct Hk as [-> He].
  apply list_find_Some in Hf as (Hq & <- & _).
  destruct (queue a) as [|y q]; simplify_eq/=. eauto.
Qed.

Lemma state_of_spinning b a i w :
  state_of b a i = spinning w →
  ∃ k, queue a !! k = Some i ∧ w = u32 (b + Z.of_nat k) ∧ ¬ (k = 0%nat ∧ entered a = true).
Proof.
  unfold state_of. destruct (list_find _ _) as [[k x]|] eqn:Hf; [|done].
  apply list_find_Some in Hf as (Hq & <- & _).
  case_decide; [done|]. intros [= <-]. eauto.
Qed.

(** *** The simulation, step by step *)
Section sim.
Context (ncpu : nat) (Hncpu : Z.of_nat ncpu < 2 ^ 32).

Lemma rel_init : lock_rel ncpu lock_init (mk_fifo [] false).
Proof.
  split; simpl; [|constructor|by intros i []%not_elem_of_nil|done].
  exists 0. split_and!; [lia|lia|done|done].
Qed.

Lemma rel_count s a : lock_rel ncpu s a → 0 ≤ Z.of_nat (length (queue a)) < 2 ^ 32.
Proof. intros Hr%queue_length. lia. Qed.

Lemma rel_outside s a i : lock_rel ncpu s a → cpus s i = outside → i ∉ queue a.
Proof. intros [(b & _ & _ & Hc) _ _ _]. rewrite Hc. apply state_of_outside. Qed.

Lemma sim_arrive i s a :
  lock_rel ncpu s a → (i < ncpu)%nat → cpus s i = outside →
  lock_rel ncpu
    (mk_lockst (anlock_fetch (word s)).1 (set_cpu i (anlock_fetch (word s)).2 (cpus s)))
    (mk_fifo (queue a ++ [i]) (entered a || bool_decide (queue a = []))).
Proof.
  intros Hr Hi Ho. pose proof (rel_outside _ _ _ Hr Ho) as Hiq.
  pose proof (rel_count _ _ Hr) as Hn.
  assert (NoDup (queue a ++ [i])) as Hd'.
  { apply NoDup_app. split_and!; [apply Hr|set_solver|apply NoDup_singleton]. }
  assert (∀ j, j ∈ queue a ++ [i] → (j < ncpu)%nat) as Hin.
  { intros j [Hj| ->%list_elem_of_singleton]%elem_of_app; [by apply Hr|done]. }
  pose proof Hr as [(b & Hb & Hw & Hc) _ _ He].
  split; simpl; [|done|done|by intros []%app_nil].
  exists b. unfold anlock_fetch. simpl. rewrite Hw, lower_word, upper_word by done.
  split_and!; [lia|lia| |].
  - pose proof (cpus_length _ _ Hd' Hin) as Hlen. rewrite length_app in *.
    simpl in Hlen |- *. rewrite u64_small by lia. lia.
  - intros j. unfold set_cpu, state_of. simpl. case_decide as Hij.
    + subst j. rewrite find_snoc by done. destruct (queue a) as [|x q].
      * rewrite orb_true_r. done.
      * rewrite !decide_False by (simpl; lia || naive_solver). done.
    + rewrite find_snoc_ne, Hc by done. unfold state_of.
      destruct (queue a) as [|x q]; [done|].
      rewrite bool_decide_false, orb_false_r by done. done.
Qed.

Lemma sim_enter i w s a :
  lock_rel ncpu s a → cpus s i = spinning w → anlock_poll (word s) w = true →
  fifo_step (enter i) a = Some (mk_fifo (queue a) true) ∧
  lock_rel ncpu (mk_lockst (word s) (set_cpu i holding (cpus s))) (mk_fifo (queue a) true).
Proof.
  intros Hr Hs Hp. pose proof (rel_count _ _ Hr) as Hn.
  pose proof Hr as [(b & Hb & Hw & Hc) Hd Hin He].
  rewrite Hc in Hs. apply state_of_spinning in Hs as (k & Hk & -> & Hne).
  unfold anlock_poll in Hp. apply Z.eqb_eq in Hp. rewrite Hw, high_word in Hp by done.
  pose proof (lookup_lt_Some _ _ _ Hk) as Hlt.
  assert (k = 0%nat) as -> by (apply Nat2Z.inj, (ticket_head b); lia).
  assert (entered a = false) as Hea by (destruct (entered a); naive_solver).
  unfold fifo_step. destruct (queue a) as [|x q] eqn:Hq; [done|].
  injection Hk as ->. rewrite decide_True, Hea by done. split; [done|].
  split; simpl; [|done|done|done]. exists b. split_and!; [lia|lia|done|].
  intros j. unfold set_cpu, state_of. simpl. case_decide as Hij.
  - subst j. by rewrite !decide_True.
  - rewrite Hc. unfold state_of. rewrite Hq. simpl. rewrite (decide_False (P := j = i)) by done.
    destruct (list_find (eq j) q) as [[m y]|]; simpl; [|done].
    done.
Qed.

Lemma sim_release i s a :
  lock_rel ncpu s a → cpus s i = holding →
  ∃ q, queue a = i :: q ∧ entered a = true ∧
  lock_rel ncpu (mk_lockst (anlock_unlock (word s)) (set_cpu i outside (cpus s)))
    (mk_fifo q false).
Proof.
  intros Hr Hs. pose proof (rel_count _ _ Hr) as Hn.
  pose proof Hr as [(b & Hb & Hw & Hc) Hd Hin He].
  rewrite Hc in Hs. apply state_of_holding in Hs as (q & Hq & Hea).
  exists q. split_and!; [done|done|]. rewrite Hq in *.
  apply NoDup_cons in Hd as [Hiq Hd]. simpl length in *.
  split; simpl; [|done|intros j Hj; apply Hin; set_solver|done].
  exists (u32 (b + 1)). split_and!; [apply u32_range..| |].
  - unfold anlock_unlock. rewrite Hw.
    replace (Z.of_nat (S (length q))) with (Z.of_nat (length q) + 1) by lia.
    apply word_release; lia.
  - intros j. unfold set_cpu, state_of. simpl. case_decide as Hij.
    + subst j. by rewrite find_absent.
    + rewrite Hc. unfold state_of. rewrite Hq. simpl.
      rewrite (decide_False (P := j = i)) by done.
      destruct (list_find (eq j) q) as [[m y]|]; simpl; [|done].
      rewrite decide_False by naive_solver. f_equal. unfold u32.
      rewrite Zplus_mod_idemp_l. f_equal. lia.
Qed.

(** Every step of the ticket lock is a step of the first-come first-served lock. *)
Lemma sim_step l s s' a :
  lock_rel ncpu s a → lock_step ncpu l s s' →
  ∃ a', fifo_step l a = Some a' ∧ lock_rel ncpu s' a'.
Proof.
  intros Hr Hst. destruct Hst as [i s Hi Ho|i s w Hs Hp|i s w Hs Hp|i s Hs].
  - eexists. split; [|by apply sim_arrive]. simpl.
    by rewrite decide_False by (by eapply rel_outside).
  - exists a. split; [|done]. simpl. rewrite decide_True; [done|].
    destruct Hr as [(b & _ & _ & Hc) _ _ _]. rewrite Hc in Hs.
    apply state_of_spinning in Hs as (k & Hk & _). by eapply list_elem_of_lookup_2.
  - destruct (sim_enter i w s a) as [Hf ?]; eauto.
  - destruct (sim_release i s a) as (q & Hq & He & ?); try done.
    exists (mk_fifo q false). split; [|done]. simpl. by rewrite Hq, decide_True, He.
Qed.

Lemma reachable_rel s : reachable ncpu s → ∃ a, lock_rel ncpu s a.
Proof.
  induction 1 as [|s s' l _ [a Hr] Hst]; [eauto using rel_init|].
  destruct (sim_step l s s' a Hr Hst) as (a' & _ & ?). eauto.
Qed.

End sim.

(** ** Correctness *)

(** A run of the system: the labels of its steps, in order. *)
Inductive trace (ncpu : nat) : list label → lockst → Prop :=
  | trace_nil : trace ncpu [] lock_init
  | trace_snoc ls l s s' :
      trace ncpu ls s → lock_step ncpu l s s' → trace ncpu (ls ++ [l]) s'.

(** The same steps on the abstract lock. *)
Definition fifo_run (ls : list label) : option fifo :=
  fold_left (λ a l, a ≫= fifo_step l) ls (Some (mk_fifo [] false)).

(** C19. Mutual exclusion: with fewer than 2^32 CPUs, two CPUs are never past the
    lock at the same time, whatever the interleaving of their accesses and however
    often the 32-bit tickets wrap around. *)
Theorem anlock_mutual_exclusion ncpu s i j :
  Z.of_nat ncpu < 2 ^ 32 → reachable ncpu s →
  cpus s i = holding → cpus s j = holding → i = j.
Proof.
  intros Hn Hs Hi Hj. destruct (reachable_rel _ Hn _ Hs) as [a [(b & _ & _ & Hc) _ _ _]].
  rewrite Hc in Hi, Hj. apply state_of_holding in Hi as (q & Hq & _).
  apply state_of_holding in Hj as (q' & Hq' & _). congruence.
Qed.

(** C25. First come, first served: every run of the ticket lock is a run of the
    abstract lock with the same labels, in which a CPU enters only as the head of
    the queue of arrivals; and in every state the CPUs past the lock are those the
    abstract lock has let in. *)
Theorem anlock_refines_fifo ncpu ls s :
  Z.of_nat ncpu < 2 ^ 32 → trace ncpu ls s →
  ∃ a, fifo_run ls = Some a ∧ NoDup (queue a) ∧
    (∀ i, cpus s i ≠ outside ↔ i ∈ queue a) ∧
    (∀ i, cpus s i = holding ↔ entered a = true ∧ head (queue a) = Some i).
Proof.
  intros Hn Htr.
  assert (∃ a, fifo_run ls = Some a ∧ lock_rel ncpu s a) as (a & Hrun & Hr).
  { induction Htr as [|ls l s s' _ (a & Hrun & Hr) Hst].
    - eexists. split; [done|apply rel_init].
    - destruct (sim_step ncpu Hn _ _ _ _ Hr Hst) as (a' & Hf & Hr').
      exists a'. split; [|done]. unfold fifo_run in *. by rewrite fold_left_app, Hrun. }
  exists a. split; [done|]. pose proof Hr as [(b & _ & _ & Hc) Hd _ _].
  split; [done|]. split; intros i; rewrite Hc; unfold state_of.
  - destruct (list_find (eq i) (queue a)) as [[k x]|] eqn:Hf.
    + apply list_find_Some in Hf as (Hq & <- & _).
      split; [intros _; by eapply list_elem_of_lookup_2|]. by case_decide.
    + split; [done|]. apply list_find_None in Hf. rewrite Forall_forall in Hf.
      intros Hi. by destruct (Hf i).
  - split.
    + intros (q & Hq & He)%(state_of_holding b). by rewrite Hq.
    + intros [He Hq]. destruct (queue a) as [|x q]; simplify_eq/=.
      by rewrite !decide_True.
Qed.

(** C26. No ticket is lost: when CPUs wait and none is past the lock, the next
    access of one of them ends its loop, so the lock cannot hang with the word in
    a state that admits nobody. *)
Theorem anlock_progress ncpu s i w :
  Z.of_nat ncpu < 2 ^ 32 → reachable ncpu s → (∀ j, cpus s j ≠ holding) →
  cpus s i = spinning w →
  ∃ j w', cpus s j = spinning w' ∧ anlock_poll (word s) w' = true.
Proof.
  intros Hn Hs Hno Hi. destruct (reachable_rel _ Hn _ Hs) as [a Hr].
  pose proof (rel_count _ Hn _ _ Hr) as Hlen. destruct Hr as [(b & Hb & Hw & Hc) _ _ _].
  pose proof Hi as Hi'. rewrite Hc in Hi'. apply state_of_spinning in Hi' as (k & Hk & _).
  destruct (queue a) as [|j q] eqn:Hq; [done|].
  assert (state_of b a j = spinning b) as Hj.
  { specialize (Hno j). rewrite Hc in Hno. unfold state_of in *. rewrite Hq in *.
    simpl in *. rewrite decide_True in * by done. simpl in *.
    destruct (decide _) in *; [done|]. by rewrite Z.add_0_r, u32_small. }
  exists j, b. split; [by rewrite Hc|].
  unfold anlock_poll. rewrite Hw, high_word by done. apply Z.eqb_refl.
Qed.

(** ** Witnesses: two CPUs, one past the lock and one waiting *)

Definition demo_labels : list label := [arrive 0; arrive 1].

Definition demo_lock : lockst :=
  mk_lockst 2 (set_cpu 1 (spinning 1) (set_cpu 0 holding (λ _, outside))).

Lemma demo_trace : trace 2 demo_labels demo_lock.
Proof.
  apply (trace_snoc 2 [arrive 0] (arrive 1) (mk_lockst 1 (set_cpu 0 holding (λ _, outside)))).
  - apply (trace_snoc 2 [] (arrive 0) lock_init); [constructor|].
    by apply (step_arrive 2 0 lock_init); [lia|].
  - by apply (step_arrive 2 1 (mk_lockst 1 (set_cpu 0 holding (λ _, outside)))); [lia|].
Qed.

Lemma trace_reachable ncpu ls s : trace ncpu ls s → reachable ncpu s.
Proof. induction 1; econstructor; eauto. Qed.

(** The first CPU has left, the second has not noticed. *)
Definition demo_handover : lockst :=
  mk_lockst (anlock_unlock 2) (set_cpu 0 outside (cpus demo_lock)).

Lemma demo_handover_reachable : reachable 2 demo_handover.
Proof.
  eapply (reach_step 2 demo_lock _ (release 0)).
  - eapply trace_reachable, demo_trace.
  - by apply (step_release 2 0 demo_lock).
Qed.

Lemma anlock_mutual_exclusion_witness : 0%nat = 0%nat.
Proof.
  apply (anlock_mutual_exclusion 2 demo_lock 0 0).
  - reflexivity.
  - eapply trace_reachable, demo_trace.
  - reflexivity.
  - reflexivity.
Defined.

Lemma anlock_refines_fifo_witness :
  ∃ a, fifo_run demo_labels = Some a ∧ NoDup (queue a) ∧
    (∀ i, cpus demo_lock i ≠ outside ↔ i ∈ queue a) ∧
    (∀ i, cpus demo_lock i = holding ↔ entered a = true ∧ head (queue a) = Some i).
Proof.
  apply (anlock_refines_fifo 2 demo_labels demo_lock).
  - reflexivity.
  - apply demo_trace.
Defined.

Lemma anlock_progress_witness :
  ∃ j w', cpus demo_handover j = spinning w' ∧ anlock_poll (word demo_handover) w' = true.
Proof.
  apply (anlock_progress 2 demo_handover 1 1).
  - reflexivity.
  - apply demo_handover_reachable.
  - intros [|[|j]]; vm_compute; congruence.
  - reflexivity.
Defined.
