(* ===== verification/Types.v ===== *)
(** * Types: the data of include/anscheduler/types.h and the kernel memory

    One record per C structure, with the fields of the structure, and one record
    per group of static variables. The kernel memory [kst] has one heap per
    structure type: a pointer is the address of a structure in its heap, so two
    pointers to one structure alias as they do in C, and an address that has been
    freed is in no heap. *)
From S2P Require Import Prelude.

(** ** Constants of the headers *)

(** include/anscheduler/types.h *)
Definition ANSCHEDULER_MSG_TYPE_CONNECT : Z := 0.
Definition ANSCHEDULER_MSG_TYPE_DATA : Z := 1.
Definition ANSCHEDULER_MSG_TYPE_CLOSE : Z := 2.

(** include/anscheduler/functions.h *)
Definition ANSCHEDULER_PAGE_FLAG_PRESENT : Z := 1.
Definition ANSCHEDULER_PAGE_FLAG_WRITE : Z := 2.
Definition ANSCHEDULER_PAGE_FLAG_USER : Z := 4.
Definition ANSCHEDULER_PAGE_FLAG_GLOBAL : Z := 0x100.
Definition ANSCHEDULER_PAGE_FLAG_UNALLOC : Z := 0x200.
Definition ANSCHEDULER_PAGE_FLAG_SWAPPED : Z := 0x400.

(** include/anscheduler/task.h *)
Definition ANSCHEDULER_TASK_KILL_REASON_SELF : Z := 0.
Definition ANSCHEDULER_TASK_KILL_REASON_EXTERNAL : Z := 1.
Definition ANSCHEDULER_TASK_KILL_REASON_MEMORY : Z := 2.
Definition ANSCHEDULER_TASK_KERN_STACKS_PAGE : Z := 0x100000.
Definition ANSCHEDULER_TASK_USER_STACKS_PAGE : Z := 0x200000.

(** include/anscheduler/paging.h *)
Definition ANSCHEDULER_PAGE_FAULT_PRESENT : Z := 1.
Definition ANSCHEDULER_PAGE_FAULT_WRITE : Z := 2.
Definition ANSCHEDULER_PAGE_FAULT_USER : Z := 4.

(** include/anscheduler/socket.h *)
Definition ANSCHEDULER_SOCKET_MSG_MAX : Z := 0x10.

(** lib/anidxset/src/anidxset.h *)
Definition ANIDXSET_NODE_CAPACITY : Z := 0x1fe.

(** ** Structures *)

(** The functions that src/ starts as kernel threads through
    [anscheduler_loop_push_kernel]. *)
Inductive kernel_fn := fn_free_task_method | fn_socket_hangup | fn_async_msg.

(** The saved register state of a thread, [anscheduler_state], belongs to the
    platform. What the scheduler knows of it: it is zeroed, or it was set up by
    [anscheduler_set_state] (with a stack, an entry point and its argument), or
    it was stored by [anscheduler_save_return_state]. *)
Inductive anscheduler_state :=
  | state_zero
  | state_entry (stack : Z) (ip : kernel_fn) (arg : Z)
  | state_saved.

(** The lock words. [lock_task_*] are the lock fields of a task, and so on; the
    others are static variables. *)
Inductive lock_id :=
  | loopLock | pmLock | ppLock | intdLock | pagerLock
  | vmLock (task : Z) | socketsLock (task : Z) | pendingLock (task : Z)
  | threadsLock (task : Z) | stacksLock (task : Z) | descriptorsLock (task : Z)
  | killLock (task : Z)
  | closeLock (desc : Z)
  | connRecLock (sock : Z) | forConnectorLock (sock : Z) | forReceiverLock (sock : Z).

(** Calls to the platform that have no effect on the memory the scheduler sees
    but whose order matters; zeroing a page of user memory is one. *)
Inductive event :=
  | ev_notify_invlpg (task : Z)
  | ev_free (p : Z)
  | ev_task_cleanup (task : Z)
  | ev_vm_root_free (root : Z)
  | ev_zero (p size : Z).

(** ** Decidability *)

#[export] Instance lock_id_eq_dec : EqDecision lock_id.
Proof. solve_decision. Defined.

#[export] Instance lock_id_countable : Countable lock_id.
Proof.
  refine (inj_countable'
    (λ l, match l with
      | loopLock => (0, 0) | pmLock => (1, 0) | ppLock => (2, 0)
      | intdLock => (3, 0) | pagerLock => (4, 0)
      | vmLock t => (5, t) | socketsLock t => (6, t) | pendingLock t => (7, t)
      | threadsLock t => (8, t) | stacksLock t => (9, t)
      | descriptorsLock t => (10, t) | killLock t => (11, t)
      | closeLock d => (12, d) | connRecLock s => (13, s)
      | forConnectorLock s => (14, s) | forReceiverLock s => (15, s)
      end)
    (λ '(k, a),
      if k =? 0 then loopLock else if k =? 1 then pmLock else
      if k =? 2 then ppLock else if k =? 3 then intdLock else
      if k =? 4 then pagerLock else if k =? 5 then vmLock a else
      if k =? 6 then socketsLock a else if k =? 7 then pendingLock a else
      if k =? 8 then threadsLock a else if k =? 9 then stacksLock a else
      if k =? 10 then descriptorsLock a else if k =? 11 then killLock a else
      if k =? 12 then closeLock a else if k =? 13 then connRecLock a else
      if k =? 14 then forConnectorLock a else forReceiverLock a) _).
  by intros [].
Defined.

#[export] Instance kernel_fn_eq_dec : EqDecision kernel_fn.
Proof. solve_decision. Defined.

#[export] Instance event_eq_dec : EqDecision event.
Proof. solve_decision. Defined.

#[export] Instance anscheduler_state_eq_dec : EqDecision anscheduler_state.
Proof. solve_decision. Defined.

(** [anidxset_root_t]; its two function pointers are always the allocator
    wrappers of src/util.c, so they are not fields. *)
Record anidxset_root_t := mk_root {
  root_used : Z;
  root_first : Z
}.

(** [anidxset_node_t], one page of free indexes. *)
Record anidxset_node_t := mk_node {
  node_count : Z;
  node_indexes : list Z;
  node_next : Z
}.

(** [task_t], without its lock words (see [lock_id]) and the [ui] field, which
    belongs to the platform. *)
Record task_t := mk_task {
  task_next : Z;
  task_last : Z;
  task_pid : Z;
  task_uid : Z;
  task_vm : Z;
  task_sockets : list Z;
  task_firstPending : Z;
  task_firstThread : Z;
  task_stacks : anidxset_root_t;
  task_descriptors : anidxset_root_t;
  task_refCount : Z;
  task_isKilled : Z;
  task_killReason : Z
}.

(** [thread_t]. *)
Record thread_t := mk_thread {
  thread_next : Z;
  thread_last : Z;
  thread_queueNext : Z;
  thread_queueLast : Z;
  thread_task : Z;
  thread_nextTimestamp : Z;
  thread_stack : Z;
  thread_isPolling : Z;
  thread_state : anscheduler_state
}.

(** [socket_t]. *)
Record socket_t := mk_socket {
  sock_connector : Z;
  sock_receiver : Z;
  sock_forConnectorCount : Z;
  sock_forConnectorFirst : Z;
  sock_forConnectorLast : Z;
  sock_forReceiverCount : Z;
  sock_forReceiverFirst : Z;
  sock_forReceiverLast : Z;
  sock_hasBeenConnected : Z
}.

(** [socket_desc_t]. *)
Record socket_desc_t := mk_desc {
  desc_next : Z;
  desc_last : Z;
  desc_pendingNext : Z;
  desc_pendingLast : Z;
  desc_socket : Z;
  desc_descriptor : Z;
  desc_isConnector : Z;
  desc_task : Z;
  desc_isClosed : Z;
  desc_refCount : Z;
  desc_closeCode : Z
}.

(** [socket_msg_t]; [msg_message] holds the 0xfe8 bytes of the array. *)
Record socket_msg_t := mk_msg {
  msg_next : Z;
  msg_type : Z;
  msg_len : Z;
  msg_message : list Z
}.

(** [page_fault_t]. *)
Record page_fault_t := mk_fault {
  fault_next : Z;
  fault_task : Z;
  fault_thread : Z;
  fault_ptr : Z;
  fault_flags : Z
}.

(** [msginfo_t] of src/socket.c. *)
Record msginfo_t := mk_info {
  info_message : Z;
  info_descriptor : Z
}.

(** The static variables of src/loop.c. *)
Record loop_globals := mk_loop {
  queueCount : Z;
  firstThread : Z;
  lastThread : Z
}.

(** The static variables of src/pidmap.c. *)
Record pid_globals := mk_pid {
  pidHashmap : list Z;
  pidPool : anidxset_root_t;
  ppInitialized : bool
}.

(** The static variables of src/paging.c. *)
Record pager_globals := mk_pager {
  pagerThread : Z;
  firstFault : Z;
  lastFault : Z
}.

(** The static variables of src/interrupts.c. *)
Record intd_globals := mk_intd {
  interruptThread : Z;
  irqMask : Z
}.

(** What the platform keeps per CPU: the current task and thread, whether the
    CPU is in a critical section, and the armed timer. *)
Record cpu_info := mk_cpu {
  cpu_task : Z;
  cpu_thread : Z;
  cpu_locked : bool;
  cpu_timer : Z
}.

(** The kernel memory as every CPU sees it: a heap per structure type, the page
    tables of the address spaces ([k_vms], from the root to a map of virtual pages
    to a physical page and flags), the live allocations, how many allocations and
    page-table updates have been made (the platform's oracles for failure see
    these), the locks that are held, the per-CPU data, the clock, the log of
    platform calls and the static variables of the four files that have some. *)
Record kst := mk_kst {
  k_tasks : gmap Z task_t;
  k_threads : gmap Z thread_t;
  k_sockets : gmap Z socket_t;
  k_descs : gmap Z socket_desc_t;
  k_msgs : gmap Z socket_msg_t;
  k_faults : gmap Z page_fault_t;
  k_infos : gmap Z msginfo_t;
  k_nodes : gmap Z anidxset_node_t;
  k_vms : gmap Z (gmap Z (Z * Z));
  k_live : gset Z;
  k_nallocs : nat;
  k_nmaps : nat;
  k_locks : gset lock_id;
  k_cpus : nat → cpu_info;
  k_clock : Z;
  k_log : list event;
  k_loop : loop_globals;
  k_pid : pid_globals;
  k_pager : pager_globals;
  k_intd : intd_globals
}.

(** ** Field updates *)

Definition set_root_used (v : Z) (o : anidxset_root_t) : anidxset_root_t :=
  mk_root v (root_first o).
Definition set_root_first (v : Z) (o : anidxset_root_t) : anidxset_root_t :=
  mk_root (root_used o) v.

Definition set_node_count (v : Z) (o : anidxset_node_t) : anidxset_node_t :=
  mk_node v (node_indexes o) (node_next o).
Definition set_node_indexes (v : list Z) (o : anidxset_node_t) : anidxset_node_t :=
  mk_node (node_count o) v (node_next o).
Definition set_node_next (v : Z) (o : anidxset_node_t) : anidxset_node_t :=
  mk_node (node_count o) (node_indexes o) v.

Definition set_task_next (v : Z) (o : task_t) : task_t :=
  mk_task v (task_last o) (task_pid o) (task_uid o) (task_vm o)
    (task_sockets o) (task_firstPending o) (task_firstThread o) (task_stacks
    o) (task_descriptors o) (task_refCount o) (task_isKilled o)
    (task_killReason o).
Definition set_task_last (v : Z) (o : task_t) : task_t :=
  mk_task (task_next o) v (task_pid o) (task_uid o) (task_vm o)
    (task_sockets o) (task_firstPending o) (task_firstThread o) (task_stacks
    o) (task_descriptors o) (task_refCount o) (task_isKilled o)
    (task_killReason o).
Definition set_task_pid (v : Z) (o : task_t) : task_t :=
  mk_task (task_next o) (task_last o) v (task_uid o) (task_vm o)
    (task_sockets o) (task_firstPending o) (task_firstThread o) (task_stacks
    o) (task_descriptors o) (task_refCount o) (task_isKilled o)
    (task_killReason o).
Definition set_task_uid (v : Z) (o : task_t) : task_t :=
  mk_task (task_next o) (task_last o) (task_pid o) v (task_vm o)
    (task_sockets o) (task_firstPending o) (task_firstThread o) (task_stacks
    o) (task_descriptors o) (task_refCount o) (task_isKilled o)
    (task_killReason o).
Definition set_task_vm (v : Z) (o : task_t) : task_t :=
  mk_task (task_next o) (task_last o) (task_pid o) (task_uid o) v
    (task_sockets o) (task_firstPending o) (task_firstThread o) (task_stacks
    o) (task_descriptors o) (task_refCount o) (task_isKilled o)
    (task_killReason o).
Definition set_task_sockets (v : list Z) (o : task_t) : task_t :=
  mk_task (task_next o) (task_last o) (task_pid o) (task_uid o) (task_vm o)
    v (task_firstPending o) (task_firstThread o) (task_stacks o)
    (task_descriptors o) (task_refCount o) (task_isKilled o)
    (task_killReason o).
Definition set_task_firstPending (v : Z) (o : task_t) : task_t :=
  mk_task (task_next o) (task_last o) (task_pid o) (task_uid o) (task_vm o)
    (task_sockets o) v (task_firstThread o) (task_stacks o)
    (task_descriptors o) (task_refCount o) (task_isKilled o)
    (task_killReason o).
Definition set_task_firstThread (v : Z) (o : task_t) : task_t :=
  mk_task (task_next o) (task_last o) (task_pid o) (task_uid o) (task_vm o)
    (task_sockets o) (task_firstPending o) v (task_stacks o)
    (task_descriptors o) (task_refCount o) (task_isKilled o)
    (task_killReason o).
Definition set_task_stacks (v : anidxset_root_t) (o : task_t) : task_t :=
  mk_task (task_next o) (task_last o) (task_pid o) (task_uid o) (task_vm o)
    (task_sockets o) (task_firstPending o) (task_firstThread o) v
    (task_descriptors o) (task_refCount o) (task_isKilled o)
    (task_killReason o).
Definition set_task_descriptors (v : anidxset_root_t) (o : task_t) : task_t :=
  mk_task (task_next o) (task_last o) (task_pid o) (task_uid o) (task_vm o)
    (task_sockets o) (task_firstPending o) (task_firstThread o) (task_stacks
    o) v (task_refCount o) (task_isKilled o) (task_killReason o).
Definition set_task_refCount (v : Z) (o : task_t) : task_t :=
  mk_task (task_next o) (task_last o) (task_pid o) (task_uid o) (task_vm o)
    (task_sockets o) (task_firstPending o) (task_firstThread o) (task_stacks
    o) (task_descriptors o) v (task_isKilled o) (task_killReason o).
Definition set_task_isKilled (v : Z) (o : task_t) : task_t :=
  mk_task (task_next o) (task_last o) (task_pid o) (task_uid o) (task_vm o)
    (task_sockets o) (task_firstPending o) (task_firstThread o) (task_stacks
    o) (task_descriptors o) (task_refCount o) v (task_killReason o).
Definition set_task_killReason (v : Z) (o : task_t) : task_t :=
  mk_task (task_next o) (task_last o) (task_pid o) (task_uid o) (task_vm o)
    (task_sockets o) (task_firstPending o) (task_firstThread o) (task_stacks
    o) (task_descriptors o) (task_refCount o) (task_isKilled o) v.

Definition set_thread_next (v : Z) (o : thread_t) : thread_t :=
  mk_thread v (thread_last o) (thread_queueNext o) (thread_queueLast o)
    (thread_task o) (thread_nextTimestamp o) (thread_stack o)
    (thread_isPolling o) (thread_state o).
Definition set_thread_last (v : Z) (o : thread_t) : thread_t :=
  mk_thread (thread_next o) v (thread_queueNext o) (thread_queueLast o)
    (thread_task o) (thread_nextTimestamp o) (thread_stack o)
    (thread_isPolling o) (thread_state o).
Definition set_thread_queueNext (v : Z) (o : thread_t) : thread_t :=
  mk_thread (thread_next o) (thread_last o) v (thread_queueLast o)
    (thread_task o) (thread_nextTimestamp o) (thread_stack o)
    (thread_isPolling o) (thread_state o).
Definition set_thread_queueLast (v : Z) (o : thread_t) : thread_t :=
  mk_thread (thread_next o) (thread_last o) (thread_queueNext o) v
    (thread_task o) (thread_nextTimestamp o) (thread_stack o)
    (thread_isPolling o) (thread_state o).
Definition set_thread_task (v : Z) (o : thread_t) : thread_t :=
  mk_thread (thread_next o) (thread_last o) (thread_queueNext o)
    (thread_queueLast o) v (thread_nextTimestamp o) (thread_stack o)
    (thread_isPolling o) (thread_state o).
Definition set_thread_nextTimestamp (v : Z) (o : thread_t) : thread_t :=
  mk_thread (thread_next o) (thread_last o) (thread_queueNext o)
    (thread_queueLast o) (thread_task o) v (thread_stack o)
    (thread_isPolling o) (thread_state o).
Definition set_thread_stack (v : Z) (o : thread_t) : thread_t :=
  mk_thread (thread_next o) (thread_last o) (thread_queueNext o)
    (thread_queueLast o) (thread_task o) (thread_nextTimestamp o) v
    (thread_isPolling o) (thread_state o).
Definition set_thread_isPolling (v : Z) (o : thread_t) : thread_t :=
  mk_thread (thread_next o) (thread_last o) (thread_queueNext o)
    (thread_queueLast o) (thread_task o) (thread_nextTimestamp o)
    (thread_stack o) v (thread_state o).
Definition set_thread_state (v : anscheduler_state) (o : thread_t) : thread_t :=
  mk_thread (thread_next o) (thread_last o) (thread_queueNext o)
    (thread_queueLast o) (thread_task o) (thread_nextTimestamp o)
    (thread_stack o) (thread_isPolling o) v.

Definition set_sock_connector (v : Z) (o : socket_t) : socket_t :=
  mk_socket v (sock_receiver o) (sock_forConnectorCount o)
    (sock_forConnectorFirst o) (sock_forConnectorLast o)
    (sock_forReceiverCount o) (sock_forReceiverFirst o)
    (sock_forReceiverLast o) (sock_hasBeenConnected o).
Definition set_sock_receiver (v : Z) (o : socket_t) : socket_t :=
  mk_socket (sock_connector o) v (sock_forConnectorCount o)
    (sock_forConnectorFirst o) (sock_forConnectorLast o)
    (sock_forReceiverCount o) (sock_forReceiverFirst o)
    (sock_forReceiverLast o) (sock_hasBeenConnected o).
Definition set_sock_forConnectorCount (v : Z) (o : socket_t) : socket_t :=
  mk_socket (sock_connector o) (sock_receiver o) v (sock_forConnectorFirst
    o) (sock_forConnectorLast o) (sock_forReceiverCount o)
    (sock_forReceiverFirst o) (sock_forReceiverLast o)
    (sock_hasBeenConnected o).
Definition set_sock_forConnectorFirst (v : Z) (o : socket_t) : socket_t :=
  mk_socket (sock_connector o) (sock_receiver o) (sock_forConnectorCount o)
    v (sock_forConnectorLast o) (sock_forReceiverCount o)
    (sock_forReceiverFirst o) (sock_forReceiverLast o)
    (sock_hasBeenConnected o).
Definition set_sock_forConnectorLast (v : Z) (o : socket_t) : socket_t :=
  mk_socket (sock_connector o) (sock_receiver o) (sock_forConnectorCount o)
    (sock_forConnectorFirst o) v (sock_forReceiverCount o)
    (sock_forReceiverFirst o) (sock_forReceiverLast o)
    (sock_hasBeenConnected o).
Definition set_sock_forReceiverCount (v : Z) (o : socket_t) : socket_t :=
  mk_socket (sock_connector o) (sock_receiver o) (sock_forConnectorCount o)
    (sock_forConnectorFirst o) (sock_forConnectorLast o) v
    (sock_forReceiverFirst o) (sock_forReceiverLast o)
    (sock_hasBeenConnected o).
Definition set_sock_forReceiverFirst (v : Z) (o : socket_t) : socket_t :=
  mk_socket (sock_connector o) (sock_receiver o) (sock_forConnectorCount o)
    (sock_forConnectorFirst o) (sock_forConnectorLast o)
    (sock_forReceiverCount o) v (sock_forReceiverLast o)
    (sock_hasBeenConnected o).
Definition set_sock_forReceiverLast (v : Z) (o : socket_t) : socket_t :=
  mk_socket (sock_connector o) (sock_receiver o) (sock_forConnectorCount o)
    (sock_forConnectorFirst o) (sock_forConnectorLast o)
    (sock_forReceiverCount o) (sock_forReceiverFirst o) v
    (sock_hasBeenConnected o).
Definition set_sock_hasBeenConnected (v : Z) (o : socket_t) : socket_t :=
  mk_socket (sock_connector o) (sock_receiver o) (sock_forConnectorCount o)
    (sock_forConnectorFirst o) (sock_forConnectorLast o)
    (sock_forReceiverCount o) (sock_forReceiverFirst o)
    (sock_forReceiverLast o) v.

Definition set_desc_next (v : Z) (o : socket_desc_t) : socket_desc_t :=
  mk_desc v (desc_last o) (desc_pendingNext o) (desc_pendingLast o)
    (desc_socket o) (desc_descriptor o) (desc_isConnector o) (desc_task o)
    (desc_isClosed o) (desc_refCount o) (desc_closeCode o).
Definition set_desc_last (v : Z) (o : socket_desc_t) : socket_desc_t :=
  mk_desc (desc_next o) v (desc_pendingNext o) (desc_pendingLast o)
    (desc_socket o) (desc_descriptor o) (desc_isConnector o) (desc_task o)
    (desc_isClosed o) (desc_refCount o) (desc_closeCode o).
Definition set_desc_pendingNext (v : Z) (o : socket_desc_t) : socket_desc_t :=
  mk_desc (desc_next o) (desc_last o) v (desc_pendingLast o) (desc_socket o)
    (desc_descriptor o) (desc_isConnector o) (desc_task o) (desc_isClosed o)
    (desc_refCount o) (desc_closeCode o).
Definition set_desc_pendingLast (v : Z) (o : socket_desc_t) : socket_desc_t :=
  mk_desc (desc_next o) (desc_last o) (desc_pendingNext o) v (desc_socket o)
    (desc_descriptor o) (desc_isConnector o) (desc_task o) (desc_isClosed o)
    (desc_refCount o) (desc_closeCode o).
Definition set_desc_socket (v : Z) (o : socket_desc_t) : socket_desc_t :=
  mk_desc (desc_next o) (desc_last o) (desc_pendingNext o) (desc_pendingLast
    o) v (desc_descriptor o) (desc_isConnector o) (desc_task o)
    (desc_isClosed o) (desc_refCount o) (desc_closeCode o).
Definition set_desc_descriptor (v : Z) (o : socket_desc_t) : socket_desc_t :=
  mk_desc (desc_next o) (desc_last o) (desc_pendingNext o) (desc_pendingLast
    o) (desc_socket o) v (desc_isConnector o) (desc_task o) (desc_isClosed
    o) (desc_refCount o) (desc_closeCode o).
Definition set_desc_isConnector (v : Z) (o : socket_desc_t) : socket_desc_t :=
  mk_desc (desc_next o) (desc_last o) (desc_pendingNext o) (desc_pendingLast
    o) (desc_socket o) (desc_descriptor o) v (desc_task o) (desc_isClosed o)
    (desc_refCount o) (desc_closeCode o).
Definition set_desc_task (v : Z) (o : socket_desc_t) : socket_desc_t :=
  mk_desc (desc_next o) (desc_last o) (desc_pendingNext o) (desc_pendingLast
    o) (desc_socket o) (desc_descriptor o) (desc_isConnector o) v
    (desc_isClosed o) (desc_refCount o) (desc_closeCode o).
Definition set_desc_isClosed (v : Z) (o : socket_desc_t) : socket_desc_t :=
  mk_desc (desc_next o) (desc_last o) (desc_pendingNext o) (desc_pendingLast
    o) (desc_socket o) (desc_descriptor o) (desc_isConnector o) (desc_task
    o) v (desc_refCount o) (desc_closeCode o).
Definition set_desc_refCount (v : Z) (o : socket_desc_t) : socket_desc_t :=
  mk_desc (desc_next o) (desc_last o) (desc_pendingNext o) (desc_pendingLast
    o) (desc_socket o) (desc_descriptor o) (desc_isConnector o) (desc_task
    o) (desc_isClosed o) v (desc_closeCode o).
Definition set_desc_closeCode (v : Z) (o : socket_desc_t) : socket_desc_t :=
  mk_desc (desc_next o) (desc_last o) (desc_pendingNext o) (desc_pendingLast
    o) (desc_socket o) (desc_descriptor o) (desc_isConnector o) (desc_task
    o) (desc_isClosed o) (desc_refCount o) v.

Definition set_msg_next (v : Z) (o : socket_msg_t) : socket_msg_t :=
  mk_msg v (msg_type o) (msg_len o) (msg_message o).
Definition set_msg_type (v : Z) (o : socket_msg_t) : socket_msg_t :=
  mk_msg (msg_next o) v (msg_len o) (msg_message o).
Definition set_msg_len (v : Z) (o : socket_msg_t) : socket_msg_t :=
  mk_msg (msg_next o) (msg_type o) v (msg_message o).
Definition set_msg_message (v : list Z) (o : socket_msg_t) : socket_msg_t :=
  mk_msg (msg_next o) (msg_type o) (msg_len o) v.

Definition set_fault_next (v : Z) (o : page_fault_t) : page_fault_t :=
  mk_fault v (fault_task o) (fault_thread o) (fault_ptr o) (fault_flags o).
Definition set_fault_task (v : Z) (o : page_fault_t) : page_fault_t :=
  mk_fault (fault_next o) v (fault_thread o) (fault_ptr o) (fault_flags o).
Definition set_fault_thread (v : Z) (o : page_fault_t) : page_fault_t :=
  mk_fault (fault_next o) (fault_task o) v (fault_ptr o) (fault_flags o).
Definition set_fault_ptr (v : Z) (o : page_fault_t) : page_fault_t :=
  mk_fault (fault_next o) (fault_task o) (fault_thread o) v (fault_flags o).
Definition set_fault_flags (v : Z) (o : page_fault_t) : page_fault_t :=
  mk_fault (fault_next o) (fault_task o) (fault_thread o) (fault_ptr o) v.

Definition set_info_message (v : Z) (o : msginfo_t) : msginfo_t :=
  mk_info v (info_descriptor o).
Definition set_info_descriptor (v : Z) (o : msginfo_t) : msginfo_t :=
  mk_info (info_message o) v.

Definition set_queueCount (v : Z) (o : loop_globals) : loop_globals :=
  mk_loop v (firstThread o) (lastThread o).
Definition set_firstThread (v : Z) (o : loop_globals) : loop_globals :=
  mk_loop (queueCount o) v (lastThread o).
Definition set_lastThread (v : Z) (o : loop_globals) : loop_globals :=
  mk_loop (queueCount o) (firstThread o) v.

Definition set_pidHashmap (v : list Z) (o : pid_globals) : pid_globals :=
  mk_pid v (pidPool o) (ppInitialized o).
Definition set_pidPool (v : anidxset_root_t) (o : pid_globals) : pid_globals :=
  mk_pid (pidHashmap o) v (ppInitialized o).
Definition set_ppInitialized (v : bool) (o : pid_globals) : pid_globals :=
  mk_pid (pidHashmap o) (pidPool o) v.

Definition set_pagerThread (v : Z) (o : pager_globals) : pager_globals :=
  mk_pager v (firstFault o) (lastFault o).
Definition set_firstFault (v : Z) (o : pager_globals) : pager_globals :=
  mk_pager (pagerThread o) v (lastFault o).
Definition set_lastFault (v : Z) (o : pager_globals) : pager_globals :=
  mk_pager (pagerThread o) (firstFault o) v.

Definition set_interruptThread (v : Z) (o : intd_globals) : intd_globals :=
  mk_intd v (irqMask o).
Definition set_irqMask (v : Z) (o : intd_globals) : intd_globals :=
  mk_intd (interruptThread o) v.

Definition set_cpu_task (v : Z) (o : cpu_info) : cpu_info :=
  mk_cpu v (cpu_thread o) (cpu_locked o) (cpu_timer o).
Definition set_cpu_thread (v : Z) (o : cpu_info) : cpu_info :=
  mk_cpu (cpu_task o) v (cpu_locked o) (cpu_timer o).
Definition set_cpu_locked (v : bool) (o : cpu_info) : cpu_info :=
  mk_cpu (cpu_task o) (cpu_thread o) v (cpu_timer o).
Definition set_cpu_timer (v : Z) (o : cpu_info) : cpu_info :=
  mk_cpu (cpu_task o) (cpu_thread o) (cpu_locked o) v.

Definition set_k_tasks (v : gmap Z task_t) (o : kst) : kst :=
  mk_kst v (k_threads o) (k_sockets o) (k_descs o) (k_msgs o) (k_faults o)
    (k_infos o) (k_nodes o) (k_vms o) (k_live o) (k_nallocs o) (k_nmaps o)
    (k_locks o) (k_cpus o) (k_clock o) (k_log o) (k_loop o) (k_pid o)
    (k_pager o) (k_intd o).
Definition set_k_threads (v : gmap Z thread_t) (o : kst) : kst :=
  mk_kst (k_tasks o) v (k_sockets o) (k_descs o) (k_msgs o) (k_faults o)
    (k_infos o) (k_nodes o) (k_vms o) (k_live o) (k_nallocs o) (k_nmaps o)
    (k_locks o) (k_cpus o) (k_clock o) (k_log o) (k_loop o) (k_pid o)
    (k_pager o) (k_intd o).
Definition set_k_sockets (v : gmap Z socket_t) (o : kst) : kst :=
  mk_kst (k_tasks o) (k_threads o) v (k_descs o) (k_msgs o) (k_faults o)
    (k_infos o) (k_nodes o) (k_vms o) (k_live o) (k_nallocs o) (k_nmaps o)
    (k_locks o) (k_cpus o) (k_clock o) (k_log o) (k_loop o) (k_pid o)
    (k_pager o) (k_intd o).
Definition set_k_descs (v : gmap Z socket_desc_t) (o : kst) : kst :=
  mk_kst (k_tasks o) (k_threads o) (k_sockets o) v (k_msgs o) (k_faults o)
    (k_infos o) (k_nodes o) (k_vms o) (k_live o) (k_nallocs o) (k_nmaps o)
    (k_locks o) (k_cpus o) (k_clock o) (k_log o) (k_loop o) (k_pid o)
    (k_pager o) (k_intd o).
Definition set_k_msgs (v : gmap Z socket_msg_t) (o : kst) : kst :=
  mk_kst (k_tasks o) (k_threads o) (k_sockets o) (k_descs o) v (k_faults o)
    (k_infos o) (k_nodes o) (k_vms o) (k_live o) (k_nallocs o) (k_nmaps o)
    (k_locks o) (k_cpus o) (k_clock o) (k_log o) (k_loop o) (k_pid o)
    (k_pager o) (k_intd o).
Definition set_k_faults (v : gmap Z page_fault_t) (o : kst) : kst :=
  mk_kst (k_tasks o) (k_threads o) (k_sockets o) (k_descs o) (k_msgs o) v
    (k_infos o) (k_nodes o) (k_vms o) (k_live o) (k_nallocs o) (k_nmaps o)
    (k_locks o) (k_cpus o) (k_clock o) (k_log o) (k_loop o) (k_pid o)
    (k_pager o) (k_intd o).
Definition set_k_infos (v : gmap Z msginfo_t) (o : kst) : kst :=
  mk_kst (k_tasks o) (k_threads o) (k_sockets o) (k_descs o) (k_msgs o)
    (k_faults o) v (k_nodes o) (k_vms o) (k_live o) (k_nallocs o) (k_nmaps
    o) (k_locks o) (k_cpus o) (k_clock o) (k_log o) (k_loop o) (k_pid o)
    (k_pager o) (k_intd o).
Definition set_k_nodes (v : gmap Z anidxset_node_t) (o : kst) : kst :=
  mk_kst (k_tasks o) (k_threads o) (k_sockets o) (k_descs o) (k_msgs o)
    (k_faults o) (k_infos o) v (k_vms o) (k_live o) (k_nallocs o) (k_nmaps
    o) (k_locks o) (k_cpus o) (k_clock o) (k_log o) (k_loop o) (k_pid o)
    (k_pager o) (k_intd o).
Definition set_k_vms (v : gmap Z (gmap Z (Z * Z))) (o : kst) : kst :=
  mk_kst (k_tasks o) (k_threads o) (k_sockets o) (k_descs o) (k_msgs o)
    (k_faults o) (k_infos o) (k_nodes o) v (k_live o) (k_nallocs o) (k_nmaps
    o) (k_locks o) (k_cpus o) (k_clock o) (k_log o) (k_loop o) (k_pid o)
    (k_pager o) (k_intd o).
Definition set_k_live (v : gset Z) (o : kst) : kst :=
  mk_kst (k_tasks o) (k_threads o) (k_sockets o) (k_descs o) (k_msgs o)
    (k_faults o) (k_infos o) (k_nodes o) (k_vms o) v (k_nallocs o) (k_nmaps
    o) (k_locks o) (k_cpus o) (k_clock o) (k_log o) (k_loop o) (k_pid o)
    (k_pager o) (k_intd o).
Definition set_k_nallocs (v : nat) (o : kst) : kst :=
  mk_kst (k_tasks o) (k_threads o) (k_sockets o) (k_descs o) (k_msgs o)
    (k_faults o) (k_infos o) (k_nodes o) (k_vms o) (k_live o) v (k_nmaps o)
    (k_locks o) (k_cpus o) (k_clock o) (k_log o) (k_loop o) (k_pid o)
    (k_pager o) (k_intd o).
Definition set_k_nmaps (v : nat) (o : kst) : kst :=
  mk_kst (k_tasks o) (k_threads o) (k_sockets o) (k_descs o) (k_msgs o)
    (k_faults o) (k_infos o) (k_nodes o) (k_vms o) (k_live o) (k_nallocs o)
    v (k_locks o) (k_cpus o) (k_clock o) (k_log o) (k_loop o) (k_pid o)
    (k_pager o) (k_intd o).
Definition set_k_locks (v : gset lock_id) (o : kst) : kst :=
  mk_kst (k_tasks o) (k_threads o) (k_sockets o) (k_descs o) (k_msgs o)
    (k_faults o) (k_infos o) (k_nodes o) (k_vms o) (k_live o) (k_nallocs o)
    (k_nmaps o) v (k_cpus o) (k_clock o) (k_log o) (k_loop o) (k_pid o)
    (k_pager o) (k_intd o).
Definition set_k_cpus (v : nat → cpu_info) (o : kst) : kst :=
  mk_kst (k_tasks o) (k_threads o) (k_sockets o) (k_descs o) (k_msgs o)
    (k_faults o) (k_infos o) (k_nodes o) (k_vms o) (k_live o) (k_nallocs o)
    (k_nmaps o) (k_locks o) v (k_clock o) (k_log o) (k_loop o) (k_pid o)
    (k_pager o) (k_intd o).
Definition set_k_clock (v : Z) (o : kst) : kst :=
  mk_kst (k_tasks o) (k_threads o) (k_sockets o) (k_descs o) (k_msgs o)
    (k_faults o) (k_infos o) (k_nodes o) (k_vms o) (k_live o) (k_nallocs o)
    (k_nmaps o) (k_locks o) (k_cpus o) v (k_log o) (k_loop o) (k_pid o)
    (k_pager o) (k_intd o).
Definition set_k_log (v : list event) (o : kst) : kst :=
  mk_kst (k_tasks o) (k_threads o) (k_sockets o) (k_descs o) (k_msgs o)
    (k_faults o) (k_infos o) (k_nodes o) (k_vms o) (k_live o) (k_nallocs o)
    (k_nmaps o) (k_locks o) (k_cpus o) (k_clock o) v (k_loop o) (k_pid o)
    (k_pager o) (k_intd o).
Definition set_k_loop (v : loop_globals) (o : kst) : kst :=
  mk_kst (k_tasks o) (k_threads o) (k_sockets o) (k_descs o) (k_msgs o)
    (k_faults o) (k_infos o) (k_nodes o) (k_vms o) (k_live o) (k_nallocs o)
    (k_nmaps o) (k_locks o) (k_cpus o) (k_clock o) (k_log o) v (k_pid o)
    (k_pager o) (k_intd o).
Definition set_k_pid (v : pid_globals) (o : kst) : kst :=
  mk_kst (k_tasks o) (k_threads o) (k_sockets o) (k_descs o) (k_msgs o)
    (k_faults o) (k_infos o) (k_nodes o) (k_vms o) (k_live o) (k_nallocs o)
    (k_nmaps o) (k_locks o) (k_cpus o) (k_clock o) (k_log o) (k_loop o) v
    (k_pager o) (k_intd o).
Definition set_k_pager (v : pager_globals) (o : kst) : kst :=
  mk_kst (k_tasks o) (k_threads o) (k_sockets o) (k_descs o) (k_msgs o)
    (k_faults o) (k_infos o) (k_nodes o) (k_vms o) (k_live o) (k_nallocs o)
    (k_nmaps o) (k_locks o) (k_cpus o) (k_clock o) (k_log o) (k_loop o)
    (k_pid o) v (k_intd o).
Definition set_k_intd (v : intd_globals) (o : kst) : kst :=
  mk_kst (k_tasks o) (k_threads o) (k_sockets o) (k_descs o) (k_msgs o)
    (k_faults o) (k_infos o) (k_nodes o) (k_vms o) (k_live o) (k_nallocs o)
    (k_nmaps o) (k_locks o) (k_cpus o) (k_clock o) (k_log o) (k_loop o)
    (k_pid o) (k_pager o) v.

(** [nth_set l i v] is [l[i] = v] on an in-range index. *)
Definition nth_set (l : list Z) (i v : Z) : list Z := <[Z.to_nat i := v]> l.

(** The zeroed structures that [anscheduler_zero] leaves. *)
Definition zero_root : anidxset_root_t := mk_root 0 0.
Definition zero_task : task_t :=
  mk_task 0 0 0 0 0 (replicate 16 0) 0 0 zero_root zero_root 0 0 0.
Definition zero_thread : thread_t := mk_thread 0 0 0 0 0 0 0 0 state_zero.
Definition zero_socket : socket_t := mk_socket 0 0 0 0 0 0 0 0 0.
Definition zero_desc : socket_desc_t := mk_desc 0 0 0 0 0 0 0 0 0 0 0.
Definition zero_cpu : cpu_info := mk_cpu 0 0 true 0.

(** The memory at boot: the static variables as their initialisers leave them. *)
Definition boot_kst : kst :=
  mk_kst ∅ ∅ ∅ ∅ ∅ ∅ ∅ ∅ ∅ ∅ 0 0 ∅ (λ _, zero_cpu) 0 []
    (mk_loop 0 NULL NULL) (mk_pid (replicate 256 0) zero_root false)
    (mk_pager NULL NULL NULL) (mk_intd NULL 0).

(** ** Typed heaps *)

(** [HeapOf T]: the memory has a heap of structures of type [T]. *)
Class HeapOf (T : Type) := {
  heap : kst → gmap Z T;
  set_heap : gmap Z T → kst → kst;
}.

#[export] Instance heap_task_t : HeapOf task_t := {| heap := k_tasks; set_heap := set_k_tasks |}.
#[export] Instance heap_thread_t : HeapOf thread_t := {| heap := k_threads; set_heap := set_k_threads |}.
#[export] Instance heap_socket_t : HeapOf socket_t := {| heap := k_sockets; set_heap := set_k_sockets |}.
#[export] Instance heap_socket_desc_t : HeapOf socket_desc_t := {| heap := k_descs; set_heap := set_k_descs |}.
#[export] Instance heap_socket_msg_t : HeapOf socket_msg_t := {| heap := k_msgs; set_heap := set_k_msgs |}.
#[export] Instance heap_page_fault_t : HeapOf page_fault_t := {| heap := k_faults; set_heap := set_k_faults |}.
#[export] Instance heap_msginfo_t : HeapOf msginfo_t := {| heap := k_infos; set_heap := set_k_infos |}.
#[export] Instance heap_anidxset_node_t : HeapOf anidxset_node_t := {| heap := k_nodes; set_heap := set_k_nodes |}.

(** [fld m f p]: what a field holds at an address, 0 outside the heap. Chains of
    structures are described by such functions. *)
Definition fld {T} (m : gmap Z T) (f : T → Z) (p : Z) : Z :=
  match m !! p with Some o => f o | None => 0 end.

(** ** Lemmas *)

Lemma fld_insert_eq {T} (m : gmap Z T) f p o : fld (<[p:=o]> m) f p = f o.
Proof. unfold fld. by rewrite lookup_insert_eq. Qed.

Lemma fld_insert_ne {T} (m : gmap Z T) f p q o :
  p ≠ q → fld (<[p:=o]> m) f q = fld m f q.
Proof. intros. unfold fld. by rewrite lookup_insert_ne. Qed.

Lemma fld_lookup {T} (m : gmap Z T) f p o : m !! p = Some o → fld m f p = f o.
Proof. unfold fld. by intros ->. Qed.

(** A pointer whose field is not null points into the heap. *)
Lemma fld_nonnull {T} (m : gmap Z T) f p : fld m f p ≠ 0 → is_Some (m !! p).
Proof. unfold fld. destruct (m !! p); [eauto|done]. Qed.

(** Writing a field leaves every other field chain alone. *)
Lemma fld_insert_same {T} (m : gmap Z T) f p o o' q :
  m !! p = Some o → f o' = f o → fld (<[p:=o']> m) f q = fld m f q.
Proof.
  intros Hp Hf. unfold fld. destruct (decide (p = q)) as [->|].
  - by rewrite lookup_insert_eq, Hp.
  - by rewrite lookup_insert_ne.
Qed.

Lemma alter_lookup {T} (f : T → T) (m : gmap Z T) p o :
  m !! p = Some o → alter f p m = <[p := f o]> m.
Proof.
  intros Hp. apply map_eq. intros q. rewrite lookup_alter, lookup_insert.
  case_decide; [subst; by rewrite Hp|done].
Qed.

Lemma lookup_relink {T} (g : T → T) (m : gmap Z T) p q :
  q ≠ NULL →
  (if decide (p = NULL) then m else alter g p m) !! q =
  (λ o, if decide (q = p) then g o else o) <$> m !! q.
Proof.
  intros Hq. destruct (decide (p = NULL)) as [->|].
  - destruct (m !! q); simpl; [by rewrite decide_False|done].
  - rewrite lookup_alter. destruct (decide (p = q)) as [->|]; destruct (m !! q);
      simpl; [by rewrite decide_True|done|by rewrite decide_False|done].
Qed.

Lemma relink_ne {T} (g : T → T) (p x : Z) (m : gmap Z T) :
  p ≠ x → (if decide (p = NULL) then m else alter g p m) !! x = m !! x.
Proof. intros. case_decide; [done|]. by rewrite lookup_alter_ne. Qed.

(** *** Doubly linked lists in a typed heap

    [nx] and [pv] are the link fields of a structure, [setnx] and [setpv] their
    updates. [unlink] makes the two neighbours of a node point to each other, where
    there are such neighbours. *)
Class Links (T : Type) (nx pv : T → Z) (setnx setpv : Z → T → T) : Prop := {
  links_nx_nx v o : nx (setnx v o) = v;
  links_nx_pv v o : nx (setpv v o) = nx o;
  links_pv_pv v o : pv (setpv v o) = v;
  links_pv_nx v o : pv (setnx v o) = pv o;
}.

#[export] Instance task_links :
  Links task_t task_next task_last set_task_next set_task_last.
Proof. by split. Qed.
#[export] Instance thread_links :
  Links thread_t thread_next thread_last set_thread_next set_thread_last.
Proof. by split. Qed.
#[export] Instance desc_links :
  Links socket_desc_t desc_next desc_last set_desc_next set_desc_last.
Proof. by split. Qed.
#[export] Instance pending_links :
  Links socket_desc_t desc_pendingNext desc_pendingLast set_desc_pendingNext
    set_desc_pendingLast.
Proof. by split. Qed.

Section links.
Context {T : Type} (nx pv : T → Z) (setnx setpv : Z → T → T) `{!Links T nx pv setnx setpv}.

Definition unlink (n p : Z) (m : gmap Z T) : gmap Z T :=
  let m' := if decide (p = NULL) then m else alter (setnx n) p m in
  if decide (n = NULL) then m' else alter (setpv p) n m'.

Lemma unlink_lookup n p m a o :
  a ≠ NULL → m !! a = Some o →
  unlink n p m !! a = Some
    ((if decide (a = n) then setpv p else id) ((if decide (a = p) then setnx n else id) o)).
Proof.
  intros Ha Ho. unfold unlink. rewrite !lookup_relink, Ho by done. simpl.
  by repeat case_decide.
Qed.

Lemma unlink_other n p m a :
  (n ≠ NULL → n ≠ a) → (p ≠ NULL → p ≠ a) → unlink n p m !! a = m !! a.
Proof.
  intros Hn Hp. unfold unlink.
  repeat case_decide; rewrite ?lookup_alter_ne by auto; done.
Qed.

(** Every node keeps what its links do not hold. *)
Lemma unlink_body {B} (f : T → B) n p m a :
  (∀ v o, f (setnx v o) = f o) → (∀ v o, f (setpv v o) = f o) →
  f <$> unlink n p m !! a = f <$> m !! a.
Proof.
  intros Hn Hp. unfold unlink. repeat case_decide; rewrite ?lookup_alter;
    repeat case_decide; simplify_eq; try done;
    destruct (m !! _); simpl; by rewrite ?Hp, ?Hn.
Qed.

Lemma unlink_dll m l1 x l2 o :
  dll (fld m nx) (fld m pv) (l1 ++ x :: l2) → m !! x = Some o →
  (∀ a, a ∈ l1 ++ l2 → is_Some (m !! a)) →
  dll (fld (unlink (nx o) (pv o) m) nx) (fld (unlink (nx o) (pv o) m) pv) (l1 ++ l2).
Proof using Type*.
  intros Hd Hx Hin.
  assert (∀ a, a ∈ l1 ++ l2 → ∃ b, a ≠ NULL ∧ m !! a = Some b) as Hs.
  { intros a Ha. destruct (Hin a Ha) as [b ?]. exists b. split; [|done].
    eapply dll_nonnull; [exact Hd|]. set_solver. }
  eapply dll_remove; [exact Hd| |]; intros a Ha; destruct (Hs a Ha) as (b & Ha0 & Hb);
    rewrite !(fld_lookup _ _ _ _ Hx), (fld_lookup _ _ _ _ (unlink_lookup _ _ _ _ _ Ha0 Hb)),
      (fld_lookup _ _ _ _ Hb);
    repeat case_decide; simpl;
    by rewrite ?links_nx_nx, ?links_nx_pv, ?links_pv_pv, ?links_pv_nx, ?links_nx_nx.
Qed.

(** The nodes that [unlink] writes exist. *)
Lemma unlink_neighbours m l1 x l2 o :
  dll (fld m nx) (fld m pv) (l1 ++ x :: l2) → m !! x = Some o →
  nx o = hd0 NULL l2 ∧ pv o = lst NULL l1 ∧ nx o ≠ x ∧ pv o ≠ x ∧
  (nx o ≠ NULL → nx o ∈ l1 ++ l2) ∧ (pv o ≠ NULL → pv o ∈ l1 ++ l2).
Proof.
  intros Hd Hx. destruct (dll_links _ _ _ _ _ Hd) as [Hn Hp].
  rewrite (fld_lookup _ _ _ _ Hx) in Hn. rewrite (fld_lookup _ _ _ _ Hx) in Hp.
  destruct (dll_neighbours _ _ _ _ _ Hd) as [Hpx Hnx].
  rewrite Hn, Hp. split_and!; try done; intros H0; apply elem_of_app.
  - right. apply hd0_elem_of. by intros ->.
  - left. apply lst_elem_of. by intros ->.
Qed.

(** They are different nodes. *)
Lemma unlink_neighbours_ne m l1 x l2 o :
  dll (fld m nx) (fld m pv) (l1 ++ x :: l2) → m !! x = Some o →
  nx o = NULL ∨ nx o ≠ pv o.
Proof using Type.
  intros Hd Hx. destruct (unlink_neighbours m l1 x l2 o Hd Hx) as (Hn & Hp & _).
  destruct (decide (nx o = NULL)) as [|Hn0]; [by left|]. right. rewrite Hn, Hp in *.
  pose proof (dll_nonnull _ _ _ (hd0 NULL l2) Hd) as Hnn.
  apply dll_NoDup, NoDup_app in Hd as (_ & Hdis & _). intros He.
  assert (hd0 NULL l2 ∈ l2) as Hin by (apply hd0_elem_of; by intros ->).
  apply (Hdis (lst NULL l1)); [|rewrite <- He; by right].
  apply lst_elem_of. intros ->. by rewrite He in Hn0.
Qed.

End links.

(** Computes link fields of a heap that has been written to. *)
Ltac flds :=
  intros; unfold fld; rewrite ?lookup_insert; repeat case_decide;
  simplify_map_eq; simpl; try done.

