(* ===== verification/Machine.v ===== *)
(** * Machine: programs, their execution, and the platform *)
From S2P Require Import Prelude Types.

(** ** The platform

    include/anscheduler/functions.h lists functions the platform provides. Those
    whose results the scheduler cannot predict are fields of this class:
    whether and where an allocation succeeds, whether a page-table update
    succeeds, the translation between physical and virtual page numbers, the
    length of a second, and what uninitialised memory holds. *)
Class Platform := {
  (** [plat_alloc n live size]: the [n]-th allocation, NULL for a failure *)
  plat_alloc : nat → gset Z → Z → Z;
  (** [plat_map_ok n root vpage]: does the [n]-th [vm_map] succeed? *)
  plat_map_ok : nat → Z → Z → bool;
  plat_physical : Z → Z;
  plat_virtual : Z → Z;
  plat_second_length : Z;
  plat_junk_msg : Z → socket_msg_t;
  plat_junk_fault : Z → page_fault_t;
  plat_junk_info : Z → msginfo_t;
  plat_junk_node : Z → anidxset_node_t;
  plat_sizeof_state : Z;
  plat_sizeof_ui : Z;
}.

(** What functions.h documents of them: an allocation is fresh, on a 4K page
    boundary, and an address; the translations are inverse to each other. *)
Class PlatformOk (P : Platform) := {
  plat_alloc_fresh n live size :
    plat_alloc n live size ≠ NULL → plat_alloc n live size ∉ live;
  plat_alloc_aligned n live size : plat_alloc n live size mod 0x1000 = 0;
  plat_alloc_range n live size : 0 ≤ plat_alloc n live size < 2 ^ 64 - 0x1000;
  plat_virtual_physical v : plat_virtual (plat_physical v) = v;
  plat_junk_node_length p : length (node_indexes (plat_junk_node p)) = 0x1fe%nat;
  plat_junk_msg_length p : length (msg_message (plat_junk_msg p)) = 0xfe8%nat;
}.

(** ** Programs *)

(** Ways for a memory access to be undefined. *)
Inductive ub :=
  | bad_pointer (p : Z)      (* NULL, freed, or of another type *)
  | bad_index (i : Z)        (* outside an array *)
  | bad_free (p : Z)         (* not a live allocation *)
  | bad_unlock (l : lock_id) (* not held, or in freed memory *)
  | bad_shift (n : Z)        (* shift amount not below the width *)
  | bad_critical.            (* cpu_lock inside, or cpu_unlock outside *)

(** The result of one atomic access by a CPU. *)
Inductive aresult (R : Type) :=
  | a_ok (r : R) (s : kst)
  | a_wait (l : lock_id)     (* spinning on a lock that is held *)
  | a_ub (e : ub).
Arguments a_ok {R} _ _.
Arguments a_wait {R} _.
Arguments a_ub {R} _.

(** How a CPU can leave the code for good. *)
Inductive leave :=
  | leave_run (task thread : Z)   (* anscheduler_thread_run *)
  | leave_idle                    (* while (1) anscheduler_cpu_halt() *)
  | leave_abort (msg : string).   (* anscheduler_abort *)

(** A C function body of result type [A]: atomic accesses, [while] loops (a
    body that yields either the next loop state or the loop's result), calls of
    [anscheduler_save_return_state] (the body is the function that runs next on
    this CPU, the continuation runs when the thread is resumed), and leaving. A
    function that cannot return has result type [Empty_set]. *)
Inductive prog (A : Type) : Type :=
  | Ret (a : A)
  | Act {R : Type} (f : nat → kst → aresult R) (k : R → prog A)
  | Loop {X B : Type} (body : X → prog (X + B)) (x : X) (k : B → prog A)
  | Save (thread : Z) (body : prog Empty_set) (k : prog A)
  | Leave (l : leave).
Arguments Ret {A} _.
Arguments Act {A R} _ _.
Arguments Loop {A X B} _ _ _.
Arguments Save {A} _ _ _.
Arguments Leave {A} _.

Fixpoint bind {A B} (p : prog A) (f : A → prog B) : prog B :=
  match p with
  | Ret a => f a
  | Act g k => Act g (λ r, bind (k r) f)
  | Loop body x k => Loop body x (λ b, bind (k b) f)
  | Save th body k => Save th body (bind k f)
  | Leave l => Leave l
  end.

#[export] Instance prog_ret : MRet prog := λ A a, Ret a.
#[export] Instance prog_bind : MBind prog := λ A B f p, bind p f.

(** ** Execution of one CPU without interference *)

(** Why a run stops before the function returns. *)
Inductive stop :=
  | s_leave (l : leave)
  | s_deadlock (l : lock_id)  (* waits for a lock nobody will release *)
  | s_ub (e : ub)
  | s_fuel.                   (* a loop exceeded the iteration bound *)

Inductive outcome (A : Type) :=
  | Done (a : A) (s : kst)
  | Stop (w : stop) (s : kst).
Arguments Done {A} _ _.
Arguments Stop {A} _ _.

(** One loop: at most [n] iterations of a body already interpreted. *)
Fixpoint iterate {X B A} (n : nat) (body : X → kst → outcome (X + B))
    (k : B → kst → outcome A) (x : X) (s : kst) : outcome A :=
  match n with
  | O => Stop s_fuel s
  | S n' =>
      match body x s with
      | Done (inl x') s' => iterate n' body k x' s'
      | Done (inr b) s' => k b s'
      | Stop w s' => Stop w s'
      end
  end.

(** [run n c p s]: CPU [c] runs [p] in memory [s]; each [while] loop may make [n]
    iterations. [n] is the only bound: [s_fuel] at every [n] is divergence. *)
Fixpoint run (n : nat) (c : nat) {A} (p : prog A) (s : kst) : outcome A :=
  match p with
  | Ret a => Done a s
  | Act f k =>
      match f c s with
      | a_ok r s' => run n c (k r) s'
      | a_wait l => Stop (s_deadlock l) s
      | a_ub e => Stop (s_ub e) s
      end
  | Loop body x k =>
      iterate n (λ x s, run n c (body x) s) (λ b s, run n c (k b) s) x s
  | Save th body k =>
      match k_threads s !! th with
      | None => Stop (s_ub (bad_pointer th)) s
      | Some t =>
          let s' := set_k_threads
            (<[th := set_thread_state state_saved t]> (k_threads s)) s in
          match run n c body s' with
          | Done e _ => match (e : Empty_set) with end
          | Stop w s'' => Stop w s''
          end
      end
  | Leave l => Stop (s_leave l) s
  end.

(** ** Atomic accesses *)

Definition act {R} (f : nat → kst → aresult R) : prog R := Act f Ret.

(** Reading and writing static variables. *)
Definition gget {R} (f : kst → R) : prog R := act (λ _ s, a_ok (f s) s).
Definition gset_ (f : kst → kst) : prog () := act (λ _ s, a_ok () (f s)).

(** [rd p f] reads field [f] of [*p], [wr p g] updates [*p] by [g]. *)
Definition rd {T R} `{HeapOf T} (p : Z) (f : T → R) : prog R :=
  act (λ _ s, match heap s !! p with
              | Some o => a_ok (f o) s
              | None => a_ub (bad_pointer p)
              end).
Definition wr {T} `{HeapOf T} (p : Z) (g : T → T) : prog () :=
  act (λ _ s, match heap s !! p with
              | Some o => a_ok () (set_heap (<[p := g o]> (heap s)) s)
              | None => a_ub (bad_pointer p)
              end).

(** [rmw p f g]: an atomic read-modify-write, the value read by [f] before the
    update by [g] (the __sync_fetch_and_* builtins). *)
Definition rmw {T R} `{HeapOf T} (p : Z) (f : T → R) (g : T → T) : prog R :=
  act (λ _ s, match heap s !! p with
              | Some o => a_ok (f o) (set_heap (<[p := g o]> (heap s)) s)
              | None => a_ub (bad_pointer p)
              end).

(** [l[i]] for an array in static memory. *)
Definition index (l : list Z) (i : Z) : prog Z :=
  act (λ _ s, match l !! Z.to_nat i with
              | Some v => a_ok v s
              | None => a_ub (bad_index i)
              end).

(** [p[hash].f = v] on an element that is looked up at run time: out of range
    is undefined. *)
Definition check_index (i len : Z) : prog () :=
  act (λ _ s, if decide (0 ≤ i < len) then a_ok () s else a_ub (bad_index i)).

(** ** Control structures *)

(** [while]: [inl] continues with the next loop state, [inr] leaves the loop. *)
Definition while_ {X B} (x : X) (body : X → prog (X + B)) : prog B := Loop body x Ret.

(** [for (i = first; i < first + count; i++) body], where a body that yields
    [Some r] returns [r] from the enclosing function. *)
Fixpoint for_ {R} (count : nat) (i : Z) (body : Z → prog (option R)) : prog (option R) :=
  match count with
  | O => mret None
  | S count' =>
      r ← body i;
      match r with
      | Some _ => mret r
      | None => for_ count' (i + 1) body
      end
  end.

(** The same without early return. *)
Fixpoint for_each (count : nat) (i : Z) (body : Z → prog ()) : prog () :=
  match count with
  | O => mret ()
  | S count' => body i;; for_each count' (i + 1) body
  end.

(** ** Platform functions *)

(** Is the memory that holds a lock word still allocated? *)
Definition lock_live (s : kst) (l : lock_id) : bool :=
  match l with
  | loopLock | pmLock | ppLock | intdLock | pagerLock => true
  | vmLock t | socketsLock t | pendingLock t | threadsLock t | stacksLock t
  | descriptorsLock t | killLock t => bool_decide (is_Some (k_tasks s !! t))
  | closeLock d => bool_decide (is_Some (k_descs s !! d))
  | connRecLock k | forConnectorLock k | forReceiverLock k =>
      bool_decide (is_Some (k_sockets s !! k))
  end.

Definition lock_addr (l : lock_id) : Z :=
  match l with
  | loopLock | pmLock | ppLock | intdLock | pagerLock => 0
  | vmLock t | socketsLock t | pendingLock t | threadsLock t | stacksLock t
  | descriptorsLock t | killLock t | closeLock t | connRecLock t
  | forConnectorLock t | forReceiverLock t => t
  end.

Definition add_lock (l : lock_id) (s : kst) : kst :=
  set_k_locks ({[l]} ∪ k_locks s) s.
Definition del_lock (l : lock_id) (s : kst) : kst :=
  set_k_locks (k_locks s ∖ {[l]}) s.

Definition anscheduler_lock (l : lock_id) : prog () :=
  act (λ _ s, if lock_live s l then
                if decide (l ∈ k_locks s) then a_wait l else a_ok () (add_lock l s)
              else a_ub (bad_pointer (lock_addr l))).

Definition anscheduler_unlock (l : lock_id) : prog () :=
  act (λ _ s, if decide (l ∈ k_locks s ∧ lock_live s l)
              then a_ok () (del_lock l s) else a_ub (bad_unlock l)).

Definition anscheduler_abort {A} (msg : string) : prog A := Leave (leave_abort msg).

Definition anscheduler_thread_run {A} (task thread : Z) : prog A :=
  Leave (leave_run task thread).

Definition log_event (e : event) (s : kst) : kst := set_k_log (k_log s ++ [e]) s.

Section Platform.
Context `{Platform}.

Definition alloc_step (size : Z) (s : kst) : kst :=
  let p := plat_alloc (k_nallocs s) (k_live s) size in
  set_k_nallocs (S (k_nallocs s))
    (set_k_live (if decide (p = NULL) then k_live s else {[p]} ∪ k_live s) s).

Definition anscheduler_alloc (size : Z) : prog Z :=
  act (λ _ s, a_ok (plat_alloc (k_nallocs s) (k_live s) size) (alloc_step size s)).

(** An allocation that the code uses as a [T] without zeroing it first: it
    holds whatever [junk] says. *)
Definition alloc_as {T} `{HeapOf T} (junk : Z → T) (size : Z) : prog Z :=
  act (λ _ s, let p := plat_alloc (k_nallocs s) (k_live s) size in
              let s' := alloc_step size s in
              a_ok p (if decide (p = NULL) then s'
                      else set_heap (<[p := junk p]> (heap s')) s')).

(** [anscheduler_zero(p, sizeof(T))] on a fresh allocation. *)
Definition zero_as {T} `{HeapOf T} (p : Z) (o : T) : prog () :=
  act (λ _ s, if decide (p ∈ k_live s)
              then a_ok () (set_heap (<[p := o]> (heap s)) s)
              else a_ub (bad_pointer p)).

(** Freed memory leaves every heap. *)
Definition free_step (p : Z) (s : kst) : kst :=
  mk_kst (delete p (k_tasks s)) (delete p (k_threads s)) (delete p (k_sockets s))
    (delete p (k_descs s)) (delete p (k_msgs s)) (delete p (k_faults s))
    (delete p (k_infos s)) (delete p (k_nodes s)) (delete p (k_vms s))
    (k_live s ∖ {[p]}) (k_nallocs s) (k_nmaps s) (k_locks s) (k_cpus s)
    (k_clock s) (k_log s ++ [ev_free p]) (k_loop s) (k_pid s) (k_pager s) (k_intd s).

Definition anscheduler_free (p : Z) : prog () :=
  act (λ _ s, if decide (p ∈ k_live s) then a_ok () (free_step p s)
              else a_ub (bad_free p)).

(** *** CPU context and timer *)

Definition upd_cpu (c : nat) (g : cpu_info → cpu_info) (s : kst) : kst :=
  set_k_cpus (λ c', if decide (c' = c) then g (k_cpus s c) else k_cpus s c') s.

Definition anscheduler_cpu_get_task : prog Z :=
  act (λ c s, a_ok (cpu_task (k_cpus s c)) s).
Definition anscheduler_cpu_get_thread : prog Z :=
  act (λ c s, a_ok (cpu_thread (k_cpus s c)) s).
Definition anscheduler_cpu_set_task (t : Z) : prog () :=
  act (λ c s, a_ok () (upd_cpu c (set_cpu_task t) s)).
Definition anscheduler_cpu_set_thread (t : Z) : prog () :=
  act (λ c s, a_ok () (upd_cpu c (set_cpu_thread t) s)).
Definition anscheduler_cpu_lock : prog () :=
  act (λ c s, if cpu_locked (k_cpus s c) then a_ub bad_critical
              else a_ok () (upd_cpu c (set_cpu_locked true) s)).
Definition anscheduler_cpu_unlock : prog () :=
  act (λ c s, if cpu_locked (k_cpus s c)
              then a_ok () (upd_cpu c (set_cpu_locked false) s)
              else a_ub bad_critical).
Definition anscheduler_cpu_notify_invlpg (t : Z) : prog () :=
  gset_ (log_event (ev_notify_invlpg t)).

(** The argument is a [uint32_t]. *)
Definition anscheduler_timer_set (ticks : Z) : prog () :=
  act (λ c s, a_ok () (upd_cpu c (set_cpu_timer (u32 ticks)) s)).
Definition anscheduler_get_time : prog Z := gget k_clock.
Definition anscheduler_second_length : prog Z := mret plat_second_length.

(** Running [fn] on the CPU's own stack; there is nothing to return to. *)
Definition anscheduler_cpu_stack_run {A} (fn : prog Empty_set) : prog A :=
  e ← fn; match (e : Empty_set) with end.

Definition anscheduler_save_return_state (thread : Z) (fn : prog Empty_set) : prog () :=
  Save thread fn (Ret ()).

Definition anscheduler_set_state (thread stack : Z) (ip : kernel_fn) (arg : Z) : prog () :=
  wr thread (set_thread_state (state_entry stack ip arg)).

(** *** Virtual memory *)

Definition vm_upd (root : Z) (g : gmap Z (Z * Z) → gmap Z (Z * Z)) (s : kst) : kst :=
  set_k_vms (alter g root (k_vms s)) s.

Definition anscheduler_vm_root_alloc : prog Z :=
  act (λ _ s, let p := plat_alloc (k_nallocs s) (k_live s) 0x1000 in
              let s' := alloc_step 0x1000 s in
              a_ok p (if decide (p = NULL) then s'
                      else set_k_vms (<[p := ∅]> (k_vms s')) s')).

Definition anscheduler_vm_map (root vpage dpage flags : Z) : prog bool :=
  act (λ _ s, match k_vms s !! root with
              | None => a_ub (bad_pointer root)
              | Some _ =>
                  let s' := set_k_nmaps (S (k_nmaps s)) s in
                  if plat_map_ok (k_nmaps s) root vpage
                  then a_ok true (vm_upd root (<[vpage := (dpage, u16 flags)]>) s')
                  else a_ok false s'
              end).

Definition anscheduler_vm_unmap (root vpage : Z) : prog () :=
  act (λ _ s, match k_vms s !! root with
              | None => a_ub (bad_pointer root)
              | Some _ => a_ok () (vm_upd root (delete vpage) s)
              end).

(** The entry and, through the pointer argument, the flags; 0 and 0 when the
    page is not mapped. *)
Definition anscheduler_vm_lookup (root vpage : Z) : prog (Z * Z) :=
  act (λ _ s, match k_vms s !! root with
              | None => a_ub (bad_pointer root)
              | Some m => a_ok (default (0, 0) (m !! vpage)) s
              end).

Definition anscheduler_vm_physical (virt : Z) : Z := plat_physical virt.
Definition anscheduler_vm_virtual (phys : Z) : Z := plat_virtual phys.

Definition vm_root_free_step (root : Z) (s : kst) : kst :=
  log_event (ev_vm_root_free root) (free_step root s).
Definition anscheduler_vm_root_free (root : Z) : prog () :=
  act (λ _ s, if decide (root ∈ k_live s) then a_ok () (vm_root_free_step root s)
              else a_ub (bad_free root)).

(** functions.h asks for a function that can be interrupted and that enters a critical
    section to free memory: it unmaps what is still mapped, where it may be interrupted,
    and frees the root inside. *)
Definition vm_unmap_all (root : Z) : prog () :=
  act (λ _ s, match k_vms s !! root with
              | None => a_ub (bad_pointer root)
              | Some _ => a_ok () (vm_upd root (λ _, ∅) s)
              end).
Definition anscheduler_vm_root_free_async (root : Z) : prog () :=
  vm_unmap_all root;;
  anscheduler_cpu_lock;;
  anscheduler_vm_root_free root;;
  anscheduler_cpu_unlock.
Definition anscheduler_task_cleanup (t : Z) : prog () :=
  gset_ (log_event (ev_task_cleanup t)).

(** ** Sizes of the structures, for the allocator *)
Definition sizeof_thread_t : Z := 64 + plat_sizeof_state.
Definition sizeof_task_t : Z := 328 + plat_sizeof_ui.
Definition sizeof_socket_t : Z := 96.
Definition sizeof_socket_desc_t : Z := 96.
Definition sizeof_socket_msg_t : Z := 0x1000.
Definition sizeof_page_fault_t : Z := 40.
Definition sizeof_msginfo_t : Z := 16.

End Platform.

(** ** Well-formed memory *)

(** Every structure lies in a live allocation, and NULL is not one. *)
Record mem_ok (s : kst) : Prop := {
  mem_null : NULL ∉ k_live s;
  mem_tasks p : is_Some (k_tasks s !! p) → p ∈ k_live s;
  mem_threads p : is_Some (k_threads s !! p) → p ∈ k_live s;
  mem_sockets p : is_Some (k_sockets s !! p) → p ∈ k_live s;
  mem_descs p : is_Some (k_descs s !! p) → p ∈ k_live s;
  mem_msgs p : is_Some (k_msgs s !! p) → p ∈ k_live s;
  mem_faults p : is_Some (k_faults s !! p) → p ∈ k_live s;
  mem_infos p : is_Some (k_infos s !! p) → p ∈ k_live s;
  mem_nodes p : is_Some (k_nodes s !! p) → p ∈ k_live s;
  mem_vms p : is_Some (k_vms s !! p) → p ∈ k_live s;
}.

(** ** Lemmas: equations of [run] *)

Lemma iterate_ext {X B A B'} n (body : X → kst → outcome (X + B))
    (k : B' → kst → outcome A) (h : B → kst → outcome B')
    (k' : B → kst → outcome A) x s :
  (∀ b s, k' b s = match h b s with Done a s' => k a s' | Stop w s' => Stop w s' end) →
  iterate n body k' x s =
  match iterate n body h x s with Done a s' => k a s' | Stop w s' => Stop w s' end.
Proof.
  intros Hk. revert x s. induction n as [|n IH]; intros x s; [done|].
  simpl. destruct (body x s) as [[x'|b] s'|w s']; auto.
Qed.

(** One iteration. *)
Lemma iterate_S {X B A} n (body : X → kst → outcome (X + B))
    (k : B → kst → outcome A) x s :
  iterate (S n) body k x s =
  match body x s with
  | Done (inl x') s' => iterate n body k x' s'
  | Done (inr b) s' => k b s'
  | Stop w s' => Stop w s'
  end.
Proof. done. Qed.

Lemma run_bind n c {A B} (p : prog A) (f : A → prog B) s :
  run n c (p ≫= f) s =
  match run n c p s with
  | Done a s' => run n c (f a) s'
  | Stop w s' => Stop w s'
  end.
Proof.
  revert s. unfold mbind, prog_bind.
  induction p as [A a|A R g k IH|A X Y body IHb x k IH|A th body IHb k IH|A l];
    intros s; simpl; [done| | | |done].
  - destruct (g c s); auto.
  - apply iterate_ext. auto.
  - destruct (k_threads s !! th); [|done].
    by destruct (run n c body _) as [[]|].
Qed.

Lemma run_ret n c {A} (a : A) s : run n c (mret a) s = Done a s.
Proof. done. Qed.

Lemma run_ret_bind n c {A B} (a : A) (k : A → prog B) s :
  run n c (mret a ≫= k) s = run n c (k a) s.
Proof. done. Qed.

Lemma run_assoc n c {A B C} (p : prog A) (f : A → prog B) (g : B → prog C) s :
  run n c ((p ≫= f) ≫= g) s = run n c (p ≫= (λ a, f a ≫= g)) s.
Proof.
  rewrite !run_bind. destruct (run n c p s); [|done]. by rewrite run_bind.
Qed.

Lemma run_leave n c {A} l s : run n c (A := A) (Leave l) s = Stop (s_leave l) s.
Proof. done. Qed.

Lemma run_leave_bind n c {A B} l (k : A → prog B) s :
  run n c (Leave l ≫= k) s = Stop (s_leave l) s.
Proof. done. Qed.

Lemma run_thread_run n c {A} task thread s :
  run n c (A := A) (anscheduler_thread_run task thread) s
  = Stop (s_leave (leave_run task thread)) s.
Proof. done. Qed.

Lemma run_abort n c {A} msg s :
  run n c (A := A) (anscheduler_abort msg) s = Stop (s_leave (leave_abort msg)) s.
Proof. done. Qed.

(** A function run on the CPU's stack never comes back. *)
Lemma run_stack_run n c {A} (p : prog Empty_set) s :
  run n c (A := A) (anscheduler_cpu_stack_run p) s =
  match run n c p s with Done e _ => match e with end | Stop w s' => Stop w s' end.
Proof. unfold anscheduler_cpu_stack_run. rewrite run_bind. by destruct (run n c p s) as [[]|]. Qed.

(** A spec of a called function, used at its call. *)
Lemma run_call n c {A B} (p : prog A) (k : A → prog B) s a s' :
  run n c p s = Done a s' → run n c (p ≫= k) s = run n c (k a) s'.
Proof. rewrite run_bind. by intros ->. Qed.

Lemma run_call_stop n c {A B} (p : prog A) (k : A → prog B) s w s' :
  run n c p s = Stop w s' → run n c (p ≫= k) s = Stop w s'.
Proof. rewrite run_bind. by intros ->. Qed.

Lemma run_tail n c {A} (p : prog A) s : run n c p s = run n c (p ≫= mret) s.
Proof. rewrite run_bind. by destruct (run n c p s). Qed.

Lemma run_while n c {X B A} (x : X) (body : X → prog (X + B)) (k : B → prog A) s :
  run n c (while_ x body ≫= k) s =
  iterate n (λ x s, run n c (body x) s) (λ b s, run n c (k b) s) x s.
Proof. done. Qed.

(** The memory after a page-table update. *)
Definition mapped (root vpage dpage flags : Z) (s : kst) : kst :=
  vm_upd root (<[vpage := (dpage, u16 flags)]>) (set_k_nmaps (S (k_nmaps s)) s).

Section prims.
Context (n c : nat) {A : Type}.

Lemma run_act {R} (f : nat → kst → aresult R) (k : R → prog A) s :
  run n c (act f ≫= k) s =
  match f c s with
  | a_ok r s' => run n c (k r) s'
  | a_wait l => Stop (s_deadlock l) s
  | a_ub e => Stop (s_ub e) s
  end.
Proof. done. Qed.

Lemma run_gget {R} (f : kst → R) (k : R → prog A) s :
  run n c (gget f ≫= k) s = run n c (k (f s)) s.
Proof. done. Qed.

Lemma run_gset f (k : () → prog A) s :
  run n c (gset_ f ≫= k) s = run n c (k ()) (f s).
Proof. done. Qed.

Lemma run_rd {T R} `{HeapOf T} p (f : T → R) (k : R → prog A) s o :
  heap s !! p = Some o → run n c (rd p f ≫= k) s = run n c (k (f o)) s.
Proof. intros Hp. unfold rd, act. simpl. by rewrite Hp. Qed.

Lemma run_wr {T} `{HeapOf T} p (g : T → T) (k : () → prog A) s o :
  heap s !! p = Some o →
  run n c (wr p g ≫= k) s = run n c (k ()) (set_heap (<[p := g o]> (heap s)) s).
Proof. intros Hp. unfold wr, act. simpl. by rewrite Hp. Qed.

Lemma run_rmw {T R} `{HeapOf T} p (f : T → R) (g : T → T) (k : R → prog A) s o :
  heap s !! p = Some o →
  run n c (rmw p f g ≫= k) s
  = run n c (k (f o)) (set_heap (<[p := g o]> (heap s)) s).
Proof. intros Hp. unfold rmw, act. simpl. by rewrite Hp. Qed.

Lemma run_index l i v (k : Z → prog A) s :
  l !! Z.to_nat i = Some v → run n c (index l i ≫= k) s = run n c (k v) s.
Proof. intros Hi. unfold index, act. simpl. by rewrite Hi. Qed.

Lemma run_check_index i len (k : () → prog A) s :
  0 ≤ i < len → run n c (check_index i len ≫= k) s = run n c (k ()) s.
Proof. intros Hi. unfold check_index, act. simpl. by rewrite decide_True. Qed.

Lemma run_lock l (k : () → prog A) s :
  lock_live s l = true → l ∉ k_locks s →
  run n c (anscheduler_lock l ≫= k) s = run n c (k ()) (add_lock l s).
Proof.
  intros Hl Hn. unfold anscheduler_lock, act. simpl.
  by rewrite Hl, decide_False.
Qed.

Lemma run_lock_wait l (k : () → prog A) s :
  lock_live s l = true → l ∈ k_locks s →
  run n c (anscheduler_lock l ≫= k) s = Stop (s_deadlock l) s.
Proof.
  intros Hl Hn. unfold anscheduler_lock, act. simpl. by rewrite Hl, decide_True.
Qed.

Lemma run_unlock l (k : () → prog A) s :
  l ∈ k_locks s → lock_live s l = true →
  run n c (anscheduler_unlock l ≫= k) s = run n c (k ()) (del_lock l s).
Proof. intros ? Hl. unfold anscheduler_unlock, act. simpl. rewrite Hl. by rewrite decide_True. Qed.

Lemma run_get_task (k : Z → prog A) s :
  run n c (anscheduler_cpu_get_task ≫= k) s = run n c (k (cpu_task (k_cpus s c))) s.
Proof. done. Qed.

Lemma run_get_thread (k : Z → prog A) s :
  run n c (anscheduler_cpu_get_thread ≫= k) s
  = run n c (k (cpu_thread (k_cpus s c))) s.
Proof. done. Qed.

Lemma run_set_task t (k : () → prog A) s :
  run n c (anscheduler_cpu_set_task t ≫= k) s
  = run n c (k ()) (upd_cpu c (set_cpu_task t) s).
Proof. done. Qed.

Lemma run_set_thread t (k : () → prog A) s :
  run n c (anscheduler_cpu_set_thread t ≫= k) s
  = run n c (k ()) (upd_cpu c (set_cpu_thread t) s).
Proof. done. Qed.

Lemma run_cpu_lock (k : () → prog A) s :
  cpu_locked (k_cpus s c) = false →
  run n c (anscheduler_cpu_lock ≫= k) s
  = run n c (k ()) (upd_cpu c (set_cpu_locked true) s).
Proof. intros Hc. unfold anscheduler_cpu_lock, act. simpl. by rewrite Hc. Qed.

Lemma run_cpu_unlock (k : () → prog A) s :
  cpu_locked (k_cpus s c) = true →
  run n c (anscheduler_cpu_unlock ≫= k) s
  = run n c (k ()) (upd_cpu c (set_cpu_locked false) s).
Proof. intros Hc. unfold anscheduler_cpu_unlock, act. simpl. by rewrite Hc. Qed.

Lemma run_timer_set t (k : () → prog A) s :
  run n c (anscheduler_timer_set t ≫= k) s
  = run n c (k ()) (upd_cpu c (set_cpu_timer (u32 t)) s).
Proof. done. Qed.

Lemma run_free p (k : () → prog A) s :
  p ∈ k_live s →
  run n c (anscheduler_free p ≫= k) s = run n c (k ()) (free_step p s).
Proof. intros. unfold anscheduler_free, act. simpl. by rewrite decide_True. Qed.

Lemma run_zero_as {T} `{HeapOf T} p (o : T) (k : () → prog A) s :
  p ∈ k_live s →
  run n c (zero_as p o ≫= k) s = run n c (k ()) (set_heap (<[p := o]> (heap s)) s).
Proof. intros. unfold zero_as, act. simpl. by rewrite decide_True. Qed.

Context `{Platform}.

Lemma run_alloc size (k : Z → prog A) s :
  run n c (anscheduler_alloc size ≫= k) s
  = run n c (k (plat_alloc (k_nallocs s) (k_live s) size)) (alloc_step size s).
Proof. done. Qed.

Lemma run_vm_lookup root page (k : Z * Z → prog A) s m :
  k_vms s !! root = Some m →
  run n c (anscheduler_vm_lookup root page ≫= k) s
  = run n c (k (default (0, 0) (m !! page))) s.
Proof. intros Hm. unfold anscheduler_vm_lookup. rewrite run_act. simpl. by rewrite Hm. Qed.

Lemma run_vm_map root vpage dpage flags (k : bool → prog A) s :
  is_Some (k_vms s !! root) →
  run n c (anscheduler_vm_map root vpage dpage flags ≫= k) s =
  if plat_map_ok (k_nmaps s) root vpage
  then run n c (k true) (mapped root vpage dpage flags s)
  else run n c (k false) (set_k_nmaps (S (k_nmaps s)) s).
Proof.
  intros [m Hm]. unfold anscheduler_vm_map. rewrite run_act. simpl. rewrite Hm.
  by destruct (plat_map_ok _ _ _).
Qed.

Lemma run_vm_unmap root vpage (k : () → prog A) s :
  is_Some (k_vms s !! root) →
  run n c (anscheduler_vm_unmap root vpage ≫= k) s
  = run n c (k ()) (vm_upd root (delete vpage) s).
Proof. intros [m Hm]. unfold anscheduler_vm_unmap. rewrite run_act. simpl. by rewrite Hm. Qed.

End prims.

(** An allocation that keeps its contents. *)
Lemma run_alloc_as n c {T} `{HeapOf T} `{Platform} (junk : Z → T) size {A}
    (k : Z → prog A) s :
  run n c (alloc_as junk size ≫= k) s =
  let p := plat_alloc (k_nallocs s) (k_live s) size in
  let s' := alloc_step size s in
  run n c (k p) (if decide (p = NULL) then s' else set_heap (<[p := junk p]> (heap s')) s').
Proof. done. Qed.

Section alloc.
Context `{Platform, !PlatformOk _}.

Lemma alloc_step_live size s p :
  p ∈ k_live s → p ∈ k_live (alloc_step size s).
Proof. simpl. case_decide; set_solver. Qed.

Lemma alloc_step_new size s :
  plat_alloc (k_nallocs s) (k_live s) size ≠ NULL →
  plat_alloc (k_nallocs s) (k_live s) size ∈ k_live (alloc_step size s).
Proof. intros. simpl. rewrite decide_False by done. set_solver. Qed.

(** The two outcomes of an allocation. *)
Lemma alloc_step_null size s :
  plat_alloc (k_nallocs s) (k_live s) size = NULL →
  alloc_step size s = set_k_nallocs (S (k_nallocs s)) s.
Proof. intros Hp. unfold alloc_step. rewrite decide_True by done. by destruct s. Qed.

Lemma alloc_step_some size s :
  plat_alloc (k_nallocs s) (k_live s) size ≠ NULL →
  alloc_step size s = set_k_nallocs (S (k_nallocs s))
    (set_k_live ({[plat_alloc (k_nallocs s) (k_live s) size]} ∪ k_live s) s).
Proof. intros Hp. unfold alloc_step. by rewrite decide_False by done. Qed.

Lemma alloc_step_mem_ok size s : mem_ok s → mem_ok (alloc_step size s).
Proof.
  intros []. split; simpl; case_decide; set_solver.
Qed.

(** A fresh address is in no heap of threads, of tasks, ... *)
Lemma alloc_fresh_thread size s :
  mem_ok s → plat_alloc (k_nallocs s) (k_live s) size ≠ NULL →
  k_threads s !! plat_alloc (k_nallocs s) (k_live s) size = None.
Proof.
  intros Hm Hp. apply eq_None_not_Some. intros Hs.
  by apply (plat_alloc_fresh (k_nallocs s) (k_live s) size Hp), mem_threads.
Qed.

End alloc.

(** *** Counted loops, by an invariant on the counter *)

Lemma run_for_each n c count body (I : Z → kst → Prop) : ∀ i s,
  I i s →
  (∀ j s, i ≤ j < i + Z.of_nat count → I j s →
     ∃ s', run n c (body j) s = Done () s' ∧ I (j + 1) s') →
  ∃ s', run n c (for_each count i body) s = Done () s' ∧ I (i + Z.of_nat count) s'.
Proof.
  induction count as [|k IH]; intros i s Hi Hstep.
  - exists s. split; [done|]. by rewrite Z.add_0_r.
  - change (for_each (S k) i body) with (body i;; for_each k (i + 1) body).
    destruct (Hstep i s) as (s1 & Hrun1 & H1); [lia|done|].
    destruct (IH (i + 1) s1 H1) as (s2 & Hrun2 & H2).
    { intros j s' Hj. apply Hstep. lia. }
    exists s2. split; [by rewrite run_bind, Hrun1|].
    by replace (i + Z.of_nat (S k)) with (i + 1 + Z.of_nat k) by lia.
Qed.

Lemma run_for n c {R} count (body : Z → prog (option R)) (I : Z → kst → Prop)
    (Q : R → kst → Prop) : ∀ i s,
  I i s →
  (∀ j s, i ≤ j < i + Z.of_nat count → I j s →
     ∃ r s', run n c (body j) s = Done r s' ∧
       match r with None => I (j + 1) s' | Some v => Q v s' end) →
  ∃ r s', run n c (for_ count i body) s = Done r s' ∧
    match r with None => I (i + Z.of_nat count) s' | Some v => Q v s' end.
Proof.
  induction count as [|k IH]; intros i s Hi Hstep.
  - exists None, s. split; [done|]. by rewrite Z.add_0_r.
  - change (for_ (S k) i body) with
      (r ← body i; match r with Some _ => mret r | None => for_ k (i + 1) body end).
    destruct (Hstep i s) as (r & s1 & Hrun1 & H1); [lia|done|].
    rewrite run_bind, Hrun1. destruct r as [v|]; [by exists (Some v), s1|].
    destruct (IH (i + 1) s1 H1) as (r & s2 & Hrun2 & H2).
    { intros j s' Hj. apply Hstep. lia. }
    exists r, s2. split; [done|]. destruct r; [done|].
    by replace (i + Z.of_nat (S k)) with (i + 1 + Z.of_nat k) by lia.
Qed.

(** The lock set after taking and releasing a lock. *)
Lemma del_add_lock (l : lock_id) (L : gset lock_id) : l ∉ L → ({[l]} ∪ L) ∖ {[l]} = L.
Proof. set_solver. Qed.

Lemma upd_cpu_eq c g s : k_cpus (upd_cpu c g s) c = g (k_cpus s c).
Proof. simpl. by rewrite decide_True. Qed.

(** ** Symbolic execution *)

Arguments run : simpl never.
Arguments bind : simpl never.
Arguments mbind : simpl never.
Arguments mret : simpl never.
Arguments iterate : simpl never.
Arguments while_ : simpl never.
Arguments for_ : simpl never.
Arguments for_each : simpl never.
Arguments free_step : simpl never.
Arguments alloc_step : simpl never.

(** Looks a pointer up in a heap that has been written to. *)
Ltac lk :=
  simpl;
  first [ eassumption
        | rewrite lookup_insert_eq; reflexivity
        | rewrite lookup_insert_ne by (first [assumption | congruence | done]); lk ].

(** Decides membership in the set of held locks, and liveness of a lock. *)
Ltac lock_side :=
  simpl; rewrite ?bool_decide_eq_true;
  first [ assumption | reflexivity | eexists; lk | set_solver ].

(** Equality of memories that differ by taking and releasing locks. *)
Ltac kst_eq :=
  unfold del_lock, add_lock; simpl;
  rewrite ?del_add_lock by done;
  match goal with s : kst |- _ => by destruct s end.

(** Gives a final access a continuation, so that the bind equations apply. *)
Ltac tail :=
  match goal with
  | |- context [run ?n ?c ?p ?s] =>
      lazymatch p with
      | mret _ => rewrite (run_ret n c)
      | anscheduler_unlock _ => rewrite (run_tail n c p s)
      | wr _ _ => rewrite (run_tail n c p s)
      | gset_ _ => rewrite (run_tail n c p s)
      | gget _ => rewrite (run_tail n c p s)
      | rd _ _ => rewrite (run_tail n c p s)
      | anscheduler_free _ => rewrite (run_tail n c p s)
      end
  end.

(** One step of the program at hand. *)
Ltac step :=
  first
    [ rewrite run_ret_bind
    | rewrite run_assoc
    | rewrite run_gget
    | rewrite run_gset
    | erewrite run_rd by lk
    | erewrite run_wr by lk
    | erewrite run_rmw by lk
    | rewrite run_lock by lock_side
    | rewrite run_unlock by lock_side
    | rewrite run_get_task
    | rewrite run_get_thread
    | rewrite run_set_task
    | rewrite run_set_thread
    | rewrite run_timer_set
    | rewrite run_cpu_lock by (simpl; first [done | by rewrite decide_True])
    | rewrite run_cpu_unlock by (simpl; first [done | by rewrite decide_True])
    | rewrite run_check_index by lia
    | rewrite run_alloc
    | tail ];
  simpl.

(** Unfolds the accessors of static variables, then steps. *)
Ltac steps := autounfold with prog; repeat step.

Create HintDb prog.
