(* ===== verification/Demo.v ===== *)
(** * Demo: a concrete platform and concrete memories

    An allocator that always hands out the page above every live one, page-table
    updates that always succeed, identity translation. The witnesses of the other
    files evaluate their theorems on it. *)
From S2P Require Import Prelude Types Machine.

(** ** A platform *)

Definition top_page (live : gset Z) : Z := set_fold Z.max 0 live / 0x1000 + 1.

Definition demo_alloc (live : gset Z) : Z :=
  if decide (top_page live * 0x1000 < 2 ^ 64 - 0x1000) then top_page live * 0x1000 else NULL.

Definition demo_platform (ok : nat → bool) (map_ok : nat → bool) : Platform := {|
  plat_alloc n live _ := if ok n then demo_alloc live else NULL;
  plat_map_ok n _ _ := map_ok n;
  plat_physical v := v;
  plat_virtual p := p;
  plat_second_length := 640;
  plat_junk_msg p := mk_msg p p p (replicate 0xfe8 7);
  plat_junk_fault p := mk_fault p p p p p;
  plat_junk_info p := mk_info p p;
  plat_junk_node p := mk_node p (replicate 0x1fe p) p;
  plat_sizeof_state := 0x100;
  plat_sizeof_ui := 0x20;
|}.

(** Nothing fails. *)
#[local] Instance P0 : Platform := demo_platform (λ _, true) (λ _, true).

Lemma set_fold_max (X : gset Z) x : x ∈ X → x ≤ set_fold Z.max 0 X.
Proof.
  intros Hx. apply elem_of_elements in Hx. unfold set_fold; simpl.
  induction (elements X) as [|y l IH]; simpl; [by apply not_elem_of_nil in Hx|].
  apply elem_of_cons in Hx as [->|Hx]; [lia|]. specialize (IH Hx). lia.
Qed.

Lemma set_fold_max_nonneg (X : gset Z) : 0 ≤ set_fold Z.max 0 X.
Proof. unfold set_fold; simpl. induction (elements X); simpl; lia. Qed.

Lemma demo_alloc_fresh live : demo_alloc live ≠ NULL → demo_alloc live ∉ live.
Proof.
  unfold demo_alloc, top_page. case_decide; [|done]. intros _ Hx.
  apply set_fold_max in Hx. pose proof (Z.div_mod (set_fold Z.max 0 live) 0x1000).
  pose proof (Z.mod_pos_bound (set_fold Z.max 0 live) 0x1000). lia.
Qed.

#[export] Instance demo_platform_ok ok map_ok : PlatformOk (demo_platform ok map_ok).
Proof.
  split; simpl; try done.
  - intros n live _. destruct (ok n); [|done]. apply demo_alloc_fresh.
  - intros n live _. destruct (ok n); [|done]. unfold demo_alloc. case_decide; [|done].
    by apply Z_mod_mult.
  - intros n live _. destruct (ok n); [|done]. unfold demo_alloc. case_decide; [|done].
    pose proof (set_fold_max_nonneg live). unfold top_page in *.
    pose proof (Z.div_pos (set_fold Z.max 0 live) 0x1000). lia.
Qed.

(** ** A memory

    Task 0x10000 has the threads 0x1000, 0x2000 and 0x3000. The first two are
    queued, the second sleeps until time 50, the third runs on CPU 0. It is time
    10. *)
Definition demo_task (killed refs : Z) : task_t :=
  mk_task 0 0 5 0 0x20000 (replicate 16 0) 0 0x1000 (mk_root 0x1fe 0x30000)
    (mk_root 0x1fe 0x31000) refs killed 0.

Definition demo_thread (next last qn ql ts stack polling : Z) : thread_t :=
  mk_thread next last qn ql 0x10000 ts stack polling state_saved.

Definition demo_threads : gmap Z thread_t := list_to_map
  [(0x1000, demo_thread 0x2000 0 0x2000 0 0 0 0);
   (0x2000, demo_thread 0x3000 0x1000 0 0x1000 50 1 0);
   (0x3000, demo_thread 0 0x2000 0 0 0 2 0)].

(** Two pages of indexes, untouched. *)
Definition demo_node : anidxset_node_t := mk_node 0x1fe (reverse (seqZ 0 0x1fe)) 0.

Definition demo (killed refs : Z) : kst :=
  mk_kst {[0x10000 := demo_task killed refs]} demo_threads ∅ ∅ ∅ ∅ ∅
    (list_to_map [(0x30000, demo_node); (0x31000, demo_node)])
    {[0x20000 := ∅]}
    (list_to_set [0x1000; 0x2000; 0x3000; 0x10000; 0x20000; 0x30000; 0x31000])
    0 0 ∅ (λ c, if decide (c = 0%nat) then mk_cpu 0x10000 0x3000 true 0 else zero_cpu) 10 []
    (mk_loop 2 0x1000 0x2000) (mk_pid (replicate 256 0) zero_root false)
    (mk_pager NULL NULL NULL) (mk_intd NULL 0).

(** ** Tactics for concrete memories *)

(** Properties of the members of a literal list. *)
Ltac elems :=
  let p := fresh "p" in let Hp := fresh "Hp" in
  intros p Hp; repeat (apply elem_of_cons in Hp as [->|Hp]);
  try (by apply not_elem_of_nil in Hp).

(** A closed goal that computes. *)
Ltac by_vm := vm_compute; first [reflexivity | done | eexists; reflexivity | lia].

(** A decidable closed proposition. *)
Ltac by_dec := refine (bool_decide_unpack _ _); vm_compute; exact I.

(** A doubly linked list of a concrete heap. *)
Ltac by_dll := split; [by_dec|vm_compute; repeat split; congruence].

(** [mem_ok] of a concrete memory. *)
Lemma mem_ok_dom s :
  NULL ∉ k_live s →
  dom (k_tasks s) ⊆ k_live s ∧ dom (k_threads s) ⊆ k_live s ∧
  dom (k_sockets s) ⊆ k_live s ∧ dom (k_descs s) ⊆ k_live s ∧
  dom (k_msgs s) ⊆ k_live s ∧ dom (k_faults s) ⊆ k_live s ∧
  dom (k_infos s) ⊆ k_live s ∧ dom (k_nodes s) ⊆ k_live s ∧
  dom (k_vms s) ⊆ k_live s → mem_ok s.
Proof.
  intros H0 (?&?&?&?&?&?&?&?&?).
  split; [done|..]; intros p Hp; apply elem_of_dom in Hp; by eauto.
Qed.

Lemma demo_mem_ok killed refs : mem_ok (demo killed refs).
Proof. apply mem_ok_dom; [by_dec|]. repeat split; by_dec. Qed.
