(* ===== verification/Idxset.v ===== *)
(** * Idxset: the index set of lib/anidxset and src/util.c

    A set of free indexes kept as a stack in a chain of pages. An
    [anidxset_root_t] is always embedded in another object: the [stacks] and
    [descriptors] fields of a task, and the static variable [pidPool]; [root_ptr]
    names the three, and reading or writing through it is a memory access to the
    enclosing object. *)
From S2P Require Import Prelude Types Machine Demo.

(** ** Pointers to embedded roots *)

Inductive root_ptr :=
  | root_stacks (task : Z)        (* &task->stacks *)
  | root_descriptors (task : Z)   (* &task->descriptors *)
  | root_pidPool.                 (* &pidPool *)

Definition root_at (r : root_ptr) (s : kst) : option anidxset_root_t :=
  match r with
  | root_stacks t => task_stacks <$> k_tasks s !! t
  | root_descriptors t => task_descriptors <$> k_tasks s !! t
  | root_pidPool => Some (pidPool (k_pid s))
  end.

Definition root_upd (r : root_ptr) (v : anidxset_root_t) (s : kst) : kst :=
  match r with
  | root_stacks t => set_k_tasks (alter (set_task_stacks v) t (k_tasks s)) s
  | root_descriptors t => set_k_tasks (alter (set_task_descriptors v) t (k_tasks s)) s
  | root_pidPool => set_k_pid (set_pidPool v (k_pid s)) s
  end.

(** The object a root is embedded in. *)
Definition root_owner (r : root_ptr) : option Z :=
  match r with root_stacks t | root_descriptors t => Some t | root_pidPool => None end.

Definition rd_root {R} (r : root_ptr) (f : anidxset_root_t → R) : prog R :=
  act (λ _ s, match root_at r s with
              | Some o => a_ok (f o) s
              | None => a_ub (bad_pointer (default NULL (root_owner r)))
              end).
Definition wr_root (r : root_ptr) (g : anidxset_root_t → anidxset_root_t) : prog () :=
  act (λ _ s, match root_at r s with
              | Some o => a_ok () (root_upd r (g o) s)
              | None => a_ub (bad_pointer (default NULL (root_owner r)))
              end).

(** [node->indexes[i]] and [node->indexes[i] = v]. *)
Definition rd_index (node i : Z) : prog Z :=
  l ← rd node node_indexes; index l i.
Definition wr_index (node i v : Z) : prog () :=
  check_index i ANIDXSET_NODE_CAPACITY;;
  wr node (λ o, set_node_indexes (nth_set (node_indexes o) i v) o).

(** ** Operations *)

Definition anscheduler_idxset_free (ptr : Z) : prog () := anscheduler_free ptr.

Definition _allocate_next_page (root : root_ptr) : prog () :=
  node ← rd_root root root_first;
  wr node (set_node_next NULL);;
  wr node (set_node_count ANIDXSET_NODE_CAPACITY);;
  for_each (Z.to_nat ANIDXSET_NODE_CAPACITY) 0 (λ i,
    used ← rd_root root root_used;
    wr_root root (set_root_used (u64 (used + 1)));;
    wr_index node (ANIDXSET_NODE_CAPACITY - i - 1) used).

Definition anidxset_get (root : root_ptr) : prog Z :=
  node ← rd_root root root_first;
  count ← rd node node_count;
  node ← (if decide (count = 0) then
            next ← rd node node_next;
            if decide (next = NULL) then _allocate_next_page root;; mret node
            else
              wr_root root (set_root_first next);;
              anscheduler_idxset_free node;;
              mret next
          else mret node);
  count ← rd node node_count;
  wr node (set_node_count (u64 (count - 1)));;
  rd_index node (u64 (count - 1)).

Definition anidxset_free (root : root_ptr) : prog () :=
  node ← rd_root root root_first;
  while_ node (λ node,
    if decide (node ≠ NULL) then
      next ← rd node node_next;
      anscheduler_idxset_free node;;
      mret (inl next)
    else mret (inr ())).

Section ops.
Context `{Platform}.

Definition anscheduler_idxset_alloc : prog Z := alloc_as plat_junk_node 0x1000.

Definition anidxset_initialize (root : root_ptr) : prog bool :=
  wr_root root (set_root_used ANIDXSET_NODE_CAPACITY);;
  first ← anscheduler_idxset_alloc;
  wr_root root (set_root_first first);;
  if decide (first = NULL) then mret false else
  wr first (set_node_count ANIDXSET_NODE_CAPACITY);;
  wr first (set_node_next NULL);;
  for_each (Z.to_nat ANIDXSET_NODE_CAPACITY) 0 (λ i,
    wr_index first i (ANIDXSET_NODE_CAPACITY - 1 - i));;
  mret true.

Definition anscheduler_idxset_init (root : root_ptr) : prog bool :=
  anidxset_initialize root.

Definition anidxset_put (root : root_ptr) (value : Z) : prog bool :=
  node ← rd_root root root_first;
  count ← rd node node_count;
  if decide (count = ANIDXSET_NODE_CAPACITY) then
    newNode ← anscheduler_idxset_alloc;
    if decide (newNode = NULL) then mret false else
    wr newNode (set_node_count 1);;
    wr newNode (set_node_next node);;
    wr_index newNode 0 value;;
    wr_root root (set_root_first newNode);;
    mret true
  else
    count ← rd node node_count;
    wr node (set_node_count (u64 (count + 1)));;
    wr_index node count value;;
    mret true.

End ops.

(** ** Abstract specification

    The set is a stack of free indexes and a bound on the indexes ever handed
    out. An empty stack is refilled with a page of new indexes. *)
Record idxset := mk_idxset { ix_used : Z; ix_free : list Z }.

Definition ix_init : idxset :=
  mk_idxset ANIDXSET_NODE_CAPACITY (seqZ 0 ANIDXSET_NODE_CAPACITY).

Definition ix_get (x : idxset) : Z * idxset :=
  match ix_free x with
  | i :: free => (i, mk_idxset (ix_used x) free)
  | [] => (ix_used x,
           mk_idxset (ix_used x + ANIDXSET_NODE_CAPACITY)
             (seqZ (ix_used x + 1) (ANIDXSET_NODE_CAPACITY - 1)))
  end.

Definition ix_put (i : Z) (x : idxset) : idxset := mk_idxset (ix_used x) (i :: ix_free x).

(** Every index below the bound is free at most once; the others are in use. *)
Definition ix_ok (x : idxset) : Prop :=
  NoDup (ix_free x) ∧ (∀ i, i ∈ ix_free x → 0 ≤ i < ix_used x) ∧ 0 ≤ ix_used x.

Definition ix_in_use (i : Z) (x : idxset) : Prop := 0 ≤ i < ix_used x ∧ i ∉ ix_free x.

(** ** Representation

    [chunks] pairs each page of the chain with the free indexes it holds, the top
    of the stack first; the pages after the first are full. *)
Definition node_holds (nd : anidxset_node_t) (free : list Z) (next : Z) : Prop :=
  node_count nd = Z.of_nat (length free) ∧
  length (node_indexes nd) = 0x1fe%nat ∧
  take (length free) (node_indexes nd) = reverse free ∧
  (length free ≤ 0x1fe)%nat ∧ node_next nd = next.

Fixpoint chunks_ok (m : gmap Z anidxset_node_t) (cs : list (Z * list Z)) : Prop :=
  match cs with
  | [] => True
  | (p, free) :: cs' =>
      p ≠ NULL ∧
      (∃ nd, m !! p = Some nd ∧ node_holds nd free (hd0 NULL cs'.*1)) ∧
      Forall (λ c, length c.2 = 0x1fe%nat) cs' ∧
      chunks_ok m cs'
  end.

(** No structure of another type lies at [p]. *)
Definition only_node (s : kst) (p : Z) : Prop :=
  k_tasks s !! p = None ∧ k_threads s !! p = None ∧ k_sockets s !! p = None ∧
  k_descs s !! p = None ∧ k_msgs s !! p = None ∧ k_faults s !! p = None ∧
  k_infos s !! p = None ∧ k_vms s !! p = None.

Definition idx_ok (r : root_ptr) (s : kst) (x : idxset) : Prop :=
  ∃ cs, root_at r s = Some (mk_root (ix_used x) (hd0 NULL cs.*1)) ∧
    cs ≠ [] ∧ chunks_ok (k_nodes s) cs ∧ NoDup cs.*1 ∧
    (∀ p, p ∈ cs.*1 → p ∈ k_live s ∧ only_node s p) ∧
    ix_free x = concat cs.*2.

(** A page of the chain of [r]. *)
Definition index_page (r : root_ptr) (s : kst) (q : Z) : Prop :=
  ∃ u cs, root_at r s = Some (mk_root u (hd0 NULL cs.*1)) ∧ chunks_ok (k_nodes s) cs ∧ q ∈ cs.*1.

(** What the index set's operations may change: the root, its pages of indexes, and
    which addresses hold such pages; a well-formed memory stays well formed. *)
Definition idx_step (r : root_ptr) (s s' : kst) : Prop :=
  (∃ v, s' = set_k_nodes (k_nodes s') (set_k_live (k_live s') (set_k_log (k_log s')
              (set_k_nallocs (k_nallocs s') (root_upd r v s))))) ∧
  (mem_ok s → mem_ok s' ∧
     ∀ p, is_Some (k_nodes s' !! p) → is_Some (k_nodes s !! p) ∨ p ∉ k_live s) ∧
  (∀ p, p ∈ k_live s → (only_node s p ∧ is_Some (k_nodes s !! p)) ∨ p ∈ k_live s') ∧
  (∀ p, p ∈ k_live s → index_page r s p ∨ (p ∈ k_live s' ∧ k_nodes s' !! p = k_nodes s !! p)).

(** ** Lemmas *)

Lemma root_at_upd r s o v : root_at r s = Some o → root_at r (root_upd r v s) = Some v.
Proof.
  destruct r; simpl; [| |done]; intros Ho; rewrite lookup_alter_eq;
    by destruct (k_tasks s !! task).
Qed.

Lemma root_upd_upd r v w s : root_upd r v (root_upd r w s) = root_upd r v s.
Proof.
  assert (∀ (f g : task_t → task_t) (m : gmap Z task_t) t, (∀ o, f (g o) = f o) →
    alter f t (alter g t m) = alter f t m) as Ha.
  { intros f g m t Hfg. apply map_eq. intros q. rewrite !lookup_alter.
    repeat case_decide; try done. subst q. destruct (m !! t); simpl; by rewrite ?Hfg. }
  destruct r; simpl; unfold set_k_tasks; simpl; by rewrite ?Ha.
Qed.

Lemma k_nodes_root_upd r v s : k_nodes (root_upd r v s) = k_nodes s.
Proof. by destruct r. Qed.
Lemma k_live_root_upd r v s : k_live (root_upd r v s) = k_live s.
Proof. by destruct r. Qed.
Lemma set_nodes_root_upd r v m s :
  root_upd r v (set_k_nodes m s) = set_k_nodes m (root_upd r v s).
Proof. by destruct r. Qed.
Lemma root_at_set_nodes r m s : root_at r (set_k_nodes m s) = root_at r s.
Proof. by destruct r. Qed.

Lemma run_rd_root n c {A R} r (f : anidxset_root_t → R) (k : R → prog A) s o :
  root_at r s = Some o → run n c (rd_root r f ≫= k) s = run n c (k (f o)) s.
Proof. intros Ho. unfold rd_root. rewrite run_act; simpl. by rewrite Ho. Qed.

Lemma run_wr_root n c {A} r g (k : () → prog A) s o :
  root_at r s = Some o →
  run n c (wr_root r g ≫= k) s = run n c (k ()) (root_upd r (g o) s).
Proof. intros Ho. unfold wr_root. rewrite run_act; simpl. by rewrite Ho. Qed.

Lemma run_rd_index n c {A} p i v nd (k : Z → prog A) s :
  k_nodes s !! p = Some nd → node_indexes nd !! Z.to_nat i = Some v →
  run n c (rd_index p i ≫= k) s = run n c (k v) s.
Proof.
  intros Hp Hi. unfold rd_index. rewrite run_assoc.
  erewrite run_rd by done. by erewrite run_index by done.
Qed.

Lemma run_wr_index n c {A} p i v nd (k : () → prog A) s :
  k_nodes s !! p = Some nd → 0 ≤ i < 0x1fe →
  run n c (wr_index p i v ≫= k) s =
  run n c (k ()) (set_k_nodes
    (<[p := set_node_indexes (nth_set (node_indexes nd) i v) nd]> (k_nodes s)) s).
Proof.
  intros Hp Hi. unfold wr_index. rewrite run_assoc.
  rewrite run_check_index by done. by erewrite run_wr by done.
Qed.

(** A page that counts down from [u + 0x1fd] is a stack of consecutive indexes. *)
Lemma page_of_indexes u idx :
  length idx = 0x1fe%nat →
  (∀ k, (k < 0x1fe)%nat → idx !! k = Some (u + 0x1fd - Z.of_nat k)) →
  idx = reverse (seqZ u 0x1fe).
Proof.
  intros Hl Hk. apply list_eq_same_length with 0x1fe%nat; [|done|].
  { by rewrite length_reverse, length_seqZ. }
  intros k x y Hlt Hx Hy. rewrite Hk in Hx by done.
  rewrite reverse_lookup, length_seqZ in Hy by (rewrite length_seqZ; lia).
  apply lookup_seqZ in Hy as [-> _]. simplify_eq. lia.
Qed.

Lemma root_upd_id r s o : root_at r s = Some o → root_upd r o s = s.
Proof.
  destruct r as [t|t|]; simpl; intros Ho; [| |simplify_eq; by destruct s as [? ? ? ? ? ? ? ? ? ? ? ? ? ? ? ? ? []]].
  - rewrite alter_id; [by destruct s|]. intros tk Htk. rewrite Htk in Ho.
    simplify_eq/=. by destruct tk.
  - rewrite alter_id; [by destruct s|]. intros tk Htk. rewrite Htk in Ho.
    simplify_eq/=. by destruct tk.
Qed.

(** Side conditions of accesses to a root, and the accesses. *)
Ltac rooted :=
  simpl; rewrite ?root_at_set_nodes; first [eassumption | eapply root_at_upd; rooted].
Ltac isteps :=
  repeat first
    [ erewrite run_rd_root by rooted
    | erewrite run_wr_root by rooted
    | erewrite run_wr_index by first [lk | unfold ANIDXSET_NODE_CAPACITY; lia]
    | step ];
  rewrite ?k_nodes_root_upd, ?set_nodes_root_upd, ?root_upd_upd; simpl.

Section specs.
Context (n c : nat) (r : root_ptr).

(** *** Refilling an empty page *)

Definition refill_inv (u p : Z) (s : kst) (j : Z) (s' : kst) : Prop :=
  ∃ idx, length idx = 0x1fe%nat ∧
    (∀ k, (k < 0x1fe)%nat → 0x1fe - j ≤ Z.of_nat k →
       idx !! k = Some (u + 0x1fd - Z.of_nat k)) ∧
    s' = set_k_nodes (<[p := mk_node 0x1fe idx 0]> (k_nodes s))
           (root_upd r (mk_root (u + j) p) s).

Lemma next_page_spec s u p nd :
  root_at r s = Some (mk_root u p) → k_nodes s !! p = Some nd →
  length (node_indexes nd) = 0x1fe%nat → 0 ≤ u → u + 0x1fe < 2 ^ 64 →
  run n c (_allocate_next_page r) s = Done ()
    (set_k_nodes (<[p := mk_node 0x1fe (reverse (seqZ u 0x1fe)) 0]> (k_nodes s))
       (root_upd r (mk_root (u + 0x1fe) p) s)).
Proof.
  intros Hr Hp Hl Hu Hb. unfold _allocate_next_page. isteps.
  match goal with |- run _ _ (for_each ?k ?i ?b) ?s1 = _ =>
    destruct (run_for_each n c k b (refill_inv u p s) i s1) as (s' & Hrun & idx & Hli & Hidx & Hs')
  end.
  - exists (node_indexes nd). split_and!; [done|intros; lia|].
    rewrite insert_insert_eq, Z.add_0_r, root_upd_id by done. done.
  - intros j s' Hj (idx & Hli & Hidx & ->). change (Z.to_nat _) with 0x1fe%nat in Hj.
    isteps. rewrite (run_tail n c). isteps. eexists. split; [done|].
    exists (nth_set idx (0x1fe - j - 1) (u + j)). unfold nth_set.
    split_and!; [by rewrite length_insert| |].
    + intros k Hk Hkj. destruct (decide (k = Z.to_nat (0x1fe - j - 1))) as [->|].
      * rewrite list_lookup_insert_eq by lia. f_equal. lia.
      * rewrite list_lookup_insert_ne by done. apply Hidx; lia.
    + rewrite insert_insert_eq, u64_small, <- Z.add_assoc by lia. done.
  - rewrite Hrun, Hs'. change (0 + Z.of_nat _) with 0x1fe in *.
    rewrite (page_of_indexes u idx) by (try done; intros; apply Hidx; lia). done.
Qed.

(** *** Popping and pushing on one page *)

Lemma node_holds_cons nd i free next :
  node_holds nd (i :: free) next →
  node_indexes nd !! length free = Some i ∧
  node_holds (set_node_count (Z.of_nat (length free)) nd) free next.
Proof.
  intros (Hc & Hl & Ht & Hle & Hn). simpl in Ht, Hle. rewrite reverse_cons in Ht.
  split.
  - rewrite <- (lookup_take_lt _ (S (length free))) by lia.
    rewrite Ht, lookup_app_r by (rewrite length_reverse; lia).
    by rewrite length_reverse, Nat.sub_diag.
  - split_and!; try done; [|lia].
    apply (f_equal (take (length free))) in Ht.
    rewrite take_take, Nat.min_l in Ht by lia. simpl. rewrite Ht.
    apply take_app_length'. by rewrite length_reverse.
Qed.

Lemma node_holds_push nd i free next :
  node_holds nd free next → (length free < 0x1fe)%nat →
  node_holds (set_node_indexes (nth_set (node_indexes nd) (node_count nd) i)
    (set_node_count (node_count nd + 1) nd)) (i :: free) next.
Proof.
  intros (Hc & Hl & Ht & Hle & Hn) Hlt. unfold nth_set. split_and!; simpl; try done.
  - lia.
  - by rewrite length_insert.
  - rewrite reverse_cons, Hc, Nat2Z.id.
    rewrite (take_S_r _ _ i) by (apply list_lookup_insert_eq; lia).
    by rewrite take_insert_ge, Ht by lia.
Qed.

Lemma pop_spec s p nd i free next :
  k_nodes s !! p = Some nd → node_holds nd (i :: free) next →
  run n c (count ← rd p node_count; wr p (set_node_count (u64 (count - 1)));;
           rd_index p (u64 (count - 1))) s =
  Done i (set_k_nodes
    (<[p := set_node_count (Z.of_nat (length free)) nd]> (k_nodes s)) s).
Proof.
  intros Hp Hh. destruct (node_holds_cons _ _ _ _ Hh) as [Hi _].
  destruct Hh as (Hc & Hl & _ & Hle & _). simpl in Hc, Hle.
  isteps. replace (node_count nd - 1) with (Z.of_nat (length free)) by lia.
  rewrite u64_small by lia. rewrite (run_tail n c).
  erewrite run_rd_index; [|lk|simpl; rewrite Nat2Z.id; done]. done.
Qed.

Lemma chunks_ok_ext m m' cs :
  (∀ p, p ∈ cs.*1 → m' !! p = m !! p) → chunks_ok m cs → chunks_ok m' cs.
Proof.
  induction cs as [|[p free] cs IH]; intros Hm; [done|]. simpl.
  intros (? & (nd & Hp & ?) & ? & ?). split_and!; try done.
  - exists nd. split; [|done]. rewrite Hm; [done|]. simpl. set_solver.
  - apply IH; [|done]. intros q Hq. apply Hm. simpl. set_solver.
Qed.

Lemma only_node_root_upd v s p : only_node s p → only_node (root_upd r v s) p.
Proof.
  intros (Ht & ?). destruct r; split; simpl; try done;
    rewrite lookup_alter; by case_decide; [subst; rewrite Ht|].
Qed.

Lemma free_only_node s p : only_node s p →
  free_step p s = set_k_log (k_log s ++ [ev_free p])
    (set_k_live (k_live s ∖ {[p]}) (set_k_nodes (delete p (k_nodes s)) s)).
Proof.
  intros (?&?&?&?&?&?&?&?). unfold free_step.
  rewrite (delete_id (k_tasks s)), (delete_id (k_threads s)), (delete_id (k_sockets s)),
    (delete_id (k_descs s)), (delete_id (k_msgs s)), (delete_id (k_faults s)),
    (delete_id (k_infos s)), (delete_id (k_vms s)) by done.
  by destruct s.
Qed.

Lemma root_upd_dom v s p :
  is_Some (k_tasks (root_upd r v s) !! p) → is_Some (k_tasks s !! p).
Proof. destruct r; simpl; rewrite ?lookup_alter_is_Some; done. Qed.

Lemma idx_step_intro v s s' :
  s' = set_k_nodes (k_nodes s') (set_k_live (k_live s') (set_k_log (k_log s')
         (set_k_nallocs (k_nallocs s') (root_upd r v s)))) →
  (mem_ok s → NULL ∉ k_live s' ∧ ∀ p, is_Some (k_nodes s' !! p) →
     p ∈ k_live s' ∧ (is_Some (k_nodes s !! p) ∨ p ∉ k_live s)) →
  (∀ p, p ∈ k_live s → (only_node s p ∧ is_Some (k_nodes s !! p)) ∨ p ∈ k_live s') →
  (∀ p, p ∈ k_live s → index_page r s p ∨ (p ∈ k_live s' ∧ k_nodes s' !! p = k_nodes s !! p)) →
  idx_step r s s'.
Proof.
  intros Hs Hn Hl Hf. split; [by exists v|split; [|done]].
  intros Hm. destruct (Hn Hm) as [H0 Hnodes].
  split; [|intros p Hp; by apply Hnodes]. rewrite Hs. destruct Hm.
  assert (∀ p, is_Some (k_tasks (root_upd r v s) !! p) → is_Some (k_tasks s !! p)) as Ht
    by (intros q; apply root_upd_dom).
  split; simpl; [done|..]; intros p Hp; try (by apply Hnodes);
    repeat match type of Hp with context [?f (root_upd r v s) !! p] =>
      first [apply Ht in Hp|replace (f (root_upd r v s)) with (f s) in Hp by (by destruct r)] end;
    (destruct (Hl p) as [[(?&?&?&?&?&?&?&?) _]|?]; [by auto| |done]);
    destruct Hp as [? Hp]; congruence.
Qed.

(** Replacing the first page of the chain. *)
Lemma idx_ok_head s s' u x p free cs nd :
  idx_step r s s' → root_at r s' = Some (mk_root u p) →
  k_nodes s' !! p = Some nd → node_holds nd free (hd0 NULL cs.*1) →
  p ≠ NULL → p ∉ cs.*1 → NoDup cs.*1 →
  Forall (λ c, length c.2 = 0x1fe%nat) cs → chunks_ok (k_nodes s) cs →
  (∀ q, q ∈ cs.*1 → k_nodes s' !! q = k_nodes s !! q) →
  (∀ q, q ∈ p :: cs.*1 → q ∈ k_live s' ∧ only_node s q) →
  x = mk_idxset u (free ++ concat cs.*2) → idx_ok r s' x.
Proof.
  intros [[v Hs] _] Hr Hp Hh Hp0 Hpc Hd Hf Hc Hn Hq ->.
  exists ((p, free) :: cs). simpl. split_and!; try done.
  - eauto.
  - by eapply chunks_ok_ext.
  - by apply NoDup_cons.
  - intros q Hin. destruct (Hq q Hin) as [? Ho]. split; [done|].
    apply (only_node_root_upd v) in Ho. rewrite Hs. apply Ho.
Qed.

(** The pages of a chain. *)
Lemma index_page_chain s u p free cs nd q :
  root_at r s = Some (mk_root u p) → k_nodes s !! p = Some nd →
  node_holds nd free (hd0 NULL cs.*1) → p ≠ NULL →
  Forall (λ c, length c.2 = 0x1fe%nat) cs → chunks_ok (k_nodes s) cs →
  q ∈ p :: cs.*1 → index_page r s q.
Proof.
  intros Hr Hp Hh Hp0 Hf Hc Hq. exists u, ((p, free) :: cs). split; [done|]. split; [|done].
  split_and!; eauto.
Qed.

Lemma mem_insert_node s p nd q :
  is_Some (k_nodes s !! p) → is_Some (<[p := nd]> (k_nodes s) !! q) →
  is_Some (k_nodes s !! q).
Proof. by intros ? [->|[_ ?]]%lookup_insert_is_Some. Qed.

(** Taking the chain of an [idx_ok] apart. *)
Lemma idx_ok_inv s x : idx_ok r s x →
  ∃ p free cs nd, root_at r s = Some (mk_root (ix_used x) p) ∧
    k_nodes s !! p = Some nd ∧ node_holds nd free (hd0 NULL cs.*1) ∧ p ≠ NULL ∧
    p ∉ cs.*1 ∧ NoDup cs.*1 ∧ Forall (λ c, length c.2 = 0x1fe%nat) cs ∧
    chunks_ok (k_nodes s) cs ∧
    (∀ q, q ∈ p :: cs.*1 → q ∈ k_live s ∧ only_node s q) ∧
    ix_free x = free ++ concat cs.*2.
Proof.
  intros ([|[p free] cs] & Hr & Hne & Hc & Hd & Hq & Hx); [done|].
  simpl in *. destruct Hc as (? & (nd & ? & ?) & ? & ?).
  apply NoDup_cons in Hd as [? ?]. by exists p, free, cs, nd.
Qed.

Lemma idx_step_nodes s m :
  is_Some (root_at r s) → (mem_ok s → ∀ p, is_Some (m !! p) → is_Some (k_nodes s !! p)) →
  (∀ p, index_page r s p ∨ m !! p = k_nodes s !! p) →
  idx_step r s (set_k_nodes m s).
Proof.
  intros [o Ho] Hm Hf. apply (idx_step_intro o); simpl; try auto; [| |naive_solver].
  - rewrite root_upd_id by done. by destruct s.
  - intros Hmem. split; [by destruct Hmem|]. intros p Hp.
    split; [apply (mem_nodes _ Hmem)|left]; by apply Hm.
Qed.

(** The first page has room for another index. *)
Definition has_room (r : root_ptr) (s : kst) : Prop :=
  ∃ o nd, root_at r s = Some o ∧ k_nodes s !! root_first o = Some nd ∧
    node_count nd < ANIDXSET_NODE_CAPACITY.

(** The first page of the chain after its last index was taken. *)
Lemma idx_ok_popped s s' u x p i free cs nd :
  idx_step r s s' → root_at r s' = Some (mk_root u p) →
  k_nodes s' !! p = Some (set_node_count (Z.of_nat (length free)) nd) →
  node_holds nd (i :: free) (hd0 NULL cs.*1) →
  p ≠ NULL → p ∉ cs.*1 → NoDup cs.*1 →
  Forall (λ c, length c.2 = 0x1fe%nat) cs → chunks_ok (k_nodes s) cs →
  (∀ q, q ∈ cs.*1 → k_nodes s' !! q = k_nodes s !! q) →
  (∀ q, q ∈ p :: cs.*1 → q ∈ k_live s' ∧ only_node s q) →
  x = mk_idxset u (free ++ concat cs.*2) → k_live s' ⊆ k_live s →
  idx_ok r s' x ∧ idx_step r s s' ∧ has_room r s' ∧ k_live s' ⊆ k_live s.
Proof.
  intros Hst Hr Hp Hh. pose proof Hh as (_ & _ & _ & Hle & _). simpl in Hle.
  apply node_holds_cons in Hh as [_ Hh]. intros. split; [by eapply idx_ok_head|].
  split; [done|]. split; [|done]. do 2 eexists. split_and!; [done|exact Hp|].
  unfold ANIDXSET_NODE_CAPACITY. simpl. lia.
Qed.

(** The three cases of [anidxset_get]: the page is empty and the last one, it is
    empty and there is another, it holds an index. *)
Lemma get_refill s x p nd :
  root_at r s = Some (mk_root (ix_used x) p) → k_nodes s !! p = Some nd →
  node_holds nd [] NULL → p ≠ NULL → p ∈ k_live s → only_node s p →
  ix_free x = [] → 0 ≤ ix_used x → ix_used x + 0x1fe < 2 ^ 64 →
  ∃ s', run n c (anidxset_get r) s = Done (ix_get x).1 s' ∧ idx_ok r s' (ix_get x).2 ∧
    idx_step r s s' ∧ has_room r s' ∧ k_live s' ⊆ k_live s.
Proof.
  intros Hr Hp Hh Hp0 Hlive Hop Hx Hu Hb. pose proof Hh as (Hcnt & Hlen & _ & _ & Hnext).
  unfold anidxset_get. isteps. unfold ix_get.
  rewrite Hx, Hcnt, decide_True by done. isteps. rewrite Hnext, decide_True by done.
  rewrite run_assoc, (run_call _ _ _ _ _ _ _ (next_page_spec s _ _ _ Hr Hp Hlen Hu Hb)).
  rewrite run_ret_bind.
  assert (node_holds (mk_node 0x1fe (reverse (seqZ (ix_used x) 0x1fe)) 0)
    (ix_used x :: seqZ (ix_used x + 1) 0x1fd) NULL) as Hfull.
  { change 0x1fe with (Z.succ 0x1fd) at 2. rewrite seqZ_cons by lia.
    assert (length (ix_used x :: seqZ (ix_used x + 1) 0x1fd) = 0x1fe%nat) as Hl1
      by (by rewrite length_cons, length_seqZ).
    split_and!; [by rewrite Hl1|simpl node_indexes; by rewrite length_reverse| |by rewrite Hl1|done].
    apply take_ge. simpl node_indexes. by rewrite length_reverse. }
  erewrite pop_spec; [|simpl; by rewrite lookup_insert_eq|exact Hfull].
  eexists. split; [done|].
  match goal with |- idx_ok _ ?s' _ ∧ _ => assert (idx_step r s s') as Hst end.
  { apply (idx_step_intro (mk_root (ix_used x + 0x1fe) p)); simpl; rewrite ?k_live_root_upd.
    - by destruct r.
    - intros Hm. split; [by destruct Hm|]. intros q. rewrite insert_insert_eq.
      intros Hs%mem_insert_node; [|by eauto]. split; [by apply (mem_nodes _ Hm)|by left].
    - auto.
    - intros q Hq. destruct (decide (q = p)) as [->|].
      + left. eapply (index_page_chain s _ p [] []); try done. by left.
      + right. by rewrite !lookup_insert_ne. }
  eapply (idx_ok_popped s _ _ _ p (ix_used x) (seqZ (ix_used x + 1) 0x1fd) []); [done|..].
  - rewrite !root_at_set_nodes. by eapply root_at_upd.
  - simpl. by rewrite lookup_insert_eq.
  - done.
  - done.
  - set_solver.
  - constructor.
  - constructor.
  - done.
  - set_solver.
  - intros q ->%list_elem_of_singleton. simpl. by rewrite k_live_root_upd.
  - by rewrite app_nil_r.
  - simpl. by rewrite k_live_root_upd.
Qed.

Lemma get_next s x p p2 free2 cs nd :
  root_at r s = Some (mk_root (ix_used x) p) → k_nodes s !! p = Some nd →
  node_holds nd [] p2 → p ≠ NULL → NoDup (p :: p2 :: cs.*1) →
  Forall (λ c, length c.2 = 0x1fe%nat) ((p2, free2) :: cs) →
  chunks_ok (k_nodes s) ((p2, free2) :: cs) →
  (∀ q, q ∈ p :: p2 :: cs.*1 → q ∈ k_live s ∧ only_node s q) →
  ix_free x = free2 ++ concat cs.*2 →
  ∃ s', run n c (anidxset_get r) s = Done (ix_get x).1 s' ∧ idx_ok r s' (ix_get x).2 ∧
    idx_step r s s' ∧ has_room r s' ∧ k_live s' ⊆ k_live s.
Proof.
  intros Hr Hp Hh Hp0 Hd Hf Hc Hq Hx. pose proof Hh as (Hcnt & _ & _ & _ & Hnext).
  pose proof Hf as [Hl2 _]%Forall_cons. pose proof Hc as Hc0. destruct Hc as (Hp20 & (nd2 & Hp2 & Hh2) & Hf2 & Hc2).
  apply NoDup_cons in Hd as [Hpc [Hp2c Hd]%NoDup_cons].
  unfold anidxset_get. isteps. unfold ix_get.
  rewrite Hx, Hcnt, decide_True by done. isteps. rewrite Hnext, decide_False by done. isteps.
  destruct free2 as [|i free2]; [done|].
  destruct (Hq p) as [Hpl Hop]; [by left|].
  unfold anscheduler_idxset_free.
  rewrite run_free by (rewrite k_live_root_upd; done).
  rewrite free_only_node by (by apply only_node_root_upd).
  rewrite run_ret_bind.
  assert (p2 ≠ p) by (intros ->; apply Hpc; by left).
  erewrite pop_spec; [|simpl; rewrite k_nodes_root_upd, lookup_delete_ne by done;
    exact Hp2|exact Hh2].
  eexists. split; [done|].
  match goal with |- idx_ok _ ?s' _ ∧ _ => assert (idx_step r s s') as Hst end.
  { apply (idx_step_intro (mk_root (ix_used x) p2)); simpl;
      rewrite ?k_live_root_upd, ?k_nodes_root_upd.
    - by destruct r.
    - intros Hm. split; [destruct Hm; set_solver|].
      intros q [<-|[_ [? Hq']]]%lookup_insert_is_Some.
      + split; [|by eauto]. apply elem_of_difference. destruct (Hq p2); [set_solver|]. set_solver.
      + apply lookup_delete_Some in Hq' as [? ?]. split; [|by eauto]. apply elem_of_difference.
        split; [apply (mem_nodes _ Hm); eauto|set_solver].
    - intros q Hql. destruct (decide (q = p)) as [->|]; [left; eauto|]. right. set_solver.
    - intros q Hql. destruct (decide (q = p ∨ q = p2)) as [Hqp|Hqp].
      + left. eapply (index_page_chain s _ p [] ((p2, i :: free2) :: cs)); try done. set_solver.
      + right. split; [set_solver|]. rewrite lookup_insert_ne, lookup_delete_ne by naive_solver. done. }
  eapply (idx_ok_popped s _ _ _ p2 i free2 cs); [done|..]; try done.
  - destruct r; apply (root_at_upd _ _ _ (mk_root (ix_used x) p2) Hr).
  - simpl. by rewrite lookup_insert_eq.
  - intros q Hin. simpl. rewrite k_nodes_root_upd.
    rewrite lookup_insert_ne, lookup_delete_ne; [done| |]; intros <-; [|done].
    apply Hpc. by right.
  - intros q Hin. simpl. rewrite k_live_root_upd.
    destruct (Hq q) as [? ?]; [by right|]. split; [|done].
    apply elem_of_difference. split; [done|].
    intros ->%elem_of_singleton. by apply Hpc.
  - simpl. rewrite k_live_root_upd. set_solver.
Qed.

Lemma get_pop s x p i free cs nd :
  root_at r s = Some (mk_root (ix_used x) p) → k_nodes s !! p = Some nd →
  node_holds nd (i :: free) (hd0 NULL cs.*1) → p ≠ NULL → NoDup (p :: cs.*1) →
  Forall (λ c, length c.2 = 0x1fe%nat) cs → chunks_ok (k_nodes s) cs →
  (∀ q, q ∈ p :: cs.*1 → q ∈ k_live s ∧ only_node s q) →
  ix_free x = i :: free ++ concat cs.*2 →
  ∃ s', run n c (anidxset_get r) s = Done (ix_get x).1 s' ∧ idx_ok r s' (ix_get x).2 ∧
    idx_step r s s' ∧ has_room r s' ∧ k_live s' ⊆ k_live s.
Proof.
  intros Hr Hp Hh Hp0 [Hpc Hd]%NoDup_cons Hf Hc Hq Hx.
  pose proof Hh as (Hcnt & _). simpl in Hcnt.
  unfold anidxset_get. isteps. unfold ix_get. rewrite Hx, decide_False by lia.
  rewrite run_ret_bind. erewrite pop_spec by done. eexists. split; [done|].
  match goal with |- idx_ok _ ?s' _ ∧ _ => assert (idx_step r s s') as Hst end.
  { apply idx_step_nodes; [eauto| |].
    - intros Hm q. by apply mem_insert_node; eauto.
    - intros q. destruct (decide (q = p)) as [->|]; [left|right; by rewrite lookup_insert_ne].
      eapply (index_page_chain s _ p (i :: free) cs); try done. by left. }
  eapply (idx_ok_popped s _ _ _ p i free cs); [done|..].
  - by rewrite root_at_set_nodes.
  - simpl. by rewrite lookup_insert_eq.
  - done.
  - done.
  - done.
  - done.
  - done.
  - done.
  - intros q Hin. simpl. rewrite lookup_insert_ne; [done|]. by intros ->.
  - done.
  - done.
  - done.
Qed.

(** [anidxset_get] implements [ix_get]. *)
Lemma get_room_spec s x :
  idx_ok r s x → 0 ≤ ix_used x → ix_used x + 0x1fe < 2 ^ 64 →
  ∃ s', run n c (anidxset_get r) s = Done (ix_get x).1 s' ∧ idx_ok r s' (ix_get x).2 ∧
    idx_step r s s' ∧ has_room r s' ∧ k_live s' ⊆ k_live s.
Proof.
  intros Hok Hu Hb.
  destruct (idx_ok_inv _ _ Hok) as
    (p & free & cs & nd & Hr & Hp & Hh & Hp0 & Hpc & Hd & Hf & Hc & Hq & Hx).
  destruct free as [|i free]; [destruct cs as [|[p2 free2] cs]|].
  - destruct (Hq p); [set_solver|]. by eapply get_refill.
  - eapply get_next; try done. by apply NoDup_cons.
  - eapply get_pop; try done. by apply NoDup_cons.
Qed.

Lemma get_spec s x :
  idx_ok r s x → 0 ≤ ix_used x → ix_used x + 0x1fe < 2 ^ 64 →
  ∃ s', run n c (anidxset_get r) s = Done (ix_get x).1 s' ∧ idx_ok r s' (ix_get x).2 ∧
    idx_step r s s'.
Proof. intros. destruct (get_room_spec s x) as (s' & ? & ? & ? & _ & _); eauto. Qed.

(** *** Putting an index back *)

Lemma put_room s x v p free cs nd :
  root_at r s = Some (mk_root (ix_used x) p) → k_nodes s !! p = Some nd →
  node_holds nd free (hd0 NULL cs.*1) → p ≠ NULL → NoDup (p :: cs.*1) →
  Forall (λ c, length c.2 = 0x1fe%nat) cs → chunks_ok (k_nodes s) cs →
  (∀ q, q ∈ p :: cs.*1 → q ∈ k_live s ∧ only_node s q) →
  ix_free x = free ++ concat cs.*2 → (length free < 0x1fe)%nat →
  ∃ s', run n c (node ← rd_root r root_first; count ← rd node node_count;
                 wr node (set_node_count (u64 (count + 1)));;
                 wr_index node count v;; mret true) s = Done true s' ∧
    idx_ok r s' (ix_put v x) ∧ idx_step r s s' ∧ k_live s' = k_live s.
Proof.
  intros Hr Hp Hh Hp0 [Hpc Hd]%NoDup_cons Hf Hc Hq Hx Hlt.
  pose proof Hh as (Hcnt & _). isteps.
  rewrite (u64_small (node_count nd + 1)) by lia. isteps.
  eexists. split; [done|].
  match goal with |- idx_ok _ ?s' _ ∧ _ => assert (idx_step r s s') as Hst end.
  { match goal with |- idx_step _ _ ?s2 => change s2 with (set_k_nodes (k_nodes s2) s) end.
    apply idx_step_nodes; [eauto| |]; simpl; rewrite insert_insert_eq.
    - intros Hm q. by apply mem_insert_node; eauto.
    - intros q. destruct (decide (q = p)) as [->|]; [left|right; by rewrite lookup_insert_ne].
      eapply (index_page_chain s _ p free cs); try done. by left. }
  split; [|done].
  eapply (idx_ok_head s _ _ _ p (v :: free) cs); [done|..]; simpl.
  - by rewrite root_at_set_nodes.
  - by rewrite lookup_insert_eq.
  - by apply node_holds_push.
  - done.
  - done.
  - done.
  - done.
  - done.
  - intros q Hin. rewrite !lookup_insert_ne; [done|by intros ->..].
  - done.
  - unfold ix_put. by rewrite Hx.
Qed.

End specs.

(** *** Allocating pages *)
Section alloc.
Context `{Platform, !PlatformOk _} (n c : nat) (r : root_ptr).

Lemma fresh_only_node s p : mem_ok s → p ∉ k_live s → only_node s p.
Proof.
  intros [] Hp. unfold only_node.
  split_and!; apply eq_None_not_Some; intros ?; apply Hp; auto.
Qed.

(** The page the next allocation yields, and the memory after it. *)
Definition new_page (s : kst) : Z := plat_alloc (k_nallocs s) (k_live s) 0x1000.

Definition with_page (s : kst) : kst :=
  set_k_nodes (<[new_page s := plat_junk_node (new_page s)]> (k_nodes s))
    (set_k_nallocs (S (k_nallocs s)) (set_k_live ({[new_page s]} ∪ k_live s) s)).

Lemma run_new_page {A} (k : Z → prog A) s :
  run n c (anscheduler_idxset_alloc ≫= k) s =
  if decide (new_page s = NULL)
  then run n c (k NULL) (set_k_nallocs (S (k_nallocs s)) s)
  else run n c (k (new_page s)) (with_page s).
Proof.
  unfold anscheduler_idxset_alloc. rewrite run_alloc_as. cbv zeta.
  fold (new_page s). case_decide as Hp.
  - by rewrite alloc_step_null, Hp.
  - rewrite alloc_step_some by done. done.
Qed.

Lemma root_at_with_page s : root_at r (with_page s) = root_at r s.
Proof. by destruct r. Qed.

Lemma idx_ok_null s x : idx_ok r s x → idx_ok r (set_k_nallocs (S (k_nallocs s)) s) x.
Proof. intros (cs & Hr & ?). exists cs. split; [|done]. by destruct r. Qed.

Lemma idx_step_null s x : idx_ok r s x → idx_step r s (set_k_nallocs (S (k_nallocs s)) s).
Proof.
  intros (cs & Hr & _). eapply (idx_step_intro r); [|intros []; eauto|auto|auto].
  rewrite root_upd_id by done. by destruct s.
Qed.

(** A new page in front of the chain. *)
Lemma put_new_page s x v p free cs nd :
  mem_ok s → new_page s ≠ NULL →
  root_at r s = Some (mk_root (ix_used x) p) → k_nodes s !! p = Some nd →
  node_holds nd free (hd0 NULL cs.*1) → p ≠ NULL → NoDup (p :: cs.*1) →
  Forall (λ c, length c.2 = 0x1fe%nat) cs → chunks_ok (k_nodes s) cs →
  (∀ q, q ∈ p :: cs.*1 → q ∈ k_live s ∧ only_node s q) →
  ix_free x = free ++ concat cs.*2 → length free = 0x1fe%nat →
  ∃ s', run n c (wr (new_page s) (set_node_count 1);;
                 wr (new_page s) (set_node_next p);;
                 wr_index (new_page s) 0 v;;
                 wr_root r (set_root_first (new_page s));; mret true) (with_page s)
        = Done true s' ∧
    idx_ok r s' (ix_put v x) ∧ idx_step r s s' ∧ k_live s' = {[new_page s]} ∪ k_live s.
Proof.
  intros Hm Hnew Hr Hp Hh Hp0 Hd Hf Hc Hq Hx Hfull.
  assert (new_page s ∉ k_live s) as Hfresh by (by apply plat_alloc_fresh).
  assert (new_page s ∉ p :: cs.*1) as Hnp by (intros Hin; by destruct (Hq _ Hin)).
  assert (root_at r (with_page s) = Some (mk_root (ix_used x) p)) as Hr'
    by (by rewrite root_at_with_page).
  pose proof (plat_junk_node_length (new_page s)) as Hjunk.
  isteps. unfold nth_set. rewrite !insert_insert_eq.
  match goal with |- ∃ s', Done true ?s2 = Done true s' ∧ _ => exists s2 end.
  split; [done|].
  match goal with |- _ ∧ idx_step r s ?s2 ∧ _ => assert (idx_step r s s2) as Hst end.
  { apply (idx_step_intro r (mk_root (ix_used x) (new_page s))); simpl;
      rewrite ?k_live_root_upd.
    - by destruct r.
    - intros [H0 ? ? ? ? ? ? ? Hnodes ?]. split; [simpl; set_solver|]. simpl.
      intros q [<-|[_ ?]]%lookup_insert_is_Some; (split; [set_solver|auto]).
    - intros q ?. right. simpl. set_solver.
    - intros q ?. right. split; [set_solver|]. rewrite lookup_insert_ne; [done|]. by intros <-. }
  split; [|split; [done|simpl; by rewrite k_live_root_upd]].
  eapply (idx_ok_head r s _ (ix_used x) _ (new_page s) [v] ((p, free) :: cs)); [done|..]; simpl.
  - destruct r; apply (root_at_upd _ _ _ (mk_root (ix_used x) (new_page s)) Hr').
  - by rewrite lookup_insert_eq.
  - split_and!; simpl; try done; [by rewrite length_insert|by destruct (node_indexes _)|lia].
  - done.
  - done.
  - done.
  - by apply Forall_cons.
  - split_and!; eauto.
  - intros q Hin. rewrite lookup_insert_ne; [done|by intros <-].
  - intros q Hin. rewrite k_live_root_upd. simpl.
    apply elem_of_cons in Hin as [->|Hin]; [split; [set_solver|by apply fresh_only_node]|].
    destruct (Hq q Hin). set_solver.
  - unfold ix_put. rewrite Hx. done.
Qed.

(** [anidxset_put] implements [ix_put], or leaves the set alone for want of
    memory. Only a set without room takes a page. *)
Lemma put_spec_live s x v :
  mem_ok s → idx_ok r s x →
  ∃ b s', run n c (anidxset_put r v) s = Done b s' ∧
    idx_ok r s' (if b then ix_put v x else x) ∧ idx_step r s s' ∧
    (new_page s ≠ NULL ∨ has_room r s → b = true) ∧
    (k_live s' = k_live s ∨ ¬ has_room r s ∧ k_live s' = {[new_page s]} ∪ k_live s).
Proof.
  intros Hm Hok. destruct (idx_ok_inv r _ _ Hok) as
    (p & free & cs & nd & Hr & Hp & Hh & Hp0 & Hpc & Hd & Hf & Hc & Hq & Hx).
  pose proof Hh as (Hcnt & _ & _ & Hle & _).
  assert (NoDup (p :: cs.*1)) as Hd' by (by apply NoDup_cons).
  unfold anidxset_put. erewrite run_rd_root by done. erewrite run_rd by done.
  rewrite Hcnt. unfold ANIDXSET_NODE_CAPACITY.
  destruct (decide (length free = 0x1fe%nat)) as [Hfull|Hnf].
  - assert (¬ has_room r s) as Hfl.
    { intros (o & nd' & Hr' & Hn' & Hlt). simplify_eq. simpl in Hn'.
      simplify_eq. unfold ANIDXSET_NODE_CAPACITY in Hlt. lia. }
    rewrite decide_True by lia. rewrite run_new_page.
    destruct (decide (new_page s = NULL)) as [Hnull|Hnew].
    + exists false. eexists. split; [done|].
      split_and!; [by apply idx_ok_null|by eapply idx_step_null| |by left].
      intros [?|?]; [done|by destruct Hfl].
    + destruct (put_new_page s x v p free cs nd) as (s' & ? & ? & ? & ?); try done.
      exists true, s'. split_and!; try done. by right.
  - rewrite decide_False by lia.
    destruct (put_room n c r s x v p free cs nd) as (s' & Hrun & ? & ? & ?); try done; [lia|].
    exists true, s'. split_and!; try done; [|by left].
    revert Hrun. erewrite run_rd_root by done. erewrite run_rd by done.
    done.
Qed.

Lemma put_spec s x v :
  mem_ok s → idx_ok r s x →
  ∃ b s', run n c (anidxset_put r v) s = Done b s' ∧
    idx_ok r s' (if b then ix_put v x else x) ∧ idx_step r s s' ∧
    (new_page s ≠ NULL ∨ has_room r s → b = true).
Proof.
  intros Hm Hok. destruct (put_spec_live s x v Hm Hok) as (b & s' & ? & ? & ? & ? & _). eauto 7.
Qed.

(** *** Initialisation *)

Lemma new_page_root_upd v s : new_page (root_upd r v s) = new_page s.
Proof. by destruct r. Qed.

Lemma with_page_root_upd v s : with_page (root_upd r v s) = root_upd r v (with_page s).
Proof. by destruct r. Qed.

(** The loop of [anidxset_initialize]. *)
Definition init_inv (p : Z) (s : kst) (j : Z) (s' : kst) : Prop :=
  ∃ idx, length idx = 0x1fe%nat ∧
    (∀ k, Z.of_nat k < j → idx !! k = Some (0 + 0x1fd - Z.of_nat k)) ∧
    s' = set_k_nodes (<[p := mk_node 0x1fe idx 0]> (k_nodes s)) s.

Lemma init_loop p s nd :
  k_nodes s !! p = Some nd → length (node_indexes nd) = 0x1fe%nat →
  node_count nd = 0x1fe → node_next nd = 0 →
  run n c (for_each (Z.to_nat ANIDXSET_NODE_CAPACITY) 0 (λ i,
    wr_index p i (ANIDXSET_NODE_CAPACITY - 1 - i))) s =
  Done () (set_k_nodes (<[p := mk_node 0x1fe (reverse (seqZ 0 0x1fe)) 0]> (k_nodes s)) s).
Proof.
  intros Hp Hl Hc Hn.
  match goal with |- run _ _ (for_each ?k ?i ?b) ?s1 = _ =>
    destruct (run_for_each n c k b (init_inv p s) i s1) as (s' & Hrun & idx & Hli & Hidx & Hs')
  end.
  - exists (node_indexes nd). split_and!; [done|intros; lia|].
    replace (mk_node _ _ _) with nd by (destruct nd; simpl in *; congruence).
    rewrite insert_id by done. by destruct s.
  - intros j s' Hj (idx & Hli & Hidx & ->). change (Z.to_nat _) with 0x1fe%nat in Hj.
    rewrite (run_tail n c). isteps. eexists. split; [done|].
    exists (nth_set idx j (0x1fd - j)). unfold nth_set.
    split_and!; [by rewrite length_insert| |by rewrite insert_insert_eq].
    intros k Hk. destruct (decide (k = Z.to_nat j)) as [->|].
    + rewrite list_lookup_insert_eq by lia. f_equal. lia.
    + rewrite list_lookup_insert_ne by done. apply Hidx; lia.
  - rewrite Hrun, Hs'. change (0 + Z.of_nat _) with 0x1fe in *.
    rewrite (page_of_indexes 0 idx); [done|done|]. intros k Hk. apply Hidx. lia.
Qed.

(** The memory with the first page of indexes, in order. *)
Definition initialized (s : kst) : kst :=
  set_k_nodes (<[new_page s := mk_node 0x1fe (reverse (seqZ 0 0x1fe)) 0]> (k_nodes s))
    (set_k_live ({[new_page s]} ∪ k_live s) (set_k_nallocs (S (k_nallocs s))
      (root_upd r (mk_root ANIDXSET_NODE_CAPACITY (new_page s)) s))).

Lemma root_at_initialized s o :
  root_at r s = Some o →
  root_at r (initialized s) = Some (mk_root ANIDXSET_NODE_CAPACITY (new_page s)).
Proof.
  intros Hr. unfold initialized. rewrite root_at_set_nodes.
  destruct r; apply (root_at_upd _ _ _ _ Hr).
Qed.

Lemma run_initialize s o :
  root_at r s = Some o → new_page s ≠ NULL →
  run n c (anidxset_initialize r) s = Done true (initialized s).
Proof.
  intros Hr Hnew. pose proof (plat_junk_node_length (new_page s)) as Hjunk.
  unfold anidxset_initialize. isteps. unfold ANIDXSET_NODE_CAPACITY at 1.
  rewrite run_new_page, new_page_root_upd, decide_False by done.
  erewrite run_wr_root by (rewrite root_at_with_page; by eapply root_at_upd).
  rewrite decide_False by done. rewrite with_page_root_upd, root_upd_upd.
  set (s1 := root_upd r _ (with_page s)).
  assert (k_nodes s1 !! new_page s = Some (plat_junk_node (new_page s))) as Hj.
  { unfold s1. rewrite k_nodes_root_upd. simpl. by rewrite lookup_insert_eq. }
  assert (root_at r s1 = Some (mk_root ANIDXSET_NODE_CAPACITY (new_page s))) as Hr1.
  { destruct o. eapply root_at_upd. rewrite root_at_with_page. exact Hr. }
  isteps. erewrite run_call.
  2:{ eapply (init_loop (new_page s)); simpl; [by rewrite lookup_insert_eq|done..]. }
  isteps. rewrite !insert_insert_eq. f_equal. unfold s1, initialized.
  destruct o. rewrite k_nodes_root_upd. simpl. rewrite insert_insert_eq. by destruct r.
Qed.

Lemma initialized_step s o :
  mem_ok s → root_at r s = Some o → new_page s ≠ NULL → idx_step r s (initialized s).
Proof.
  intros Hm Hr Hnew. assert (new_page s ∉ k_live s) as Hfresh by (by apply plat_alloc_fresh).
  apply (idx_step_intro r (mk_root ANIDXSET_NODE_CAPACITY (new_page s))); [done|simpl..].
  - intros [H0 ? ? ? ? ? ? ? Hnodes ?]. split; [set_solver|].
    intros q [<-|[_ ?]]%lookup_insert_is_Some; (split; [set_solver|auto]).
  - intros q ?. right. set_solver.
  - intros q ?. right. split; [set_solver|]. rewrite lookup_insert_ne; [done|]. by intros <-.
Qed.

(** [anidxset_initialize] yields the first page of indexes, in order. *)
Lemma initialized_ok s o :
  mem_ok s → root_at r s = Some o → new_page s ≠ NULL → idx_ok r (initialized s) ix_init.
Proof.
  intros Hm Hr Hnew. assert (new_page s ∉ k_live s) as Hfresh by (by apply plat_alloc_fresh).
  eapply (idx_ok_head r s _ _ _ (new_page s) (seqZ 0 0x1fe) []); [by eapply initialized_step|..]; simpl.
  - by eapply root_at_initialized.
  - by rewrite lookup_insert_eq.
  - by split_and!.
  - done.
  - set_solver.
  - constructor.
  - constructor.
  - done.
  - set_solver.
  - intros q ->%list_elem_of_singleton. split; [|by apply fresh_only_node]. set_solver.
  - done.
Qed.

Lemma initialized_page s o q :
  root_at r s = Some o → new_page s ≠ NULL → index_page r (initialized s) q → q = new_page s.
Proof.
  intros Hr Hnew (u & cs & Hr' & Hc & Hq).
  rewrite (root_at_initialized s o Hr) in Hr'. injection Hr' as _ Hhd.
  destruct cs as [|[p free] cs]; [by apply not_elem_of_nil in Hq|].
  change (new_page s = p) in Hhd. subst p.
  destruct Hc as (_ & (nd & Hnd & _ & _ & _ & _ & Hn) & _ & Hc). simpl in Hnd.
  rewrite lookup_insert_eq in Hnd. injection Hnd as <-. simpl in Hn, Hq.
  destruct cs as [|[p2 free2] cs]; [by apply list_elem_of_singleton in Hq|].
  destruct Hc as (Hp2 & _). by destruct Hp2.
Qed.

Lemma initialize_spec s o :
  mem_ok s → root_at r s = Some o → new_page s ≠ NULL →
  ∃ s', run n c (anidxset_initialize r) s = Done true s' ∧ idx_ok r s' ix_init ∧
    idx_step r s s'.
Proof.
  intros Hm Hr Hnew. exists (initialized s).
  split; [by eapply run_initialize|]. split; [by eapply initialized_ok|by eapply initialized_step].
Qed.

(** Without memory for a page the initialisation reports failure. *)
Lemma initialize_fails s o :
  root_at r s = Some o → new_page s = NULL →
  run n c (anidxset_initialize r) s =
  Done false (root_upd r (mk_root ANIDXSET_NODE_CAPACITY NULL)
    (set_k_nallocs (S (k_nallocs s)) s)).
Proof.
  intros Hr Hnull. unfold anidxset_initialize. isteps.
  rewrite run_new_page, new_page_root_upd, decide_True by done.
  assert (∀ v, root_at r (set_k_nallocs (S (k_nallocs (root_upd r v s))) (root_upd r v s))
    = Some v) as Hr1 by (intros v; destruct r; apply (root_at_upd _ _ _ v Hr)).
  erewrite run_wr_root by apply Hr1. rewrite decide_True by done.
  destruct o. rewrite run_ret. f_equal.
  transitivity (root_upd r (mk_root ANIDXSET_NODE_CAPACITY NULL)
    (root_upd r (mk_root ANIDXSET_NODE_CAPACITY root_first) (set_k_nallocs (S (k_nallocs s)) s))).
  - by destruct r.
  - by rewrite root_upd_upd.
Qed.

End alloc.

(** *** Freeing *)

(** Freeing the pages of a chain, first to last. *)
Definition free_pages (ps : list Z) (s : kst) : kst := fold_left (λ s p, free_step p s) ps s.

(** [idx_ok], with the pages [ps] of the chain. *)
Definition idx_at (r : root_ptr) (s : kst) (x : idxset) (ps : list Z) : Prop :=
  ∃ cs, ps = cs.*1 ∧ root_at r s = Some (mk_root (ix_used x) (hd0 NULL cs.*1)) ∧
    cs ≠ [] ∧ chunks_ok (k_nodes s) cs ∧ NoDup cs.*1 ∧
    (∀ p, p ∈ cs.*1 → p ∈ k_live s ∧ only_node s p) ∧ ix_free x = concat cs.*2.

Lemma idx_at_ok r s x ps : idx_at r s x ps → idx_ok r s x.
Proof. intros (cs & _ & Hc). by exists cs. Qed.

Lemma free_spec n c r s x ps :
  idx_at r s x ps → (length ps < n)%nat → run n c (anidxset_free r) s = Done () (free_pages ps s).
Proof.
  intros (cs & -> & Hr & Hne & Hc & Hd & Hq & Hx).
  intros Hn. unfold anidxset_free. erewrite run_rd_root by done. simpl root_first.
  rewrite run_tail, run_while.
  assert (∀ p, p ∈ cs.*1 → p ∈ k_live s) as Hl by (intros p Hp; by apply Hq).
  clear Hr Hne Hq Hx x.
  revert Hn. generalize n at 1 2 as m. intros m. revert m s Hc Hl.
  induction cs as [|[p free] cs IH]; intros m s Hc Hl Hm; (destruct m as [|m]; [simpl in Hm; lia|]).
  - rewrite iterate_S. done.
  - destruct Hc as (Hp0 & (nd & Hp & Hh) & _ & Hc). simpl in Hd.
    apply NoDup_cons in Hd as [Hpc Hd].
    rewrite iterate_S. simpl. rewrite decide_True by done. erewrite run_rd by done.
    unfold anscheduler_idxset_free. rewrite run_free by (apply Hl; simpl; set_solver).
    rewrite run_ret. destruct Hh as (_ & _ & _ & _ & ->).
    apply IH; try done.
    + eapply chunks_ok_ext; [|exact Hc]. intros q Hq. simpl.
      rewrite lookup_delete_ne; [done|]. by intros ->.
    + intros q Hq. simpl. apply elem_of_difference. split; [apply Hl; simpl; set_solver|].
      intros ->%elem_of_singleton. done.
    + change (S (length cs.*1) < S m)%nat in Hm. lia.
Qed.

(** The chain does not care about memory elsewhere. *)
Lemma chunks_ok_lookup m cs p : chunks_ok m cs → p ∈ cs.*1 → is_Some (m !! p).
Proof.
  induction cs as [|[q free] cs IH]; [set_solver|]. intros (_ & (nd & Hq & _) & _ & Hc).
  simpl. intros [->|Hp]%elem_of_cons; eauto.
Qed.

(** A chain is determined by its first page. *)
Lemma chunks_ok_unique m cs : ∀ cs', chunks_ok m cs → chunks_ok m cs' →
  hd0 NULL cs.*1 = hd0 NULL cs'.*1 → cs.*1 = cs'.*1.
Proof.
  induction cs as [|[p free] cs IH]; intros [|[p' free'] cs']; simpl; [done| | |].
  - intros _ (Hp & _) Hhd. by destruct Hp.
  - intros (Hp & _) _ Hhd. by destruct Hp.
  - intros (_ & (nd & Hp & _ & _ & _ & _ & Hn) & _ & Hc) (_ & (nd' & Hp' & _ & _ & _ & _ & Hn') & _ & Hc') Hhd.
    change (p = p') in Hhd. subst p'. rewrite Hp in Hp'. injection Hp' as <-. f_equal.
    apply IH; [done|done|congruence].
Qed.

Lemma index_page_in r s q u cs :
  root_at r s = Some (mk_root u (hd0 NULL cs.*1)) → chunks_ok (k_nodes s) cs →
  index_page r s q → q ∈ cs.*1.
Proof.
  intros Hr Hc (u' & cs' & Hr' & Hc' & Hq). rewrite Hr in Hr'. injection Hr' as _ Hhd.
  by rewrite (chunks_ok_unique _ _ _ Hc Hc' Hhd).
Qed.

Lemma index_page_live r s x q :
  idx_ok r s x → index_page r s q → q ∈ k_live s ∧ is_Some (k_nodes s !! q).
Proof.
  intros (cs & Hr & _ & Hc & _ & Hl & _) Hq. pose proof (index_page_in _ _ _ _ _ Hr Hc Hq) as Hin.
  split; [by apply Hl|by eapply chunks_ok_lookup].
Qed.

(** Operations on one set leave the sets with other pages alone. *)
Lemma idx_ok_apart r r' s s' x :
  idx_ok r' s x → root_at r' s' = root_at r' s → idx_step r s s' →
  (∀ q, index_page r s q → index_page r' s q → False) → idx_ok r' s' x.
Proof.
  intros (cs & Hr & Hne & Hc & Hd & Hl & Hx) Hr' [[v Hs'] (_ & _ & Hf)] Hap.
  assert (∀ q, q ∈ cs.*1 → q ∈ k_live s' ∧ k_nodes s' !! q = k_nodes s !! q) as Hq.
  { intros q Hq. destruct (Hf q) as [Hp|?]; [by apply Hl| |done].
    destruct (Hap q Hp). by exists (ix_used x), cs. }
  exists cs. rewrite Hr'. split_and!; try done.
  - eapply chunks_ok_ext; [|done]. intros q ?. by apply Hq.
  - intros q Hin. split; [by apply Hq|]. destruct (Hl q Hin) as [_ Ho].
    apply (only_node_root_upd r v) in Ho. rewrite Hs'. exact Ho.
Qed.

Lemma idx_ok_frame r s s' x :
  idx_ok r s x → root_at r s' = root_at r s →
  (∀ p, p ∈ k_live s → k_nodes s' !! p = k_nodes s !! p) →
  (∀ p, p ∈ k_live s → only_node s p → is_Some (k_nodes s !! p) →
     p ∈ k_live s' ∧ only_node s' p) →
  idx_ok r s' x.
Proof.
  intros (cs & Hr & Hne & Hc & Hd & Hq & Hx) Hr' Hn Hl. exists cs. rewrite Hr'.
  split_and!; try done.
  - eapply chunks_ok_ext; [|done]. intros p Hp. apply Hn. by apply Hq.
  - intros p Hp. apply Hl; [by apply Hq..|]. by eapply chunks_ok_lookup.
Qed.

Lemma idx_ok_locks r s x L : idx_ok r s x → idx_ok r (set_k_locks L s) x.
Proof. intros (cs & Hr & Hc). exists cs. split; [by destruct r|exact Hc]. Qed.

(** ** The abstract set *)

Lemma ix_get_ok x : ix_ok x → ix_ok (ix_get x).2.
Proof.
  intros (Hd & Hr & Hu). unfold ix_get. destruct (ix_free x) as [|i free] eqn:Hf.
  - split_and!; simpl; [apply NoDup_seqZ| |unfold ANIDXSET_NODE_CAPACITY; lia].
    intros i. rewrite elem_of_seqZ. unfold ANIDXSET_NODE_CAPACITY. lia.
  - apply NoDup_cons in Hd as [_ Hd]. split_and!; simpl; try done. set_solver.
Qed.

Lemma ix_get_fresh x : ix_ok x →
  ¬ ix_in_use (ix_get x).1 x ∧ ix_in_use (ix_get x).1 (ix_get x).2 ∧
  (∀ j, ix_in_use j x → ix_in_use j (ix_get x).2).
Proof.
  intros (Hd & Hr & Hu). unfold ix_get, ix_in_use. destruct (ix_free x) as [|i free] eqn:Hf; simpl.
  - setoid_rewrite elem_of_seqZ. unfold ANIDXSET_NODE_CAPACITY. split_and!; intros; lia.
  - apply NoDup_cons in Hd as [Hi Hd]. split_and!; [set_solver|apply Hr; set_solver..|done|].
    intros j [? Hj]. split; [done|set_solver].
Qed.

(** Which indexes are in use after taking one, and after giving it back. *)
Lemma ix_get_in_use x j : ix_ok x →
  ix_in_use j (ix_get x).2 ↔ ix_in_use j x ∨ j = (ix_get x).1.
Proof.
  intros (Hd & Hr & Hu). unfold ix_get, ix_in_use. destruct (ix_free x) as [|i free] eqn:Hf; simpl.
  - rewrite elem_of_seqZ. unfold ANIDXSET_NODE_CAPACITY. set_solver by lia.
  - apply NoDup_cons in Hd as [Hi Hd]. rewrite not_elem_of_cons. split.
    + intros [? ?]. destruct (decide (j = i)); auto.
    + intros [[? [? ?]]| ->]; [done|]. split; [apply Hr; set_solver|done].
Qed.

Lemma ix_get_put_in_use x j : ix_ok x →
  ix_in_use j (ix_put (ix_get x).1 (ix_get x).2) ↔ ix_in_use j x.
Proof.
  intros Hx. transitivity (ix_in_use j (ix_get x).2 ∧ j ≠ (ix_get x).1).
  - unfold ix_in_use, ix_put. simpl. rewrite not_elem_of_cons. naive_solver.
  - rewrite ix_get_in_use by done. destruct (ix_get_fresh x Hx) as (? & _ & _).
    split; [naive_solver|]. intros Hj. split; [auto|]. by intros ->.
Qed.

Lemma ix_put_ok x i : ix_ok x → ix_in_use i x → ix_ok (ix_put i x).
Proof.
  intros (Hd & Hr & Hu) [Hi Hin]. split_and!; simpl; [by apply NoDup_cons| |done].
  intros j [->|Hj]%elem_of_cons; auto.
Qed.

Lemma ix_init_ok : ix_ok ix_init.
Proof.
  split_and!; simpl; [apply NoDup_seqZ| |done]. intros i. rewrite elem_of_seqZ. done.
Qed.

(** [k] calls of [anidxset_get], and the indexes they yield. *)
Fixpoint get_many (r : root_ptr) (k : nat) : prog (list Z) :=
  match k with
  | O => mret []
  | S k => i ← anidxset_get r; l ← get_many r k; mret (i :: l)
  end.

(** A set from which the indexes below [ix_used - length ix_free] were taken in
    order and none was put back. *)
Definition in_order (u : Z) (x : idxset) : Prop :=
  ix_free x = seqZ u (ix_used x - u) ∧ 0 ≤ u ≤ ix_used x.

Lemma ix_get_in_order u x : in_order u x →
  (ix_get x).1 = u ∧ in_order (u + 1) (ix_get x).2 ∧
  ix_used (ix_get x).2 ≤ Z.max (ix_used x) (u + 0x1fe).
Proof.
  intros [Hf Hu]. unfold ix_get, in_order. destruct (decide (ix_used x = u)) as [He|He].
  - rewrite Hf, He, Z.sub_diag. simpl. unfold ANIDXSET_NODE_CAPACITY.
    split_and!; try lia. f_equal. lia.
  - rewrite Hf, seqZ_cons by lia. simpl. split_and!; try lia. f_equal; lia.
Qed.

(** The operations of the set keep the owner of the root and the heaps. *)
Section corr.
Context (n c : nat) (r : root_ptr).

(** C9. An index that is in use is never handed out again: [anidxset_get] yields an
    index that was not in use and is in use afterwards, keeps the representation
    well formed with every index free at most once, and keeps every index in use
    that was; pages are allocated, reused and freed as needed. *)
Theorem anidxset_get_never_reuses s x :
  idx_ok r s x → ix_ok x → ix_used x + 0x1fe < 2 ^ 64 →
  ∃ i s' x', run n c (anidxset_get r) s = Done i s' ∧ idx_ok r s' x' ∧ ix_ok x' ∧
    ¬ ix_in_use i x ∧ ix_in_use i x' ∧ (∀ j, ix_in_use j x → ix_in_use j x') ∧
    idx_step r s s'.
Proof.
  intros Hok Hx Hb. destruct (get_spec n c r s x Hok) as (s' & ? & ? & ?); [apply Hx|done|].
  destruct (ix_get_fresh x Hx) as (? & ? & ?). pose proof (ix_get_ok x Hx).
  exists (ix_get x).1, s', (ix_get x).2. auto 10.
Qed.

(** Indexes come in order: after [u] indexes were handed out and none given
    back, the next [k] calls yield [u], [u+1], ..., [u+k-1], across page refills. *)
Theorem anidxset_get_in_order k s x u :
  idx_ok r s x → in_order u x → ix_used x < 2 ^ 63 → u + Z.of_nat k + 0x1fe < 2 ^ 63 →
  ∃ s' x', run n c (get_many r k) s = Done (seqZ u (Z.of_nat k)) s' ∧
    idx_ok r s' x' ∧ in_order (u + Z.of_nat k) x'.
Proof.
  revert s x u. induction k as [|k IH]; intros s x u Hok Ho Hu Hk.
  - exists s, x. rewrite Z.add_0_r. done.
  - destruct (get_spec n c r s x Hok) as (s1 & Hrun1 & Hok1 & _); [destruct Ho; lia|lia|].
    destruct (ix_get_in_order u x Ho) as (Hi & Ho1 & Hu1).
    destruct (IH s1 _ (u + 1) Hok1 Ho1) as (s2 & x2 & Hrun2 & Hok2 & Ho2); [lia|lia|].
    exists s2, x2. split_and!; [|done|].
    + simpl. rewrite (run_call _ _ _ _ _ _ _ Hrun1), (run_call _ _ _ _ _ _ _ Hrun2).
      rewrite run_ret, Hi, (seqZ_cons u) by lia. do 3 f_equal; lia.
    + by replace (u + Z.of_nat (S k)) with (u + 1 + Z.of_nat k) by lia.
Qed.

End corr.

Section corr_alloc.
Context `{Platform, !PlatformOk _} (n c : nat) (r : root_ptr).

(** Putting an index back makes it the next one handed out, and the set is then
    as it was: [anidxset_put] followed by [anidxset_get] yields the same index. When
    there is no memory for a new page, [anidxset_put] fails and changes nothing. *)
Theorem anidxset_put_get s x i :
  mem_ok s → idx_ok r s x → ix_ok x → ix_in_use i x → ix_used x + 0x1fe < 2 ^ 64 →
  ∃ b s1, run n c (anidxset_put r i) s = Done b s1 ∧ (new_page s ≠ NULL → b = true) ∧
    if b then ix_ok (ix_put i x) ∧ ¬ ix_in_use i (ix_put i x) ∧
              ∃ s2, run n c (anidxset_get r) s1 = Done i s2 ∧ idx_ok r s2 x
    else idx_ok r s1 x.
Proof.
  intros Hm Hok Hx Hi Hb.
  destruct (put_spec n c r s x i Hm Hok) as (b & s1 & Hrun & Hok1 & _ & Hnew).
  exists b, s1. split; [done|]. split; [auto|]. destruct b; [|done].
  split; [by apply ix_put_ok|]. split; [intros [_ Hin]; apply Hin; simpl; set_solver|].
  destruct (get_spec n c r s1 (ix_put i x) Hok1) as (s2 & Hrun2 & Hok2 & _);
    [apply Hx|done|].
  exists s2. split; [done|]. by destruct x.
Qed.

(** A new set is either ready, with the indexes below 0x1fe free in order, or,
    when no page can be allocated, reported as a failure with nothing allocated. *)
Theorem anidxset_initialize_outcomes s o :
  mem_ok s → root_at r s = Some o →
  ∃ b s', run n c (anidxset_initialize r) s = Done b s' ∧
    if b then idx_ok r s' ix_init ∧ ix_ok ix_init ∧ in_order 0 ix_init
    else new_page s = NULL ∧ k_live s' = k_live s.
Proof.
  intros Hm Hr. destruct (decide (new_page s = NULL)) as [Hn|Hn].
  - exists false. eexists. split; [by eapply initialize_fails|].
    split; [done|]. by rewrite k_live_root_upd.
  - destruct (initialize_spec n c r s o Hm Hr Hn) as (s' & ? & ? & _).
    exists true, s'. split_and!; try done; apply ix_init_ok.
Qed.

End corr_alloc.

(** ** Witnesses *)

(** One untouched page. *)
Lemma demo_chain_ok r p s used :
  root_at r s = Some (mk_root used p) → k_nodes s !! p = Some demo_node → p ∈ k_live s →
  only_node s p → p ≠ NULL → idx_ok r s (mk_idxset used (seqZ 0 0x1fe)).
Proof.
  intros Hr Hn Hl Ho Hp. exists [(p, seqZ 0 0x1fe)].
  split; [done|]. split; [done|]. split.
  { split; [done|]. split; [|split; [constructor|done]].
    exists demo_node. split; [done|]. repeat split; vm_compute; congruence || lia. }
  split; [apply NoDup_singleton|]. split; [|by vm_compute].
  intros q ->%list_elem_of_singleton. done.
Qed.

Lemma demo_idx_ok killed refs : idx_ok (root_stacks 0x10000) (demo killed refs) ix_init.
Proof. eapply demo_chain_ok; first [reflexivity|by_dec|by split_and!]. Qed.

Lemma anidxset_get_never_reuses_witness :
  ∃ i s' x', run 1 0 (anidxset_get (root_stacks 0x10000)) (demo 0 2) = Done i s' ∧
    idx_ok (root_stacks 0x10000) s' x' ∧ ix_ok x' ∧
    ¬ ix_in_use i ix_init ∧ ix_in_use i x' ∧ (∀ j, ix_in_use j ix_init → ix_in_use j x') ∧
    idx_step (root_stacks 0x10000) (demo 0 2) s'.
Proof.
  apply (anidxset_get_never_reuses 1 0 (root_stacks 0x10000) (demo 0 2) ix_init).
  - apply demo_idx_ok.
  - apply ix_init_ok.
  - reflexivity.
Defined.

Lemma anidxset_get_in_order_witness :
  ∃ s' x', run 1 0 (get_many (root_stacks 0x10000) 600) (demo 0 2)
      = Done (seqZ 0 (Z.of_nat 600)) s' ∧
    idx_ok (root_stacks 0x10000) s' x' ∧ in_order (0 + Z.of_nat 600) x'.
Proof.
  apply (anidxset_get_in_order 1 0 (root_stacks 0x10000) 600 (demo 0 2) ix_init).
  - apply demo_idx_ok.
  - split; [reflexivity|done].
  - reflexivity.
  - reflexivity.
Defined.

Lemma anidxset_put_get_witness :
  ∃ b s1, run 1 0 (anidxset_put (H := P0) (root_stacks 0x10000) 0x1ff)
      (root_upd (root_stacks 0x10000) (mk_root 0x200 0x30000) (demo 0 2)) = Done b s1 ∧
    (new_page (H := P0) (demo 0 2) ≠ NULL → b = true) ∧
    if b then
      ix_ok (ix_put 0x1ff (mk_idxset 0x200 (seqZ 0 0x1fe))) ∧
      ¬ ix_in_use 0x1ff (ix_put 0x1ff (mk_idxset 0x200 (seqZ 0 0x1fe))) ∧
      ∃ s2, run 1 0 (anidxset_get (root_stacks 0x10000)) s1 = Done 0x1ff s2 ∧
        idx_ok (root_stacks 0x10000) s2 (mk_idxset 0x200 (seqZ 0 0x1fe))
    else idx_ok (root_stacks 0x10000) s1 (mk_idxset 0x200 (seqZ 0 0x1fe)).
Proof.
  apply (anidxset_put_get (H := P0) 1 0 (root_stacks 0x10000)
    (root_upd (root_stacks 0x10000) (mk_root 0x200 0x30000) (demo 0 2))
    (mk_idxset 0x200 (seqZ 0 0x1fe)) 0x1ff).
  - apply mem_ok_dom; [by_dec|]. repeat split; by_dec.
  - eapply demo_chain_ok; first [reflexivity|by_dec|by split_and!].
  - split_and!; [apply NoDup_seqZ| |done]. intros i. simpl. rewrite elem_of_seqZ. lia.
  - split; [done|]. simpl. rewrite elem_of_seqZ. lia.
  - reflexivity.
Defined.

Lemma anidxset_initialize_outcomes_witness :
  ∃ b s', run 1 0 (anidxset_initialize (H := P0) root_pidPool) (demo 0 2) = Done b s' ∧
    if b then idx_ok root_pidPool s' ix_init ∧ ix_ok ix_init ∧ in_order 0 ix_init
    else new_page (H := P0) (demo 0 2) = NULL ∧ k_live s' = k_live (demo 0 2).
Proof.
  apply (anidxset_initialize_outcomes (H := P0) 1 0 root_pidPool (demo 0 2) zero_root).
  - apply demo_mem_ok.
  - reflexivity.
Defined.
