(* ===== verification/RunQueue.v ===== *)
(** * RunQueue: the scheduling queue of src/loop.c

    The queue proper: [anscheduler_loop_push], [anscheduler_loop_delete],
    [_shift_thread], [_push_unconditional] and [anscheduler_loop_push_kernel]. The
    functions of loop.c that switch threads are in Loop.v. *)
From S2P Require Import Prelude Types Machine Demo.

Definition upd_loop (g : loop_globals → loop_globals) (s : kst) : kst :=
  set_k_loop (g (k_loop s)) s.

(** Reads and writes of the static variables of loop.c. *)
Definition get_firstThread : prog Z := gget (λ s, firstThread (k_loop s)).
Definition get_lastThread : prog Z := gget (λ s, lastThread (k_loop s)).
Definition get_queueCount : prog Z := gget (λ s, queueCount (k_loop s)).
Definition put_firstThread (v : Z) : prog () := gset_ (upd_loop (set_firstThread v)).
Definition put_lastThread (v : Z) : prog () := gset_ (upd_loop (set_lastThread v)).
Definition put_queueCount (v : Z) : prog () := gset_ (upd_loop (set_queueCount v)).

#[export] Hint Unfold get_firstThread get_lastThread get_queueCount
  put_firstThread put_lastThread put_queueCount : prog.

(** ** Operations *)

(** The part of [anscheduler_loop_push] under [loopLock]. *)
Definition loop_enqueue (thread : Z) : prog () :=
  anscheduler_lock loopLock;;
  last ← get_lastThread;
  (if decide (last ≠ NULL) then
     wr last (set_thread_queueNext thread);;
     wr thread (set_thread_queueLast last);;
     wr thread (set_thread_queueNext NULL);;
     put_lastThread thread
   else
     put_lastThread thread;;
     put_firstThread thread;;
     wr thread (set_thread_queueLast NULL);;
     wr thread (set_thread_queueNext NULL));;
  count ← get_queueCount;
  put_queueCount (u64 (count + 1));;
  anscheduler_unlock loopLock.

Definition anscheduler_loop_push (thread : Z) : prog () :=
  task ← rd thread thread_task;
  if decide (task ≠ NULL) then
    anscheduler_lock (killLock task);;
    killed ← rd task task_isKilled;
    if decide (killed ≠ 0) then anscheduler_unlock (killLock task)
    else anscheduler_unlock (killLock task);; loop_enqueue thread
  else loop_enqueue thread.

(** The part of [anscheduler_loop_delete] after the membership test. *)
Definition loop_unlink (thread : Z) : prog () :=
  first ← get_firstThread;
  (if decide (first = thread) then
     next ← rd thread thread_queueNext; put_firstThread next
   else mret ());;
  last ← get_lastThread;
  (if decide (last = thread) then
     prev ← rd thread thread_queueLast; put_lastThread prev
   else mret ());;
  prev ← rd thread thread_queueLast;
  (if decide (prev ≠ NULL) then
     next ← rd thread thread_queueNext; wr prev (set_thread_queueNext next)
   else mret ());;
  next ← rd thread thread_queueNext;
  (if decide (next ≠ NULL) then
     prev ← rd thread thread_queueLast; wr next (set_thread_queueLast prev)
   else mret ());;
  count ← get_queueCount;
  put_queueCount (u64 (count - 1));;
  anscheduler_unlock loopLock.

Definition anscheduler_loop_delete (thread : Z) : prog () :=
  anscheduler_lock loopLock;;
  next ← rd thread thread_queueNext;
  prev ← rd thread thread_queueLast;
  if decide (next = NULL ∧ prev = NULL) then
    first ← get_firstThread;
    if decide (thread ≠ first) then anscheduler_unlock loopLock
    else loop_unlink thread
  else loop_unlink thread.

Definition _shift_thread : prog Z :=
  th ← get_firstThread;
  next ← rd th thread_queueNext;
  put_firstThread next;;
  (if decide (next = NULL) then put_lastThread NULL
   else wr next (set_thread_queueLast NULL));;
  wr th (set_thread_queueLast NULL);;
  wr th (set_thread_queueNext NULL);;
  mret th.

Definition _push_unconditional (thread : Z) : prog () :=
  last ← get_lastThread;
  if decide (last ≠ NULL) then
    wr last (set_thread_queueNext thread);;
    wr thread (set_thread_queueLast last);;
    wr thread (set_thread_queueNext NULL);;
    put_lastThread thread
  else
    put_firstThread thread;;
    put_lastThread thread;;
    wr thread (set_thread_queueLast NULL);;
    wr thread (set_thread_queueNext NULL).

Definition anscheduler_loop_push_kernel `{Platform} (arg : Z) (fn : kernel_fn) : prog () :=
  thread ← anscheduler_alloc sizeof_thread_t;
  if decide (thread = NULL) then anscheduler_abort "Failed to allocate kernel thread"
  else
  stack ← anscheduler_alloc 0x1000;
  if decide (stack = NULL) then
    anscheduler_free thread;;
    anscheduler_abort "Failed to allocate kernel thread stack."
  else
  zero_as thread zero_thread;;
  wr thread (set_thread_stack stack);;
  anscheduler_set_state thread (u64 (stack + 0x1000)) fn arg;;
  anscheduler_loop_push thread.

(** ** The invariant *)

(** [queue_ok s q]: in memory [s] the scheduling queue is the list [q]. *)
Definition queue_ok (s : kst) (q : list Z) : Prop :=
  dll (fld (k_threads s) thread_queueNext) (fld (k_threads s) thread_queueLast) q ∧
  (∀ p, p ∈ q → is_Some (k_threads s !! p)) ∧
  firstThread (k_loop s) = hd0 NULL q ∧
  lastThread (k_loop s) = lst NULL q ∧
  queueCount (k_loop s) = u64 (Z.of_nat (length q)).

(** A thread without its two queue links: what queue operations preserve. *)
Definition thread_body (t : thread_t) : thread_t :=
  set_thread_queueNext NULL (set_thread_queueLast NULL t).

(** Two heaps of threads that differ in queue links only. *)
Definition threads_agree (m m' : gmap Z thread_t) : Prop :=
  ∀ p, thread_body <$> m !! p = thread_body <$> m' !! p.

(** [untouched q s s']: threads outside [q] are the same in both memories. *)
Definition untouched (q : list Z) (s s' : kst) : Prop :=
  ∀ p, p ∉ q → k_threads s' !! p = k_threads s !! p.

(** Threads that are not queued have null queue links, which is what the
    membership test of [anscheduler_loop_delete] relies on. *)
Definition clean (s : kst) (q : list Z) : Prop :=
  ∀ p th, k_threads s !! p = Some th → p ∉ q →
    thread_queueNext th = NULL ∧ thread_queueLast th = NULL.

(** May this thread be pushed without finding its task killed? *)
Definition pushable (s : kst) (t : thread_t) : Prop :=
  thread_task t = NULL ∨
  ∃ tk, k_tasks s !! thread_task t = Some tk ∧ task_isKilled tk = 0 ∧
        killLock (thread_task t) ∉ k_locks s.

(** ** Lemmas *)

#[export] Instance threads_agree_equiv : Equivalence threads_agree.
Proof.
  split; unfold threads_agree; [done|by intros ???|intros m1 m2 m3 H12 H23 p].
  by rewrite H12.
Qed.

Lemma threads_agree_insert m p t t' :
  m !! p = Some t → thread_body t' = thread_body t → threads_agree m (<[p:=t']> m).
Proof.
  intros Hp Hb q. destruct (decide (p = q)) as [->|].
  - by rewrite lookup_insert_eq, Hp; simpl; rewrite Hb.
  - by rewrite lookup_insert_ne.
Qed.

(** What a queue operation may change: the static variables of loop.c and the
    queue links of threads. *)
Definition queue_step (s s' : kst) : Prop :=
  s' = set_k_loop (k_loop s') (set_k_threads (k_threads s') s) ∧
  threads_agree (k_threads s) (k_threads s').

#[export] Instance queue_step_preorder : PreOrder queue_step.
Proof.
  split.
  - intros s. split; [by destruct s|reflexivity].
  - intros s1 s2 s3 [E12 A12] [E23 A23]. split; [|by transitivity (k_threads s2)].
    rewrite E23, E12. by destruct s1, s2, s3.
Qed.

(** A write by write account of what is untouched. *)
Ltac outside :=
  intros a Ha; simpl; rewrite ?lookup_insert; repeat case_decide; subst; try done;
  exfalso; apply Ha; set_solver.

(** Two heaps that differ by writes to queue links agree. *)
Ltac agree :=
  intros ?; simpl; rewrite ?lookup_insert; repeat case_decide; simplify_map_eq; try done.

Lemma queue_elem_is_Some s q p :
  queue_ok s q → p ∈ q → is_Some (k_threads s !! p).
Proof. intros (_ & Hin & _). apply Hin. Qed.

Lemma queue_last_lookup s q :
  queue_ok s q → lst NULL q ≠ NULL → is_Some (k_threads s !! lst NULL q).
Proof. intros (_ & Hin & _) Hl. apply Hin, lst_elem_of. by intros ->. Qed.

(** A heap in which the chain of queue links spells out a list. *)
Definition links_ok (m : gmap Z thread_t) (q : list Z) : Prop :=
  dll (fld m thread_queueNext) (fld m thread_queueLast) q ∧
  ∀ p, p ∈ q → is_Some (m !! p).

(** The writes of [loop_enqueue] and [_push_unconditional] to a non-empty and to
    an empty queue. *)
Lemma link_last_ok m q t th tl :
  links_ok m q → m !! t = Some th → t ∉ q → t ≠ NULL → lst NULL q ≠ NULL →
  m !! lst NULL q = Some tl →
  let m' := <[t:=set_thread_queueNext NULL (set_thread_queueLast (lst NULL q) th)]>
    (<[t:=set_thread_queueLast (lst NULL q) th]>
      (<[lst NULL q:=set_thread_queueNext t tl]> m)) in
  links_ok m' (q ++ [t]) ∧ threads_agree m m'.
Proof.
  intros [Hd Hin] Ht Htq Ht0 Hl Htl m'. subst m'.
  pose proof (lst_ne _ _ Htq Ht0) as Hne. split_and!; [split|agree].
  - eapply dll_push_back; try done; flds.
  - intros p [Hp| ->%list_elem_of_singleton]%elem_of_app; [|by simplify_map_eq].
    rewrite !lookup_insert. repeat case_decide; eauto.
Qed.

Lemma link_only_ok m t th :
  m !! t = Some th → t ≠ NULL →
  let m' := <[t:=set_thread_queueNext NULL (set_thread_queueLast NULL th)]>
    (<[t:=set_thread_queueLast NULL th]> m) in
  links_ok m' [t] ∧ threads_agree m m'.
Proof.
  intros Ht Ht0 m'. subst m'. split_and!; [split|agree].
  - apply (dll_push_back (λ _, 0) (λ _, 0) _ _ [] t); try done;
      first [apply dll_nil | set_solver | by flds | intros ? []%not_elem_of_nil].
  - intros p ->%list_elem_of_singleton. simplify_map_eq. eauto.
Qed.

Lemma queue_ok_nil s q : queue_ok s q → lastThread (k_loop s) = NULL → q = [].
Proof. intros (Hd & _ & _ & -> & _). by eapply lst_null. Qed.

Lemma loop_enqueue_spec n c s q t th :
  queue_ok s q → k_threads s !! t = Some th → t ∉ q → t ≠ NULL →
  loopLock ∉ k_locks s → ∃ s',
  run n c (loop_enqueue t) s = Done () s' ∧ queue_ok s' (q ++ [t]) ∧ queue_step s s' ∧
  untouched (q ++ [t]) s s'.
Proof.
  intros Hok Ht Htq Ht0 Hlk. pose proof Hok as (Hd & Hin & Hf & Hl & Hc).
  pose proof (lst_ne _ _ Htq Ht0).
  unfold loop_enqueue. steps. case_decide as Hlast.
  - rewrite Hl in *. destruct (queue_last_lookup _ _ Hok Hlast) as [tl Htl].
    destruct (link_last_ok (k_threads s) q t th tl) as [[Hd' Hin'] Hag]; [by split|done..|].
    steps. eexists. split; [done|].
    split; [split_and!; simpl|split; [split; simpl|]]; [done|done| | | |kst_eq|done|].
    + rewrite Hf, hd0_app. by destruct q.
    + by rewrite lst_snoc.
    + by rewrite Hc, <- u64_succ_length with (t := t).
    + assert (lst NULL q ∈ q) by (apply lst_elem_of; by intros ->). outside.
  - rewrite (queue_ok_nil _ _ Hok Hlast) in *.
    destruct (link_only_ok _ _ _ Ht Ht0) as [[Hd' Hin'] Hag].
    steps. eexists. split; [done|].
    split; [split_and!; simpl|split; [split; simpl|]]; [done..| |kst_eq|done|outside].
    by rewrite Hc, u64_add_idemp_l.
Qed.

(** The task lookup at the start of [anscheduler_loop_push] finds a live task. *)
Lemma loop_push_spec n c s q t th :
  queue_ok s q → k_threads s !! t = Some th → t ∉ q → t ≠ NULL →
  loopLock ∉ k_locks s → pushable s th → ∃ s',
  run n c (anscheduler_loop_push t) s = Done () s' ∧
  queue_ok s' (q ++ [t]) ∧ queue_step s s' ∧ untouched (q ++ [t]) s s'.
Proof.
  intros Hok Ht Htq Ht0 Hlk Hp. unfold anscheduler_loop_push. steps.
  destruct (loop_enqueue_spec n c s q t th) as (s' & Hrun & ? & ? & ?); auto.
  case_decide as Htask; [|by eauto 6].
  destruct Hp as [?|(tk & Htk & Hk & Hkl)]; [done|].
  steps. rewrite Hk, decide_False by (intros []; done). steps.
  exists s'. split_and!; auto. rewrite <- Hrun. f_equal. kst_eq.
Qed.

(** Pushing a thread of a killed task changes nothing. *)
Lemma loop_push_killed n c s t th tk :
  k_threads s !! t = Some th → thread_task th ≠ NULL →
  k_tasks s !! thread_task th = Some tk → task_isKilled tk ≠ 0 →
  killLock (thread_task th) ∉ k_locks s →
  run n c (anscheduler_loop_push t) s = Done () s.
Proof.
  intros Ht Htask Htk Hk Hkl. unfold anscheduler_loop_push. steps.
  rewrite decide_True by done. steps. rewrite decide_True by done. steps.
  f_equal. kst_eq.
Qed.

(** The writes of [loop_unlink] to the neighbours of a queued thread. *)
Definition relink_prev (p : Z) (v : Z) (m : gmap Z thread_t) : gmap Z thread_t :=
  if decide (p = NULL) then m else alter (set_thread_queueNext v) p m.
Definition relink_next (p : Z) (v : Z) (m : gmap Z thread_t) : gmap Z thread_t :=
  if decide (p = NULL) then m else alter (set_thread_queueLast v) p m.

Lemma threads_agree_alter m p g :
  (∀ t, thread_body (g t) = thread_body t) → threads_agree m (alter g p m).
Proof.
  intros Hg q. rewrite lookup_alter. case_decide; [subst|done].
  destruct (m !! q); simpl; [by rewrite Hg|done].
Qed.

Lemma unlink_ok m l1 x l2 th :
  links_ok m (l1 ++ x :: l2) → m !! x = Some th →
  let m' := relink_next (thread_queueNext th) (thread_queueLast th)
    (relink_prev (thread_queueLast th) (thread_queueNext th) m) in
  links_ok m' (l1 ++ l2) ∧ threads_agree m m'.
Proof.
  intros [Hd Hin] Hx m'.
  pose proof (λ f, fld_lookup _ f _ _ Hx) as Hf.
  assert (∀ p, p ∈ l1 ++ l2 → p ≠ NULL ∧ is_Some (m !! p)) as Hnn.
  { intros p Hp. split; [eapply dll_nonnull; [exact Hd|]|apply Hin]; set_solver. }
  split; [split|].
  - eapply dll_remove; [exact Hd| |]; intros p Hp; subst m';
      destruct (Hnn p Hp) as [? [o Ho]];
      rewrite !Hf; unfold fld, relink_next, relink_prev;
      rewrite !lookup_relink, Ho by done; simpl; by repeat case_decide.
  - intros p Hp. destruct (Hnn p Hp) as [? [o Ho]].
    subst m'. unfold relink_next, relink_prev.
    rewrite !lookup_relink, Ho by done. eauto.
  - subst m'. transitivity (relink_prev (thread_queueLast th) (thread_queueNext th) m);
      unfold relink_next, relink_prev; repeat case_decide;
      solve [reflexivity | by apply threads_agree_alter].
Qed.

(** The two neighbour updates of [loop_unlink], as one equation each. *)
Lemma run_relink_prev n c {A} x p (k : () → prog A) s th :
  k_threads s !! x = Some th → (p ≠ NULL → is_Some (k_threads s !! p)) →
  run n c ((if decide (p ≠ NULL)
            then next ← rd x thread_queueNext; wr p (set_thread_queueNext next)
            else mret ()) ≫= k) s =
  run n c (k ()) (set_k_threads (relink_prev p (thread_queueNext th) (k_threads s)) s).
Proof.
  intros Hx Hp. unfold relink_prev. case_decide as Hn.
  - destruct (Hp Hn) as [o Ho]. steps. rewrite decide_False by done.
    by rewrite (alter_lookup _ _ _ _ Ho).
  - rewrite decide_True by done. steps. f_equal. by destruct s.
Qed.

Lemma run_relink_next n c {A} x p (k : () → prog A) s th :
  k_threads s !! x = Some th → (p ≠ NULL → is_Some (k_threads s !! p)) →
  run n c ((if decide (p ≠ NULL)
            then prev ← rd x thread_queueLast; wr p (set_thread_queueLast prev)
            else mret ()) ≫= k) s =
  run n c (k ()) (set_k_threads (relink_next p (thread_queueLast th) (k_threads s)) s).
Proof.
  intros Hx Hp. unfold relink_next. case_decide as Hn.
  - destruct (Hp Hn) as [o Ho]. steps. rewrite decide_False by done.
    by rewrite (alter_lookup _ _ _ _ Ho).
  - rewrite decide_True by done. steps. f_equal. by destruct s.
Qed.

(** The updates of the ends of the queue. *)
Lemma run_fix_first n c {A} x (k : () → prog A) s th :
  k_threads s !! x = Some th →
  run n c ((if decide (firstThread (k_loop s) = x)
            then next ← rd x thread_queueNext; put_firstThread next
            else mret ()) ≫= k) s =
  run n c (k ()) (upd_loop (set_firstThread
    (if decide (firstThread (k_loop s) = x) then thread_queueNext th
     else firstThread (k_loop s))) s).
Proof.
  intros Hx. case_decide; steps; [done|]. f_equal. unfold upd_loop.
  destruct s as [? ? ? ? ? ? ? ? ? ? ? ? ? ? ? ? []]; done.
Qed.

Lemma run_fix_last n c {A} x (k : () → prog A) s th :
  k_threads s !! x = Some th →
  run n c ((if decide (lastThread (k_loop s) = x)
            then prev ← rd x thread_queueLast; put_lastThread prev
            else mret ()) ≫= k) s =
  run n c (k ()) (upd_loop (set_lastThread
    (if decide (lastThread (k_loop s) = x) then thread_queueLast th
     else lastThread (k_loop s))) s).
Proof.
  intros Hx. case_decide; steps; [done|]. f_equal. unfold upd_loop.
  destruct s as [? ? ? ? ? ? ? ? ? ? ? ? ? ? ? ? []]; done.
Qed.

(** Taking a queued thread out of the queue. Its own links keep their values. *)
Lemma loop_unlink_spec n c s l1 x l2 th :
  queue_ok s (l1 ++ x :: l2) → k_threads s !! x = Some th →
  loopLock ∈ k_locks s →
  ∃ s', run n c (loop_unlink x) s = Done () s' ∧ queue_ok s' (l1 ++ l2) ∧
    queue_step (del_lock loopLock s) s' ∧ untouched (l1 ++ l2) s s'.
Proof.
  intros Hok Hx Hlk. pose proof Hok as (Hd & Hin & Hf & Hl & Hc).
  destruct (unlink_ok (k_threads s) l1 x l2 th) as [[Hd' Hin'] Hag]; [by split|done|].
  pose proof (dll_links _ _ _ _ _ Hd) as [Hnx Hpv].
  pose proof (dll_neighbours _ _ _ _ _ Hd) as [Hpx Hnx'].
  rewrite (fld_lookup _ _ _ _ Hx) in Hnx. rewrite (fld_lookup _ _ _ _ Hx) in Hpv.
  assert (∀ m, relink_prev (thread_queueLast th) (thread_queueNext th) m !! x = m !! x)
    as Hxp by (intros; rewrite Hpv; by apply relink_ne).
  assert (lst NULL l1 ≠ NULL → is_Some (k_threads s !! lst NULL l1)) as Hsp.
  { intros. apply Hin. apply elem_of_app; left. apply lst_elem_of. by intros ->. }
  assert (hd0 NULL l2 ≠ NULL → is_Some (k_threads s !! hd0 NULL l2)) as Hsn.
  { intros. apply Hin. apply elem_of_app; right. right.
    apply hd0_elem_of. by intros ->. }
  unfold loop_unlink, get_firstThread, get_lastThread, get_queueCount, put_queueCount.
  rewrite run_gget, (run_fix_first _ _ _ _ _ _ Hx), run_gget.
  rewrite (run_fix_last _ _ _ _ (upd_loop _ s) th) by done. step.
  rewrite (run_relink_prev _ _ _ _ _ _ th) by (simpl; rewrite ?Hpv; done). simpl.
  erewrite run_rd by (simpl; rewrite Hxp; done).
  erewrite run_relink_next; [|simpl; rewrite Hxp; done|].
  2: { simpl. rewrite Hnx, Hpv. intros Hn. destruct (Hsn Hn) as [o Ho].
    unfold relink_prev. rewrite lookup_relink, Ho by done. eauto. }
  steps. eexists. split; [done|].
  split; [|split; [|simpl]].
  - split_and!; simpl; [exact Hd'|exact Hin'| | |].
    + rewrite Hf, Hnx. by eapply hd0_remove.
    + rewrite Hl, Hpv. by eapply lst_remove.
    + by rewrite Hc, u64_pred_length.
  - split; simpl; [|done]. by destruct s.
  - intros a Ha. simpl. unfold relink_next, relink_prev. rewrite Hnx, Hpv.
    assert (∀ b, (b ≠ NULL → b ∈ l1 ++ l2) → b ≠ NULL → b ≠ a) as Hne
      by (intros b Hb Hb0 ->; auto).
    assert (lst NULL l1 ≠ NULL → lst NULL l1 ≠ a).
    { apply Hne. intros. apply elem_of_app; left. apply lst_elem_of. by intros ->. }
    assert (hd0 NULL l2 ≠ NULL → hd0 NULL l2 ≠ a).
    { apply Hne. intros. apply elem_of_app; right. apply hd0_elem_of. by intros ->. }
    repeat case_decide; rewrite ?lookup_alter_ne by auto; done.
Qed.

Lemma loop_delete_spec n c s l1 x l2 :
  queue_ok s (l1 ++ x :: l2) → loopLock ∉ k_locks s →
  ∃ s', run n c (anscheduler_loop_delete x) s = Done () s' ∧
    queue_ok s' (l1 ++ l2) ∧ queue_step s s' ∧ untouched (l1 ++ l2) s s'.
Proof.
  intros Hok Hlk. pose proof Hok as (Hd & Hin & Hf & _).
  destruct (Hin x) as [th Hx]; [set_solver|].
  destruct (loop_unlink_spec n c (add_lock loopLock s) l1 x l2 th)
    as (s' & Hrun & Hok' & [Heq Hag] & Hx'); [done|done|simpl; set_solver|].
  exists s'. split_and!; auto.
  2: { split; [|done]. rewrite Heq. kst_eq. }
  unfold anscheduler_loop_delete. steps.
  case_decide as Hnull; [|done]. steps. rewrite decide_False; [done|].
  destruct Hnull as [Hn Hp].
  destruct (dll_alone _ _ _ _ _ Hd) as [-> ->]; try by rewrite (fld_lookup _ _ _ _ Hx).
  rewrite Hf. by intros [].
Qed.

(** Deleting a thread that was never queued changes nothing. *)
Lemma loop_delete_absent n c s q x th :
  queue_ok s q → k_threads s !! x = Some th → x ∉ q → x ≠ NULL →
  thread_queueNext th = NULL → thread_queueLast th = NULL →
  loopLock ∉ k_locks s →
  run n c (anscheduler_loop_delete x) s = Done () s.
Proof.
  intros (Hd & Hin & Hf & _) Hx Hxq Hx0 Hn Hp Hlk.
  unfold anscheduler_loop_delete. steps.
  rewrite decide_True by done. steps.
  rewrite decide_True by (rewrite Hf; by apply not_eq_sym, hd0_ne).
  steps. f_equal. kst_eq.
Qed.

(** The invariant without the counter, which [_next_thread] updates on its own. *)
Definition chain_ok (s : kst) (q : list Z) : Prop :=
  links_ok (k_threads s) q ∧
  firstThread (k_loop s) = hd0 NULL q ∧ lastThread (k_loop s) = lst NULL q.

Lemma queue_ok_chain s q :
  queue_ok s q ↔ chain_ok s q ∧ queueCount (k_loop s) = u64 (Z.of_nat (length q)).
Proof. unfold queue_ok, chain_ok, links_ok. naive_solver. Qed.

Lemma shift_thread_spec n c s t q :
  chain_ok s (t :: q) →
  ∃ s', run n c _shift_thread s = Done t s' ∧ chain_ok s' q ∧ queue_step s s' ∧
    queueCount (k_loop s') = queueCount (k_loop s) ∧ untouched (t :: q) s s' ∧
    fld (k_threads s') thread_queueNext t = NULL ∧
    fld (k_threads s') thread_queueLast t = NULL.
Proof.
  intros ([Hd Hin] & Hf & Hl). change (hd0 NULL (t :: q)) with t in Hf.
  destruct (Hin t) as [th Ht]; [set_solver|].
  pose proof (dll_links _ _ [] _ _ Hd) as [Hnx Hpv].
  pose proof (dll_neighbours _ _ [] _ _ Hd) as [_ Hne].
  rewrite (fld_lookup _ _ _ _ Ht) in Hnx. rewrite (fld_lookup _ _ _ _ Ht) in Hpv.
  assert (t ∉ q) as Htq by (apply dll_NoDup in Hd; by apply NoDup_cons in Hd as [? _]).
  rewrite lst_cons in Hl.
  unfold _shift_thread. steps. rewrite Hf. steps. rewrite Hnx.
  destruct q as [|p q]; simpl.
  - rewrite ?decide_True by done. steps.
    eexists. split; [done|]. split; [split; [split|]; simpl|]; [apply dll_nil|by intros ? []%not_elem_of_nil|done|].
    split; [split; [by destruct s|agree]|].
    split_and!; [done|outside|by flds..].
  - destruct (Hin p) as [tp Hp]; [set_solver|].
    rewrite decide_False by (eapply dll_nonnull; [exact Hd|set_solver]).
    assert (p ≠ t) by set_solver.
    steps. eexists. split; [done|].
    split; [split_and!; simpl|split; [|split_and!]];
      [|done| |split; [by destruct s|agree]|done|outside|by flds..].
    + split.
      * eapply (dll_remove _ _ _ _ [] t (p :: q)); [exact Hd| |]; intros a Ha;
          simpl in Ha; rewrite !(fld_lookup _ _ _ _ Ht), Hnx, Hpv; simpl;
          assert (a ≠ t) by set_solver;
          rewrite ?(decide_False (P := a = NULL))
            by (eapply dll_nonnull; [exact Hd|set_solver]); flds.
      * intros a Ha. rewrite !lookup_insert. repeat case_decide; eauto.
        apply Hin. set_solver.
    + rewrite Hl. by rewrite !lst_cons.
Qed.

Lemma push_unconditional_spec n c s q t :
  chain_ok s q → is_Some (k_threads s !! t) → t ∉ q → t ≠ NULL →
  ∃ s', run n c (_push_unconditional t) s = Done () s' ∧ chain_ok s' (q ++ [t]) ∧
    queue_step s s' ∧ queueCount (k_loop s') = queueCount (k_loop s) ∧
    untouched (q ++ [t]) s s'.
Proof.
  intros ([Hd Hin] & Hf & Hl) [th Ht] Htq Ht0.
  pose proof (lst_ne _ _ Htq Ht0).
  unfold _push_unconditional. steps. case_decide as Hlast.
  - rewrite Hl in *. destruct (Hin (lst NULL q)) as [tl Htl].
    { apply lst_elem_of. by intros ->. }
    destruct (link_last_ok (k_threads s) q t th tl) as [? Hag]; [by split|done..|].
    steps. eexists. split; [done|].
    split; [split_and!; simpl; [done| |]|split; [|split; [done|]]].
    + rewrite Hf, hd0_app. by destruct q.
    + by rewrite lst_snoc.
    + split; [by destruct s|done].
    + assert (lst NULL q ∈ q) by (apply lst_elem_of; by intros ->). outside.
  - rewrite Hl in Hlast. rewrite (lst_null _ _ _ Hd Hlast) in *.
    destruct (link_only_ok _ _ _ Ht Ht0) as [? Hag].
    steps. eexists. split; [done|].
    split; [done|split; [|split; [done|outside]]]. split; [by destruct s|done].
Qed.

(** ** Kernel threads *)
Section kernel.
Context `{Platform, !PlatformOk _}.

(** The thread that [anscheduler_loop_push_kernel] builds. *)
Definition kernel_thread (stack : Z) (fn : kernel_fn) (arg : Z) : thread_t :=
  mk_thread NULL NULL NULL NULL NULL 0 stack 0
    (state_entry (u64 (stack + 0x1000)) fn arg).

(** The address of the next allocation, for the thread and then the stack. *)
Definition spawn_thread (s : kst) : Z :=
  plat_alloc (k_nallocs s) (k_live s) sizeof_thread_t.
Definition spawn_mid (s : kst) : kst := alloc_step sizeof_thread_t s.
Definition spawn_stack (s : kst) : Z :=
  plat_alloc (k_nallocs (spawn_mid s)) (k_live (spawn_mid s)) 0x1000.

(** The memory with the new thread, before it is queued. *)
Definition spawned (fn : kernel_fn) (arg : Z) (s : kst) : kst :=
  set_k_threads (<[spawn_thread s := kernel_thread (spawn_stack s) fn arg]> (k_threads s))
    (alloc_step 0x1000 (spawn_mid s)).

(** The two allocations succeed. *)
Definition can_spawn (s : kst) : Prop := spawn_thread s ≠ NULL ∧ spawn_stack s ≠ NULL.

Lemma links_ok_frame m q p th : links_ok m q → p ∉ q → links_ok (<[p:=th]> m) q.
Proof.
  intros [Hd Hin] Hp. split.
  - eapply dll_ext; [| |exact Hd]; intros a Ha; apply fld_insert_ne; congruence.
  - intros a Ha. rewrite lookup_insert_ne by congruence. auto.
Qed.

Lemma push_kernel_spec n c s q fn arg :
  mem_ok s → queue_ok s q → can_spawn s → loopLock ∉ k_locks s →
  ∃ s', run n c (anscheduler_loop_push_kernel arg fn) s = Done () s' ∧
    queue_ok s' (q ++ [spawn_thread s]) ∧ queue_step (spawned fn arg s) s' ∧
    untouched (q ++ [spawn_thread s]) (spawned fn arg s) s'.
Proof.
  intros Hm Hok [Hth Hst] Hlk.
  assert (spawn_thread s ∉ q) as Hq.
  { intros Hq. destruct (queue_elem_is_Some _ _ _ Hok Hq) as [? Hs].
    unfold spawn_thread in *. by rewrite alloc_fresh_thread in Hs. }
  assert (queue_ok (spawned fn arg s) q) as Hok'.
  { apply queue_ok_chain in Hok as [[Hl Hfl] Hc]. apply queue_ok_chain.
    split; [|done]. split; [|done]. by apply links_ok_frame. }
  destruct (loop_push_spec n c (spawned fn arg s) q (spawn_thread s)
    (kernel_thread (spawn_stack s) fn arg)) as (s' & Hrun & ? & ? & ?); auto.
  { simpl. by rewrite lookup_insert_eq. }
  { by left. }
  exists s'. split_and!; [|done..]. rewrite <- Hrun.
  unfold anscheduler_loop_push_kernel. steps.
  fold (spawn_thread s) (spawn_mid s). rewrite decide_False by done. steps.
  fold (spawn_stack s). rewrite decide_False by done.
  rewrite run_zero_as by (apply alloc_step_live, alloc_step_new, Hth).
  unfold anscheduler_set_state. steps.
  f_equal. unfold spawned, spawn_mid. simpl. rewrite !insert_insert_eq.
  done.
Qed.

Lemma push_kernel_no_thread n c s fn arg :
  spawn_thread s = NULL →
  run n c (anscheduler_loop_push_kernel arg fn) s
  = Stop (s_leave (leave_abort "Failed to allocate kernel thread")) (spawn_mid s).
Proof.
  intros Hp. unfold anscheduler_loop_push_kernel. steps.
  fold (spawn_thread s) (spawn_mid s). by rewrite decide_True.
Qed.

Lemma push_kernel_no_stack n c s fn arg :
  spawn_thread s ≠ NULL → spawn_stack s = NULL →
  run n c (anscheduler_loop_push_kernel arg fn) s
  = Stop (s_leave (leave_abort "Failed to allocate kernel thread stack."))
      (free_step (spawn_thread s) (alloc_step 0x1000 (spawn_mid s))).
Proof.
  intros Hp Hst. unfold anscheduler_loop_push_kernel. steps.
  fold (spawn_thread s) (spawn_mid s). rewrite decide_False by done. steps.
  fold (spawn_stack s). rewrite decide_True by done.
  by rewrite run_free by (apply alloc_step_live, alloc_step_new, Hp).
Qed.

End kernel.

(** ** Threads outside the queue keep null links *)

Lemma clean_push s s' q t :
  clean s q → untouched (q ++ [t]) s s' → clean s' (q ++ [t]).
Proof. intros Hc Hu p th Hp Hq. rewrite Hu in Hp by done. eapply Hc; set_solver. Qed.

Lemma clean_shift s s' q t :
  clean s (t :: q) → untouched (t :: q) s s' →
  fld (k_threads s') thread_queueNext t = NULL →
  fld (k_threads s') thread_queueLast t = NULL → clean s' q.
Proof.
  intros Hc Hu Hn Hl p th Hp Hq. destruct (decide (p = t)) as [->|Hpt].
  - rewrite (fld_lookup _ _ _ _ Hp) in Hn. rewrite (fld_lookup _ _ _ _ Hp) in Hl.
    done.
  - rewrite Hu in Hp by set_solver. eapply Hc; set_solver.
Qed.

(** The queue does not depend on the other fields of threads. *)
Lemma queue_ok_insert s q p th th' :
  k_threads s !! p = Some th → thread_queueNext th' = thread_queueNext th →
  thread_queueLast th' = thread_queueLast th → queue_ok s q →
  queue_ok (set_k_threads (<[p := th']> (k_threads s)) s) q.
Proof.
  intros Hp Hn Hl (Hd & Hin & ?). split_and!; simpl; try tauto.
  - eapply dll_ext; [| |exact Hd]; intros a _; simpl; by apply fld_insert_same with th.
  - intros a Ha. rewrite lookup_insert. case_decide; eauto.
Qed.

Lemma clean_insert s q p th th' :
  k_threads s !! p = Some th → thread_queueNext th' = thread_queueNext th →
  thread_queueLast th' = thread_queueLast th → clean s q →
  clean (set_k_threads (<[p := th']> (k_threads s)) s) q.
Proof.
  intros Hp Hn Hl Hc a o Ha Haq. simpl in Ha. rewrite lookup_insert in Ha.
  case_decide; simplify_eq; [rewrite Hn, Hl|]; by eapply Hc.
Qed.

(** ** Sequences of queue operations

    [anscheduler_loop_delete] recognises a thread that is not queued by its null
    links, but does not reset the links of the thread it removes. [stale] collects
    the threads whose links are left over. *)
Inductive queue_op := op_push (t : Z) | op_delete (t : Z).

Definition run_op (o : queue_op) : prog () :=
  match o with
  | op_push t => anscheduler_loop_push t
  | op_delete t => anscheduler_loop_delete t
  end.

Fixpoint run_ops (os : list queue_op) : prog () :=
  match os with
  | [] => mret ()
  | o :: os => run_op o;; run_ops os
  end.

(** The operation on the list of queued threads and the stale ones; [None] when the
    caller breaks the contract: pushing a queued thread, or deleting a thread that
    is neither queued nor has null links. *)
Definition abs_op (o : queue_op) (st : list Z * list Z) : option (list Z * list Z) :=
  let '(q, stale) := st in
  match o with
  | op_push t =>
      if decide (t ∈ q) then None else Some (q ++ [t], filter (λ p, p ≠ t) stale)
  | op_delete t =>
      if decide (t ∈ q) then Some (filter (λ p, p ≠ t) q, t :: stale)
      else if decide (t ∈ stale) then None else Some (q, stale)
  end.

Fixpoint abs_ops (os : list queue_op) (st : list Z * list Z) : option (list Z * list Z) :=
  match os with
  | [] => Some st
  | o :: os => abs_op o st ≫= abs_ops os
  end.

Definition op_thread (o : queue_op) : Z := match o with op_push t | op_delete t => t end.

(** Every unqueued thread that is not stale has null links. *)
Definition clean_but (stale : list Z) (s : kst) (q : list Z) : Prop :=
  ∀ p th, k_threads s !! p = Some th → p ∉ q → p ∉ stale →
    thread_queueNext th = NULL ∧ thread_queueLast th = NULL.

(** The threads an operation may be applied to: they exist and their tasks are
    alive. Queue operations preserve this. *)
Definition op_target (s : kst) (t : Z) : Prop :=
  t ≠ NULL ∧ ∃ th, k_threads s !! t = Some th ∧ pushable s th.

Lemma op_target_step s s' t : op_target s t → queue_step s s' → op_target s' t.
Proof.
  intros (Ht0 & th & Hth & Hp) [Heq Ha]. split; [done|].
  pose proof (Ha t) as Hat. rewrite Hth in Hat. simpl in Hat.
  destruct (k_threads s' !! t) as [th'|]; [|done]. apply (inj Some) in Hat.
  exists th'. split; [done|].
  assert (thread_task th' = thread_task th) as Htt.
  { unfold thread_body, set_thread_queueNext, set_thread_queueLast in Hat.
    simpl in Hat. congruence. }
  unfold pushable. rewrite Htt, Heq. exact Hp.
Qed.

Lemma run_op_spec n c s q stale o q' stale' :
  queue_ok s q → clean_but stale s q → loopLock ∉ k_locks s →
  op_target s (op_thread o) → abs_op o (q, stale) = Some (q', stale') →
  ∃ s', run n c (run_op o) s = Done () s' ∧ queue_ok s' q' ∧ queue_step s s' ∧
    clean_but stale' s' q'.
Proof.
  intros Hok Hcl Hlk (Ht0 & th & Hth & Hp) Ha.
  destruct o as [t|t]; simpl in *; case_decide as Htq; simplify_eq.
  - destruct (loop_push_spec n c s q t th) as (s' & ? & ? & ? & Hu); try done.
    exists s'. split_and!; try done. intros p o Ho Hpq Hps.
    rewrite Hu in Ho by done. apply (Hcl p); [done|set_solver|].
    rewrite list_elem_of_filter in Hps. set_solver.
  - pose proof Htq as (l1 & l2 & ->)%list_elem_of_split.
    destruct (loop_delete_spec n c s l1 t l2) as (s' & ? & Hok' & ? & Hu); try done.
    assert (filter (λ p, p ≠ t) (l1 ++ t :: l2) = l1 ++ l2) as ->.
    { destruct Hok as ([Hd _] & _).
      apply NoDup_app in Hd as (_ & Hd1 & [Hd2 _]%NoDup_cons).
      rewrite filter_app, filter_cons_False by (by intros []).
      rewrite !filter_all; [done|set_solver|set_solver]. }
    exists s'. split_and!; try done. intros p o Ho Hpq Hps.
    rewrite Hu in Ho by done. apply (Hcl p); [done| |]; set_solver.
  - case_decide as Hst; simplify_eq. destruct (Hcl t th) as [? ?]; try done.
    exists s. split_and!; [|done|reflexivity|done]. by eapply loop_delete_absent.
Qed.

(** C18. The run queue implements a list: a sequence of [anscheduler_loop_push] and
    [anscheduler_loop_delete] calls that respects the contract never fails, leaves
    a well-formed queue that holds exactly the threads the list operations leave,
    in first-in first-out order, with [queueCount] its length, and changes nothing
    but the queue. *)
Theorem run_queue_refines_list n c os s q stale q' stale' :
  queue_ok s q → clean_but stale s q → loopLock ∉ k_locks s →
  (∀ o, o ∈ os → op_target s (op_thread o)) →
  abs_ops os (q, stale) = Some (q', stale') →
  ∃ s', run n c (run_ops os) s = Done () s' ∧ queue_ok s' q' ∧ queue_step s s' ∧
    clean_but stale' s' q'.
Proof.
  revert s q stale. induction os as [|o os IH]; intros s q stale Hok Hcl Hlk Ht Ha.
  - simplify_eq/=. exists s. split_and!; [done|done|reflexivity|done].
  - simpl in Ha. apply bind_Some in Ha as ([q1 stale1] & Ha1 & Ha).
    destruct (run_op_spec n c s q stale o q1 stale1) as (s1 & Hrun1 & Hok1 & Hst1 & Hcl1);
      try done; [apply Ht; set_solver|].
    destruct (IH s1 q1 stale1) as (s2 & Hrun2 & ? & ? & ?); try done.
    { destruct Hst1 as [-> _]. done. }
    { intros o' Ho'. eapply op_target_step; [apply Ht; set_solver|done]. }
    exists s2. split_and!; try done; [|by transitivity s1].
    simpl. by rewrite (run_call _ _ _ _ _ _ _ Hrun1).
Qed.

(** The demo queue satisfies the invariants. *)
Lemma demo_queue_ok killed refs : queue_ok (demo killed refs) [0x1000; 0x2000].
Proof. split; [by_dll|]. split; [elems; by_vm|by_vm]. Qed.

Lemma clean_compute s q :
  bool_decide (map_Forall (λ p th, p ∈ q ∨ thread_queueNext th = NULL ∧
    thread_queueLast th = NULL) (k_threads s)) = true → clean s q.
Proof.
  intros Hb%bool_decide_eq_true p th Hp Hq. by destruct (Hb p th Hp).
Qed.

Lemma run_queue_refines_list_witness :
  ∃ s', run 1 0 (run_ops [op_push 0x3000; op_delete 0x1000; op_push 0x1000]) (demo 0 2)
        = Done () s' ∧
    queue_ok s' [0x2000; 0x3000; 0x1000] ∧ queue_step (demo 0 2) s' ∧
    clean_but [] s' [0x2000; 0x3000; 0x1000].
Proof.
  apply (run_queue_refines_list 1 0 _ (demo 0 2) [0x1000; 0x2000] []).
  - apply demo_queue_ok.
  - intros p th Hp Hq _. revert p th Hp Hq. apply clean_compute. by_vm.
  - by_dec.
  - assert (∀ t, t ∈ [0x1000; 0x3000] → op_target (demo 0 2) t) as Ht.
    { elems; (split; [done|eexists; split; [reflexivity|]]); right; eexists;
        (split; [reflexivity|split; [done|by_dec]]). }
    intros o Ho. apply Ht. revert o Ho. elems; by_dec.
  - reflexivity.
Defined.

(** Deleting a queued thread twice is not harmless, although loop.h only asks
    that the thread may be in the queue: the first call leaves the thread's links,
    so the second one takes it for a queued thread and decrements [queueCount]
    again. Here a queue of one thread ends up with a count of zero, and
    [_next_thread], which makes [queueCount] iterations, will not find it. *)
Theorem loop_delete_twice_miscounts :
  ∃ s', run 1 0 (anscheduler_loop_delete 0x2000;; anscheduler_loop_delete 0x2000) (demo 0 2)
        = Done () s' ∧
    chain_ok s' [0x1000] ∧ queueCount (k_loop s') = 0.
Proof.
  eexists. split; [vm_compute; reflexivity|].
  split; [|reflexivity]. split; [split; [by_dll|elems; by_vm]|by_vm].
Qed.

(** The two outcomes of starting a kernel thread. *)
Lemma push_kernel_cases `{Platform, !PlatformOk _} n c s q fn arg :
  mem_ok s → queue_ok s q → loopLock ∉ k_locks s →
  if decide (spawn_thread s = NULL ∨ spawn_stack s = NULL) then
    ∃ msg s', run n c (anscheduler_loop_push_kernel arg fn) s
              = Stop (s_leave (leave_abort msg)) s' ∧ k_live s' = k_live s
  else
    ∃ s', run n c (anscheduler_loop_push_kernel arg fn) s = Done () s' ∧
      queue_ok s' (q ++ [spawn_thread s]) ∧ queue_step (spawned fn arg s) s' ∧
      spawn_thread s ∉ k_live s ∧ spawn_stack s ∉ k_live s.
Proof.
  intros Hm Hok Hlk. destruct (decide (spawn_thread s = NULL)) as [Ht|Ht].
  { rewrite decide_True by auto. do 2 eexists. split; [by apply push_kernel_no_thread|].
    unfold spawn_mid. by rewrite alloc_step_null. }
  pose proof (plat_alloc_fresh (k_nallocs s) (k_live s) sizeof_thread_t Ht) as Hf.
  destruct (decide (spawn_stack s = NULL)) as [Hs|Hs].
  - rewrite decide_True by auto. do 2 eexists. split; [by apply push_kernel_no_stack|].
    rewrite (alloc_step_null 0x1000) by done. unfold spawn_mid.
    rewrite alloc_step_some by done. fold (spawn_thread s) in *.
    unfold free_step. simpl. fold (spawn_thread s). set_solver.
  - rewrite decide_False by naive_solver.
    destruct (push_kernel_spec n c s q fn arg) as (s' & ? & ? & ? & _); try done.
    exists s'. split_and!; try done.
    pose proof (plat_alloc_fresh _ _ _ Hs) as Hf2. intros Hin. apply Hf2.
    by apply alloc_step_live.
Qed.

(** [anscheduler_loop_push_kernel] either queues one fresh thread of no task,
    whose first instruction is [fn] with the argument [arg] on the top of a fresh
    page, and changes nothing else; or it aborts, and then everything it allocated
    has been freed. *)
Theorem push_kernel_outcomes `{Platform, !PlatformOk _} n c s q fn arg :
  mem_ok s → queue_ok s q → loopLock ∉ k_locks s →
  if decide (spawn_thread s = NULL ∨ spawn_stack s = NULL) then
    ∃ msg s', run n c (anscheduler_loop_push_kernel arg fn) s
              = Stop (s_leave (leave_abort msg)) s' ∧ k_live s' = k_live s
  else
    ∃ s', run n c (anscheduler_loop_push_kernel arg fn) s = Done () s' ∧
      queue_ok s' (q ++ [spawn_thread s]) ∧ queue_step (spawned fn arg s) s' ∧
      spawn_thread s ∉ k_live s ∧ spawn_stack s ∉ k_live s.
Proof. apply push_kernel_cases. Qed.

Lemma push_kernel_outcomes_witness :
  ∃ s', run 1 0 (anscheduler_loop_push_kernel (H := P0) 0x10000 fn_free_task_method) (demo 1 0)
        = Done () s' ∧
    queue_ok s' [0x1000; 0x2000; 0x32000] ∧
    queue_step (spawned (H := P0) fn_free_task_method 0x10000 (demo 1 0)) s' ∧
    0x32000 ∉ k_live (demo 1 0) ∧ spawn_stack (H := P0) (demo 1 0) ∉ k_live (demo 1 0).
Proof.
  apply (push_kernel_outcomes (H := P0) 1 0 (demo 1 0) [0x1000; 0x2000]).
  - apply demo_mem_ok.
  - apply demo_queue_ok.
  - by_dec.
Defined.
