(* ===== verification/PagerQueue.v ===== *)
(** * PagerQueue: the pager thread and the page-fault queue of src/paging.c

    The system pager's thread pointer and the singly linked queue of pending
    page faults. [anscheduler_page_fault] itself, which switches threads, is in
    Paging.v. *)
From S2P Require Import Prelude Types Machine Demo.

Definition upd_pager (g : pager_globals → pager_globals) (s : kst) : kst :=
  set_k_pager (g (k_pager s)) s.
Definition get_firstFault : prog Z := gget (λ s, firstFault (k_pager s)).
Definition get_lastFault : prog Z := gget (λ s, lastFault (k_pager s)).
Definition put_firstFault (v : Z) : prog () := gset_ (upd_pager (set_firstFault v)).
Definition put_lastFault (v : Z) : prog () := gset_ (upd_pager (set_lastFault v)).

(** ** Operations *)

Definition anscheduler_pager_get : prog Z := gget (λ s, pagerThread (k_pager s)).
Definition anscheduler_pager_set (thread : Z) : prog () :=
  gset_ (upd_pager (set_pagerThread thread)).
Definition anscheduler_pager_lock : prog () := anscheduler_lock pagerLock.
Definition anscheduler_pager_unlock : prog () := anscheduler_unlock pagerLock.

#[export] Hint Unfold get_firstFault get_lastFault put_firstFault put_lastFault
  anscheduler_pager_get anscheduler_pager_set anscheduler_pager_lock
  anscheduler_pager_unlock : prog.

Definition anscheduler_pager_shift : prog () :=
  anscheduler_pager_lock;;
  first ← get_firstFault;
  (if decide (first ≠ NULL) then
     next ← rd first fault_next;
     put_firstFault next;;
     if decide (next = NULL) then put_lastFault NULL else mret ()
   else mret ());;
  anscheduler_pager_unlock.

Definition anscheduler_pager_peek : prog Z :=
  anscheduler_pager_lock;;
  value ← get_firstFault;
  anscheduler_pager_unlock;;
  mret value.

Definition anscheduler_pager_waiting : prog bool :=
  first ← get_firstFault; mret (bool_decide (first ≠ NULL)).

(** The part of [_push_page_fault_cont] that appends a fault to the queue. *)
Definition push_fault (fault : Z) : prog () :=
  anscheduler_pager_lock;;
  last ← get_lastFault;
  (if decide (last ≠ NULL) then
     wr last (set_fault_next fault);; put_lastFault fault
   else put_firstFault fault;; put_lastFault fault);;
  anscheduler_pager_unlock.

(** ** The invariant: the queue is the list [q] *)
Definition faults_ok (s : kst) (q : list Z) : Prop :=
  sll (fld (k_faults s) fault_next) q ∧
  (∀ p, p ∈ q → is_Some (k_faults s !! p)) ∧
  firstFault (k_pager s) = hd0 NULL q ∧ lastFault (k_pager s) = lst NULL q.

(** ** Lemmas *)

Lemma faults_ok_nil s q : faults_ok s q → lastFault (k_pager s) = NULL → q = [].
Proof.
  intros (Hs & _ & _ & ->) Hl. destruct (decide (q = [])) as [|Hq]; [done|].
  by destruct (sll_nonnull _ _ _ Hs (lst_elem_of NULL q Hq)).
Qed.

Lemma push_fault_spec n c s q f ft :
  faults_ok s q → k_faults s !! f = Some ft → fault_next ft = NULL →
  f ∉ q → f ≠ NULL → pagerLock ∉ k_locks s →
  ∃ s', run n c (push_fault f) s = Done () s' ∧ faults_ok s' (q ++ [f]) ∧
    s' = set_k_pager (k_pager s') (set_k_faults (k_faults s') s) ∧
    (∀ p, set_fault_next NULL <$> k_faults s' !! p = set_fault_next NULL <$> k_faults s !! p).
Proof.
  intros Hok Hft Hnx Hfq Hf0 Hlk. pose proof Hok as (Hs & Hin & Hf & Hl).
  unfold push_fault. steps. case_decide as Hlast.
  - rewrite Hl in *. assert (q ≠ []) as Hq by (by intros ->).
    destruct (Hin (lst NULL q)) as [tl Htl]; [by apply lst_elem_of|].
    assert (lst NULL q ≠ f) by (intros <-; by apply Hfq, lst_elem_of).
    steps. eexists. split; [done|]. split_and!; simpl.
    + split_and!; simpl.
      * eapply sll_push_back; try done; [flds|].
        unfold fld. rewrite lookup_insert_ne, Hft by done. done.
      * intros p [Hp| ->%list_elem_of_singleton]%elem_of_app;
          rewrite lookup_insert; case_decide; eauto.
      * rewrite Hf, hd0_app. by destruct q.
      * by rewrite lst_snoc.
    + kst_eq.
    + intros p. rewrite lookup_insert. case_decide; [subst|done]. by rewrite Htl.
  - rewrite (faults_ok_nil _ _ Hok Hlast) in *.
    steps. eexists. split; [done|]. split_and!; simpl; [|kst_eq|done].
    split_and!; simpl; [|intros p ->%list_elem_of_singleton; eauto|done..].
    split; [apply NoDup_singleton|]. split_and!; [done| |done].
    by rewrite (fld_lookup _ _ _ _ Hft).
Qed.

Lemma pager_shift_spec n c s q :
  faults_ok s q → pagerLock ∉ k_locks s →
  ∃ s', run n c anscheduler_pager_shift s = Done () s' ∧ faults_ok s' (tail q) ∧
    s' = set_k_pager (k_pager s') s.
Proof.
  intros (Hs & Hin & Hf & Hl) Hlk. unfold anscheduler_pager_shift.
  destruct q as [|f q]; simpl in *; steps; rewrite Hf.
  - rewrite decide_False by (by intros []). steps.
    eexists. split; [done|]. split; simpl; [by split_and!|kst_eq].
  - destruct (sll_tail _ _ _ Hs) as (Hs' & Hfq & Hf0 & Hn).
    destruct (Hin f) as [ft Hft]; [set_solver|]. rewrite (fld_lookup _ _ _ _ Hft) in Hn.
    rewrite decide_True by done. steps.
    case_decide as Hnull; steps; (eexists; split; [done|]);
      (split_and!; simpl; [split_and!; simpl|kst_eq]); auto; try set_solver.
    + rewrite Hn in Hnull. destruct q; [done|].
      by destruct (sll_nonnull _ _ _ Hs' (hd0_elem_of NULL (z :: q) ltac:(done))).
    + rewrite Hl, lst_cons, Hn in *. destruct q; [done|]. by rewrite !lst_cons.
Qed.

Lemma pager_peek_spec n c s q :
  faults_ok s q → pagerLock ∉ k_locks s →
  run n c anscheduler_pager_peek s = Done (hd0 NULL q) s.
Proof.
  intros (_ & _ & Hf & _) Hlk. unfold anscheduler_pager_peek. steps.
  rewrite Hf. f_equal. kst_eq.
Qed.

(** ** Correctness *)

(** Appending several faults, and taking [k] faults the way a pager does. *)
Definition push_faults (fs : list Z) : prog () := foldr (λ f p, push_fault f;; p) (mret ()) fs.

Fixpoint take_faults (k : nat) : prog (list Z) :=
  match k with
  | O => mret []
  | S k =>
      f ← anscheduler_pager_peek;
      anscheduler_pager_shift;;
      fs ← take_faults k;
      mret (f :: fs)
  end.

(** Faults that can be queued: fresh, distinct and not linked. *)
Definition new_faults (s : kst) (q fs : list Z) : Prop :=
  NoDup (q ++ fs) ∧ ∀ f, f ∈ fs → f ≠ NULL ∧ ∃ ft, k_faults s !! f = Some ft ∧ fault_next ft = NULL.

(** What a push may change. *)
Definition fault_step (q : list Z) (s s' : kst) : Prop :=
  k_locks s' = k_locks s ∧
  ∀ p, p ∉ q → k_faults s' !! p = k_faults s !! p.

Lemma push_fault_frame n c s q f s' :
  faults_ok s q → f ∉ q → f ≠ NULL → is_Some (k_faults s !! f) → pagerLock ∉ k_locks s →
  run n c (push_fault f) s = Done () s' → fault_step q s s'.
Proof.
  intros Hok Hfq Hf0 [ft Hft] Hlk. pose proof Hok as (Hs & Hin & Hf & Hl).
  unfold push_fault. steps. case_decide as Hlast.
  - rewrite Hl in *. assert (q ≠ []) as Hq by (by intros ->).
    destruct (Hin (lst NULL q)) as [tl Htl]; [by apply lst_elem_of|].
    steps. intros [= <-]. split; simpl; [set_solver|].
    intros p Hp. rewrite lookup_insert_ne; [done|]. intros <-. by apply Hp, lst_elem_of.
  - steps. intros [= <-]. split; simpl; [set_solver|done].
Qed.

Lemma push_faults_spec n c fs : ∀ s q,
  faults_ok s q → new_faults s q fs → pagerLock ∉ k_locks s →
  ∃ s', run n c (push_faults fs) s = Done () s' ∧ faults_ok s' (q ++ fs) ∧
    pagerLock ∉ k_locks s'.
Proof.
  induction fs as [|f fs IH]; intros s q Hok [Hd Hfs] Hlk.
  - exists s. by rewrite app_nil_r.
  - destruct (Hfs f) as (Hf0 & ft & Hft & Hn); [set_solver|].
    pose proof Hd as (_ & Hdis & Hdf)%NoDup_app. apply NoDup_cons in Hdf as [Hff _].
    assert (f ∉ q) as Hfq by (intros Hin; apply (Hdis f Hin); set_solver).
    destruct (push_fault_spec n c s q f ft) as (s1 & Hrun & Hok1 & _); try done.
    destruct (push_fault_frame n c s q f s1) as [Hlk1 Hsame]; eauto.
    destruct (IH s1 (q ++ [f])) as (s2 & Hrun2 & Hok2 & ?); [done| |by rewrite Hlk1|].
    { split; [by rewrite <- app_assoc|]. intros g Hg.
      destruct (Hfs g) as (? & gt & Hgt & ?); [set_solver|]. split; [done|].
      exists gt. rewrite Hsame; [done|]. intros Hin. apply (Hdis g Hin). set_solver. }
    exists s2. rewrite <- app_assoc in Hok2. split_and!; try done.
    simpl. by rewrite (run_call _ _ _ _ _ _ _ Hrun).
Qed.

Lemma take_faults_spec n c q : ∀ s,
  faults_ok s q → pagerLock ∉ k_locks s →
  ∃ s', run n c (take_faults (length q)) s = Done q s' ∧ faults_ok s' [].
Proof.
  induction q as [|f q IH]; intros s Hok Hlk; [by exists s|].
  destruct (pager_shift_spec n c s (f :: q) Hok Hlk) as (s1 & Hrun1 & Hok1 & Heq).
  destruct (IH s1 Hok1) as (s2 & Hrun2 & Hok2); [by rewrite Heq|].
  exists s2. split; [|done]. simpl.
  rewrite (run_call _ _ _ _ _ _ _ (pager_peek_spec n c s _ Hok Hlk)).
  by rewrite (run_call _ _ _ _ _ _ _ Hrun1), (run_call _ _ _ _ _ _ _ Hrun2).
Qed.

(** C28. The system pager sees every page fault once, in the order of arrival: after
    new faults were queued behind the pending ones, peeking and shifting as often
    as there are faults yields exactly the pending ones followed by the new ones,
    and then no fault is waiting. *)
Theorem faults_are_served_in_order n c s q fs :
  faults_ok s q → new_faults s q fs → pagerLock ∉ k_locks s →
  ∃ s', run n c (push_faults fs;;
                 r ← take_faults (length (q ++ fs));
                 waiting ← anscheduler_pager_waiting;
                 mret (r, waiting)) s
        = Done (q ++ fs, false) s' ∧ faults_ok s' [].
Proof.
  intros Hok Hnew Hlk. destruct (push_faults_spec n c fs s q) as (s1 & Hrun1 & Hok1 & Hlk1); try done.
  destruct (take_faults_spec n c _ s1 Hok1 Hlk1) as (s2 & Hrun2 & Hok2).
  exists s2. split; [|done].
  rewrite (run_call _ _ _ _ _ _ _ Hrun1), (run_call _ _ _ _ _ _ _ Hrun2).
  unfold anscheduler_pager_waiting. steps. destruct Hok2 as (_ & _ & -> & _). done.
Qed.

(** Three faults of the demo task; one is pending. *)
Definition demo_faults : kst :=
  set_k_pager (mk_pager NULL 0x50000 0x50000)
    (set_k_faults (list_to_map [(0x50000, mk_fault 0 0x10000 0x1000 8 0);
       (0x51000, mk_fault 0 0x10000 0x2000 16 0); (0x52000, mk_fault 0 0x10000 0x3000 24 0)])
       (demo 0 2)).

Lemma faults_are_served_in_order_witness :
  ∃ s', run 1 0 (push_faults [0x51000; 0x52000];;
                 r ← take_faults 3;
                 waiting ← anscheduler_pager_waiting;
                 mret (r, waiting)) demo_faults
        = Done ([0x50000; 0x51000; 0x52000], false) s' ∧ faults_ok s' [].
Proof.
  apply (faults_are_served_in_order 1 0 demo_faults [0x50000] [0x51000; 0x52000]).
  - split; [by_dll|]. split; [elems; by_vm|by_vm].
  - split; [by_dec|]. elems; (split; [done|eexists; split; reflexivity]).
  - by_dec.
Defined.
