(* ===== verification/TaskRef.v ===== *)
(** * TaskRef: reference counting and killing of tasks (src/task.c)

    [anscheduler_task_reference], [anscheduler_task_dereference],
    [anscheduler_task_kill] and [_generate_kill_job]. Creation, launch and the kill
    job itself are in TaskLife.v. *)
From S2P Require Import Prelude Types Machine Demo RunQueue PagerQueue.

(** ** Operations *)

Definition anscheduler_task_reference (task : Z) : prog bool :=
  anscheduler_lock (killLock task);;
  killed ← rd task task_isKilled;
  if decide (killed ≠ 0) then anscheduler_unlock (killLock task);; mret false
  else
  count ← rd task task_refCount;
  wr task (set_task_refCount (u64 (count + 1)));;
  anscheduler_unlock (killLock task);;
  mret true.

Definition anscheduler_task_kill (task reason : Z) : prog () :=
  pager ← anscheduler_pager_get;
  is_pager ← (if decide (pager ≠ NULL) then
                pager ← anscheduler_pager_get;
                ptask ← rd pager thread_task;
                mret (bool_decide (task = ptask))
              else mret false);
  if (is_pager : bool) then mret () else
  anscheduler_lock (killLock task);;
  killed ← rd task task_isKilled;
  if decide (killed ≠ 0) then anscheduler_unlock (killLock task)
  else
  wr task (set_task_isKilled 1);;
  wr task (set_task_killReason reason);;
  anscheduler_unlock (killLock task).

(** The loop of [_generate_kill_job]: take every thread of the task out of the
    queue. *)
Definition delete_threads (first : Z) : prog () :=
  while_ first (λ thread,
    if decide (thread ≠ NULL) then
      anscheduler_loop_delete thread;;
      next ← rd thread thread_next;
      mret (inl next)
    else mret (inr ())).

Section kill.
Context `{Platform}.

Definition _generate_kill_job (task : Z) : prog () :=
  first ← rd task task_firstThread;
  delete_threads first;;
  anscheduler_loop_push_kernel task fn_free_task_method.

Definition anscheduler_task_dereference (task : Z) : prog () :=
  anscheduler_lock (killLock task);;
  count ← rd task task_refCount;
  wr task (set_task_refCount (u64 (count - 1)));;
  if decide (u64 (count - 1) = 0) then
    killed ← rd task task_isKilled;
    if decide (killed ≠ 0) then
      anscheduler_unlock (killLock task);;
      _generate_kill_job task
    else anscheduler_unlock (killLock task)
  else anscheduler_unlock (killLock task).

End kill.

(** ** The threads of a task *)

(** [task_threads s task tl]: the thread list of [task] is [tl]. *)
Definition task_threads (s : kst) (task : Z) (tl : list Z) : Prop :=
  dll (fld (k_threads s) thread_next) (fld (k_threads s) thread_last) tl ∧
  fld (k_tasks s) task_firstThread task = hd0 NULL tl ∧
  ∀ p, p ∈ tl → ∃ th, k_threads s !! p = Some th ∧ thread_task th = task.

Definition set_task (task : Z) (tk : task_t) (s : kst) : kst :=
  set_k_tasks (<[task := tk]> (k_tasks s)) s.

(** ** Lemmas *)

Lemma reference_alive n c s task tk :
  k_tasks s !! task = Some tk → task_isKilled tk = 0 → killLock task ∉ k_locks s →
  run n c (anscheduler_task_reference task) s =
  Done true (set_task task (set_task_refCount (u64 (task_refCount tk + 1)) tk) s).
Proof.
  intros Ht Hk Hl. unfold anscheduler_task_reference. steps.
  rewrite Hk, decide_False by (by intros []). steps. f_equal. kst_eq.
Qed.

Lemma reference_killed n c s task tk :
  k_tasks s !! task = Some tk → task_isKilled tk ≠ 0 → killLock task ∉ k_locks s →
  run n c (anscheduler_task_reference task) s = Done false s.
Proof.
  intros Ht Hk Hl. unfold anscheduler_task_reference. steps.
  rewrite decide_True by done. steps. f_equal. kst_eq.
Qed.

(** Queue operations keep every field but the queue links. *)
Lemma threads_agree_fld m m' (f : thread_t → Z) p :
  threads_agree m m' → (∀ t, f (thread_body t) = f t) → fld m f p = fld m' f p.
Proof.
  intros Ha Hf. specialize (Ha p). unfold fld.
  destruct (m !! p) as [o|], (m' !! p) as [o'|]; simplify_eq/=; try done.
  rewrite <- (Hf o), <- (Hf o'). f_equal.
  unfold thread_body, set_thread_queueNext, set_thread_queueLast; simpl. congruence.
Qed.

Lemma threads_agree_is_Some m m' p :
  threads_agree m m' → is_Some (m !! p) ↔ is_Some (m' !! p).
Proof.
  intros Ha. specialize (Ha p). rewrite <- (fmap_is_Some thread_body (m !! p)), Ha.
  apply fmap_is_Some.
Qed.

Lemma threads_agree_lookup m m' p th :
  threads_agree m m' → m !! p = Some th →
  ∃ th', m' !! p = Some th' ∧ thread_body th' = thread_body th.
Proof.
  intros Ha Hp. specialize (Ha p). rewrite Hp in Ha. simpl in Ha.
  destruct (m' !! p) as [o'|]; [|done]. exists o'. by apply (inj Some) in Ha.
Qed.

Lemma filter_remove (q tl : list Z) l1 x l2 :
  NoDup (l1 ++ x :: l2) →
  filter (λ p, p ∉ x :: tl) (l1 ++ x :: l2) = filter (λ p, p ∉ tl) (l1 ++ l2).
Proof.
  intros (Hn1 & Hd & [Hx Hn2]%NoDup_cons)%NoDup_app.
  rewrite !filter_app, filter_cons_False by set_solver.
  f_equal; apply filter_ext_in; set_solver.
Qed.

(** A deletion, whether the thread is queued or not. *)
Lemma loop_delete_any n c s q x :
  queue_ok s q → is_Some (k_threads s !! x) → x ≠ NULL →
  (∀ th, k_threads s !! x = Some th → x ∉ q →
     thread_queueNext th = NULL ∧ thread_queueLast th = NULL) →
  loopLock ∉ k_locks s →
  ∃ s', run n c (anscheduler_loop_delete x) s = Done () s' ∧
    queue_ok s' (filter (λ p, p ≠ x) q) ∧ queue_step s s' ∧
    untouched (filter (λ p, p ≠ x) q) s s'.
Proof.
  intros Hok [th Hx] Hx0 Hc Hlk. destruct (decide (x ∈ q)) as [Hq|Hq].
  - apply list_elem_of_split in Hq as (l1 & l2 & ->).
    assert (filter (λ p, p ≠ x) (l1 ++ x :: l2) = l1 ++ l2) as ->.
    { pose proof Hok as (Hd & _). apply dll_NoDup in Hd.
      rewrite (filter_ext_in _ (λ p, p ∉ [x])) by set_solver.
      rewrite filter_remove by done. apply filter_all. set_solver. }
    by apply loop_delete_spec.
  - destruct (Hc _ Hx Hq) as [Hn Hl].
    rewrite filter_all by set_solver.
    exists s. split_and!; [by eapply loop_delete_absent|done|reflexivity|done].
Qed.

(** After a deletion the threads that are still to be deleted are unqueued only
    if they were, and then they kept their null links. *)
Lemma clean_delete s s' q x tl :
  (∀ p th, k_threads s !! p = Some th → p ∈ x :: tl → p ∉ q →
     thread_queueNext th = NULL ∧ thread_queueLast th = NULL) →
  NoDup (x :: tl) → untouched (filter (λ p, p ≠ x) q) s s' →
  ∀ p th, k_threads s' !! p = Some th → p ∈ tl → p ∉ filter (λ p, p ≠ x) q →
    thread_queueNext th = NULL ∧ thread_queueLast th = NULL.
Proof.
  intros Hc [Hx _]%NoDup_cons Hu p th Hp Htl Hq.
  rewrite Hu in Hp by done.
  apply (Hc p th Hp); [set_solver|]. intros Hpq. apply Hq.
  apply list_elem_of_filter. split; [|done]. by intros ->.
Qed.

(** The loop takes exactly the task's threads out of the queue; it needs one
    iteration per thread and one to see the end of the list. *)
Lemma delete_threads_spec n c tl s q :
  (length tl < n)%nat →
  queue_ok s q → sll (fld (k_threads s) thread_next) tl →
  (∀ p, p ∈ tl → is_Some (k_threads s !! p)) →
  (∀ p th, k_threads s !! p = Some th → p ∈ tl → p ∉ q →
     thread_queueNext th = NULL ∧ thread_queueLast th = NULL) →
  loopLock ∉ k_locks s →
  ∃ s', run n c (delete_threads (hd0 NULL tl)) s = Done () s' ∧
    queue_ok s' (filter (λ p, p ∉ tl) q) ∧ queue_step s s'.
Proof.
  unfold delete_threads. rewrite run_tail, run_while.
  generalize n at 1 2 as m. intros m. revert m s q.
  induction tl as [|x tl IH]; intros m s q Hm Hok Hs Hin Hc Hlk;
    (destruct m as [|m]; [simpl in Hm; lia|]).
  - exists s. rewrite filter_all by set_solver.
    split_and!; [|done|reflexivity].
    rewrite iterate_S, decide_False by (by intros []). done.
  - destruct (sll_tail _ _ _ Hs) as (Hs' & Hxt & Hx0 & Hnx).
    destruct (loop_delete_any n c s q x) as (s1 & Hrun & Hok1 & [Heq Hag] & Hu);
      [done|apply Hin; set_solver|done|intros; eapply Hc; set_solver|done|].
    destruct (IH m s1 (filter (λ p, p ≠ x) q)) as (s2 & Hrun2 & Hok2 & Hstep2).
    + simpl in Hm. lia.
    + done.
    + eapply sll_ext; [|exact Hs']. intros p _. symmetry.
      by apply threads_agree_fld.
    + intros p Hp. eapply threads_agree_is_Some; [symmetry; exact Hag|].
      apply Hin. set_solver.
    + eapply clean_delete; [exact Hc|by destruct Hs|done].
    + rewrite Heq. done.
    + exists s2. split_and!.
      * rewrite iterate_S. rewrite decide_True by done.
        rewrite (run_call _ _ _ _ _ _ _ Hrun).
        destruct (Hin x) as [th Hx]; [set_solver|].
        destruct (threads_agree_lookup _ _ _ _ Hag Hx) as (th1 & Hx1 & Hb).
        steps. rewrite <- (fld_lookup _ thread_next _ _ Hx1).
        rewrite <- (threads_agree_fld _ _ thread_next x Hag) by done.
        by rewrite Hnx.
      * rewrite list_filter_filter in Hok2. erewrite filter_ext_in; [exact Hok2|].
        set_solver.
      * by transitivity s1.
Qed.

Lemma mem_ok_queue_step s s' : mem_ok s → queue_step s s' → mem_ok s'.
Proof.
  intros Hm [-> Ha]. split; simpl; try apply Hm.
  intros p Hp. eapply mem_threads, threads_agree_is_Some; done.
Qed.

Section kill_spec.
Context `{Platform, !PlatformOk _}.

Lemma spawn_queue_step s s' :
  queue_step s s' → spawn_thread s' = spawn_thread s ∧ spawn_stack s' = spawn_stack s.
Proof. by intros [-> _]. Qed.

Lemma spawned_queue_step fn arg s s' :
  queue_step s s' → queue_step (spawned fn arg s) (spawned fn arg s').
Proof.
  intros Hq. destruct (spawn_queue_step _ _ Hq) as [Ht Hst].
  unfold spawned. rewrite Ht, Hst. destruct Hq as [Heq Ha]. split; simpl.
  - rewrite Heq. done.
  - intros p. rewrite !lookup_insert. case_decide; [done|apply Ha].
Qed.

(** The kill job: the task's threads leave the queue, and a kernel thread that
    frees the task enters it. *)
Lemma generate_kill_job_spec n c s q tl task :
  (length tl < n)%nat → mem_ok s → queue_ok s q → task_threads s task tl →
  is_Some (k_tasks s !! task) → clean s q → can_spawn s → loopLock ∉ k_locks s →
  ∃ s', run n c (_generate_kill_job task) s = Done () s' ∧
    queue_ok s' (filter (λ p, p ∉ tl) q ++ [spawn_thread s]) ∧
    queue_step (spawned fn_free_task_method task s) s'.
Proof.
  intros Hn Hm Hok (Hd & Hfirst & Hin) [tk Htk] Hc [Hth Hst] Hlk.
  rewrite (fld_lookup _ _ _ _ Htk) in Hfirst.
  destruct (delete_threads_spec n c tl s q) as (s1 & Hrun1 & Hok1 & Hq1); auto.
  { by eapply dll_sll. }
  { intros p Hp. destruct (Hin p Hp) as (th & ? & _). eauto. }
  { intros p th Hp _ Hq. by apply (Hc p). }
  destruct (spawn_queue_step _ _ Hq1) as [Hth1 Hst1].
  destruct (push_kernel_spec n c s1 (filter (λ p, p ∉ tl) q) fn_free_task_method task)
    as (s2 & Hrun2 & Hok2 & Hq2 & _).
  { by eapply mem_ok_queue_step. }
  { done. }
  { split; congruence. }
  { destruct Hq1 as [-> _]. done. }
  exists s2. split_and!.
  - unfold _generate_kill_job. steps. rewrite Hfirst.
    by rewrite (run_call _ _ _ _ _ _ _ Hrun1).
  - by rewrite <- Hth1.
  - etrans; [|exact Hq2]. by apply spawned_queue_step.
Qed.

End kill_spec.

Section dereference.
Context `{Platform}.

(** A reference that is not the last, or of a task that is not killed. *)
Lemma dereference_keep n c s task tk :
  k_tasks s !! task = Some tk → killLock task ∉ k_locks s →
  u64 (task_refCount tk - 1) ≠ 0 ∨ task_isKilled tk = 0 →
  run n c (anscheduler_task_dereference task) s =
  Done () (set_task task (set_task_refCount (u64 (task_refCount tk - 1)) tk) s).
Proof.
  intros Ht Hl Hk. unfold anscheduler_task_dereference. steps.
  case_decide as Hz; steps; [|f_equal; kst_eq].
  destruct Hk as [?|Hk]; [done|]. rewrite decide_False by (rewrite Hk; by intros []).
  steps. f_equal. kst_eq.
Qed.

(** The last reference to a killed task starts the kill job. *)
Lemma dereference_last n c s task tk :
  k_tasks s !! task = Some tk → killLock task ∉ k_locks s →
  u64 (task_refCount tk - 1) = 0 → task_isKilled tk ≠ 0 →
  run n c (anscheduler_task_dereference task) s =
  run n c (_generate_kill_job task) (set_task task (set_task_refCount 0 tk) s).
Proof.
  intros Ht Hl Hz Hk. unfold anscheduler_task_dereference. steps.
  rewrite decide_True by done. steps. rewrite decide_True by done. steps.
  f_equal. rewrite Hz. kst_eq.
Qed.

End dereference.

(** ** Correctness *)

(** The task of the system pager, whom nobody can kill. *)
Definition is_pager_task (s : kst) (task : Z) : Prop :=
  pagerThread (k_pager s) ≠ NULL ∧
  fld (k_threads s) thread_task (pagerThread (k_pager s)) = task.

#[export] Instance is_pager_task_dec s task : Decision (is_pager_task s task).
Proof. unfold is_pager_task. apply _. Defined.

Definition mark_killed (reason : Z) (tk : task_t) : task_t :=
  set_task_killReason reason (set_task_isKilled 1 tk).

Lemma task_kill_spec n c s task tk reason :
  k_tasks s !! task = Some tk → killLock task ∉ k_locks s →
  (pagerThread (k_pager s) ≠ NULL → is_Some (k_threads s !! pagerThread (k_pager s))) →
  run n c (anscheduler_task_kill task reason) s =
  Done () (if decide (is_pager_task s task ∨ task_isKilled tk ≠ 0) then s
           else set_task task (mark_killed reason tk) s).
Proof.
  intros Ht Hl Hp. unfold anscheduler_task_kill. steps.
  assert (run n c (anscheduler_lock (killLock task);;
      killed ← rd task task_isKilled;
      if decide (killed ≠ 0) then anscheduler_unlock (killLock task)
      else wr task (set_task_isKilled 1);; wr task (set_task_killReason reason);;
           anscheduler_unlock (killLock task)) s =
    Done () (if decide (task_isKilled tk ≠ 0) then s
             else set_task task (mark_killed reason tk) s)) as Hkill.
  { steps. case_decide; steps; f_equal; rewrite ?insert_insert_eq; kst_eq. }
  destruct (decide (pagerThread (k_pager s) = NULL)) as [Hn|Hn].
  - rewrite decide_False by naive_solver. rewrite run_ret_bind, Hkill by done.
    f_equal. apply decide_ext. unfold is_pager_task. naive_solver.
  - rewrite decide_True by done. destruct (Hp Hn) as [pt Hpt]. steps.
    assert (is_pager_task s task ↔ task = thread_task pt) as Hip.
    { unfold is_pager_task. rewrite (fld_lookup _ thread_task _ _ Hpt). naive_solver. }
    destruct (decide (task = thread_task pt)) as [He|He].
    + rewrite bool_decide_true by done. rewrite run_ret, decide_True by tauto. done.
    + rewrite bool_decide_false, Hkill by done.
      f_equal. apply decide_ext. tauto.
Qed.

(** Killing is final: after a live task other than the pager's is killed, no
    reference to it can be obtained any more, and a second kill changes nothing,
    so the reason given first is the one that stays. *)
Theorem task_kill_is_final n c s task tk reason reason' :
  k_tasks s !! task = Some tk → task_isKilled tk = 0 → ¬ is_pager_task s task →
  killLock task ∉ k_locks s →
  (pagerThread (k_pager s) ≠ NULL → is_Some (k_threads s !! pagerThread (k_pager s))) →
  run n c (anscheduler_task_kill task reason;;
           ok ← anscheduler_task_reference task;
           anscheduler_task_kill task reason';;
           mret ok) s
  = Done false (set_task task (mark_killed reason tk) s).
Proof.
  intros Ht Hk Hnp Hl Hp.
  rewrite (run_call _ _ _ _ _ _ _ (task_kill_spec n c s task tk reason Ht Hl Hp)).
  rewrite decide_False by naive_solver.
  set (s1 := set_task task (mark_killed reason tk) s).
  assert (k_tasks s1 !! task = Some (mark_killed reason tk)) as Ht1
    by (simpl; by rewrite lookup_insert_eq).
  rewrite (run_call _ _ _ _ _ _ _
    (reference_killed n c s1 task _ Ht1 ltac:(done) Hl)).
  rewrite (run_call _ _ _ _ _ _ _ (task_kill_spec n c s1 task _ reason' Ht1 Hl Hp)).
  rewrite decide_True by (right; done). done.
Qed.

Lemma task_kill_is_final_witness :
  run 1 0 (anscheduler_task_kill 0x10000 2;;
           ok ← anscheduler_task_reference 0x10000;
           anscheduler_task_kill 0x10000 1;;
           mret ok) (demo 0 3)
  = Done false (set_task 0x10000 (mark_killed 2 (demo_task 0 3)) (demo 0 3)).
Proof.
  apply (task_kill_is_final 1 0 (demo 0 3) 0x10000 (demo_task 0 3)).
  - reflexivity.
  - reflexivity.
  - by_dec.
  - by_dec.
  - by intros [].
Defined.

(** References are counted: on a live task a reference and a dereference cancel
    out, and the task does not go away between them. *)
Theorem reference_dereference `{Platform} n c s task tk :
  k_tasks s !! task = Some tk → task_isKilled tk = 0 → 0 ≤ task_refCount tk < 2 ^ 64 →
  killLock task ∉ k_locks s →
  run n c (ok ← anscheduler_task_reference task;
           if (ok : bool) then anscheduler_task_dereference task else mret ()) s
  = Done () s.
Proof.
  intros Ht Hk Hr Hl.
  rewrite (run_call _ _ _ _ _ _ _ (reference_alive n c s task tk Ht Hk Hl)).
  set (tk1 := set_task_refCount _ tk).
  rewrite (dereference_keep n c _ task tk1);
    [|simpl; by rewrite lookup_insert_eq|done|by right].
  f_equal. unfold set_task. simpl. rewrite insert_insert_eq, insert_id; [by destruct s|].
  rewrite Ht. f_equal. unfold tk1. simpl. unfold u64.
  rewrite Zminus_mod_idemp_l, Z.add_simpl_r, Z.mod_small by done. by destruct tk.
Qed.

Lemma reference_dereference_witness :
  run 1 0 (ok ← anscheduler_task_reference 0x10000;
           if (ok : bool) then anscheduler_task_dereference (H := P0) 0x10000 else mret ())
    (demo 0 3) = Done () (demo 0 3).
Proof.
  apply (reference_dereference (H := P0) 1 0 (demo 0 3) 0x10000 (demo_task 0 3)).
  - reflexivity.
  - reflexivity.
  - simpl; lia.
  - by_dec.
Defined.

(** C5. The last reference to a killed task starts the kill job, once: every thread
    of the task leaves the run queue, the other threads stay in order, and a kernel
    thread that runs [_free_task_method] on the task is queued behind them. The
    loop over the task's threads ends after one iteration per thread. *)
Theorem last_dereference_starts_kill_job `{Platform, !PlatformOk _} n c s q tl task tk :
  k_tasks s !! task = Some tk → task_isKilled tk ≠ 0 → task_refCount tk = 1 →
  (length tl < n)%nat → mem_ok s → queue_ok s q → clean s q →
  task_threads s task tl → can_spawn s →
  killLock task ∉ k_locks s → loopLock ∉ k_locks s →
  ∃ s' th, run n c (anscheduler_task_dereference task) s = Done () s' ∧
    queue_ok s' (filter (λ p, p ∉ tl) q ++ [spawn_thread s]) ∧
    k_threads s' !! spawn_thread s = Some th ∧ thread_task th = NULL ∧
    thread_state th = state_entry (u64 (spawn_stack s + 0x1000)) fn_free_task_method task ∧
    k_tasks s' !! task = Some (set_task_refCount 0 tk).
Proof.
  intros Ht Hk Hr Hn Hm Hok Hcl (Hd & Hfirst & Hin) Hsp Hkl Hll.
  erewrite dereference_last; [|done..|rewrite Hr; done|done].
  set (s1 := set_task task (set_task_refCount 0 tk) s).
  assert (task_threads s1 task tl) as Htl.
  { split_and!; try done. rewrite <- Hfirst. simpl.
    by apply fld_insert_same with tk. }
  assert (mem_ok s1) as Hm1.
  { destruct Hm. split; try done. intros p [o Ho]. simpl in Ho.
    destruct (decide (task = p)) as [->|]; [by eauto|].
    rewrite lookup_insert_ne in Ho by done. eauto. }
  destruct (generate_kill_job_spec n c s1 q tl task) as (s' & Hrun & Hok' & [Heq Ha]);
    try done; [simpl; by rewrite lookup_insert_eq|].
  destruct (threads_agree_lookup _ _ (spawn_thread s) _ Ha ltac:(apply lookup_insert_eq))
    as (th & Hth & Hb).
  exists s', th. split_and!; try done.
  - by apply (f_equal thread_task) in Hb.
  - by apply (f_equal thread_state) in Hb.
  - rewrite Heq. simpl. by rewrite lookup_insert_eq.
Qed.

Lemma last_dereference_starts_kill_job_witness :
  ∃ s' th, run 4 0 (anscheduler_task_dereference (H := P0) 0x10000) (demo 1 1) = Done () s' ∧
    queue_ok s' [0x32000] ∧
    k_threads s' !! 0x32000 = Some th ∧ thread_task th = NULL ∧
    thread_state th = state_entry 0x34000 fn_free_task_method 0x10000 ∧
    k_tasks s' !! 0x10000 = Some (demo_task 1 0).
Proof.
  apply (last_dereference_starts_kill_job (H := P0) 4 0 (demo 1 1) [0x1000; 0x2000]
    [0x1000; 0x2000; 0x3000] 0x10000 (demo_task 1 1)).
  - reflexivity.
  - done.
  - reflexivity.
  - simpl; lia.
  - apply demo_mem_ok.
  - apply demo_queue_ok.
  - apply clean_compute. reflexivity.
  - split; [by_dll|]. split; [by_vm|]. elems; eexists; (split; reflexivity).
  - split; by_dec.
  - by_dec.
  - by_dec.
Defined.
