(* ===== verification/Loop.v ===== *)
(** * Loop: thread switching, the rest of src/loop.c

    [_next_thread] picks the thread to run, [anscheduler_loop_run] runs it; the
    others give up, save or switch the current thread. Functions that never return
    have result type [Empty_set]. *)
From S2P Require Import Prelude Types Machine Demo RunQueue PagerQueue TaskRef.

(** ** Operations *)
Section ops.
Context `{Platform}.

(** The loop of [_next_thread]: the state is [(i, *timeout)]. *)
Definition next_thread_body (max now : Z) (st : Z * Z) : prog (Z * Z + Z * Z) :=
  let '(i, timeout) := st in
  if decide (i < max) then
    th ← _shift_thread;
    nextTs ← rd th thread_nextTimestamp;
    if decide (nextTs > now) then
      _push_unconditional th;;
      mret (inl (u64 (i + 1),
        if decide (u64 (nextTs - now) < timeout) then u64 (nextTs - now) else timeout))
    else
      count ← get_queueCount;
      put_queueCount (u64 (count - 1));;
      task ← rd th thread_task;
      ok ← (if decide (task ≠ NULL) then anscheduler_task_reference task
            else mret true);
      if (ok : bool) then
        anscheduler_unlock loopLock;; mret (inr (th, timeout))
      else mret (inl (u64 (i + 1), timeout))
  else
    anscheduler_unlock loopLock;; mret (inr (NULL, timeout)).

(** The pair of the result and what [*timeout] holds at the end. *)
Definition _next_thread : prog (Z * Z) :=
  anscheduler_lock loopLock;;
  max ← get_queueCount;
  now ← anscheduler_get_time;
  second ← anscheduler_second_length;
  while_ (0, Z.shiftr second 6) (next_thread_body max now).

Definition anscheduler_loop_push_cur : prog () :=
  thread ← anscheduler_cpu_get_thread;
  task ← anscheduler_cpu_get_task;
  if decide (thread = NULL) then mret () else
  (if decide (task ≠ NULL) then anscheduler_cpu_set_task NULL else mret ());;
  anscheduler_cpu_set_thread NULL;;
  anscheduler_loop_push thread;;
  if decide (task ≠ NULL) then anscheduler_task_dereference task else mret ().

Definition anscheduler_loop_run : prog Empty_set :=
  task ← anscheduler_cpu_get_task;
  anscheduler_cpu_set_task NULL;;
  anscheduler_cpu_set_thread NULL;;
  (if decide (task ≠ NULL) then anscheduler_task_dereference task else mret ());;
  next ← _next_thread;
  let '(thread, timeout) := next in
  anscheduler_timer_set timeout;;
  if decide (thread ≠ NULL) then
    ttask ← rd thread thread_task;
    anscheduler_cpu_set_task ttask;;
    anscheduler_cpu_set_thread thread;;
    ttask ← rd thread thread_task;
    anscheduler_thread_run ttask thread
  else
    anscheduler_cpu_unlock;;
    Leave leave_idle.

Definition _run_loop_stub : prog Empty_set := anscheduler_loop_run.

Definition _resign_stub : prog Empty_set :=
  anscheduler_loop_push_cur;; anscheduler_loop_run.

Definition anscheduler_loop_break_task {A} : prog A :=
  anscheduler_cpu_stack_run _run_loop_stub.

Definition anscheduler_loop_resign {A} : prog A :=
  anscheduler_cpu_stack_run _resign_stub.

Definition _save_resign_stub : prog Empty_set := anscheduler_loop_resign.

Definition anscheduler_loop_save_and_resign : prog () :=
  thread ← anscheduler_cpu_get_thread;
  anscheduler_save_return_state thread _save_resign_stub.

Definition _delete_cur_kernel : prog Empty_set :=
  thread ← anscheduler_cpu_get_thread;
  task ← anscheduler_cpu_get_task;
  if decide (task ≠ NULL) then
    anscheduler_abort "_delete_cur_kernel in non-kernel thread!"
  else
  anscheduler_cpu_set_thread NULL;;
  stack ← rd thread thread_stack;
  anscheduler_free stack;;
  anscheduler_free thread;;
  anscheduler_loop_run.

Definition anscheduler_loop_delete_cur_kernel {A} : prog A :=
  anscheduler_cpu_stack_run _delete_cur_kernel.

Definition _switch_to_thread (thread : Z) : prog Empty_set :=
  anscheduler_loop_push_cur;;
  task ← rd thread thread_task;
  anscheduler_cpu_set_task task;;
  anscheduler_cpu_set_thread thread;;
  task ← rd thread thread_task;
  anscheduler_thread_run task thread.

Definition anscheduler_loop_switch {A} (task thread : Z) : prog A :=
  anscheduler_cpu_stack_run (_switch_to_thread thread).

End ops.

(** ** Abstract specification of the choice

    [pick ts alive now q back timeout]: [q] is what is left to examine, [back] the
    threads already sent to the end because they sleep. The first thread whose
    time has come and whose task is alive is chosen; threads of killed tasks that
    come before it are dropped; the timeout shrinks to the nearest wake-up time
    seen. *)
Fixpoint pick (ts : Z → Z) (alive : Z → bool) (now : Z) (q back : list Z) (timeout : Z) :
    option Z * list Z * Z :=
  match q with
  | [] => (None, back, timeout)
  | t :: q' =>
      if decide (now < ts t)
      then pick ts alive now q' (back ++ [t]) (Z.min timeout (ts t - now))
      else if alive t then (Some t, q' ++ back, timeout)
      else pick ts alive now q' back timeout
  end.

(** What the memory says of a thread's wake-up time and task. *)
Definition mem_ts (s : kst) (t : Z) : Z := fld (k_threads s) thread_nextTimestamp t.
Definition mem_task (s : kst) (t : Z) : Z := fld (k_threads s) thread_task t.
Definition mem_alive (s : kst) (t : Z) : bool :=
  bool_decide (mem_task s t = NULL ∨ fld (k_tasks s) task_isKilled (mem_task s t) = 0).

(** Is a thread passed over: asleep, or of a killed task? *)
Definition passed (s : kst) (t : Z) : Prop :=
  k_clock s < mem_ts s t ∨ mem_alive s t = false.
Definition asleep (s : kst) (t : Z) : Prop := k_clock s < mem_ts s t.

#[export] Instance passed_dec s t : Decision (passed s t).
Proof. unfold passed. apply _. Defined.
#[export] Instance asleep_dec s t : Decision (asleep s t).
Proof. unfold asleep. apply _. Defined.

(** The tasks after [_next_thread]: the chosen thread's task is referenced. *)
Definition ref_chosen (s : kst) (r : option Z) : gmap Z task_t :=
  match r with
  | Some t =>
      alter (λ tk, set_task_refCount (u64 (task_refCount tk + 1)) tk)
        (mem_task s t) (k_tasks s)
  | None => k_tasks s
  end.

(** What [_next_thread] relies on: the tasks of queued threads exist, nobody
    holds the locks, and times are words. *)
Record next_pre (s : kst) (q : list Z) : Prop := {
  np_task t : t ∈ q → mem_task s t ≠ NULL → is_Some (k_tasks s !! mem_task s t);
  np_lock t : killLock t ∉ k_locks s;
  np_ts t : t ∈ q → 0 ≤ mem_ts s t < 2 ^ 64;
  np_now : 0 ≤ k_clock s;
  np_null : k_tasks s !! NULL = None;
}.

(** What [_next_thread] may change. *)
Definition next_step (s s' : kst) : Prop :=
  s' = set_k_loop (k_loop s') (set_k_threads (k_threads s')
         (set_k_tasks (k_tasks s') s)) ∧
  threads_agree (k_threads s) (k_threads s').

(** ** Lemmas *)

#[export] Instance next_step_preorder : PreOrder next_step.
Proof.
  split.
  - intros s. split; [by destruct s|reflexivity].
  - intros s1 s2 s3 [E12 A12] [E23 A23]. split; [|by transitivity (k_threads s2)].
    rewrite E23, E12. by destruct s1, s2, s3.
Qed.

Lemma queue_next_step s s' : queue_step s s' → next_step s s'.
Proof. intros [-> Ha]. split; [|done]. by destruct s. Qed.

(** The choice depends on the threads examined only. *)
Lemma pick_ext ts ts' alive alive' now q back timeout :
  (∀ t, t ∈ q → ts t = ts' t) → (∀ t, t ∈ q → alive t = alive' t) →
  pick ts alive now q back timeout = pick ts' alive' now q back timeout.
Proof.
  revert back timeout. induction q as [|t q IH]; intros back timeout Ht Ha; [done|].
  simpl. rewrite Ht, Ha, !IH by set_solver. done.
Qed.

Lemma mem_ts_agree s s' t :
  threads_agree (k_threads s) (k_threads s') → mem_ts s' t = mem_ts s t.
Proof. intros Ha. symmetry. by apply threads_agree_fld. Qed.

Lemma mem_task_agree s s' t :
  threads_agree (k_threads s) (k_threads s') → mem_task s' t = mem_task s t.
Proof. intros Ha. symmetry. by apply threads_agree_fld. Qed.

Lemma mem_alive_agree s s' t :
  threads_agree (k_threads s) (k_threads s') → k_tasks s' = k_tasks s →
  mem_alive s' t = mem_alive s t.
Proof. intros Ha Ht. unfold mem_alive. by rewrite (mem_task_agree s s'), Ht. Qed.

(** [next_pre] survives a step of the queue, for the threads that remain. *)
Lemma next_pre_queue_step s s' q q' :
  next_pre s q → queue_step s s' → (∀ t, t ∈ q' → t ∈ q) → next_pre s' q'.
Proof.
  intros [] [Heq Ha] Hq. split.
  - intros t Ht. rewrite (mem_task_agree s s') by done. rewrite Heq. simpl. auto.
  - rewrite Heq. done.
  - intros t Ht. rewrite (mem_ts_agree s s') by done. auto.
  - rewrite Heq. done.
  - rewrite Heq. done.
Qed.

Lemma next_pre_weaken s q q' :
  next_pre s q → (∀ t, t ∈ q' → t ∈ q) → next_pre s q'.
Proof. intros Hp. by apply next_pre_queue_step with (1 := Hp). Qed.

(** The counter is decremented for a thread that leaves the queue. *)
Lemma chain_count s q v :
  chain_ok s q → chain_ok (upd_loop (set_queueCount v) s) q.
Proof. done. Qed.

(** A reference attempt on the task of the thread that has just been shifted. *)
Lemma reference_shifted n c s t q th :
  next_pre s q → t ∈ q → k_threads s !! t = Some th → 
  run n c (if decide (thread_task th ≠ NULL)
           then anscheduler_task_reference (thread_task th) else mret true) s =
  Done (mem_alive s t)
    (if mem_alive s t then set_k_tasks (ref_chosen s (Some t)) s else s).
Proof.
  intros Hp Ht Hth. assert (mem_task s t = thread_task th) as Hmt
    by (unfold mem_task; by rewrite (fld_lookup _ _ _ _ Hth)).
  unfold mem_alive, ref_chosen. rewrite Hmt.
  case_decide as Hn.
  - destruct (np_task _ _ Hp t Ht) as [tk Htk]; [by rewrite Hmt|].
    rewrite Hmt in Htk. rewrite (fld_lookup _ _ _ _ Htk).
    destruct (decide (task_isKilled tk = 0)) as [Hk|Hk].
    + rewrite bool_decide_true by auto.
      erewrite reference_alive by eauto using np_lock.
      unfold set_task. by erewrite alter_lookup by done.
    + rewrite bool_decide_false by naive_solver.
      by erewrite reference_killed by eauto using np_lock.
  - rewrite bool_decide_true by (left; done). rewrite Hn, run_ret. f_equal.
    rewrite alter_id; [by destruct s|]. by rewrite (np_null _ _ Hp).
Qed.

Lemma ref_chosen_agree s s' r :
  threads_agree (k_threads s) (k_threads s') → k_tasks s' = k_tasks s →
  ref_chosen s' r = ref_chosen s r.
Proof. intros Ha Ht. destruct r; simpl; by rewrite ?(mem_task_agree s s'), Ht. Qed.

Lemma next_step_del_lock l s s' :
  next_step s s' → next_step (del_lock l s) (del_lock l s').
Proof. intros [-> Ha]. by split; [destruct s|]. Qed.

Lemma u64_pred_succ k : u64 (u64 (Z.of_nat (S k)) - 1) = u64 (Z.of_nat k).
Proof. unfold u64. rewrite Zminus_mod_idemp_l. f_equal. lia. Qed.

(** *** One iteration of [_next_thread]

    The state of the scan: the queue is what is left to examine followed by what
    was sent back, and the scheduler's view of the threads left is fixed. *)
Record scan (ts : Z → Z) (alive : Z → bool) (s : kst) (q back : list Z) : Prop := {
  sc_lock : loopLock ∈ k_locks s;
  sc_chain : chain_ok s (q ++ back);
  sc_count : queueCount (k_loop s) = u64 (Z.of_nat (length (q ++ back)));
  sc_clean : clean s (q ++ back);
  sc_pre : next_pre s (q ++ back);
  sc_ts t : t ∈ q → ts t = mem_ts s t;
  sc_alive t : t ∈ q → alive t = mem_alive s t;
}.

(** The scheduler's view survives queue operations. *)
Lemma queue_step_view s s' : queue_step s s' →
  (∀ t, mem_ts s' t = mem_ts s t) ∧ (∀ t, mem_alive s' t = mem_alive s t) ∧
  (∀ r, ref_chosen s' r = ref_chosen s r) ∧
  (loopLock ∈ k_locks s → loopLock ∈ k_locks s').
Proof.
  intros [Heq Ha]. assert (k_tasks s' = k_tasks s) as Ht by (by rewrite Heq).
  split_and!; intros; [by apply mem_ts_agree|by apply mem_alive_agree|
    by apply ref_chosen_agree|by rewrite Heq].
Qed.

(** Shifting the next thread off the queue. *)
Lemma scan_shift n c ts alive s t q back :
  scan ts alive s (t :: q) back →
  ∃ s1 th, run n c _shift_thread s = Done t s1 ∧ queue_step s s1 ∧
    chain_ok s1 (q ++ back) ∧ clean s1 (q ++ back) ∧ t ∉ q ++ back ∧ t ≠ NULL ∧
    queueCount (k_loop s1) = u64 (Z.of_nat (S (length (q ++ back)))) ∧
    k_threads s1 !! t = Some th ∧ thread_nextTimestamp th = ts t ∧ 0 ≤ ts t < 2 ^ 64.
Proof.
  intros [Hlk Hch Hcnt Hcl Hpre Hts Hal].
  destruct (shift_thread_spec n c s t (q ++ back) Hch)
    as (s1 & Hrun & Hch1 & Hst & Hcnt1 & Hu & Hn & Hl).
  destruct (queue_step_view _ _ Hst) as (Hts1 & _).
  assert (is_Some (k_threads s1 !! t)) as [th Hth].
  { eapply threads_agree_is_Some; [symmetry; apply Hst|].
    destruct Hch as [[_ Hin] _]. apply Hin. set_solver. }
  exists s1, th. destruct Hch as [[Hd _] _]. split_and!; try done.
  - by eapply clean_shift.
  - apply dll_NoDup in Hd. by apply NoDup_cons in Hd as [? _].
  - eapply dll_nonnull; [done|set_solver].
  - by rewrite Hcnt1, Hcnt.
  - rewrite Hts, <- Hts1 by set_solver. unfold mem_ts. by rewrite (fld_lookup _ _ _ _ Hth).
  - rewrite Hts by set_solver. apply (np_ts _ _ Hpre). set_solver.
  - rewrite Hts by set_solver. apply (np_ts _ _ Hpre). set_solver.
Qed.

(** A scan goes on in a memory reached by queue operations. *)
Lemma scan_step ts alive s s' t q back back' :
  scan ts alive s (t :: q) back → queue_step s s' →
  chain_ok s' (q ++ back') → clean s' (q ++ back') →
  queueCount (k_loop s') = u64 (Z.of_nat (length (q ++ back'))) →
  (∀ x, x ∈ back' → x ∈ t :: back) → scan ts alive s' q back'.
Proof.
  intros [Hlk Hch Hcnt Hcl Hpre Hts Hal] Hst Hch' Hcl' Hcnt' Hb.
  destruct (queue_step_view _ _ Hst) as (Hts' & Hal' & _ & Hlk').
  split; try done; [auto| | |].
  - eapply next_pre_queue_step; [exact Hpre|done|set_solver].
  - intros x Hx. rewrite Hts', Hts; set_solver.
  - intros x Hx. rewrite Hal', Hal; set_solver.
Qed.

(** A sleeping thread is sent to the end. *)
Lemma scan_sleeping n c max now ts alive s t q back i timeout :
  scan ts alive s (t :: q) back → 0 ≤ i < max → max < 2 ^ 64 → 0 ≤ now → now < ts t →
  ∃ s', run n c (next_thread_body max now (i, timeout)) s
        = Done (inl (i + 1, Z.min timeout (ts t - now))) s' ∧
    scan ts alive s' q (back ++ [t]) ∧ queue_step s s'.
Proof.
  intros Hsc Hi Hmax Hnow Hsleep.
  destruct (scan_shift n c _ _ _ _ _ _ Hsc) as
    (s1 & th & Hrun1 & Hst1 & Hch1 & Hcl1 & Htq & Ht0 & Hcnt1 & Hth & Htst & Htsr).
  unfold next_thread_body. rewrite decide_True by lia.
  rewrite (run_call _ _ _ _ _ _ _ Hrun1). steps. rewrite Htst, decide_True by lia.
  destruct (push_unconditional_spec n c s1 (q ++ back) t)
    as (s2 & Hrun2 & Hch2 & Hst2 & Hcnt2 & Hu2); [done|eauto|done|done|].
  rewrite (run_call _ _ _ _ _ _ _ Hrun2), run_ret.
  rewrite (u64_small (ts t - now)), (u64_small (i + 1)) by lia.
  exists s2. rewrite <- app_assoc in Hch2.
  assert (queue_step s s2) by (by transitivity s1). split_and!; [|eapply scan_step|]; try done.
  - do 3 f_equal. case_decide; lia.
  - rewrite app_assoc. by eapply clean_push.
  - rewrite Hcnt2, Hcnt1. do 2 f_equal. rewrite !length_app. simpl. lia.
  - set_solver.
Qed.

(** An awake thread is taken off the queue, and kept if its task is alive. *)
Lemma scan_awake n c max now ts alive s t q back i timeout :
  scan ts alive s (t :: q) back → 0 ≤ i < max → max < 2 ^ 64 → ¬ now < ts t →
  ∃ s', scan ts alive s' q back ∧ queue_step s s' ∧
    run n c (next_thread_body max now (i, timeout)) s =
    if alive t
    then Done (inr (t, timeout)) (del_lock loopLock (set_k_tasks (ref_chosen s (Some t)) s'))
    else Done (inl (i + 1, timeout)) s'.
Proof.
  intros Hsc Hi Hmax Hawake.
  destruct (scan_shift n c _ _ _ _ _ _ Hsc) as
    (s1 & th & Hrun1 & Hst1 & Hch1 & Hcl1 & Htq & Ht0 & Hcnt1 & Hth & Htst & _).
  unfold next_thread_body. rewrite decide_True by lia.
  rewrite (run_call _ _ _ _ _ _ _ Hrun1). steps. rewrite Htst, decide_False by lia. steps.
  set (s2 := upd_loop (set_queueCount (u64 (queueCount (k_loop s1) - 1))) s1).
  assert (queue_step s s2) as Hst2 by (transitivity s1; [done|by split; [destruct s1|]]).
  assert (scan ts alive s2 q back) as Hsc2.
  { eapply scan_step; [exact Hsc|done|done|done| |set_solver].
    simpl. rewrite Hcnt1. apply u64_pred_succ. }
  destruct (queue_step_view _ _ Hst2) as (_ & Hal2 & Hrf2 & _).
  assert (next_pre s2 (t :: q ++ back)) as Hpre2
    by (eapply next_pre_queue_step; [apply Hsc|done|set_solver]).
  exists s2. split_and!; try done.
  rewrite (run_call _ _ _ _ _ _ _
    (reference_shifted n c s2 t _ th Hpre2 ltac:(set_solver) Hth)).
  rewrite Hal2, <- (sc_alive _ _ _ _ _ Hsc), Hrf2 by set_solver.
  pose proof (sc_lock _ _ _ _ _ Hsc2).
  destruct (alive t); steps; [done|]. by rewrite u64_small by lia.
Qed.

Lemma scan_queue_ok ts alive s q back m :
  scan ts alive s q back →
  queue_ok (del_lock loopLock (set_k_tasks m s)) (q ++ back) ∧
  clean (del_lock loopLock (set_k_tasks m s)) (q ++ back).
Proof. intros [? Hch Hcnt Hcl ? ? ?]. split; [by apply queue_ok_chain|done]. Qed.

(** The loop of [_next_thread], by induction on the threads left to examine. *)
Lemma next_thread_loop n c max now ts alive q : ∀ m s back i timeout,
  (length q < m)%nat → 0 ≤ i → max = i + Z.of_nat (length q) → max < 2 ^ 64 →
  0 ≤ now → scan ts alive s q back →
  let '(r, q', timeout') := pick ts alive now q back timeout in
  ∃ s', iterate m (λ x s, run n c (next_thread_body max now x) s)
          (λ b s, run n c (mret b) s) (i, timeout) s
        = Done (default NULL r, timeout') s' ∧
    queue_ok s' q' ∧ clean s' q' ∧ k_tasks s' = ref_chosen s r ∧
    next_step (del_lock loopLock s) s'.
Proof.
  induction q as [|t q IH]; intros m s back i timeout Hm Hi Hmax Hb Hnow Hsc;
    (destruct m as [|m]; [simpl in Hm; lia|]); rewrite iterate_S.
  - simpl in Hmax |- *. rewrite decide_False by lia. pose proof (sc_lock _ _ _ _ _ Hsc).
    steps. destruct (scan_queue_ok _ _ _ _ _ (k_tasks s) Hsc).
    eexists. split; [done|]. by split_and!.
  - simpl length in Hm, Hmax. simpl pick. case_decide as Hsleep.
    + destruct (scan_sleeping n c max now ts alive s t q back i timeout)
        as (s1 & Hrun & Hsc1 & Hst); try done; [lia|]. rewrite Hrun.
      specialize (IH m s1 (back ++ [t]) (i + 1) (Z.min timeout (ts t - now))).
      destruct (pick _ _ _ _ _ _) as [[r q'] timeout'].
      destruct IH as (s' & ? & ? & ? & Htk & ?); try done; try lia.
      exists s'. split_and!; try done.
      * destruct (queue_step_view _ _ Hst) as (_ & _ & Hrf & _). by rewrite Htk, Hrf.
      * etrans; [|done]. by apply next_step_del_lock, queue_next_step.
    + destruct (scan_awake n c max now ts alive s t q back i timeout)
        as (s1 & Hsc1 & Hst & Hrun); try done; [lia|]. rewrite Hrun.
      destruct (alive t).
      * destruct (scan_queue_ok _ _ _ _ _ (ref_chosen s (Some t)) Hsc1).
        eexists. split; [done|]. split_and!; try done.
        etrans; [apply next_step_del_lock, queue_next_step, Hst|].
        split; [by destruct s1|done].
      * specialize (IH m s1 back (i + 1) timeout).
        destruct (pick _ _ _ _ _ _) as [[r q'] timeout'].
        destruct IH as (s' & ? & ? & ? & Htk & ?); try done; try lia.
        exists s'. split_and!; try done.
        -- destruct (queue_step_view _ _ Hst) as (_ & _ & Hrf & _). by rewrite Htk, Hrf.
        -- etrans; [|done]. by apply next_step_del_lock, queue_next_step.
Qed.

Section loop_spec.
Context `{Platform}.

(** [anscheduler_second_length() >> 6], the longest time slice. *)
Definition max_slice : Z := Z.shiftr plat_second_length 6.

Definition chosen (s : kst) (q : list Z) : option Z * list Z * Z :=
  pick (mem_ts s) (mem_alive s) (k_clock s) q [] max_slice.

Lemma next_thread_spec n c s q :
  (length q < n)%nat → Z.of_nat (length q) < 2 ^ 64 → loopLock ∉ k_locks s →
  queue_ok s q → clean s q → next_pre s q →
  let '(r, q', timeout) := chosen s q in
  ∃ s', run n c _next_thread s = Done (default NULL r, timeout) s' ∧
    queue_ok s' q' ∧ clean s' q' ∧ k_tasks s' = ref_chosen s r ∧ next_step s s'.
Proof.
  intros Hn Hlen Hlk Hok Hcl Hpre. pose proof Hok as [Hch Hcnt]%queue_ok_chain.
  unfold chosen, _next_thread, anscheduler_get_time, anscheduler_second_length.
  steps. rewrite run_tail, run_while, Hcnt, u64_small by lia.
  pose proof (next_thread_loop n c (Z.of_nat (length q)) (k_clock s) (mem_ts s)
    (mem_alive s) q n (add_lock loopLock s) [] 0 max_slice) as Hloop.
  destruct (pick _ _ _ _ _ _) as [[r q'] timeout].
  destruct Hloop as (s' & ? & ? & ? & Htk & Hst); try done; try lia.
  - apply (np_now _ _ Hpre).
  - split; rewrite ?app_nil_r; try done; [simpl; set_solver|].
    destruct Hpre as [? Hl ? ? ?]. split; try done.
    intros t. simpl. specialize (Hl t). set_solver.
  - exists s'. split_and!; try done. etrans; [|exact Hst].
    split; [|done]. unfold del_lock, add_lock. simpl.
    rewrite del_add_lock by done. by destruct s.
Qed.

(** *** What [pick] chooses *)

Lemma pick_some s q back timeout t q' timeout' :
  pick (mem_ts s) (mem_alive s) (k_clock s) q back timeout = (Some t, q', timeout') →
  ∃ pre post, q = pre ++ t :: post ∧ ¬ passed s t ∧ Forall (passed s) pre ∧
    q' = post ++ back ++ filter (asleep s) pre.
Proof.
  revert back timeout. induction q as [|x q IH]; intros back timeout; simpl; [done|].
  case_decide as Hx.
  - intros (pre & post & -> & ? & ? & ->)%IH. exists (x :: pre), post.
    rewrite filter_cons_True, <- app_assoc by done.
    split_and!; try done. constructor; [by left|done].
  - destruct (mem_alive s x) eqn:Ha.
    + intros [= -> <- <-]. exists [], q. rewrite app_nil_r. split_and!; try done.
      intros [?|?]; [done|congruence].
    + intros (pre & post & -> & ? & ? & ->)%IH. exists (x :: pre), post.
      rewrite filter_cons_False by done.
      split_and!; try done. constructor; [by right|done].
Qed.

Lemma pick_none s q back timeout q' timeout' :
  pick (mem_ts s) (mem_alive s) (k_clock s) q back timeout = (None, q', timeout') →
  Forall (passed s) q ∧ q' = back ++ filter (asleep s) q.
Proof.
  revert back timeout. induction q as [|x q IH]; intros back timeout; simpl.
  - intros [= <- <-]. by rewrite app_nil_r.
  - case_decide as Hx; [|destruct (mem_alive s x) eqn:Ha; [done|]].
    + intros [? ->]%IH. rewrite filter_cons_True, <- app_assoc by done.
      split; [|done]. constructor; [by left|done].
    + intros [? ->]%IH. rewrite filter_cons_False by done.
      split; [|done]. constructor; [by right|done].
Qed.

(** The timeout never exceeds the start value or the wait of a thread that was
    sent to the back. *)
Lemma pick_timeout ts alive now q : ∀ back timeout r q' timeout',
  pick ts alive now q back timeout = (r, q', timeout') →
  0 < timeout → 0 < timeout' ≤ timeout ∧
  (r = None → ∀ t, t ∈ q → now < ts t → timeout' ≤ ts t - now).
Proof.
  induction q as [|x q IH]; intros back timeout r q' timeout'; simpl.
  - intros [= <- <- <-]. split; [lia|set_solver].
  - case_decide as Hx; [|destruct (alive x)].
    + intros Hp ?. apply IH in Hp as [Hle Ht]; [|lia]. split; [lia|].
      intros Hr t [->|Hin]%elem_of_cons Hlt; [lia|auto].
    + intros [= <- <- <-] ?. split; [lia|done].
    + intros Hp ?. apply IH in Hp as [Hle Ht]; [|lia]. split; [lia|].
      intros Hr t [->|Hin]%elem_of_cons Hlt; [lia|auto].
Qed.

(** Running the loop on a CPU that has no current task. *)
Lemma loop_run_spec n c s q :
  (length q < n)%nat → Z.of_nat (length q) < 2 ^ 64 → loopLock ∉ k_locks s →
  queue_ok s q → clean s q → next_pre s q →
  cpu_task (k_cpus s c) = NULL → cpu_locked (k_cpus s c) = true →
  let '(r, q', timeout) := chosen s q in
  ∃ s', run n c anscheduler_loop_run s
        = Stop (s_leave (match r with
                         | Some t => leave_run (mem_task s t) t
                         | None => leave_idle end)) s' ∧
    queue_ok s' q' ∧ clean s' q' ∧ k_tasks s' = ref_chosen s r ∧
    threads_agree (k_threads s) (k_threads s') ∧
    k_cpus s' c = match r with
                  | Some t => mk_cpu (mem_task s t) t true (u32 timeout)
                  | None => mk_cpu NULL NULL false (u32 timeout) end ∧
    k_faults s' = k_faults s ∧ k_pager s' = k_pager s.
Proof.
  intros Hn Hlen Hlk Hok Hcl Hpre Htask Hcrit.
  unfold anscheduler_loop_run. steps. rewrite Htask, decide_False by (by intros []).
  steps. set (s0 := upd_cpu c (set_cpu_thread NULL) (upd_cpu c (set_cpu_task NULL) s)).
  assert (next_pre s0 q) as Hpre0 by (by destruct Hpre; split).
  pose proof (next_thread_spec n c s0 q Hn Hlen Hlk Hok Hcl Hpre0) as Hnext.
  change (chosen s0 q) with (chosen s q) in Hnext.
  destruct (chosen s q) as [[r q'] timeout] eqn:Hch.
  destruct Hnext as (s1 & Hrun & Hok1 & Hcl1 & Htk & [Heq Hag]).
  rewrite (run_call _ _ _ _ _ _ _ Hrun). 
  destruct r as [t|]; simpl.
  - apply pick_some in Hch as (pre & post & -> & _).
    assert (t ∈ pre ++ t :: post) as Htq by set_solver.
    destruct (queue_elem_is_Some _ _ _ Hok Htq) as [th Hth].
    destruct (threads_agree_lookup _ _ _ _ Hag Hth) as (th1 & Hth1 & _).
    assert (t ≠ NULL) by (destruct Hok as [Hd _]; by eapply dll_nonnull).
    steps. rewrite decide_True by done. steps. rewrite run_thread_run.
    assert (mem_task s t = thread_task th1) as Hmt.
    { rewrite <- (mem_task_agree s s1) by done. unfold mem_task.
      by rewrite (fld_lookup _ _ _ _ Hth1). }
    eexists. split; [by rewrite Hmt|]. split_and!; try done; [|by rewrite Heq..].
    rewrite !upd_cpu_eq, Heq. simpl. rewrite !decide_True by done.
    unfold set_cpu_thread, set_cpu_task, set_cpu_timer. simpl. by rewrite Hcrit, Hmt.
  - steps. rewrite ?decide_False by (by intros []).
    rewrite run_cpu_unlock.
    2:{ rewrite upd_cpu_eq, Heq. simpl. rewrite !decide_True by done. done. }
    rewrite run_leave. eexists. split; [done|]. split_and!; try done; [|by rewrite Heq..].
    rewrite !upd_cpu_eq, Heq. simpl. rewrite !decide_True by done. done.
Qed.

(** *** Giving up the CPU *)

(** Giving a reference to a task back, when that does not start the kill job. *)
Definition deref_task (k : Z) (s : kst) : gmap Z task_t :=
  if decide (k = NULL) then k_tasks s
  else alter (λ tk, set_task_refCount (u64 (task_refCount tk - 1)) tk) k (k_tasks s).

(** The thread that runs on CPU [c], its task alive, and not the last reference
    to go while the task is killed. *)
Record running (s : kst) (c : nat) (t : Z) (th : thread_t) : Prop := {
  rn_thread : cpu_thread (k_cpus s c) = t;
  rn_task : cpu_task (k_cpus s c) = thread_task th;
  rn_lookup : k_threads s !! t = Some th;
  rn_nonnull : t ≠ NULL;
  rn_alive : thread_task th ≠ NULL →
    ∃ tk, k_tasks s !! thread_task th = Some tk ∧ task_isKilled tk = 0;
}.

Lemma deref_task_killed k s p :
  fld (deref_task k s) task_isKilled p = fld (k_tasks s) task_isKilled p.
Proof.
  unfold deref_task. case_decide; [done|]. unfold fld. rewrite lookup_alter.
  case_decide; [subst|done]. by destruct (k_tasks s !! p).
Qed.

Lemma deref_task_is_Some k s p :
  is_Some (deref_task k s !! p) ↔ is_Some (k_tasks s !! p).
Proof.
  unfold deref_task. case_decide; [done|]. rewrite lookup_alter.
  case_decide; [subst|done]. apply fmap_is_Some.
Qed.

(** The state once the current task and thread are taken off the CPU. *)
Definition off_cpu (c : nat) (s s' : kst) : Prop :=
  s' = set_k_cpus (k_cpus s') s ∧
  k_cpus s' c = set_cpu_thread NULL (set_cpu_task NULL (k_cpus s c)).

Lemma run_off_cpu n c {A} (k : () → prog A) s task :
  cpu_task (k_cpus s c) = task →
  ∃ s', off_cpu c s s' ∧
    run n c ((if decide (task ≠ NULL) then anscheduler_cpu_set_task NULL else mret ())
             ≫= λ _, anscheduler_cpu_set_thread NULL ≫= k) s = run n c (k ()) s'.
Proof.
  intros Ht. case_decide as Hn.
  - exists (upd_cpu c (set_cpu_thread NULL) (upd_cpu c (set_cpu_task NULL) s)).
    split; [|by steps]. split; [by destruct s|]. rewrite !upd_cpu_eq. done.
  - exists (upd_cpu c (set_cpu_thread NULL) s). split; [|by steps].
    split; [by destruct s|]. rewrite upd_cpu_eq.
    unfold set_cpu_thread, set_cpu_task. simpl. congruence.
Qed.

(** What giving up the CPU leaves alone. *)
Record gave_up (s : kst) (c : nat) (th : thread_t) (s' : kst) : Prop := {
  gu_threads : threads_agree (k_threads s) (k_threads s');
  gu_tasks : k_tasks s' = deref_task (thread_task th) s;
  gu_cpu : k_cpus s' c = set_cpu_thread NULL (set_cpu_task NULL (k_cpus s c));
  gu_rest : s' = set_k_loop (k_loop s') (set_k_threads (k_threads s')
              (set_k_tasks (k_tasks s') (set_k_cpus (k_cpus s') s)));
}.

Lemma push_cur_spec n c s q t th :
  queue_ok s q → clean s q → running s c t th → t ∉ q →
  loopLock ∉ k_locks s → (∀ k, killLock k ∉ k_locks s) →
  ∃ s', run n c anscheduler_loop_push_cur s = Done () s' ∧
    queue_ok s' (q ++ [t]) ∧ clean s' (q ++ [t]) ∧ gave_up s c th s'.
Proof.
  intros Hok Hcl [Ht Hk Hth Ht0 Hal] Htq Hlk Hkl.
  unfold anscheduler_loop_push_cur. steps. rewrite Ht, decide_False by done.
  destruct (run_off_cpu n c (λ _, anscheduler_loop_push t;;
    if decide (cpu_task (k_cpus s c) ≠ NULL)
    then anscheduler_task_dereference (cpu_task (k_cpus s c)) else mret ())
    s (thread_task th) Hk) as (s1 & [Hs1 Hcpu] & Hrun1).
  rewrite Hk in *. rewrite Hrun1.
  destruct (loop_push_spec n c s1 q t th) as (s2 & Hrun & Hok2 & [Heq2 Ha2] & Hu2);
    try first [done | by rewrite Hs1].
  { rewrite Hs1. destruct (decide (thread_task th = NULL)) as [|Hn]; [by left|right].
    destruct (Hal Hn) as (tk & ? & ?). eauto. }
  assert (clean s2 (q ++ [t])) by (apply (clean_push s1); [rewrite Hs1; exact Hcl|done]).
  rewrite (run_call _ _ _ _ _ _ _ Hrun). rewrite Hs1 in Ha2.
  assert (k_tasks s2 = k_tasks s) as Htk2 by (rewrite Heq2, Hs1; done).
  case_decide as Hn.
  - destruct (Hal Hn) as (tk & Htk & Hkill).
    rewrite (dereference_keep n c s2 _ tk);
      [|by rewrite Htk2|rewrite Heq2, Hs1; done|by right].
    eexists. split; [done|]. split; [done|]. split; [done|]. split; try done.
    + unfold deref_task. rewrite decide_False by done. simpl.
      by rewrite Htk2, (alter_lookup _ _ _ _ Htk).
    + rewrite Heq2. done.
    + rewrite Heq2, Hs1. by destruct s.
  - exists s2. split; [done|]. split; [done|]. split; [done|]. split; [done| | |].
    + unfold deref_task. by rewrite decide_True.
    + by rewrite Heq2.
    + rewrite Heq2, Hs1. by destruct s.
Qed.

(** What the scheduler looks at is the same after giving up the CPU. *)
Lemma gave_up_ts s c th s' t : gave_up s c th s' → mem_ts s' t = mem_ts s t.
Proof. intros []. by apply mem_ts_agree. Qed.

Lemma gave_up_alive s c th s' t : gave_up s c th s' → mem_alive s' t = mem_alive s t.
Proof.
  intros []. unfold mem_alive. by rewrite (mem_task_agree s s'), gu_tasks0,
    deref_task_killed.
Qed.

Lemma gave_up_clock s c th s' : gave_up s c th s' → k_clock s' = k_clock s.
Proof. intros []. by rewrite gu_rest0. Qed.

Lemma gave_up_locks s c th s' : gave_up s c th s' → k_locks s' = k_locks s.
Proof. intros []. by rewrite gu_rest0. Qed.

Lemma gave_up_pre s c th s' q : gave_up s c th s' → next_pre s q → next_pre s' q.
Proof.
  intros Hg []. pose proof Hg as []. split.
  - intros t Ht Hn. rewrite (mem_task_agree s s') in * by done.
    rewrite gu_tasks0. apply deref_task_is_Some; auto.
  - intros t. rewrite (gave_up_locks _ _ _ _ Hg). done.
  - intros t Ht. rewrite (gave_up_ts _ _ _ _ _ Hg). auto.
  - by rewrite (gave_up_clock _ _ _ _ Hg).
  - apply eq_None_not_Some. rewrite gu_tasks0, deref_task_is_Some, np_null0.
    by intros [].
Qed.

Lemma gave_up_chosen s c th s' q : gave_up s c th s' → chosen s' q = chosen s q.
Proof.
  intros Hg. unfold chosen. rewrite (gave_up_clock _ _ _ _ Hg).
  apply pick_ext; intros t _; [by eapply gave_up_ts|by eapply gave_up_alive].
Qed.

(** The CPU's record after [_next_thread] and the dispatch. *)
Definition dispatched (s : kst) (r : option Z) (timeout : Z) : cpu_info :=
  match r with
  | Some t => mk_cpu (mem_task s t) t true (u32 timeout)
  | None => mk_cpu NULL NULL false (u32 timeout)
  end.

Definition dispatch (s : kst) (r : option Z) : leave :=
  match r with
  | Some t => leave_run (mem_task s t) t
  | None => leave_idle
  end.

(** Resigning runs what the queue with the current thread at its end yields. *)
Lemma resign_spec n c s q t th :
  (S (length q) < n)%nat → Z.of_nat (S (length q)) < 2 ^ 64 →
  queue_ok s q → clean s q → running s c t th → t ∉ q →
  next_pre s (q ++ [t]) → loopLock ∉ k_locks s → cpu_locked (k_cpus s c) = true →
  let '(r, q', timeout) := chosen s (q ++ [t]) in
  ∃ s', run n c (A := ()) anscheduler_loop_resign s = Stop (s_leave (dispatch s r)) s' ∧
    queue_ok s' q' ∧ clean s' q' ∧ threads_agree (k_threads s) (k_threads s') ∧
    k_cpus s' c = dispatched s r timeout.
Proof.
  intros Hn Hb Hok Hcl Hr Htq Hpre Hlk Hcrit.
  destruct (push_cur_spec n c s q t th) as (s1 & Hrun1 & Hok1 & Hcl1 & Hg); try done.
  { apply Hpre. }
  assert (length (q ++ [t]) = S (length q)) as Hlen by (rewrite length_app; simpl; lia).
  pose proof (loop_run_spec n c s1 (q ++ [t])) as Hrun.
  rewrite (gave_up_chosen _ _ _ _ _ Hg) in Hrun.
  destruct (chosen s (q ++ [t])) as [[r q'] timeout].
  destruct Hrun as (s2 & Hrun2 & ? & ? & Htk & Hag & Hcpu & _); try done; try lia.
  { by rewrite (gave_up_locks _ _ _ _ Hg). }
  { by eapply gave_up_pre. }
  { by rewrite (gu_cpu _ _ _ _ Hg). }
  { by rewrite (gu_cpu _ _ _ _ Hg). }
  assert (∀ x, mem_task s1 x = mem_task s x) as Hmt
    by (intros; apply mem_task_agree, Hg).
  exists s2. split_and!; try done.
  - unfold anscheduler_loop_resign. rewrite run_stack_run. unfold _resign_stub.
    rewrite (run_call _ _ _ _ _ _ _ Hrun1), Hrun2. unfold dispatch.
    destruct r; by rewrite ?Hmt.
  - etrans; [apply (gu_threads _ _ _ _ Hg)|done].
  - rewrite Hcpu. unfold dispatched. destruct r; by rewrite ?Hmt.
Qed.

(** In front of a thread that waits and is not passed over, every choice leaves
    strictly fewer threads. *)
Lemma chosen_progress s pre x post r q' timeout :
  ¬ passed s x → chosen s (pre ++ x :: post) = (r, q', timeout) →
  r = Some x ∨ ∃ pre' post', q' = pre' ++ x :: post' ∧ (length pre' < length pre)%nat.
Proof.
  intros Hx Hch. unfold chosen in Hch. destruct r as [t|].
  - apply pick_some in Hch as (p1 & p2 & Heq & Ht & Hp & ->).
    apply app_eq_inv in Heq as [(k & Hpre & Hk)|(k & Hp1 & Hk)].
    + destruct k as [|y k]; simplify_eq/=; [by left|].
      right. exists k, (post ++ filter (asleep s) p1).
      rewrite <- !app_assoc. split; [done|]. rewrite !length_app. simpl. lia.
    + destruct k as [|y k]; simplify_eq/=; [by left|].
      apply Forall_app in Hp as [_ Hp]. by apply Forall_cons in Hp as [? _].
  - apply pick_none in Hch as [Hp _].
    apply Forall_app in Hp as [_ Hp]. by apply Forall_cons in Hp as [? _].
Qed.

End loop_spec.

Section switch.
Context `{Platform}.

(** A CPU without a current thread has nothing to give up. *)
Lemma push_cur_none n c s :
  cpu_thread (k_cpus s c) = NULL → run n c anscheduler_loop_push_cur s = Done () s.
Proof. intros Ht. unfold anscheduler_loop_push_cur. steps. by rewrite Ht, decide_True. Qed.

(** Switching to [x] queues the current thread behind the others and runs [x]. *)
Lemma switch_spec n c s q t th x xh task :
  queue_ok s q → clean s q → running s c t th → t ∉ q →
  k_threads s !! x = Some xh →
  loopLock ∉ k_locks s → (∀ k, killLock k ∉ k_locks s) →
  ∃ s', run n c (A := ()) (anscheduler_loop_switch task x) s
        = Stop (s_leave (leave_run (thread_task xh) x)) s' ∧
    queue_ok s' (q ++ [t]) ∧ clean s' (q ++ [t]) ∧
    threads_agree (k_threads s) (k_threads s') ∧
    k_tasks s' = deref_task (thread_task th) s ∧
    cpu_task (k_cpus s' c) = thread_task xh ∧ cpu_thread (k_cpus s' c) = x ∧
    k_intd s' = k_intd s ∧ k_pager s' = k_pager s ∧ k_faults s' = k_faults s.
Proof.
  intros Hok Hcl Hr Htq Hx Hlk Hkl.
  destruct (push_cur_spec n c s q t th) as (s1 & Hrun1 & ? & ? & Hg); try done.
  destruct (threads_agree_lookup _ _ _ _ (gu_threads _ _ _ _ Hg) Hx) as (xh1 & Hx1 & Hb).
  apply (f_equal thread_task) in Hb. simpl in Hb.
  unfold anscheduler_loop_switch. rewrite run_stack_run. unfold _switch_to_thread.
  rewrite (run_call _ _ _ _ _ _ _ Hrun1). steps. rewrite Hb.
  eexists. split; [done|]. split_and!; try done; [apply Hg|apply Hg|by rewrite !upd_cpu_eq..| | |];
    by rewrite (gu_rest _ _ _ _ Hg).
Qed.

End switch.

(** ** Correctness *)

(** C4. What [_next_thread] does: it returns the first queued thread that is
    neither asleep nor of a killed task, with a new reference to its task, and
    drops the dead threads it passed; the sleeping ones it passed keep their order
    at the end of the queue. It returns NULL only when every thread is asleep or
    dead. The timeout is positive, at most 1/64 second and, when there is nothing
    to run, no later than the wake-up of any sleeping thread. The loop ends after
    one iteration per queued thread. *)
Theorem next_thread_picks_first_ready `{Platform} n c s q :
  (length q < n)%nat → Z.of_nat (length q) < 2 ^ 64 → loopLock ∉ k_locks s →
  queue_ok s q → clean s q → next_pre s q → 0 < max_slice →
  ∃ r timeout q' s', run n c _next_thread s = Done (default NULL r, timeout) s' ∧
    queue_ok s' q' ∧ clean s' q' ∧ next_step s s' ∧ k_tasks s' = ref_chosen s r ∧
    0 < timeout ≤ max_slice ∧
    match r with
    | Some t => ∃ pre post, q = pre ++ t :: post ∧ ¬ passed s t ∧ Forall (passed s) pre ∧
                  q' = post ++ filter (asleep s) pre
    | None => Forall (passed s) q ∧ q' = filter (asleep s) q ∧
                ∀ t, t ∈ q → asleep s t → timeout ≤ mem_ts s t - k_clock s
    end.
Proof.
  intros Hn Hlen Hlk Hok Hcl Hpre Hsl.
  pose proof (next_thread_spec n c s q Hn Hlen Hlk Hok Hcl Hpre) as Hnt.
  destruct (chosen s q) as [[r q'] timeout] eqn:Hch. unfold chosen in Hch.
  destruct Hnt as (s' & ? & ? & ? & ? & ?).
  destruct (pick_timeout _ _ _ _ _ _ _ _ _ Hch Hsl) as [? Hnone].
  exists r, timeout, q', s'. do 6 (split; [done|]). destruct r as [t|].
  - by apply pick_some in Hch.
  - destruct (pick_none _ _ _ _ _ _ Hch). split_and!; try done. by apply Hnone.
Qed.

Lemma demo_next_pre killed refs q :
  (∀ t, t ∈ q → t ∈ [0x1000; 0x2000; 0x3000]) → next_pre (demo killed refs) q.
Proof.
  intros Hq. assert (∀ t, t ∈ q → mem_task (demo killed refs) t = 0x10000 ∧
    0 ≤ mem_ts (demo killed refs) t < 2 ^ 64) as Ht.
  { intros t Hin%Hq. revert t Hin. elems; vm_compute; split; done. }
  split; try done.
  - intros t [-> _]%Ht _. eexists. reflexivity.
  - intros t Hin. by apply Ht.
Qed.

Lemma next_thread_picks_first_ready_witness :
  ∃ r timeout q' s', run 3 0 (_next_thread (H := P0)) (demo 0 2)
      = Done (default NULL r, timeout) s' ∧
    queue_ok s' q' ∧ clean s' q' ∧ next_step (demo 0 2) s' ∧
    k_tasks s' = ref_chosen (demo 0 2) r ∧
    0 < timeout ≤ max_slice (H := P0) ∧
    match r with
    | Some t => ∃ pre post, [0x1000; 0x2000] = pre ++ t :: post ∧ ¬ passed (demo 0 2) t ∧
                  Forall (passed (demo 0 2)) pre ∧
                  q' = post ++ filter (asleep (demo 0 2)) pre
    | None => Forall (passed (demo 0 2)) [0x1000; 0x2000] ∧
              q' = filter (asleep (demo 0 2)) [0x1000; 0x2000] ∧
                ∀ t, t ∈ [0x1000; 0x2000] → asleep (demo 0 2) t →
                  timeout ≤ mem_ts (demo 0 2) t - k_clock (demo 0 2)
    end.
Proof.
  apply (next_thread_picks_first_ready (H := P0) 3 0 (demo 0 2) [0x1000; 0x2000]).
  - simpl. lia.
  - simpl. lia.
  - by_dec.
  - apply demo_queue_ok.
  - apply clean_compute. reflexivity.
  - apply demo_next_pre. set_solver.
  - reflexivity.
Defined.

(** C23. Resigning is round-robin. The current thread goes to the end of the queue;
    a thread [x] that waits and is ready either runs next or ends up with strictly
    fewer threads in front of it, so it runs after at most as many resignations as
    there are threads before it; the others' memory is unchanged, and the CPU's
    record names exactly what it runs. *)
Theorem resign_round_robin `{Platform} n c s q t th pre x post :
  (S (length q) < n)%nat → Z.of_nat (S (length q)) < 2 ^ 64 →
  queue_ok s q → clean s q → running s c t th → t ∉ q →
  next_pre s (q ++ [t]) → loopLock ∉ k_locks s → cpu_locked (k_cpus s c) = true →
  q ++ [t] = pre ++ x :: post → ¬ passed s x →
  ∃ y timeout q' s', run n c (A := ()) anscheduler_loop_resign s
      = Stop (s_leave (leave_run (mem_task s y) y)) s' ∧
    queue_ok s' q' ∧ clean s' q' ∧ threads_agree (k_threads s) (k_threads s') ∧
    k_cpus s' c = mk_cpu (mem_task s y) y true (u32 timeout) ∧
    (y = x ∨ ∃ pre' post', q' = pre' ++ x :: post' ∧ (length pre' < length pre)%nat).
Proof.
  intros Hn Hb Hok Hcl Hr Htq Hpre Hlk Hcrit Hq Hx.
  pose proof (resign_spec n c s q t th Hn Hb Hok Hcl Hr Htq Hpre Hlk Hcrit) as Hres.
  destruct (chosen s (q ++ [t])) as [[r q'] timeout] eqn:Hch.
  destruct Hres as (s' & ? & ? & ? & ? & ?). rewrite Hq in Hch.
  destruct (chosen_progress _ _ _ _ _ _ _ Hx Hch) as [->|Hless].
  - exists x, timeout, q', s'. split_and!; try done. by left.
  - destruct r as [y|].
    + exists y, timeout, q', s'. split_and!; try done. by right.
    + apply pick_none in Hch as [Hall _]. rewrite Forall_app, Forall_cons in Hall.
      by destruct Hall as (_ & ? & _).
Qed.

Lemma demo_running : running (demo 0 2) 0 0x3000 (demo_thread 0 0x2000 0 0 0 2 0).
Proof. split; try done. intros _. eexists. split; reflexivity. Qed.

Lemma resign_round_robin_witness :
  ∃ y timeout q' s', run 4 0 (A := ()) (anscheduler_loop_resign (H := P0)) (demo 0 2)
      = Stop (s_leave (leave_run (mem_task (demo 0 2) y) y)) s' ∧
    queue_ok s' q' ∧ clean s' q' ∧ threads_agree (k_threads (demo 0 2)) (k_threads s') ∧
    k_cpus s' 0%nat = mk_cpu (mem_task (demo 0 2) y) y true (u32 timeout) ∧
    (y = 0x3000 ∨ ∃ pre' post', q' = pre' ++ 0x3000 :: post' ∧ (length pre' < 2)%nat).
Proof.
  apply (resign_round_robin (H := P0) 4 0 (demo 0 2) [0x1000; 0x2000] 0x3000
    (demo_thread 0 0x2000 0 0 0 2 0) [0x1000; 0x2000] 0x3000 []).
  - simpl. lia.
  - simpl. lia.
  - apply demo_queue_ok.
  - apply clean_compute. reflexivity.
  - apply demo_running.
  - by_dec.
  - apply demo_next_pre. set_solver.
  - by_dec.
  - reflexivity.
  - reflexivity.
  - by_dec.
Defined.

(** Switching hands the CPU to the given thread and loses nobody: the thread
    that ran is queued behind all others, its task's reference is given back, and
    the CPU's record names the new thread and its task. *)
Theorem loop_switch_hands_over `{Platform} n c s q t th x xh task :
  queue_ok s q → clean s q → running s c t th → t ∉ q →
  k_threads s !! x = Some xh → loopLock ∉ k_locks s → (∀ k, killLock k ∉ k_locks s) →
  ∃ s', run n c (A := ()) (anscheduler_loop_switch task x) s
        = Stop (s_leave (leave_run (thread_task xh) x)) s' ∧
    queue_ok s' (q ++ [t]) ∧ clean s' (q ++ [t]) ∧
    k_tasks s' = deref_task (thread_task th) s ∧
    cpu_task (k_cpus s' c) = thread_task xh ∧ cpu_thread (k_cpus s' c) = x.
Proof.
  intros Hok Hcl Hr Htq Hx Hlk Hkl.
  destruct (switch_spec n c s q t th x xh task) as (s' & ? & ? & ? & ? & ? & ? & ? & _);
    try done. eauto 10.
Qed.

Lemma loop_switch_hands_over_witness :
  ∃ s', run 1 0 (A := ()) (anscheduler_loop_switch (H := P0) 0x10000 0x2000) (demo 0 2)
        = Stop (s_leave (leave_run 0x10000 0x2000)) s' ∧
    queue_ok s' [0x1000; 0x2000; 0x3000] ∧ clean s' [0x1000; 0x2000; 0x3000] ∧
    k_tasks s' = deref_task 0x10000 (demo 0 2) ∧
    cpu_task (k_cpus s' 0%nat) = 0x10000 ∧ cpu_thread (k_cpus s' 0%nat) = 0x2000.
Proof.
  apply (loop_switch_hands_over (H := P0) 1 0 (demo 0 2) [0x1000; 0x2000] 0x3000
    (demo_thread 0 0x2000 0 0 0 2 0) 0x2000 (demo_thread 0x3000 0x1000 0 0x1000 50 1 0)).
  - apply demo_queue_ok.
  - apply clean_compute. reflexivity.
  - apply demo_running.
  - by_dec.
  - reflexivity.
  - by_dec.
  - intros k. by apply not_elem_of_empty.
Defined.
