(* ===== verification/Interrupts.v ===== *)
(** * Interrupts: the interrupt thread and the IRQ mask (src/interrupts.c) *)
From S2P Require Import Prelude Types Machine Demo RunQueue PagerQueue TaskRef Loop.

Definition upd_intd (g : intd_globals → intd_globals) (s : kst) : kst :=
  set_k_intd (g (k_intd s)) s.
Definition get_interruptThread : prog Z := gget (λ s, interruptThread (k_intd s)).
Definition get_irqMask : prog Z := gget (λ s, irqMask (k_intd s)).
Definition put_interruptThread (v : Z) : prog () := gset_ (upd_intd (set_interruptThread v)).
Definition put_irqMask (v : Z) : prog () := gset_ (upd_intd (set_irqMask v)).

(** ** Operations *)

Definition anscheduler_intd_lock : prog () := anscheduler_lock intdLock.
Definition anscheduler_intd_unlock : prog () := anscheduler_unlock intdLock.

#[export] Hint Unfold get_interruptThread get_irqMask put_interruptThread put_irqMask
  anscheduler_intd_lock anscheduler_intd_unlock : prog.

Definition anscheduler_intd_get : prog Z :=
  anscheduler_intd_lock;;
  result ← get_interruptThread;
  anscheduler_intd_unlock;;
  mret result.

Definition anscheduler_intd_set (thread : Z) : prog () :=
  anscheduler_intd_lock;;
  put_interruptThread thread;;
  anscheduler_intd_unlock.

Definition anscheduler_intd_cmpnull (thread : Z) : prog () :=
  anscheduler_intd_lock;;
  cur ← get_interruptThread;
  (if decide (cur = thread) then put_interruptThread NULL else mret ());;
  anscheduler_intd_unlock.

Definition anscheduler_intd_read : prog Z :=
  anscheduler_intd_lock;;
  ret ← get_irqMask;
  put_irqMask 0;;
  anscheduler_intd_unlock;;
  mret ret.

Definition anscheduler_intd_waiting : prog bool :=
  mask ← get_irqMask; mret (bool_decide (mask ≠ 0)).

(** [1 << n] on a 32-bit [int], as gcc computes it: undefined from 32 on. *)
Definition shift_one (n : Z) : prog Z :=
  act (λ _ s, if decide (0 ≤ n < 32) then a_ok (u32 (Z.shiftl 1 n)) s
              else a_ub (bad_shift n)).

(** The platform's atomic [*ptr |= v] on the mask. *)
Definition anscheduler_or_32_irqMask (v : Z) : prog () :=
  gset_ (λ s, upd_intd (set_irqMask (Z.lor (irqMask (k_intd s)) v)) s).

Section irq.
Context `{Platform}.

Definition anscheduler_irq (irqNumber : Z) : prog () :=
  anscheduler_intd_lock;;
  it ← get_interruptThread;
  if decide (it = NULL) then anscheduler_intd_unlock else
  it ← get_interruptThread;
  task ← rd it thread_task;
  ok ← anscheduler_task_reference task;
  if negb ok then anscheduler_intd_unlock else
  bit ← shift_one irqNumber;
  anscheduler_or_32_irqMask bit;;
  it ← get_interruptThread;
  result ← rmw it thread_isPolling (set_thread_isPolling 0);
  anscheduler_intd_unlock;;
  if decide (result ≠ 0) then
    it ← get_interruptThread;
    anscheduler_loop_switch task it
  else anscheduler_task_dereference task.

End irq.

(** ** Lemmas *)

Lemma run_shift_one n c {A} k (f : Z → prog A) s :
  0 ≤ k < 32 → run n c (shift_one k ≫= f) s = run n c (f (u32 (Z.shiftl 1 k))) s.
Proof. intros Hk. unfold shift_one. rewrite run_act. simpl. by rewrite decide_True. Qed.

(** The mask after interrupt [k]. *)
Definition mask_irq (k mask : Z) : Z := Z.lor mask (u32 (Z.shiftl 1 k)).

(** An interrupt thread that can be notified. *)
Record intd_ready (s : kst) (it : Z) (th : thread_t) (tk : task_t) : Prop := {
  ir_thread : interruptThread (k_intd s) = it;
  ir_nonnull : it ≠ NULL;
  ir_lookup : k_threads s !! it = Some th;
  ir_task : k_tasks s !! thread_task th = Some tk;
  ir_alive : task_isKilled tk = 0;
  ir_lock : intdLock ∉ k_locks s;
  ir_kill : killLock (thread_task th) ∉ k_locks s;
}.

Section irq.
Context `{Platform}.

(** The part of [anscheduler_irq] up to the decision whether to switch. *)
Lemma irq_notify n c s it th tk k :
  intd_ready s it th tk → 0 ≤ k < 32 →
  run n c (anscheduler_irq k) s =
  run n c (if decide (thread_isPolling th ≠ 0) then
             it ← get_interruptThread;
             anscheduler_loop_switch (thread_task th) it
           else anscheduler_task_dereference (thread_task th))
    (upd_intd (set_irqMask (mask_irq k (irqMask (k_intd s))))
      (set_k_threads (<[it := set_thread_isPolling 0 th]> (k_threads s))
        (set_task (thread_task th) (set_task_refCount (u64 (task_refCount tk + 1)) tk) s))).
Proof.
  intros [Hi H0 Hth Htk Hk Hl Hkl] Hr.
  unfold anscheduler_irq, anscheduler_or_32_irqMask. steps.
  rewrite Hi, decide_False by done. steps. rewrite Hi. steps.
  erewrite run_call; [|apply (reference_alive n c _ _ tk); simpl; [done|done|set_solver]].
  cbv beta. simpl negb. cbv iota. rewrite run_shift_one by done. steps. rewrite Hi. steps.
  f_equal. kst_eq.
Qed.

(** A thread that is not polling: the interrupt is recorded. *)
Lemma irq_quiet n c s it th tk k :
  intd_ready s it th tk → thread_isPolling th = 0 → 0 ≤ task_refCount tk < 2 ^ 64 →
  0 ≤ k < 32 →
  run n c (anscheduler_irq k) s =
  Done () (upd_intd (set_irqMask (mask_irq k (irqMask (k_intd s)))) s).
Proof.
  intros Hir Hp Hr Hk. rewrite (irq_notify n c s it th tk k) by done.
  rewrite Hp, decide_False by (intros []; done). destruct Hir.
  erewrite dereference_keep; [|simpl; by rewrite lookup_insert_eq|done|by right].
  f_equal. unfold set_task, upd_intd. simpl. rewrite insert_insert_eq.
  rewrite (insert_id (k_threads s)), (insert_id (k_tasks s)).
  - by destruct s.
  - rewrite ir_task0. f_equal. unfold u64.
    rewrite Zminus_mod_idemp_l, Z.add_simpl_r, Z.mod_small by done. by destruct tk.
  - rewrite ir_lookup0. f_equal. destruct th. simpl in *. by rewrite Hp.
Qed.

End irq.

(** A burst of interrupts. *)
Definition irqs `{Platform} (ks : list Z) : prog () :=
  foldr (λ k p, anscheduler_irq k;; p) (mret ()) ks.

Lemma intd_ready_mask s it th tk v :
  intd_ready s it th tk → intd_ready (upd_intd (set_irqMask v) s) it th tk.
Proof. intros []. by split. Qed.

Section burst.
Context `{Platform}.

Lemma irqs_spec n c s it th tk ks :
  intd_ready s it th tk → thread_isPolling th = 0 → 0 ≤ task_refCount tk < 2 ^ 64 →
  (∀ k, k ∈ ks → 0 ≤ k < 32) →
  run n c (irqs ks) s =
  Done () (upd_intd (set_irqMask (fold_left (λ m k, mask_irq k m) ks (irqMask (k_intd s)))) s).
Proof.
  intros Hir Hp Hr. revert s Hir. induction ks as [|k ks IH]; intros s Hir Hks.
  - simpl. rewrite run_ret. f_equal. destruct s as [? ? ? ? ? ? ? ? ? ? ? ? ? ? ? ? ? ? ? []]. done.
  - simpl. erewrite run_call by (eapply irq_quiet; [done..|apply Hks; set_solver]).
    rewrite IH; [done|by apply intd_ready_mask|set_solver].
Qed.

Lemma intd_read_spec n c s :
  intdLock ∉ k_locks s →
  run n c anscheduler_intd_read s = Done (irqMask (k_intd s)) (upd_intd (set_irqMask 0) s).
Proof. intros Hl. unfold anscheduler_intd_read. steps. f_equal. kst_eq. Qed.

End burst.

Lemma mask_irqs_testbit ks m i :
  (∀ k, k ∈ ks → 0 ≤ k < 32) → 0 ≤ i →
  Z.testbit (fold_left (λ m k, mask_irq k m) ks m) i
  = Z.testbit m i || bool_decide (i ∈ ks).
Proof.
  intros Hks Hi. revert m. induction ks as [|k ks IH]; intros m; simpl.
  - by rewrite orb_false_r.
  - rewrite IH by set_solver. unfold mask_irq. rewrite Z.lor_spec.
    assert (0 ≤ k < 32) as Hk by (apply Hks; set_solver).
    assert (Z.testbit (u32 (Z.shiftl 1 k)) i = bool_decide (i = k)) as ->.
    { unfold u32. rewrite Z.mod_small.
      - rewrite Z.shiftl_1_l, Z.pow2_bits_eqb by lia. apply eq_true_iff_eq.
        rewrite Z.eqb_eq, bool_decide_eq_true. done.
      - rewrite Z.shiftl_1_l. split; [lia|]. apply Z.pow_lt_mono_r; lia. }
    rewrite <- orb_assoc. f_equal. apply eq_true_iff_eq.
    rewrite orb_true_iff, !bool_decide_eq_true, elem_of_cons. done.
Qed.

(** ** Correctness *)

(** C27. No interrupt is lost and none is reported twice: after any burst of
    interrupts that finds the interrupt thread busy, [anscheduler_intd_read] yields
    a mask whose bit [i] is set exactly when interrupt [i] was among them or had
    been pending before, and it leaves an empty mask and nothing else changed. *)
Theorem irqs_are_not_lost `{Platform} n c s it th tk ks :
  intd_ready s it th tk → thread_isPolling th = 0 → 0 ≤ task_refCount tk < 2 ^ 64 →
  (∀ k, k ∈ ks → 0 ≤ k < 32) →
  ∃ mask, run n c (irqs ks;; anscheduler_intd_read) s
          = Done mask (upd_intd (set_irqMask 0) s) ∧
    ∀ i, 0 ≤ i →
      Z.testbit mask i = Z.testbit (irqMask (k_intd s)) i || bool_decide (i ∈ ks).
Proof.
  intros Hir Hp Hr Hks. eexists. split.
  - rewrite (run_call _ _ _ _ _ _ _ (irqs_spec n c s it th tk ks Hir Hp Hr Hks)).
    rewrite intd_read_spec by apply Hir. done.
  - intros i Hi. by apply mask_irqs_testbit.
Qed.

(** An interrupt wakes the interrupt thread that polls: it is switched to at
    once, its polling flag is down, the interrupt's bit is in the mask for it to
    read, the interrupted thread is queued behind the others. *)
Theorem irq_wakes_polling_thread `{Platform} n c s q t cur it th tk k :
  intd_ready s it th tk → thread_isPolling th ≠ 0 → 0 ≤ k < 32 →
  queue_ok s q → clean s q → running s c t cur → t ∉ q → t ≠ it →
  loopLock ∉ k_locks s → (∀ k, killLock k ∉ k_locks s) →
  ∃ s' th', run n c (anscheduler_irq k) s
            = Stop (s_leave (leave_run (thread_task th) it)) s' ∧
    queue_ok s' (q ++ [t]) ∧ clean s' (q ++ [t]) ∧
    cpu_thread (k_cpus s' c) = it ∧ cpu_task (k_cpus s' c) = thread_task th ∧
    k_threads s' !! it = Some th' ∧ thread_isPolling th' = 0 ∧
    Z.testbit (irqMask (k_intd s')) k = true.
Proof.
  intros Hir Hp Hk Hok Hcl [Hrt Hrk Hrl Hr0 Hra] Htq Hti Hll Hkl.
  pose proof Hir as [Hi H0 Hth Htk Ha Hl _].
  rewrite (irq_notify n c s it th tk k), decide_True by done. steps. rewrite Hi.
  match goal with |- context [run _ _ _ ?s1] => set (s2 := s1) end.
  set (th0 := set_thread_isPolling 0 th).
  assert (queue_ok s2 q) as Hok2 by (by apply (queue_ok_insert s q it th th0)).
  assert (clean s2 q) as Hcl2 by (by apply (clean_insert s q it th th0)).
  assert (k_threads s2 !! it = Some th0) as Hit by (simpl; by rewrite lookup_insert_eq).
  assert (running s2 c t cur) as Hrun2.
  { split; try done; [simpl; by rewrite lookup_insert_ne by done|].
    intros Hn. destruct (Hra Hn) as (ck & Hck & Hak). simpl.
    destruct (decide (thread_task th = thread_task cur)) as [He|He].
    - rewrite He, lookup_insert_eq. eexists. by split.
    - rewrite lookup_insert_ne by done. eauto. }
  destruct (switch_spec n c s2 q t cur it th0 (thread_task th))
    as (s3 & Hrun & Hok3 & Hcl3 & Hag & Htk3 & Hct & Hcth & Hin3 & _); try done.
  destruct (threads_agree_lookup _ _ _ _ Hag Hit) as (th' & Hth' & Hb).
  exists s3, th'. split_and!; try done.
  - apply (f_equal thread_isPolling) in Hb. done.
  - rewrite Hin3. simpl. unfold mask_irq. rewrite Z.lor_spec. apply orb_true_iff. right.
    rewrite Z.shiftl_1_l. unfold u32. rewrite Z.mod_small.
    + apply Z.pow2_bits_true. lia.
    + split; [lia|]. apply Z.pow_lt_mono_r; lia.
Qed.

(** ** Witnesses *)

(** The demo memory with thread 0x2000 as the interrupt thread. *)
Definition demo_intd (polling : Z) : kst :=
  set_k_intd (mk_intd 0x2000 1)
    (set_k_threads (<[0x2000 := demo_thread 0x3000 0x1000 0 0 0 1 polling]>
                      (<[0x1000 := demo_thread 0x2000 0 0 0 0 0 0]> demo_threads))
      (set_k_loop (mk_loop 1 0x1000 0x1000) (demo 0 2))).

Lemma demo_intd_ready polling :
  intd_ready (demo_intd polling) 0x2000 (demo_thread 0x3000 0x1000 0 0 0 1 polling)
    (demo_task 0 2).
Proof. split; try done; by_dec. Qed.

Lemma irqs_are_not_lost_witness :
  ∃ mask, run 1 0 (irqs (H := P0) [4; 1; 4];; anscheduler_intd_read) (demo_intd 0)
          = Done mask (upd_intd (set_irqMask 0) (demo_intd 0)) ∧
    ∀ i, 0 ≤ i → Z.testbit mask i = Z.testbit 1 i || bool_decide (i ∈ [4; 1; 4]).
Proof.
  apply (irqs_are_not_lost (H := P0) 1 0 (demo_intd 0) 0x2000
    (demo_thread 0x3000 0x1000 0 0 0 1 0) (demo_task 0 2)).
  - apply demo_intd_ready.
  - reflexivity.
  - simpl; lia.
  - elems; lia.
Defined.

Lemma irq_wakes_polling_thread_witness :
  ∃ s' th', run 1 0 (anscheduler_irq (H := P0) 4) (demo_intd 1)
            = Stop (s_leave (leave_run 0x10000 0x2000)) s' ∧
    queue_ok s' [0x1000; 0x3000] ∧ clean s' [0x1000; 0x3000] ∧
    cpu_thread (k_cpus s' 0%nat) = 0x2000 ∧ cpu_task (k_cpus s' 0%nat) = 0x10000 ∧
    k_threads s' !! 0x2000 = Some th' ∧ thread_isPolling th' = 0 ∧
    Z.testbit (irqMask (k_intd s')) 4 = true.
Proof.
  apply (irq_wakes_polling_thread (H := P0) 1 0 (demo_intd 1) [0x1000] 0x3000
    (demo_thread 0 0x2000 0 0 0 2 0) 0x2000 (demo_thread 0x3000 0x1000 0 0 0 1 1)
    (demo_task 0 2)).
  - apply demo_intd_ready.
  - done.
  - lia.
  - split; [by_dll|]. split; [elems; by_vm|by_vm].
  - apply clean_compute. reflexivity.
  - split; try done. intros _. eexists. split; reflexivity.
  - by_dec.
  - done.
  - by_dec.
  - intros k. by apply not_elem_of_empty.
Defined.
