(* ===== verification/TaskExit.v ===== *)
(** * TaskExit: ending the current task (src/task.c, [anscheduler_task_exit]) *)
From S2P Require Import Prelude Types Machine Demo RunQueue PagerQueue TaskRef Loop.

Section ops.
Context `{Platform}.

Definition _task_exit (codeVal : Z) : prog Empty_set :=
  task ← anscheduler_cpu_get_task;
  anscheduler_cpu_set_task NULL;;
  anscheduler_cpu_set_thread NULL;;
  anscheduler_task_kill task codeVal;;
  anscheduler_task_dereference task;;
  anscheduler_loop_run.

(** The argument is a [uint8_t]. *)
Definition anscheduler_task_exit {A} (code : Z) : prog A :=
  anscheduler_cpu_stack_run (_task_exit (u8 code)).

End ops.

(** ** Lemmas *)

(** The task after it has exited with others still holding references. *)
Definition exited (code : Z) (tk : task_t) : task_t :=
  set_task_refCount (u64 (task_refCount tk - 1)) (mark_killed code tk).

(** The CPU has let go of its task and thread. *)
Definition off (c : nat) (s : kst) : kst :=
  upd_cpu c (set_cpu_thread NULL) (upd_cpu c (set_cpu_task NULL) s).

Section spec.
Context `{Platform}.

Lemma task_exit_killed n c s T tk code :
  cpu_task (k_cpus s c) = T → k_tasks s !! T = Some tk → task_isKilled tk = 0 →
  u64 (task_refCount tk - 1) ≠ 0 → ¬ is_pager_task s T →
  (pagerThread (k_pager s) ≠ NULL → is_Some (k_threads s !! pagerThread (k_pager s))) →
  killLock T ∉ k_locks s →
  run n c (_task_exit code) s =
  run n c anscheduler_loop_run (set_task T (exited code tk) (off c s)).
Proof.
  intros Hc Ht Hk Hr Hnp Hp Hl. unfold _task_exit. steps. rewrite Hc.
  fold (off c s).
  rewrite (run_call _ _ _ _ _ _ _ (task_kill_spec n c (off c s) T tk code Ht Hl Hp)).
  rewrite decide_False by (intros [?|?]; done).
  rewrite (run_call _ _ _ _ _ _ _ (dereference_keep n c
    (set_task T (mark_killed code tk) (off c s)) T (mark_killed code tk)
    ltac:(simpl; by rewrite lookup_insert_eq) Hl ltac:(by left))).
  f_equal. unfold set_task. simpl. by rewrite insert_insert_eq.
Qed.

(** A thread of a killed task is never chosen. *)
Lemma chosen_not_dead s q r q' timeout t T tk :
  chosen s q = (r, q', timeout) → r = Some t → k_tasks s !! T = Some tk →
  task_isKilled tk ≠ 0 → T ≠ NULL → mem_task s t ≠ T.
Proof.
  intros Hch -> Ht Hk Hn HT. unfold chosen in Hch.
  apply pick_some in Hch as (pre & post & _ & Hnp & _). apply Hnp. right.
  unfold mem_alive. rewrite HT, (fld_lookup _ _ _ _ Ht). apply bool_decide_false. naive_solver.
Qed.

Lemma task_exit_spec n c s q T tk code :
  cpu_task (k_cpus s c) = T → T ≠ NULL → k_tasks s !! T = Some tk → task_isKilled tk = 0 →
  u64 (task_refCount tk - 1) ≠ 0 → ¬ is_pager_task s T →
  (pagerThread (k_pager s) ≠ NULL → is_Some (k_threads s !! pagerThread (k_pager s))) →
  cpu_locked (k_cpus s c) = true →
  (length q < n)%nat → Z.of_nat (length q) < 2 ^ 64 → loopLock ∉ k_locks s →
  queue_ok s q → clean s q → next_pre s q →
  ∃ r q' s', run n c (_task_exit code) s = Stop (s_leave (dispatch s r)) s' ∧
    queue_ok s' q' ∧ clean s' q' ∧
    k_tasks s' !! T = Some (exited code tk) ∧ (∀ t, r = Some t → mem_task s t ≠ T).
Proof.
  intros Hc HT Ht Hk Hr Hnp Hp Hcrit Hn Hb Hlk Hok Hcl Hpre.
  pose proof (np_lock _ _ Hpre) as Hl.
  rewrite (task_exit_killed n c s T tk code) by done.
  set (s1 := set_task T (exited code tk) (off c s)).
  assert (next_pre s1 q) as Hpre1.
  { destruct Hpre as [Hpt Hpl Hpts Hpn Hp0]. split; try done.
    - intros t Hin Hn0. simpl. rewrite lookup_insert. case_decide; [done|].
      by apply (Hpt t).
    - simpl. by rewrite lookup_insert_ne. }
  pose proof (loop_run_spec n c s1 q Hn Hb Hlk Hok Hcl Hpre1) as Hlr.
  destruct (chosen s1 q) as [[r q'] timeout] eqn:Hch.
  destruct Hlr as (s' & Hrun & Hok' & Hcl' & Htk & _).
  { simpl. by rewrite !decide_True. }
  { simpl. by rewrite !decide_True. }
  assert (k_tasks s1 !! T = Some (exited code tk)) as Ht1 by (simpl; by rewrite lookup_insert_eq).
  assert (∀ t, r = Some t → mem_task s1 t ≠ T) as Hnot
    by (intros t ->; by eapply chosen_not_dead).
  exists r, q', s'. split_and!; try done.
  rewrite Htk. unfold ref_chosen. destruct r as [t|]; [|done].
  rewrite lookup_alter_ne; [done|by apply Hnot].
Qed.

End spec.

(** ** Correctness *)

(** [anscheduler_task_exit] never returns to the caller's task: it marks the
    task killed with the low byte of the code as its reason, gives the thread's
    reference back, takes the task and thread off the CPU, and runs a thread of
    another, live task from the queue or goes idle. (When other references remain;
    for the last one see the kill job.) *)
Theorem task_exit_leaves_task `{Platform} n c s q T tk code :
  cpu_task (k_cpus s c) = T → T ≠ NULL → k_tasks s !! T = Some tk → task_isKilled tk = 0 →
  2 ≤ task_refCount tk < 2 ^ 64 → ¬ is_pager_task s T →
  (pagerThread (k_pager s) ≠ NULL → is_Some (k_threads s !! pagerThread (k_pager s))) →
  cpu_locked (k_cpus s c) = true →
  (length q < n)%nat → Z.of_nat (length q) < 2 ^ 64 → loopLock ∉ k_locks s →
  queue_ok s q → clean s q → next_pre s q →
  ∃ r q' s', run n c (A := ()) (anscheduler_task_exit code) s
             = Stop (s_leave (dispatch s r)) s' ∧
    queue_ok s' q' ∧ clean s' q' ∧
    k_tasks s' !! T = Some (exited (u8 code) tk) ∧
    (∀ t, r = Some t → mem_task s t ≠ T).
Proof.
  intros Hc HT Ht Hk Hr Hnp Hp Hcrit Hn Hb Hlk Hok Hcl Hpre.
  destruct (task_exit_spec n c s q T tk (u8 code)) as (r & q' & s' & Hrun & Hrest);
    try done; [rewrite u64_small by lia; lia|].
  exists r, q', s'. split; [|done]. unfold anscheduler_task_exit.
  by rewrite run_stack_run, Hrun.
Qed.

Lemma task_exit_leaves_task_witness :
  ∃ r q' s', run 3 0 (A := ()) (anscheduler_task_exit (H := P0) 0x102) (demo 0 2)
             = Stop (s_leave (dispatch (demo 0 2) r)) s' ∧
    queue_ok s' q' ∧ clean s' q' ∧
    k_tasks s' !! 0x10000 = Some (exited 2 (demo_task 0 2)) ∧
    (∀ t, r = Some t → mem_task (demo 0 2) t ≠ 0x10000).
Proof.
  apply (task_exit_leaves_task (H := P0) 3 0 (demo 0 2) [0x1000; 0x2000] 0x10000
    (demo_task 0 2) 0x102).
  - reflexivity.
  - done.
  - reflexivity.
  - reflexivity.
  - simpl; lia.
  - by_dec.
  - by intros [].
  - reflexivity.
  - simpl; lia.
  - simpl; lia.
  - by_dec.
  - apply demo_queue_ok.
  - apply clean_compute. reflexivity.
  - apply demo_next_pre. set_solver.
Defined.
