(* ===== verification/Paging.v ===== *)
(** * Paging: page faults (src/paging.c)

    The decision [anscheduler_page_fault] makes, and the hand-over of a fault to
    the system pager. The queue itself is in PagerQueue.v. *)
From S2P Require Import Prelude Types Machine Demo RunQueue PagerQueue TaskRef Loop Interrupts TaskExit.

(** [fault_info_t]. *)
Record fault_info_t := mk_fault_info { info_ptr : Z; info_flags : Z }.

(** [anscheduler_zero(p, 0x1000)] on a page of user memory: the scheduler never looks
    into such a page, so its contents are recorded in the log of platform calls. *)
Definition zero_page (p : Z) : prog () :=
  act (λ _ s, if decide (p ∈ k_live s) then a_ok () (log_event (ev_zero p 0x1000) s)
              else a_ub (bad_pointer p)).

Section ops.
Context `{Platform}.

Definition _push_page_fault_cont (info : fault_info_t) : prog bool :=
  pager ← anscheduler_pager_get;
  if decide (pager = NULL) then mret false else
  curTask ← anscheduler_cpu_get_task;
  curThread ← anscheduler_cpu_get_thread;
  if decide (curTask = NULL) then
    anscheduler_abort "a system thread caused a page fault" else
  anscheduler_cpu_set_task NULL;;
  anscheduler_cpu_set_thread NULL;;
  fault ← alloc_as plat_junk_fault sizeof_page_fault_t;
  if decide (fault = NULL) then anscheduler_abort "failed to allocate fault object" else
  wr fault (set_fault_task curTask);;
  wr fault (set_fault_thread curThread);;
  wr fault (set_fault_ptr (info_ptr info));;
  wr fault (set_fault_flags (info_flags info));;
  wr fault (set_fault_next NULL);;
  push_fault fault;;
  pager ← anscheduler_pager_get;
  result ← rmw pager thread_isPolling (set_thread_isPolling 0);
  if decide (result ≠ 0) then
    pager ← anscheduler_pager_get;
    task ← rd pager thread_task;
    ok ← anscheduler_task_reference task;
    if negb ok then anscheduler_abort "system pager may never die!" else
    pager ← anscheduler_pager_get;
    anscheduler_loop_switch task pager
  else mret true.

Definition _push_page_fault (info : fault_info_t) : prog Empty_set :=
  result ← _push_page_fault_cont info;
  (if negb result then anscheduler_task_exit ANSCHEDULER_TASK_KILL_REASON_MEMORY
   else mret ());;
  anscheduler_loop_run.

(** What to do about a fault on a page whose entry and flags are given: allocate
    it, return to the thread, or ask the pager. *)
Inductive fault_action := do_allocate | do_retry | do_fault.

Definition fault_decision (entry flags faultFlags : Z) : fault_action :=
  if test_flag flags ANSCHEDULER_PAGE_FLAG_UNALLOC && (entry =? 0) then do_allocate
  else if test_flag flags ANSCHEDULER_PAGE_FLAG_PRESENT then
    if test_flag flags ANSCHEDULER_PAGE_FLAG_USER then
      if test_flag flags ANSCHEDULER_PAGE_FLAG_WRITE then
        if negb (test_flag faultFlags ANSCHEDULER_PAGE_FAULT_WRITE) then do_retry
        else do_fault
      else do_retry
    else do_fault
  else do_fault.

Definition anscheduler_page_fault (ptr _flags : Z) : prog Empty_set :=
  task ← anscheduler_cpu_get_task;
  if decide (task = NULL) then anscheduler_abort "kernel thread caused page fault!" else
  let info := mk_fault_info ptr _flags in
  if test_flag _flags ANSCHEDULER_PAGE_FAULT_PRESENT then
    anscheduler_cpu_stack_run (_push_page_fault info)
  else
  anscheduler_lock (vmLock task);;
  let faultPage := Z.shiftr ptr 12 in
  vm ← rd task task_vm;
  r ← anscheduler_vm_lookup vm faultPage;
  let '(entry, flags) := r in
  match fault_decision entry flags _flags with
  | do_allocate =>
      let flags := Z.lor (Z.lor ANSCHEDULER_PAGE_FLAG_USER ANSCHEDULER_PAGE_FLAG_PRESENT)
                     ANSCHEDULER_PAGE_FLAG_WRITE in
      page ← anscheduler_alloc 0x1000;
      zero_page page;;
      let physAlloc := anscheduler_vm_physical (Z.shiftr page 12) in
      vm ← rd task task_vm;
      _ ← anscheduler_vm_map vm faultPage physAlloc flags;
      anscheduler_unlock (vmLock task);;
      thread ← anscheduler_cpu_get_thread;
      anscheduler_thread_run task thread
  | do_fault =>
      anscheduler_unlock (vmLock task);;
      anscheduler_cpu_stack_run (_push_page_fault info)
  | do_retry =>
      anscheduler_unlock (vmLock task);;
      thread ← anscheduler_cpu_get_thread;
      anscheduler_thread_run task thread
  end.

End ops.

(** ** Lemmas *)

Lemma run_zero_page n c {A} p (k : () → prog A) s :
  p ∈ k_live s →
  run n c (zero_page p ≫= k) s = run n c (k ()) (log_event (ev_zero p 0x1000) s).
Proof. intros Hp. unfold zero_page. rewrite run_act; simpl. by rewrite decide_True. Qed.

(** What the page table says of an address. *)
Definition page_entry (s : kst) (vm ptr : Z) : Z * Z :=
  default (0, 0) ((default ∅ (k_vms s !! vm)) !! Z.shiftr ptr 12).

(** The flags of a page allocated on demand. *)
Definition user_page_flags : Z :=
  Z.lor (Z.lor ANSCHEDULER_PAGE_FLAG_USER ANSCHEDULER_PAGE_FLAG_PRESENT)
    ANSCHEDULER_PAGE_FLAG_WRITE.

Section decide.
Context `{Platform}.

Lemma page_fault_start n c s T tk ptr fl m :
  cpu_task (k_cpus s c) = T → T ≠ NULL → k_tasks s !! T = Some tk →
  test_flag fl ANSCHEDULER_PAGE_FAULT_PRESENT = false →
  k_vms s !! task_vm tk = Some m → vmLock T ∉ k_locks s →
  let e := page_entry s (task_vm tk) ptr in
  fault_decision e.1 e.2 fl ≠ do_allocate →
  run n c (anscheduler_page_fault ptr fl) s =
  match fault_decision e.1 e.2 fl with
  | do_fault => run n c (anscheduler_cpu_stack_run (_push_page_fault (mk_fault_info ptr fl))) s
  | _ => Stop (s_leave (leave_run T (cpu_thread (k_cpus s c)))) s
  end.
Proof.
  intros Hc HT Ht Hfl Hm Hl e Hna. unfold anscheduler_page_fault. steps.
  rewrite Hc, decide_False by done. rewrite Hfl. steps.
  erewrite run_vm_lookup by exact Hm. unfold e, page_entry in *. rewrite Hm in *. simpl in *.
  destruct (default (0, 0) (m !! Z.shiftr ptr 12)) as [en flags]. simpl in *.
  assert (del_lock (vmLock T) (add_lock (vmLock T) s) = s) as Hdl by kst_eq.
  destruct (fault_decision en flags fl); [done| |]; rewrite run_unlock by lock_side; rewrite Hdl.
  - by steps.
  - done.
Qed.

(** A fault that is the pager's: the CPU says that it is not for want of a mapping, or
    the page table has no page to allocate there and none that the thread could use: it
    is not present, not the user's, or the fault is a write to a page that is writable
    already. *)
Definition pager_entry (entry flags fl : Z) : Prop :=
  ¬ (test_flag flags ANSCHEDULER_PAGE_FLAG_UNALLOC = true ∧ entry = 0) ∧
  (test_flag flags ANSCHEDULER_PAGE_FLAG_PRESENT = false ∨
   test_flag flags ANSCHEDULER_PAGE_FLAG_USER = false ∨
   test_flag flags ANSCHEDULER_PAGE_FLAG_WRITE = true ∧
   test_flag fl ANSCHEDULER_PAGE_FAULT_WRITE = true).

Definition pager_fault (s : kst) (T ptr fl : Z) : Prop :=
  test_flag fl ANSCHEDULER_PAGE_FAULT_PRESENT = true ∨
  ∃ tk, k_tasks s !! T = Some tk ∧ is_Some (k_vms s !! task_vm tk) ∧ vmLock T ∉ k_locks s ∧
    pager_entry (page_entry s (task_vm tk) ptr).1 (page_entry s (task_vm tk) ptr).2 fl.

Lemma pager_entry_decision entry flags fl :
  pager_entry entry flags fl → fault_decision entry flags fl = do_fault.
Proof.
  intros [Hna Hor]. unfold fault_decision.
  destruct (test_flag flags ANSCHEDULER_PAGE_FLAG_UNALLOC && (entry =? 0)) eqn:Hu.
  { apply andb_true_iff in Hu as [? ?%Z.eqb_eq]. tauto. }
  destruct (test_flag flags ANSCHEDULER_PAGE_FLAG_PRESENT),
    (test_flag flags ANSCHEDULER_PAGE_FLAG_USER), (test_flag flags ANSCHEDULER_PAGE_FLAG_WRITE),
    (test_flag fl ANSCHEDULER_PAGE_FAULT_WRITE); naive_solver.
Qed.

Lemma page_fault_to_pager n c s T ptr fl :
  cpu_task (k_cpus s c) = T → T ≠ NULL → pager_fault s T ptr fl →
  run n c (anscheduler_page_fault ptr fl) s =
  run n c (anscheduler_cpu_stack_run (_push_page_fault (mk_fault_info ptr fl))) s.
Proof.
  intros Hc HT Hpf. destruct (test_flag fl ANSCHEDULER_PAGE_FAULT_PRESENT) eqn:Hfl.
  { unfold anscheduler_page_fault. steps. rewrite Hc, decide_False by done. by rewrite Hfl. }
  destruct Hpf as [?|(tk & Ht & [m Hm] & Hl & Hd%pager_entry_decision)]; [congruence|].
  rewrite (page_fault_start n c s T tk ptr fl m); try done; by rewrite Hd.
Qed.

End decide.

Section fault.
Context `{Platform, !PlatformOk _}.

(** The page a demand allocation yields. *)
Definition demand_page (s : kst) : Z := plat_alloc (k_nallocs s) (k_live s) 0x1000.

Lemma page_fault_allocate n c s T tk ptr fl m :
  cpu_task (k_cpus s c) = T → T ≠ NULL → k_tasks s !! T = Some tk →
  test_flag fl ANSCHEDULER_PAGE_FAULT_PRESENT = false →
  k_vms s !! task_vm tk = Some m → vmLock T ∉ k_locks s →
  let e := page_entry s (task_vm tk) ptr in
  fault_decision e.1 e.2 fl = do_allocate → demand_page s ≠ NULL →
  plat_map_ok (k_nmaps s) (task_vm tk) (Z.shiftr ptr 12) = true →
  run n c (anscheduler_page_fault ptr fl) s =
  Stop (s_leave (leave_run T (cpu_thread (k_cpus s c))))
    (mapped (task_vm tk) (Z.shiftr ptr 12)
       (plat_physical (Z.shiftr (demand_page s) 12)) user_page_flags
       (log_event (ev_zero (demand_page s) 0x1000) (alloc_step 0x1000 s))).
Proof.
  intros Hc HT Ht Hfl Hm Hl e Hd Hp Hmap. unfold anscheduler_page_fault. steps.
  rewrite Hc, decide_False by done. rewrite Hfl. steps.
  erewrite run_vm_lookup by exact Hm. unfold e, page_entry in *. rewrite Hm in *. simpl in *.
  destruct (default (0, 0) (m !! Z.shiftr ptr 12)) as [en flags]. simpl in *.
  rewrite Hd. steps. unfold demand_page in *.
  rewrite run_zero_page by (by apply (alloc_step_new 0x1000 s)). 
  rewrite !alloc_step_some by done. steps.
  rewrite run_vm_map by eauto. simpl. rewrite Hmap. 
  rewrite run_unlock.
  2:{ simpl. set_solver. }
  2:{ simpl. apply bool_decide_eq_true. eauto. }
  steps. f_equal. unfold mapped, vm_upd. kst_eq.
Qed.

(** *** Handing a fault to the pager *)

Definition fault_addr (s : kst) : Z := plat_alloc (k_nallocs s) (k_live s) sizeof_page_fault_t.

(** The pager thread that the fault may wake. *)
Record pager_ready (s : kst) (pt : Z) (pth : thread_t) : Prop := {
  pr_thread : pagerThread (k_pager s) = pt;
  pr_nonnull : pt ≠ NULL;
  pr_lookup : k_threads s !! pt = Some pth;
  pr_lock : pagerLock ∉ k_locks s;
}.

(** The memory once the fault is queued and the polling flag is down. *)
Definition fault_queued (c : nat) (s : kst) (pt : Z) (pth : thread_t) (ptr fl : Z)
    (q : list Z) (s' : kst) : Prop :=
  faults_ok s' (q ++ [fault_addr s]) ∧
  (∃ ft, k_faults s' !! fault_addr s = Some ft ∧
     set_fault_next NULL ft
     = mk_fault NULL (cpu_task (k_cpus s c)) (cpu_thread (k_cpus s c)) ptr fl) ∧
  s' = set_k_pager (k_pager s') (set_k_faults (k_faults s')
         (set_k_threads (<[pt := set_thread_isPolling 0 pth]> (k_threads s))
           (alloc_step sizeof_page_fault_t (off c s)))) ∧
  pagerThread (k_pager s') = pt.

Lemma push_fault_pager n c s f s' :
  run n c (push_fault f) s = Done () s' → pagerThread (k_pager s') = pagerThread (k_pager s).
Proof.
  unfold push_fault. destruct (decide (pagerLock ∈ k_locks s)) as [Hl|Hl].
  { steps. by rewrite run_lock_wait by (simpl; done). }
  steps. case_decide as Hn; steps.
  - unfold wr. rewrite run_act. simpl.
    destruct (k_faults s !! lastFault (k_pager s)); [|done]. steps. by intros [= <-].
  - by intros [= <-].
Qed.

Lemma push_cont_spec n c s q pt pth ptr fl :
  pager_ready s pt pth → cpu_task (k_cpus s c) ≠ NULL → faults_ok s q → mem_ok s →
  fault_addr s ≠ NULL →
  ∃ s', fault_queued c s pt pth ptr fl q s' ∧
    run n c (_push_page_fault_cont (mk_fault_info ptr fl)) s =
    run n c (if decide (thread_isPolling pth ≠ 0) then
               pager ← anscheduler_pager_get;
               task ← rd pager thread_task;
               ok ← anscheduler_task_reference task;
               if negb ok then anscheduler_abort "system pager may never die!" else
               pager ← anscheduler_pager_get;
               anscheduler_loop_switch task pager
             else mret true) s'.
Proof.
  intros [Hpt Hp0 Hpth Hpl] Hc Hok Hm Hf0.
  unfold _push_page_fault_cont. steps. rewrite Hpt, decide_False by done. steps.
  rewrite decide_False by done. steps. fold (off c s).
  rewrite run_alloc_as. cbv zeta. fold (fault_addr (off c s)).
  change (fault_addr (off c s)) with (fault_addr s) in *.
  rewrite !decide_False by done. steps. rewrite !insert_insert_eq.
  set (ft := mk_fault NULL (cpu_task (k_cpus s c)) (cpu_thread (k_cpus s c)) ptr fl).
  match goal with |- context [run _ _ _ (set_k_faults ?h ?s0)] =>
    change (set_k_faults h s0) with (set_k_faults (<[fault_addr s := ft]> (k_faults s))
      (alloc_step sizeof_page_fault_t (off c s))) end.
  set (s1 := set_k_faults _ _).
  assert (k_faults s !! fault_addr s = None) as Hfresh.
  { apply eq_None_not_Some. intros Hs. by apply (plat_alloc_fresh _ _ _ Hf0), mem_faults. }
  assert (fault_addr s ∉ q) as Hfq.
  { destruct Hok as (_ & Hin & _). intros Hq. destruct (Hin _ Hq). congruence. }
  assert (faults_ok s1 q) as Hok1.
  { destruct Hok as (Hs & Hin & ?). split_and!; simpl; try tauto.
    - eapply sll_ext; [|exact Hs]. intros p Hp. apply fld_insert_ne. congruence.
    - intros p Hp. rewrite lookup_insert_ne by congruence. auto. }
  destruct (push_fault_spec n c s1 q (fault_addr s) ft) as (s2 & Hrun & Hok2 & Heq & Hft);
    try done; [simpl; by rewrite lookup_insert_eq|].
  rewrite (run_call _ _ _ _ _ _ _ Hrun).
  assert (pagerThread (k_pager s2) = pt) as Hpt2
    by (rewrite (push_fault_pager _ _ _ _ _ Hrun); done).
  assert (k_threads s2 !! pt = Some pth) as Hpth2 by (by rewrite Heq).
  steps. rewrite Hpt2. steps.
  specialize (Hft (fault_addr s)). simpl in Hft. rewrite lookup_insert_eq in Hft.
  destruct (k_faults s2 !! fault_addr s) as [ft2|] eqn:Hft2; [|done].
  eexists. split; [|done]. split_and!; try done.
  - exists ft2. split; [done|]. by apply (inj Some) in Hft.
  - rewrite Heq. simpl. done.
Qed.

(** The scheduler's state right after the fault is queued. *)
Lemma fault_queued_queue c s pt pth ptr fl fq s' q :
  pager_ready s pt pth → fault_queued c s pt pth ptr fl fq s' →
  queue_ok s q → clean s q → next_pre s q →
  queue_ok s' q ∧ clean s' q ∧ next_pre s' q ∧
  (∀ t, mem_task s' t = mem_task s t) ∧ (loopLock ∉ k_locks s → loopLock ∉ k_locks s') ∧
  k_cpus s' c = set_cpu_thread NULL (set_cpu_task NULL (k_cpus s c)).
Proof.
  intros [Hpt Hp0 Hpth Hpl] (_ & _ & Heq & _) Hok Hcl [Ht Hl Hts Hn Hz].
  assert (∀ f : thread_t → Z, (∀ o, f (set_thread_isPolling 0 o) = f o) →
    ∀ p, fld (k_threads s') f p = fld (k_threads s) f p) as Hfld.
  { intros f Hf p. rewrite Heq. simpl. by apply fld_insert_same with pth. }
  split_and!.
  - rewrite Heq. by apply (queue_ok_insert s q pt pth).
  - rewrite Heq. by apply (clean_insert s q pt pth).
  - split; unfold mem_task, mem_ts.
    + intros t Hin. rewrite !Hfld by done. rewrite Heq. by apply Ht.
    + rewrite Heq. apply Hl.
    + intros t Hin. rewrite Hfld by done. by apply Hts.
    + by rewrite Heq.
    + by rewrite Heq.
  - intros t. by apply Hfld.
  - by rewrite Heq.
  - rewrite Heq. simpl. by rewrite !decide_True by done.
Qed.

End fault.

(** ** Correctness *)

(** C29. Demand allocation: a fault on a page that is marked to be allocated takes a
    fresh, 4K-aligned page, zeroes all of it, maps it there, readable and writable for
    the user, changes no other mapping, and runs the faulting thread again. *)
Theorem page_fault_allocates_on_demand `{Platform, !PlatformOk _} n c s T tk ptr fl m flags :
  cpu_task (k_cpus s c) = T → T ≠ NULL → k_tasks s !! T = Some tk →
  k_vms s !! task_vm tk = Some m → vmLock T ∉ k_locks s →
  test_flag fl ANSCHEDULER_PAGE_FAULT_PRESENT = false →
  m !! Z.shiftr ptr 12 = Some (0, flags) →
  test_flag flags ANSCHEDULER_PAGE_FLAG_UNALLOC = true →
  demand_page s ≠ NULL → plat_map_ok (k_nmaps s) (task_vm tk) (Z.shiftr ptr 12) = true →
  ∃ s', run n c (anscheduler_page_fault ptr fl) s
        = Stop (s_leave (leave_run T (cpu_thread (k_cpus s c)))) s' ∧
    k_vms s' = <[task_vm tk := <[Z.shiftr ptr 12 :=
                   (plat_physical (Z.shiftr (demand_page s) 12), user_page_flags)]> m]> (k_vms s) ∧
    demand_page s ∉ k_live s ∧ k_live s' = {[demand_page s]} ∪ k_live s ∧
    demand_page s mod 0x1000 = 0 ∧ k_log s' = k_log s ++ [ev_zero (demand_page s) 0x1000] ∧
    k_locks s' = k_locks s ∧ k_tasks s' = k_tasks s.
Proof.
  intros Hc HT Ht Hm Hl Hfl Hpage Hun Hp Hmap.
  eexists. split.
  - eapply (page_fault_allocate n c s T tk ptr fl m); try done.
    unfold page_entry, fault_decision. rewrite Hm. simpl. rewrite Hpage. simpl. by rewrite Hun.
  - rewrite alloc_step_some by done. fold (demand_page s). split_and!; try done.
    + simpl. by rewrite (alter_lookup _ _ _ _ Hm).
    + by apply plat_alloc_fresh.
    + apply plat_alloc_aligned.
Qed.

(** A thread that faults on a page of the user that is present and, for a
    writable page, was read is run again with the memory unchanged: another CPU has
    mapped the page in the meantime. *)
Theorem page_fault_retries_present_page `{Platform} n c s T tk ptr fl m phys flags :
  cpu_task (k_cpus s c) = T → T ≠ NULL → k_tasks s !! T = Some tk →
  k_vms s !! task_vm tk = Some m → vmLock T ∉ k_locks s →
  test_flag fl ANSCHEDULER_PAGE_FAULT_PRESENT = false →
  m !! Z.shiftr ptr 12 = Some (phys, flags) →
  test_flag flags ANSCHEDULER_PAGE_FLAG_UNALLOC = false →
  test_flag flags ANSCHEDULER_PAGE_FLAG_PRESENT = true →
  test_flag flags ANSCHEDULER_PAGE_FLAG_USER = true →
  (test_flag flags ANSCHEDULER_PAGE_FLAG_WRITE = true →
   test_flag fl ANSCHEDULER_PAGE_FAULT_WRITE = false) →
  run n c (anscheduler_page_fault ptr fl) s
  = Stop (s_leave (leave_run T (cpu_thread (k_cpus s c)))) s.
Proof.
  intros Hc HT Ht Hm Hl Hfl Hpage Hun Hpr Hus Hw.
  assert (fault_decision phys flags fl = do_retry) as Hd.
  { unfold fault_decision. rewrite Hun, Hpr, Hus. simpl.
    destruct (test_flag flags ANSCHEDULER_PAGE_FLAG_WRITE); [by rewrite Hw|done]. }
  assert (page_entry s (task_vm tk) ptr = (phys, flags)) as He
    by (unfold page_entry; rewrite Hm; simpl; by rewrite Hpage).
  rewrite (page_fault_start n c s T tk ptr fl m); try done; rewrite He; simpl; by rewrite Hd.
Qed.

(** C30. A fault for a pager that waits, be it one the CPU reports for a page that is
    present or one on a page that the page table does not have present, that is not the
    user's, or that is writable and written to ([pager_fault]): the fault is recorded
    behind the pending ones with the faulting task, thread, address and flags; the pager
    runs at once with its polling flag down; the run queue is unchanged, so a faulting
    thread that was not in it stays asleep until the pager pushes it again. *)
Theorem page_fault_wakes_pager `{Platform, !PlatformOk _} n c s q fq pt pth ptk T ptr fl :
  cpu_task (k_cpus s c) = T → T ≠ NULL → pager_fault s T ptr fl →
  pager_ready s pt pth → thread_isPolling pth ≠ 0 →
  k_tasks s !! thread_task pth = Some ptk → task_isKilled ptk = 0 →
  faults_ok s fq → mem_ok s → fault_addr s ≠ NULL →
  queue_ok s q → clean s q → next_pre s q → loopLock ∉ k_locks s →
  ∃ s' ft pth', run n c (anscheduler_page_fault ptr fl) s
      = Stop (s_leave (leave_run (thread_task pth) pt)) s' ∧
    faults_ok s' (fq ++ [fault_addr s]) ∧
    k_faults s' !! fault_addr s = Some ft ∧
    set_fault_next NULL ft = mk_fault NULL T (cpu_thread (k_cpus s c)) ptr fl ∧
    k_threads s' !! pt = Some pth' ∧ thread_isPolling pth' = 0 ∧
    queue_ok s' q ∧ cpu_thread (k_cpus s' c) = pt.
Proof.
  intros Hc HT Hfl Hpr Hpoll Hptk Hpk Hfok Hm Hf0 Hok Hcl Hpre Hlk.
  rewrite (page_fault_to_pager n c s T) by done.
  rewrite run_stack_run. unfold _push_page_fault. rewrite run_bind.
  destruct (push_cont_spec n c s fq pt pth ptr fl) as (s1 & Hq & Hrun); try done; [by rewrite Hc|].
  destruct (fault_queued_queue c s pt pth ptr fl fq s1 q) as
    (Hok1 & Hcl1 & Hpre1 & _ & Hlk1 & Hcpu1); try done.
  destruct Hq as (Hfok1 & (ft & Hft & Hftb) & Heq & Hpt1).
  rewrite Hrun, decide_True by done.
  assert (k_threads s1 !! pt = Some (set_thread_isPolling 0 pth)) as Hpth1
    by (rewrite Heq; simpl; by rewrite lookup_insert_eq).
  steps. rewrite Hpt1. steps.
  rewrite (run_call _ _ _ _ _ _ _ (reference_alive n c s1 _ ptk
    ltac:(by rewrite Heq) Hpk ltac:(apply Hpre1))).
  simpl negb. cbv iota. steps. rewrite Hpt1.
  set (s2 := set_task _ _ s1).
  unfold anscheduler_loop_switch. rewrite run_stack_run. unfold _switch_to_thread.
  erewrite run_call by (apply push_cur_none; simpl; by rewrite Hcpu1). steps.
  eexists _, ft, _. split; [done|]. rewrite Hc in Hftb. split_and!; try done.
  by rewrite upd_cpu_eq.
Qed.

(** A fault while the pager is busy: the fault is recorded in the same way, the
    faulting thread leaves the CPU without entering the run queue, and the CPU runs
    the first ready thread of the queue or goes idle. *)
Theorem page_fault_waits_for_pager `{Platform, !PlatformOk _} n c s q fq pt pth T ptr fl :
  cpu_task (k_cpus s c) = T → T ≠ NULL → cpu_locked (k_cpus s c) = true →
  pager_fault s T ptr fl →
  pager_ready s pt pth → thread_isPolling pth = 0 →
  faults_ok s fq → mem_ok s → fault_addr s ≠ NULL →
  (length q < n)%nat → Z.of_nat (length q) < 2 ^ 64 →
  queue_ok s q → clean s q → next_pre s q → loopLock ∉ k_locks s →
  ∃ r q' s' ft, run n c (anscheduler_page_fault ptr fl) s
      = Stop (s_leave (dispatch s r)) s' ∧
    faults_ok s' (fq ++ [fault_addr s]) ∧
    k_faults s' !! fault_addr s = Some ft ∧
    set_fault_next NULL ft = mk_fault NULL T (cpu_thread (k_cpus s c)) ptr fl ∧
    queue_ok s' q' ∧ (∀ t, t ∈ q' → t ∈ q) ∧ (∀ t, r = Some t → t ∈ q).
Proof.
  intros Hc HT Hcrit Hfl Hpr Hpoll Hfok Hm Hf0 Hn Hb Hok Hcl Hpre Hlk.
  rewrite (page_fault_to_pager n c s T) by done.
  rewrite run_stack_run. unfold _push_page_fault. rewrite run_bind.
  destruct (push_cont_spec n c s fq pt pth ptr fl) as (s1 & Hq & Hrun); try done; [by rewrite Hc|].
  destruct (fault_queued_queue c s pt pth ptr fl fq s1 q) as
    (Hok1 & Hcl1 & Hpre1 & Hmt1 & Hlk1 & Hcpu1); try done.
  destruct Hq as (Hfok1 & (ft & Hft & Hftb) & Heq & Hpt1).
  rewrite Hrun, decide_False by (rewrite Hpoll; by intros []). rewrite run_ret.
  simpl negb. cbv iota. rewrite run_ret_bind.
  pose proof (loop_run_spec n c s1 q Hn Hb (Hlk1 Hlk) Hok1 Hcl1 Hpre1) as Hlr.
  destruct (chosen s1 q) as [[r q'] timeout] eqn:Hch.
  destruct Hlr as (s2 & Hrun2 & Hok2 & _ & _ & _ & _ & Hf2 & Hp2); [by rewrite Hcpu1..|].
  rewrite Hc in Hftb. exists r, q', s2, ft. split_and!; try done.
  - rewrite Hrun2. unfold dispatch. destruct r; by rewrite ?Hmt1.
  - unfold faults_ok in *. by rewrite Hf2, Hp2.
  - by rewrite Hf2.
  - intros t Ht. unfold chosen in Hch. destruct r as [x|].
    + apply pick_some in Hch as (pre & post & -> & _ & _ & ->).
      rewrite !elem_of_app, list_elem_of_filter in Ht. set_solver.
    + apply pick_none in Hch as [_ ->]. rewrite elem_of_app, list_elem_of_filter in Ht.
      set_solver.
  - intros t ->. unfold chosen in Hch.
    apply pick_some in Hch as (pre & post & -> & _). set_solver.
Qed.

(** A write that races with another CPU's allocation of the same page is not
    retried, although the comment in [anscheduler_page_fault] describes this case as
    harmless: the page is by now present, writable and the user's, the fault says
    only that the page was missing, and still the test for a write sends it to the
    pager; without a pager the task is killed for lack of memory. *)
Theorem page_fault_write_race_kills `{Platform} n c s q T tk ptr fl m phys flags :
  cpu_task (k_cpus s c) = T → T ≠ NULL → k_tasks s !! T = Some tk → task_isKilled tk = 0 →
  2 ≤ task_refCount tk < 2 ^ 64 → cpu_locked (k_cpus s c) = true →
  pagerThread (k_pager s) = NULL →
  k_vms s !! task_vm tk = Some m → vmLock T ∉ k_locks s →
  test_flag fl ANSCHEDULER_PAGE_FAULT_PRESENT = false →
  test_flag fl ANSCHEDULER_PAGE_FAULT_WRITE = true →
  m !! Z.shiftr ptr 12 = Some (phys, flags) →
  flags = user_page_flags →
  (length q < n)%nat → Z.of_nat (length q) < 2 ^ 64 →
  queue_ok s q → clean s q → next_pre s q → loopLock ∉ k_locks s →
  ∃ r s', run n c (anscheduler_page_fault ptr fl) s = Stop (s_leave (dispatch s r)) s' ∧
    k_tasks s' !! T = Some (exited ANSCHEDULER_TASK_KILL_REASON_MEMORY tk) ∧
    (∀ t, r = Some t → mem_task s t ≠ T).
Proof.
  intros Hc HT Ht Hk Hr Hcrit Hpt Hm Hl Hfl Hw Hpage -> Hn Hb Hok Hcl Hpre Hlk.
  assert (page_entry s (task_vm tk) ptr = (phys, user_page_flags)) as He
    by (unfold page_entry; rewrite Hm; simpl; by rewrite Hpage).
  assert (fault_decision phys user_page_flags fl = do_fault) as Hd.
  { unfold fault_decision. rewrite Hw. done. }
  rewrite (page_fault_start n c s T tk ptr fl m); try done; rewrite He; simpl; rewrite Hd;
    [|done].
  rewrite run_stack_run. unfold _push_page_fault, _push_page_fault_cont.
  rewrite run_assoc. steps. rewrite Hpt, decide_True by done. rewrite run_ret_bind.
  simpl negb. cbv iota. rewrite run_bind. unfold anscheduler_task_exit.
  rewrite run_stack_run.
  destruct (task_exit_spec n c s q T tk (u8 ANSCHEDULER_TASK_KILL_REASON_MEMORY))
    as (r & q' & s' & Hrun & _ & _ & Htk & Hnot); try done.
  { rewrite u64_small; lia. }
  { intros [? _]. congruence. }
  exists r, s'. by rewrite Hrun.
Qed.

(** ** Witnesses *)

(** The demo task with a page to allocate at 0x200, one that is present and
    writable at 0x201, and thread 0x2000 as the pager. *)
Definition demo_paging (pager polling : Z) : kst :=
  set_k_pager (mk_pager pager 0x50000 0x50000)
    (set_k_faults {[0x50000 := mk_fault 0 0x10000 0x1000 8 0]}
      (set_k_vms {[0x20000 := list_to_map [(0x200, (0, 0x206)); (0x201, (0x77, 7))]]}
        (set_k_live ({[0x50000]} ∪ k_live (demo 0 2))
          (set_k_intd (mk_intd NULL 0) (demo_intd polling))))).

Definition demo_pager_thread (polling : Z) : thread_t :=
  demo_thread 0x3000 0x1000 0 0 0 1 polling.

Lemma demo_paging_queue_ok pager polling : queue_ok (demo_paging pager polling) [0x1000].
Proof. split; [by_dll|]. split; [elems; by_vm|by_vm]. Qed.

Lemma demo_paging_next_pre pager polling : next_pre (demo_paging pager polling) [0x1000].
Proof.
  split; try done.
  - elems. intros _. eexists. reflexivity.
  - elems. vm_compute. done.
Qed.

Lemma demo_paging_faults_ok pager polling : faults_ok (demo_paging pager polling) [0x50000].
Proof. split; [by_dll|]. split; [elems; by_vm|by_vm]. Qed.

Lemma demo_paging_mem_ok pager polling : mem_ok (demo_paging pager polling).
Proof. apply mem_ok_dom; [by_dec|]. repeat split; by_dec. Qed.

(** The page table of the demo task. *)
Definition demo_table : gmap Z (Z * Z) :=
  list_to_map [(0x200, (0, 0x206)); (0x201, (0x77, 7))].

Lemma page_fault_allocates_on_demand_witness :
  ∃ s', run 1 0 (anscheduler_page_fault (H := P0) 0x200123 2) (demo_paging 0 0)
        = Stop (s_leave (leave_run 0x10000 0x3000)) s' ∧
    k_vms s' = <[0x20000 := <[0x200 := (0x51, user_page_flags)]> demo_table]>
                 (k_vms (demo_paging 0 0)) ∧
    0x51000 ∉ k_live (demo_paging 0 0) ∧ k_live s' = {[0x51000]} ∪ k_live (demo_paging 0 0) ∧
    0x51000 mod 0x1000 = 0 ∧ k_log s' = [ev_zero 0x51000 0x1000] ∧ k_locks s' = k_locks (demo_paging 0 0) ∧
    k_tasks s' = k_tasks (demo_paging 0 0).
Proof.
  apply (page_fault_allocates_on_demand (H := P0) 1 0 (demo_paging 0 0) 0x10000
    (demo_task 0 2) 0x200123 2 demo_table 0x206).
  - reflexivity.
  - done.
  - reflexivity.
  - reflexivity.
  - by_dec.
  - reflexivity.
  - reflexivity.
  - reflexivity.
  - by_dec.
  - reflexivity.
Defined.

Lemma page_fault_retries_present_page_witness :
  run 1 0 (anscheduler_page_fault (H := P0) 0x201000 0) (demo_paging 0 0)
  = Stop (s_leave (leave_run 0x10000 0x3000)) (demo_paging 0 0).
Proof.
  apply (page_fault_retries_present_page (H := P0) 1 0 (demo_paging 0 0) 0x10000
    (demo_task 0 2) 0x201000 0 demo_table 0x77 7).
  - reflexivity.
  - done.
  - reflexivity.
  - reflexivity.
  - by_dec.
  - reflexivity.
  - reflexivity.
  - reflexivity.
  - reflexivity.
  - reflexivity.
  - reflexivity.
Defined.

(** A page that is not in the page table. *)
Lemma page_fault_wakes_pager_witness :
  ∃ s' ft pth', run 1 0 (anscheduler_page_fault (H := P0) 0x202000 2) (demo_paging 0x2000 1)
      = Stop (s_leave (leave_run 0x10000 0x2000)) s' ∧
    faults_ok s' [0x50000; 0x51000] ∧ k_faults s' !! 0x51000 = Some ft ∧
    set_fault_next NULL ft = mk_fault NULL 0x10000 0x3000 0x202000 2 ∧
    k_threads s' !! 0x2000 = Some pth' ∧ thread_isPolling pth' = 0 ∧
    queue_ok s' [0x1000] ∧ cpu_thread (k_cpus s' 0%nat) = 0x2000.
Proof.
  apply (page_fault_wakes_pager (H := P0) 1 0 (demo_paging 0x2000 1) [0x1000] [0x50000]
    0x2000 (demo_pager_thread 1) (demo_task 0 2) 0x10000 0x202000 2).
  - reflexivity.
  - done.
  - right. exists (demo_task 0 2). split_and!; [reflexivity|by eexists|by_dec|].
    split; [by intros [? ?]|by left].
  - split; first [done|by_dec].
  - done.
  - reflexivity.
  - reflexivity.
  - apply demo_paging_faults_ok.
  - apply demo_paging_mem_ok.
  - by_dec.
  - apply demo_paging_queue_ok.
  - apply clean_compute. reflexivity.
  - apply demo_paging_next_pre.
  - by_dec.
Defined.

Lemma page_fault_waits_for_pager_witness :
  ∃ r q' s' ft, run 2 0 (anscheduler_page_fault (H := P0) 0x201000 3) (demo_paging 0x2000 0)
      = Stop (s_leave (dispatch (demo_paging 0x2000 0) r)) s' ∧
    faults_ok s' [0x50000; 0x51000] ∧ k_faults s' !! 0x51000 = Some ft ∧
    set_fault_next NULL ft = mk_fault NULL 0x10000 0x3000 0x201000 3 ∧
    queue_ok s' q' ∧ (∀ t, t ∈ q' → t ∈ [0x1000]) ∧ (∀ t, r = Some t → t ∈ [0x1000]).
Proof.
  apply (page_fault_waits_for_pager (H := P0) 2 0 (demo_paging 0x2000 0) [0x1000] [0x50000]
    0x2000 (demo_pager_thread 0) 0x10000 0x201000 3).
  - reflexivity.
  - done.
  - reflexivity.
  - by left.
  - split; first [done|by_dec].
  - reflexivity.
  - apply demo_paging_faults_ok.
  - apply demo_paging_mem_ok.
  - by_dec.
  - simpl; lia.
  - simpl; lia.
  - apply demo_paging_queue_ok.
  - apply clean_compute. reflexivity.
  - apply demo_paging_next_pre.
  - by_dec.
Defined.

Lemma page_fault_write_race_kills_witness :
  ∃ r s', run 2 0 (anscheduler_page_fault (H := P0) 0x201000 2) (demo_paging 0 0)
          = Stop (s_leave (dispatch (demo_paging 0 0) r)) s' ∧
    k_tasks s' !! 0x10000 = Some (exited 2 (demo_task 0 2)) ∧
    (∀ t, r = Some t → mem_task (demo_paging 0 0) t ≠ 0x10000).
Proof.
  apply (page_fault_write_race_kills (H := P0) 2 0 (demo_paging 0 0) [0x1000] 0x10000
    (demo_task 0 2) 0x201000 2 demo_table 0x77 7).
  - reflexivity.
  - done.
  - reflexivity.
  - reflexivity.
  - simpl; lia.
  - reflexivity.
  - reflexivity.
  - reflexivity.
  - by_dec.
  - reflexivity.
  - reflexivity.
  - reflexivity.
  - reflexivity.
  - simpl; lia.
  - simpl; lia.
  - apply demo_paging_queue_ok.
  - apply clean_compute. reflexivity.
  - apply demo_paging_next_pre.
  - by_dec.
Defined.
