(* ===== verification/PidMap.v ===== *)
(** * PidMap: process identifiers and the table of tasks (src/pidmap.c) *)
From S2P Require Import Prelude Types Machine Demo Idxset RunQueue PagerQueue TaskRef.

Definition upd_pid (g : pid_globals → pid_globals) (s : kst) : kst :=
  set_k_pid (g (k_pid s)) s.
Definition get_ppInitialized : prog bool := gget (λ s, ppInitialized (k_pid s)).
Definition put_ppInitialized (v : bool) : prog () := gset_ (upd_pid (set_ppInitialized v)).

(** [pidHashmap[hash]]; the hash is a [uint8_t], so it is in range. *)
Definition get_bucket (hash : Z) : prog Z :=
  act (λ _ s, match pidHashmap (k_pid s) !! Z.to_nat hash with
              | Some v => a_ok v s
              | None => a_ub (bad_index hash)
              end).
Definition put_bucket (hash v : Z) : prog () :=
  check_index hash 0x100;;
  gset_ (λ s, upd_pid (set_pidHashmap (nth_set (pidHashmap (k_pid s)) hash v)) s).

#[export] Hint Unfold get_ppInitialized put_ppInitialized : prog.

(** ** Operations *)

Definition _hash_pid (pid : Z) : Z := u8 (Z.land pid 0xff).

Definition anscheduler_pidmap_set (task : Z) : prog () :=
  anscheduler_lock pmLock;;
  pid ← rd task task_pid;
  let hash := _hash_pid pid in
  head ← get_bucket hash;
  (if decide (head = NULL) then
     put_bucket hash task;;
     wr task (set_task_last NULL);;
     wr task (set_task_next NULL)
   else
     head ← get_bucket hash;
     wr task (set_task_next head);;
     wr task (set_task_last NULL);;
     head ← get_bucket hash;
     wr head (set_task_last task);;
     put_bucket hash task);;
  anscheduler_unlock pmLock.

Definition anscheduler_pidmap_unset (task : Z) : prog () :=
  anscheduler_lock pmLock;;
  last ← rd task task_last;
  (if decide (last = NULL) then
     pid ← rd task task_pid;
     let hash := _hash_pid pid in
     next ← rd task task_next;
     put_bucket hash next
   else
     last ← rd task task_last;
     next ← rd task task_next;
     wr last (set_task_next next));;
  next ← rd task task_next;
  (if decide (next ≠ NULL) then
     next ← rd task task_next;
     last ← rd task task_last;
     wr next (set_task_last last)
   else mret ());;
  wr task (set_task_next NULL);;
  wr task (set_task_last NULL);;
  anscheduler_unlock pmLock.

(** The loop of [anscheduler_pidmap_get]. *)
Definition pidmap_get_body (pid task : Z) : prog (Z + Z) :=
  if decide (task ≠ NULL) then
    tpid ← rd task task_pid;
    if decide (tpid = pid) then
      result ← anscheduler_task_reference task;
      anscheduler_unlock pmLock;;
      mret (inr (if (result : bool) then task else NULL))
    else
      next ← rd task task_next;
      mret (inl next)
  else
    anscheduler_unlock pmLock;;
    mret (inr NULL).

Definition anscheduler_pidmap_get (pid : Z) : prog Z :=
  anscheduler_lock pmLock;;
  task ← get_bucket (_hash_pid pid);
  while_ task (pidmap_get_body pid).

Definition anscheduler_task_for_pid (pid : Z) : prog Z := anscheduler_pidmap_get pid.

Section pids.
Context `{Platform}.

Definition anscheduler_pidmap_alloc_pid : prog Z :=
  anscheduler_lock ppLock;;
  init ← get_ppInitialized;
  (if negb init then
     ok ← anscheduler_idxset_init root_pidPool;
     if negb ok then anscheduler_abort "failed to initialize PID pool"
     else put_ppInitialized true
   else mret ());;
  result ← anidxset_get root_pidPool;
  anscheduler_unlock ppLock;;
  mret result.

Definition anscheduler_pidmap_free_pid (pid : Z) : prog () :=
  anscheduler_lock ppLock;;
  init ← get_ppInitialized;
  if negb init then anscheduler_abort "cannot free PID when not initialized" else
  _ ← anidxset_put root_pidPool pid;
  anscheduler_unlock ppLock.

End pids.

(** ** The invariant of the table

    [B h] lists the tasks of bucket [h], which are linked through [next] and
    [last] and whose identifiers hash to [h]. *)
Definition bucket_ok (s : kst) (h : Z) (l : list Z) : Prop :=
  pidHashmap (k_pid s) !! Z.to_nat h = Some (hd0 NULL l) ∧
  dll (fld (k_tasks s) task_next) (fld (k_tasks s) task_last) l ∧
  ∀ p, p ∈ l → ∃ tk, k_tasks s !! p = Some tk ∧ _hash_pid (task_pid tk) = h.

Definition table_ok (s : kst) (B : Z → list Z) : Prop :=
  length (pidHashmap (k_pid s)) = 256%nat ∧
  ∀ h, 0 ≤ h < 256 → bucket_ok s h (B h).

Definition set_bucket (h : Z) (l : list Z) (B : Z → list Z) : Z → list Z :=
  λ h', if decide (h' = h) then l else B h'.

(** ** Lemmas *)

Lemma hash_range pid : 0 ≤ _hash_pid pid < 256.
Proof. unfold _hash_pid, u8. apply Z.mod_pos_bound. lia. Qed.

Lemma run_get_bucket n c {A} h v (k : Z → prog A) s :
  pidHashmap (k_pid s) !! Z.to_nat h = Some v →
  run n c (get_bucket h ≫= k) s = run n c (k v) s.
Proof. intros Hv. unfold get_bucket. rewrite run_act; simpl. by rewrite Hv. Qed.

Definition put_head (h v : Z) (s : kst) : kst :=
  upd_pid (set_pidHashmap (nth_set (pidHashmap (k_pid s)) h v)) s.

Lemma run_put_bucket n c {A} h v (k : () → prog A) s :
  0 ≤ h < 256 → run n c (put_bucket h v ≫= k) s = run n c (k ()) (put_head h v s).
Proof. intros Hh. unfold put_bucket. rewrite run_assoc, run_check_index by done. done. Qed.

Lemma put_head_lookup h v s h' :
  length (pidHashmap (k_pid s)) = 256%nat → 0 ≤ h < 256 → 0 ≤ h' →
  nth_set (pidHashmap (k_pid s)) h v !! Z.to_nat h'
  = if decide (h' = h) then Some v else pidHashmap (k_pid s) !! Z.to_nat h'.
Proof.
  intros Hl Hh Hh'. unfold nth_set. case_decide; [subst|].
  - apply list_lookup_insert_eq. lia.
  - apply list_lookup_insert_ne. lia.
Qed.

(** A bucket whose tasks are not written keeps its invariant. *)
Lemma bucket_ok_ext s s' h l :
  bucket_ok s h l → pidHashmap (k_pid s') !! Z.to_nat h = pidHashmap (k_pid s) !! Z.to_nat h →
  (∀ p, p ∈ l → k_tasks s' !! p = k_tasks s !! p) → bucket_ok s' h l.
Proof.
  intros (Hh & Hd & Hin) Hp Ht. split_and!; [by rewrite Hp| |].
  - eapply dll_ext; [| |exact Hd]; intros p Hpl; unfold fld; by rewrite Ht.
  - intros p Hpl. rewrite Ht by done. auto.
Qed.

(** A task is in at most the bucket of its identifier. *)
Lemma table_bucket s B p tk h :
  table_ok s B → k_tasks s !! p = Some tk → 0 ≤ h < 256 → p ∈ B h → h = _hash_pid (task_pid tk).
Proof.
  intros [_ HB] Hp Hh Hin. destruct (HB h Hh) as (_ & _ & Ht).
  destruct (Ht p Hin) as (tk' & Hp' & <-). by simplify_eq.
Qed.

Definition task_body (tk : task_t) : task_t := set_task_next NULL (set_task_last NULL tk).

(** What an operation on the table may change: links of tasks and the table. *)
Definition table_step (s s' : kst) : Prop :=
  s' = set_k_pid (k_pid s') (set_k_tasks (k_tasks s') s) ∧
  ∀ p, task_body <$> k_tasks s' !! p = task_body <$> k_tasks s !! p.

Lemma table_step_pid s s' p tk :
  table_step s s' → k_tasks s !! p = Some tk →
  ∃ tk', k_tasks s' !! p = Some tk' ∧ task_body tk' = task_body tk.
Proof.
  intros [_ Hb] Hp. specialize (Hb p). rewrite Hp in Hb. simpl in Hb.
  destruct (k_tasks s' !! p) as [tk'|]; [|done]. apply (inj Some) in Hb. eauto.
Qed.

Lemma task_body_pid tk tk' : task_body tk' = task_body tk → task_pid tk' = task_pid tk.
Proof. intros Hb. by apply (f_equal task_pid) in Hb. Qed.

(** The table does not depend on the other fields of tasks. *)
Lemma table_ok_insert s B t tk tk' :
  table_ok s B → k_tasks s !! t = Some tk → task_next tk' = task_next tk →
  task_last tk' = task_last tk → task_pid tk' = task_pid tk →
  table_ok (set_task t tk' s) B.
Proof.
  intros [Hlen HB] Ht Hn Hl Hp. split; [done|]. intros h Hh.
  destruct (HB h Hh) as (Hhd & Hd & Hin). split_and!; [done| |].
  - eapply dll_ext; [| |exact Hd]; intros p _; simpl; by apply fld_insert_same with tk.
  - intros p Hpl. destruct (Hin p Hpl) as (o & Ho & Hpid). simpl. rewrite lookup_insert.
    case_decide; [subst; simplify_eq; eexists; split; [done|by rewrite Hp]|eauto].
Qed.

(** Replacing one bucket. *)
Lemma table_ok_update s s' B h l :
  table_ok s B → 0 ≤ h < 256 → table_step s s' →
  pidHashmap (k_pid s') = nth_set (pidHashmap (k_pid s)) h (hd0 NULL l) →
  (∀ p tk, k_tasks s !! p = Some tk → _hash_pid (task_pid tk) ≠ h →
     k_tasks s' !! p = Some tk) →
  dll (fld (k_tasks s') task_next) (fld (k_tasks s') task_last) l →
  (∀ p, p ∈ l → ∃ tk, k_tasks s !! p = Some tk ∧ _hash_pid (task_pid tk) = h) →
  table_ok s' (set_bucket h l B).
Proof.
  intros [Hl HB] Hh Hst Hm Hsame Hd Hin. split.
  - rewrite Hm. unfold nth_set. by rewrite length_insert.
  - intros h' Hh'. unfold set_bucket. case_decide as Heq; [subst h'|].
    + split_and!; [by rewrite Hm, put_head_lookup, decide_True by lia|done|].
      intros p Hp. destruct (Hin p Hp) as (tk & Htk & Hpid).
      destruct (table_step_pid _ _ _ _ Hst Htk) as (tk' & Htk' & Hb).
      exists tk'. split; [done|]. by rewrite (task_body_pid _ _ Hb).
    + eapply bucket_ok_ext; [by apply HB|by rewrite Hm, put_head_lookup, decide_False by lia|].
      intros p Hp. destruct (HB h' Hh') as (_ & _ & Hin').
      destruct (Hin' p Hp) as (tk & Htk & Hpid). rewrite Htk. apply (Hsame p tk); congruence.
Qed.

Ltac psteps := repeat first
  [ erewrite run_get_bucket by (simpl; eassumption)
  | rewrite run_put_bucket by apply hash_range
  | step ]; autounfold with prog.

Lemma pidmap_set_spec n c s B t tk :
  let h := _hash_pid (task_pid tk) in
  table_ok s B → k_tasks s !! t = Some tk → t ∉ B h → t ≠ NULL → pmLock ∉ k_locks s →
  ∃ s', run n c (anscheduler_pidmap_set t) s = Done () s' ∧
    table_ok s' (set_bucket h (t :: B h) B) ∧ table_step s s'.
Proof.
  intros h HT Ht Htb Ht0 Hl. pose proof HT as [Hlen HB].
  assert (0 ≤ h < 256) as Hh by apply hash_range.
  destruct (HB h Hh) as (Hhd & Hd & Hin).
  pose proof (hd0_ne t (B h) Htb Ht0) as Hne.
  unfold anscheduler_pidmap_set. psteps. fold h. psteps. case_decide as Hnull.
  - psteps. eexists. split; [done|].
    match goal with |- table_ok ?s2 _ ∧ _ => assert (table_step s s2) as Hst end.
    { split; [unfold put_head, upd_pid; kst_eq|]. intros p. simpl.
      rewrite !lookup_insert. repeat case_decide; subst; try done. by rewrite Ht. }
    split; [|done]. rewrite (hd0_null _ _ _ Hd Hnull) in *.
    apply (table_ok_update s); try done; simpl.
    + intros p tk' Hp Hpid. rewrite !lookup_insert_ne; [done|..]; intros <-; by simplify_eq.
    + eapply (dll_push_front (λ _, 0) (λ _, 0)); [apply dll_nil|set_solver|done|set_solver|set_solver|by flds|by flds].
    + intros p ->%list_elem_of_singleton. eauto.
  - assert (hd0 NULL (B h) ∈ B h) as Hhin by (apply hd0_elem_of; intros He; by rewrite He in Hnull).
    destruct (Hin _ Hhin) as (hk & Hhk & Hhp).
    psteps. eexists. split; [done|].
    match goal with |- table_ok ?s2 _ ∧ _ => assert (table_step s s2) as Hst end.
    { split; [unfold put_head, upd_pid; kst_eq|]. intros p. simpl.
      rewrite !lookup_insert. repeat case_decide; subst; try done; by rewrite ?Ht, ?Hhk. }
    split; [|done].
    apply (table_ok_update s); try done; simpl.
    + intros p tk' Hp Hpid. rewrite !lookup_insert_ne; [done|..]; intros <-; by simplify_eq.
    + eapply dll_push_front; [exact Hd|done|done|..]; flds.
    + intros p [->|Hp]%elem_of_cons; eauto.
Qed.

(** The tasks after [anscheduler_pidmap_unset]. *)
Definition unset_tasks (t : Z) (tk : task_t) (m : gmap Z task_t) : gmap Z task_t :=
  <[t := set_task_last NULL (set_task_next NULL tk)]>
    (unlink set_task_next set_task_last (task_next tk) (task_last tk) m).

Lemma run_pidmap_unset n c s t tk :
  k_tasks s !! t = Some tk → pmLock ∉ k_locks s →
  task_next tk ≠ t → task_last tk ≠ t →
  (task_next tk ≠ NULL → is_Some (k_tasks s !! task_next tk)) →
  (task_last tk ≠ NULL → is_Some (k_tasks s !! task_last tk)) →
  run n c (anscheduler_pidmap_unset t) s =
  Done () (set_k_tasks (unset_tasks t tk (k_tasks s))
    (if decide (task_last tk = NULL) then put_head (_hash_pid (task_pid tk)) (task_next tk) s
     else s)).
Proof.
  intros Ht Hl Hnt Hpt Hn Hp. unfold anscheduler_pidmap_unset, unset_tasks, unlink. psteps.
  destruct (decide (task_last tk = NULL)) as [Hp0|Hp0];
    destruct (decide (task_next tk = NULL)) as [Hn0|Hn0].
  - psteps. rewrite decide_False by (intros []; done). psteps.
    f_equal. rewrite !insert_insert_eq. unfold put_head, upd_pid. kst_eq.
  - destruct (Hn Hn0) as [nk Hnk]. psteps. rewrite decide_True by done. psteps.
    rewrite (alter_lookup _ _ _ _ Hnk).
    f_equal. rewrite !insert_insert_eq. unfold put_head, upd_pid. kst_eq.
  - destruct (Hp Hp0) as [pk Hpk]. psteps. rewrite decide_False by (intros []; done). psteps.
    rewrite (alter_lookup _ _ _ _ Hpk).
    f_equal. rewrite !insert_insert_eq. kst_eq.
  - destruct (Hp Hp0) as [pk Hpk]. destruct (Hn Hn0) as [nk Hnk]. psteps.
    rewrite decide_True by done. rewrite (alter_lookup _ _ _ _ Hpk).
    destruct (decide (task_last tk = task_next tk)) as [He|He].
    + rewrite He in *. simplify_eq. psteps.
      erewrite alter_lookup by (by rewrite lookup_insert_eq).
      f_equal. rewrite !insert_insert_eq, ?He. kst_eq.
    + psteps. erewrite alter_lookup by (rewrite lookup_insert_ne by done; exact Hnk).
      f_equal. rewrite !insert_insert_eq. kst_eq.
Qed.

Lemma pidmap_unset_spec n c s B t tk l1 l2 :
  let h := _hash_pid (task_pid tk) in
  table_ok s B → k_tasks s !! t = Some tk → B h = l1 ++ t :: l2 → pmLock ∉ k_locks s →
  ∃ s', run n c (anscheduler_pidmap_unset t) s = Done () s' ∧
    table_ok s' (set_bucket h (l1 ++ l2) B) ∧ table_step s s' ∧
    k_tasks s' !! t = Some (set_task_last NULL (set_task_next NULL tk)) ∧
    k_pid s' = set_pidHashmap (pidHashmap (k_pid s')) (k_pid s).
Proof.
  intros h HT Ht HBh Hl. pose proof HT as [Hlen HB].
  assert (0 ≤ h < 256) as Hh by apply hash_range.
  destruct (HB h Hh) as (Hhd & Hd & Hin). rewrite HBh in *.
  destruct (unlink_neighbours _ _ _ _ _ _ _ Hd Ht) as (Hnx & Hpv & Hnt & Hpt & Hni & Hpi).
  assert (∀ p, p ∈ l1 ++ l2 → p ∈ l1 ++ t :: l2) as Hsub by set_solver.
  assert (t ∉ l1 ++ l2) as Htl.
  { pose proof (dll_NoDup _ _ _ Hd) as (_ & ? & [? _]%NoDup_cons)%NoDup_app. set_solver. }
  rewrite (run_pidmap_unset n c s t tk); try done.
  2, 3: intros H0; edestruct Hin as (? & ? & _); [apply Hsub; by eauto|by eauto].
  eexists. split; [done|].
  match goal with |- table_ok ?s2 _ ∧ _ => assert (table_step s s2) as Hst end.
  { split; [by destruct s; simpl; case_decide|]. intros p. simpl. unfold unset_tasks.
    rewrite lookup_insert. case_decide; [subst; by rewrite Ht|].
    by apply (unlink_body set_task_next set_task_last). }
  split_and!; [|done|apply lookup_insert_eq|simpl; case_decide; by destruct s as [? ? ? ? ? ? ? ? ? ? ? ? ? ? ? ? ? []]].
  apply (table_ok_update s); try done.
  - simpl. case_decide as Hp0; [|].
    + simpl. destruct l1 as [|a l1]; [by rewrite Hnx|].
      destruct (dll_nonnull _ _ _ (lst NULL (a :: l1)) Hd); [|congruence].
      apply elem_of_app. left. by apply lst_elem_of.
    + destruct l1 as [|a l1]; [by destruct Hp0|]. unfold nth_set.
      by rewrite list_insert_id by done.
  - intros p tk' Hp Hpid. simpl. unfold unset_tasks.
    assert (∀ a, a ∈ l1 ++ t :: l2 → a ≠ p) as Hne.
    { intros a Ha <-. destruct (Hin a Ha) as (? & ? & ?). congruence. }
    rewrite lookup_insert_ne by (apply Hne, elem_of_app; right; left).
    rewrite unlink_other; [done|intros Hn0; apply Hne, Hsub; auto..].
  - simpl. unfold unset_tasks. 
    eapply dll_ext; [| |eapply (unlink_dll _ _ set_task_next set_task_last); [exact Hd|exact Ht|]];
      [intros p Hp; apply fld_insert_ne; by intros ->..|].
    intros p Hp. destruct (Hin p) as (? & ? & _); eauto.
  - intros p Hp. apply Hin, Hsub, Hp.
Qed.

(** *** Looking a task up *)

(** The first task of a bucket with the identifier. *)
Fixpoint find_pid (s : kst) (pid : Z) (l : list Z) : option (Z * task_t) :=
  match l with
  | [] => None
  | p :: l =>
      match k_tasks s !! p with
      | Some tk => if decide (task_pid tk = pid) then Some (p, tk) else find_pid s pid l
      | None => None
      end
  end.

(** What the lookup yields, and the memory after it. *)
Definition get_result (s : kst) (r : option (Z * task_t)) : Z * kst :=
  match r with
  | Some (p, tk) =>
      if decide (task_isKilled tk = 0)
      then (p, set_task p (set_task_refCount (u64 (task_refCount tk + 1)) tk) s)
      else (NULL, s)
  | None => (NULL, s)
  end.

Lemma pidmap_get_loop n c pid l : ∀ m s,
  (length l < m)%nat → pmLock ∉ k_locks s → (∀ k, killLock k ∉ k_locks s) →
  slseg (fld (k_tasks s) task_next) l → (∀ p, p ∈ l → is_Some (k_tasks s !! p)) →
  iterate m (λ x s, run n c (pidmap_get_body pid x) s) (λ b s, run n c (mret b) s)
    (hd0 NULL l) (add_lock pmLock s) =
  let '(r, s') := get_result s (find_pid s pid l) in Done r s'.
Proof.
  induction l as [|p l IH]; intros m s Hm Hl Hkl Hsl Hin;
    (destruct m as [|m]; [simpl in Hm; lia|]); rewrite iterate_S; unfold pidmap_get_body.
  - simpl. steps. f_equal. kst_eq.
  - destruct Hsl as (Hp0 & Hnx & Hsl). destruct (Hin p) as [tk Hp]; [set_solver|].
    rewrite (fld_lookup _ _ _ _ Hp) in Hnx.
    change (hd0 NULL (p :: l)) with p. rewrite decide_True by done. steps. rewrite Hp.
    case_decide as Hpid.
    + unfold get_result. case_decide as Hk.
      * erewrite run_call by (apply (reference_alive n c _ _ tk); [done|done|simpl; set_solver]).
        steps. f_equal. kst_eq.
      * erewrite run_call by (apply (reference_killed n c _ _ tk); [done|done|simpl; set_solver]).
        steps. f_equal. kst_eq.
    + steps. rewrite Hnx. apply IH; try done; [simpl in Hm; lia|]. intros; apply Hin; set_solver.
Qed.

Lemma pidmap_get_spec n c s B pid :
  let l := B (_hash_pid pid) in
  table_ok s B → (length l < n)%nat → pmLock ∉ k_locks s → (∀ k, killLock k ∉ k_locks s) →
  run n c (anscheduler_pidmap_get pid) s =
  let '(r, s') := get_result s (find_pid s pid l) in Done r s'.
Proof.
  intros l [Hlen HB] Hn Hl Hkl. destruct (HB _ (hash_range pid)) as (Hhd & Hd & Hin).
  unfold anscheduler_pidmap_get. psteps. rewrite run_tail, run_while.
  apply pidmap_get_loop; try done.
  - by eapply dll_sll.
  - intros p Hp. destruct (Hin p Hp) as (? & ? & _). eauto.
Qed.

(** ** Correctness *)

(** C35. Registering a task makes it reachable by its identifier: after
    [anscheduler_pidmap_set], [anscheduler_pidmap_get] with the task's identifier
    yields that task with one more reference, and the table is well formed with the
    task in front of its bucket. *)
Theorem pidmap_set_then_get n c s B t tk :
  table_ok s B → k_tasks s !! t = Some tk → t ∉ B (_hash_pid (task_pid tk)) → t ≠ NULL →
  task_isKilled tk = 0 → (S (length (B (_hash_pid (task_pid tk)))) < n)%nat →
  pmLock ∉ k_locks s → (∀ k, killLock k ∉ k_locks s) →
  ∃ s' tk', run n c (anscheduler_pidmap_set t;; anscheduler_pidmap_get (task_pid tk)) s
            = Done t s' ∧
    k_tasks s' !! t = Some tk' ∧ task_refCount tk' = u64 (task_refCount tk + 1) ∧
    table_ok s' (set_bucket (_hash_pid (task_pid tk)) (t :: B (_hash_pid (task_pid tk))) B).
Proof.
  intros HT Ht Htb Ht0 Hk Hn Hl Hkl.
  destruct (pidmap_set_spec n c s B t tk) as (s1 & Hrun & HT1 & Hst); try done.
  destruct (table_step_pid _ _ _ _ Hst Ht) as (tk1 & Ht1 & Hb).
  assert (k_locks s1 = k_locks s) as Hlk by (by destruct Hst as [-> _]).
  assert (find_pid s1 (task_pid tk) (t :: B (_hash_pid (task_pid tk))) = Some (t, tk1)) as Hf.
  { simpl. by rewrite Ht1, (task_body_pid _ _ Hb), decide_True. }
  assert (set_bucket (_hash_pid (task_pid tk)) (t :: B (_hash_pid (task_pid tk))) B
    (_hash_pid (task_pid tk)) = t :: B (_hash_pid (task_pid tk))) as Hsb
    by (unfold set_bucket; by rewrite decide_True).
  assert (task_isKilled tk1 = 0) as Hk1 by (by apply (f_equal task_isKilled) in Hb; simpl in Hb; congruence).
  assert (task_refCount tk1 = task_refCount tk) as Hr1 by (by apply (f_equal task_refCount) in Hb).
  rewrite (run_call _ _ _ _ _ _ _ Hrun), (pidmap_get_spec n c s1 _ _ HT1);
    [|by rewrite Hsb|by rewrite Hlk..].
  rewrite Hsb, Hf. unfold get_result. rewrite decide_True by done.
  eexists _, _. split; [done|]. split_and!; [simpl; by rewrite lookup_insert_eq|simpl; by rewrite Hr1|].
  by apply (table_ok_insert s1 _ t tk1).
Qed.

(** Unregistering a task removes exactly it: the other tasks of its bucket stay
    in order, every other bucket is untouched, the task's links are null, and no
    lookup yields it any more. *)
Theorem pidmap_unset_removes n c s B t tk l1 l2 pid :
  table_ok s B → k_tasks s !! t = Some tk → B (_hash_pid (task_pid tk)) = l1 ++ t :: l2 →
  pmLock ∉ k_locks s → (∀ k, killLock k ∉ k_locks s) →
  (∀ h, (length (B h) < n)%nat) →
  ∃ s' r s'', run n c (anscheduler_pidmap_unset t) s = Done () s' ∧
    table_ok s' (set_bucket (_hash_pid (task_pid tk)) (l1 ++ l2) B) ∧ table_step s s' ∧
    fld (k_tasks s') task_next t = NULL ∧ fld (k_tasks s') task_last t = NULL ∧
    run n c (anscheduler_pidmap_get pid) s' = Done r s'' ∧ r ≠ t.
Proof.
  intros HT Ht HBh Hl Hkl Hn.
  destruct (pidmap_unset_spec n c s B t tk l1 l2) as (s1 & Hrun & HT1 & Hst & Ht1 & _); try done.
  assert (k_locks s1 = k_locks s) as Hlk by (by destruct Hst as [-> _]).
  set (B1 := set_bucket _ _ B) in *.
  assert (t ≠ NULL ∧ t ∉ l1 ++ l2) as [Ht0 Htl].
  { destruct HT as [_ HB]. destruct (HB _ (hash_range (task_pid tk))) as (_ & Hd & _).
    rewrite HBh in Hd. split; [eapply dll_nonnull; [exact Hd|set_solver]|].
    pose proof (dll_NoDup _ _ _ Hd) as (_ & ? & [? _]%NoDup_cons)%NoDup_app. set_solver. }
  assert (t ∉ B1 (_hash_pid pid)) as Hnot.
  { unfold B1, set_bucket. case_decide as Hh; [done|]. intros Hin.
    apply Hh. by eapply table_bucket; [exact HT|exact Ht|apply hash_range|]. }
  assert ((length (B1 (_hash_pid pid)) < n)%nat) as Hlen.
  { unfold B1, set_bucket. case_decide; [|done].
    specialize (Hn (_hash_pid (task_pid tk))). rewrite HBh in Hn.
    rewrite length_app in *. simpl in Hn. lia. }
  pose proof (pidmap_get_spec n c s1 B1 pid HT1 Hlen) as Hget. rewrite Hlk in Hget.
  specialize (Hget Hl Hkl).
  destruct (get_result s1 (find_pid s1 pid (B1 (_hash_pid pid)))) as [r s2] eqn:Hr.
  exists s1, r, s2. split_and!; try done; try (by rewrite (fld_lookup _ _ _ _ Ht1)).
  assert (∀ l p o, find_pid s1 pid l = Some (p, o) → p ∈ l) as Hfind.
  { clear. induction l as [|a l IH]; intros p o; simpl; [done|].
    destruct (k_tasks s1 !! a); [|done]. case_decide; [intros [= -> _]; set_solver|].
    intros ?%IH. set_solver. }
  unfold get_result in Hr. destruct (find_pid _ _ _) as [[p o]|] eqn:Hf; [|by simplify_eq].
  apply Hfind in Hf. case_decide; simplify_eq; [by intros ->|done].
Qed.

(** Unregistering a task that was never registered wipes its bucket: the task's
    null links make it look like the only task there, so every task of the bucket
    becomes unreachable by its identifier. [anscheduler_task_create] yields such a
    task and the kill job of a task that was never launched does this. *)
Theorem pidmap_unset_unregistered_wipes_bucket n c s B t tk pid :
  table_ok s B → k_tasks s !! t = Some tk → task_next tk = NULL → task_last tk = NULL →
  t ≠ NULL → pmLock ∉ k_locks s → _hash_pid pid = _hash_pid (task_pid tk) → (0 < n)%nat →
  ∃ s', run n c (anscheduler_pidmap_unset t) s = Done () s' ∧
        run n c (anscheduler_pidmap_get pid) s' = Done NULL s'.
Proof.
  intros [Hlen HB] Ht Hnx Hla Ht0 Hl Hh Hn.
  eexists. split.
  { rewrite (run_pidmap_unset n c s t tk); [done|done|done|congruence..]. }
  rewrite Hla, decide_True by done. unfold anscheduler_pidmap_get.
  set (s1 := set_k_tasks _ _).
  assert (pidHashmap (k_pid s1) !! Z.to_nat (_hash_pid pid) = Some NULL) as Hb.
  { pose proof (hash_range (task_pid tk)). simpl.
    rewrite Hh, put_head_lookup, decide_True, Hnx by (done || lia). done. }
  psteps. rewrite run_tail, run_while. destruct n as [|n]; [lia|].
  rewrite iterate_S. unfold pidmap_get_body. rewrite decide_False by (by intros []).
  psteps. f_equal. unfold s1, put_head, upd_pid. kst_eq.
Qed.

(** *** Identifiers *)
Section pids.
Context `{Platform, !PlatformOk _}.

(** The pool of identifiers: not yet initialised, or the index set [x]. *)
Definition pool_ok (s : kst) (x : idxset) : Prop :=
  if ppInitialized (k_pid s) then idx_ok root_pidPool s x else x = ix_init.

Lemma idx_ok_initialized s x b :
  idx_ok root_pidPool s x → idx_ok root_pidPool (upd_pid (set_ppInitialized b) s) x.
Proof. intros (cs & Hr & Hc). exists cs. split; [exact Hr|exact Hc]. Qed.

Lemma idx_step_locks r s s' : idx_step r s s' → k_locks s' = k_locks s.
Proof. intros [[v ->] _]. by destruct r. Qed.

(** What taking an identifier may change: the pool and its pages of indexes. *)
Definition pool_page (s : kst) (q : Z) : Prop :=
  ppInitialized (k_pid s) = true ∧ index_page root_pidPool s q.

Definition pool_step (s s' : kst) : Prop :=
  s' = set_k_pid (k_pid s') (set_k_nodes (k_nodes s') (set_k_live (k_live s') (set_k_log (k_log s')
         (set_k_nallocs (k_nallocs s') s)))) ∧
  (mem_ok s → mem_ok s') ∧
  (∀ q, q ∈ k_live s → pool_page s q ∨ (q ∈ k_live s' ∧ k_nodes s' !! q = k_nodes s !! q)).

(** Taking an identifier from an initialised pool, and giving the lock back. *)
Lemma alloc_tail n c s x :
  idx_ok root_pidPool s x → ix_ok x → ix_used x + 0x1fe < 2 ^ 64 → ppLock ∈ k_locks s →
  ppInitialized (k_pid s) = true →
  ∃ s1, run n c (result ← anidxset_get root_pidPool; anscheduler_unlock ppLock;; mret result) s
        = Done (ix_get x).1 (del_lock ppLock s1) ∧ pool_ok (del_lock ppLock s1) (ix_get x).2 ∧
    idx_step root_pidPool s s1.
Proof.
  intros Hok Hx Hb Hlk Hi. destruct (get_spec n c root_pidPool s x Hok) as (s1 & Hrun & Hok1 & Hst);
    [apply Hx|done|].
  rewrite (run_call _ _ _ _ _ _ _ Hrun).
  assert (ppLock ∈ k_locks s1) by (by rewrite (idx_step_locks _ _ _ Hst)).
  steps. eexists. split; [done|]. split; [|done]. unfold pool_ok.
  assert (ppInitialized (k_pid s1) = true) as Hi1 by (destruct Hst as [[v ->] _]; done).
  simpl. rewrite Hi1. by apply idx_ok_locks.
Qed.

(** The first call, which sets up the pool, and later ones. *)
Lemma alloc_pid_first n c s :
  mem_ok s → ppInitialized (k_pid s) = false → new_page s ≠ NULL → ppLock ∉ k_locks s →
  ∃ s', run n c anscheduler_pidmap_alloc_pid s = Done (ix_get ix_init).1 s' ∧
    pool_ok s' (ix_get ix_init).2 ∧ pool_step s s'.
Proof.
  intros Hm Hi Hn Hl. unfold anscheduler_pidmap_alloc_pid. psteps.
  set (s1 := add_lock ppLock s). rewrite run_gget.
  change (ppInitialized (k_pid s1)) with (ppInitialized (k_pid s)). rewrite Hi. simpl negb. cbv iota.
  assert (mem_ok s1) as Hm1 by (by destruct Hm).
  unfold anscheduler_idxset_init. rewrite run_assoc.
  rewrite (run_call _ _ _ _ _ _ _ (run_initialize n c root_pidPool s1 (pidPool (k_pid s)) eq_refl Hn)).
  simpl negb. cbv iota. autounfold with prog. rewrite run_gset.
  pose proof (initialized_step root_pidPool s1 _ Hm1 eq_refl Hn) as (_ & Hmem & _ & _).
  pose proof (initialized_ok root_pidPool s1 _ Hm1 eq_refl Hn) as Hok.
  set (s2 := upd_pid (set_ppInitialized true) (initialized root_pidPool s1)).
  assert (mem_ok s2) as Hm2 by (by destruct (Hmem Hm1) as [[] _]).
  assert (new_page s1 ∉ k_live s) as Hfresh by (by apply plat_alloc_fresh).
  destruct (alloc_tail n c s2 ix_init) as (s3 & Hrun3 & Hok3 & [v Hs3] & Hmem3 & _ & Hf3);
    [done|apply ix_init_ok|done|simpl; set_solver|done|].
  exists (del_lock ppLock s3). split; [done|]. split; [done|]. split_and!.
  - rewrite Hs3. unfold del_lock. simpl. rewrite del_add_lock by done. by destruct s.
  - intros _. destruct (Hmem3 Hm2) as [[] _]. done.
  - intros q Hq. right. assert (q ∈ k_live s2) as Hq2 by (simpl; set_solver).
    assert (q ≠ new_page s1) as Hqn by (by intros ->).
    destruct (Hf3 q Hq2) as [Hp|[? Hnq]].
    + by apply (initialized_page root_pidPool s1 _ q eq_refl Hn) in Hp.
    + split; [done|]. simpl. rewrite Hnq. simpl. by rewrite lookup_insert_ne.
Qed.

Lemma alloc_pid_later n c s x :
  ppInitialized (k_pid s) = true → idx_ok root_pidPool s x → ix_ok x → ix_used x + 0x1fe < 2 ^ 64 →
  ppLock ∉ k_locks s →
  ∃ s', run n c anscheduler_pidmap_alloc_pid s = Done (ix_get x).1 s' ∧
    pool_ok s' (ix_get x).2 ∧ pool_step s s'.
Proof.
  intros Hi Hok Hx Hb Hl. unfold anscheduler_pidmap_alloc_pid. psteps.
  set (s1 := add_lock ppLock s). rewrite run_gget.
  change (ppInitialized (k_pid s1)) with (ppInitialized (k_pid s)). rewrite Hi. simpl negb. cbv iota.
  rewrite run_ret_bind.
  destruct (alloc_tail n c s1 x) as (s2 & Hrun2 & Hok2 & [v Hs2] & Hmem2 & _ & Hf2);
    [by apply idx_ok_locks|done|done|simpl; set_solver|done|].
  exists (del_lock ppLock s2). split; [done|]. split; [done|]. split_and!.
  - rewrite Hs2. unfold del_lock. simpl. rewrite del_add_lock by done. by destruct s.
  - intros Hm. assert (mem_ok s1) as Hm1 by (by destruct Hm). by destruct (Hmem2 Hm1) as [[] _].
  - intros q Hq. destruct (Hf2 q Hq) as [Hp|?]; [by left|by right].
Qed.

(** [anscheduler_pidmap_alloc_pid] implements [ix_get]. *)
Lemma alloc_pid_spec n c s x :
  mem_ok s → pool_ok s x → ix_ok x → ix_used x + 0x1fe < 2 ^ 64 → ppLock ∉ k_locks s →
  ¬ (ppInitialized (k_pid s) = false ∧ new_page s = NULL) →
  ∃ s', run n c anscheduler_pidmap_alloc_pid s = Done (ix_get x).1 s' ∧
    pool_ok s' (ix_get x).2 ∧ pool_step s s'.
Proof.
  unfold pool_ok at 1. intros Hm Hp Hx Hb Hl Hn. destruct (ppInitialized (k_pid s)) eqn:Hi.
  - by apply alloc_pid_later.
  - subst x. apply alloc_pid_first; naive_solver.
Qed.

(** An identifier is given back. When that needs a page and there is none, the
    identifier is lost. *)
Lemma free_pid_spec n c s x pid :
  mem_ok s → ppInitialized (k_pid s) = true → idx_ok root_pidPool s x → ppLock ∉ k_locks s →
  ∃ (b : bool) s', run n c (anscheduler_pidmap_free_pid pid) s = Done () s' ∧
    idx_ok root_pidPool s' (if b then ix_put pid x else x) ∧ pool_step s s' ∧
    (new_page s ≠ NULL ∨ has_room root_pidPool s → b = true) ∧
    (k_live s' = k_live s ∨ ¬ has_room root_pidPool s ∧ k_live s' = {[new_page s]} ∪ k_live s) ∧
    pidHashmap (k_pid s') = pidHashmap (k_pid s).
Proof.
  intros Hm Hi Hok Hl. unfold anscheduler_pidmap_free_pid. psteps.
  set (s1 := add_lock ppLock s). rewrite run_gget.
  change (ppInitialized (k_pid s1)) with (ppInitialized (k_pid s)). rewrite Hi. simpl negb. cbv iota.
  assert (mem_ok s1) as Hm1 by (by destruct Hm).
  destruct (put_spec_live n c root_pidPool s1 x pid Hm1) as (b & s2 & Hrun & Hok2 & ([v Hs2] & Hmem & _ & Hf) & Hb & Hlv);
    [by apply idx_ok_locks|].
  rewrite (run_call _ _ _ _ _ _ _ Hrun).
  assert (ppLock ∈ k_locks s2) by (rewrite Hs2; simpl; set_solver).
  steps. exists b, (del_lock ppLock s2). split_and!; [done|by apply idx_ok_locks| |done|done|simpl; by rewrite Hs2].
  - split_and!.
    + rewrite Hs2. unfold del_lock. simpl. rewrite del_add_lock by done. by destruct s.
    + intros _. by destruct (Hmem Hm1) as [[] _].
    + intros q Hq. destruct (Hf q Hq) as [Hp|?]; [by left|by right].
Qed.

Lemma alloc_pid_aborts n c s :
  ppInitialized (k_pid s) = false → new_page s = NULL → ppLock ∉ k_locks s →
  ∃ s', run n c anscheduler_pidmap_alloc_pid s
        = Stop (s_leave (leave_abort "failed to initialize PID pool")) s'.
Proof.
  intros Hi Hn Hl. unfold anscheduler_pidmap_alloc_pid. psteps. rewrite run_gget.
  simpl. rewrite Hi. simpl negb. cbv iota. unfold anscheduler_idxset_init. rewrite run_assoc.
  erewrite run_call by (by eapply initialize_fails). simpl negb. cbv iota.
  eexists. by rewrite run_bind, run_abort.
Qed.

(** C36. Process identifiers are unique: [anscheduler_pidmap_alloc_pid] yields an
    identifier that is not in use and keeps every one in use that is, also when it
    is the first call and has to set up the pool. When the pool cannot be set up
    the kernel aborts. *)
Theorem alloc_pid_is_fresh n c s x :
  mem_ok s → pool_ok s x → ix_ok x → ix_used x + 0x1fe < 2 ^ 64 → ppLock ∉ k_locks s →
  if decide (ppInitialized (k_pid s) = false ∧ new_page s = NULL) then
    ∃ s', run n c anscheduler_pidmap_alloc_pid s
          = Stop (s_leave (leave_abort "failed to initialize PID pool")) s'
  else
    ∃ pid s' x', run n c anscheduler_pidmap_alloc_pid s = Done pid s' ∧
      pool_ok s' x' ∧ ix_ok x' ∧ ¬ ix_in_use pid x ∧ ix_in_use pid x' ∧
      (∀ j, ix_in_use j x → ix_in_use j x').
Proof.
  intros Hm Hp Hx Hb Hl. case_decide as Hn.
  - destruct Hn. by apply alloc_pid_aborts.
  - destruct (alloc_pid_spec n c s x) as (s' & Hrun & Hp' & _); [done..|].
    destruct (ix_get_fresh x Hx) as (? & ? & ?). pose proof (ix_get_ok x Hx).
    by exists (ix_get x).1, s', (ix_get x).2.
Qed.

End pids.

(** ** Witnesses

    Tasks 0x10000 and 0x11000 share bucket 5; 0x12000 hashes to it and is not
    registered. *)
Definition demo_pid_task (next last pid : Z) : task_t :=
  set_task_next next (set_task_last last (set_task_pid pid (demo_task 0 1))).

Definition demo_pids : kst :=
  set_k_pid (mk_pid (<[5%nat := 0x10000]> (replicate 256 0)) zero_root false)
    (set_k_tasks (list_to_map [(0x10000, demo_pid_task 0x11000 0 5);
       (0x11000, demo_pid_task 0 0x10000 0x105); (0x12000, demo_pid_task 0 0 0x205)])
      (demo 0 2)).

Definition demo_buckets (h : Z) : list Z :=
  if decide (h = 5) then [0x10000; 0x11000] else [].

Lemma demo_pids_ok : table_ok demo_pids demo_buckets.
Proof.
  split; [reflexivity|]. intros h Hh. unfold demo_buckets. case_decide as Hh5.
  - subst. split; [reflexivity|]. split; [by_dll|]. elems; eexists; split; reflexivity.
  - split_and!; [|apply dll_nil|by intros p []%not_elem_of_nil].
    change (pidHashmap _) with (<[5%nat := 0x10000]> (replicate 256 0)).
    rewrite list_lookup_insert_ne by lia. apply lookup_replicate_2. lia.
Qed.

Lemma pidmap_set_then_get_witness :
  ∃ s' tk', run 4 0 (anscheduler_pidmap_set 0x12000;; anscheduler_pidmap_get 0x205) demo_pids
            = Done 0x12000 s' ∧
    k_tasks s' !! 0x12000 = Some tk' ∧ task_refCount tk' = 2 ∧
    table_ok s' (set_bucket 5 [0x12000; 0x10000; 0x11000] demo_buckets).
Proof.
  apply (pidmap_set_then_get 4 0 demo_pids demo_buckets 0x12000 (demo_pid_task 0 0 0x205)).
  - apply demo_pids_ok.
  - reflexivity.
  - by_dec.
  - done.
  - reflexivity.
  - simpl; lia.
  - by_dec.
  - intros k. by apply not_elem_of_empty.
Defined.

Lemma pidmap_unset_removes_witness :
  ∃ s' r s'', run 3 0 (anscheduler_pidmap_unset 0x10000) demo_pids = Done () s' ∧
    table_ok s' (set_bucket 5 [0x11000] demo_buckets) ∧ table_step demo_pids s' ∧
    fld (k_tasks s') task_next 0x10000 = NULL ∧ fld (k_tasks s') task_last 0x10000 = NULL ∧
    run 3 0 (anscheduler_pidmap_get 5) s' = Done r s'' ∧ r ≠ 0x10000.
Proof.
  apply (pidmap_unset_removes 3 0 demo_pids demo_buckets 0x10000 (demo_pid_task 0x11000 0 5)
    [] [0x11000] 5).
  - apply demo_pids_ok.
  - reflexivity.
  - reflexivity.
  - by_dec.
  - intros k. by apply not_elem_of_empty.
  - intros h. unfold demo_buckets. case_decide; simpl; lia.
Defined.

Lemma pidmap_unset_unregistered_wipes_bucket_witness :
  ∃ s', run 1 0 (anscheduler_pidmap_unset 0x12000) demo_pids = Done () s' ∧
        run 1 0 (anscheduler_pidmap_get 5) s' = Done NULL s'.
Proof.
  apply (pidmap_unset_unregistered_wipes_bucket 1 0 demo_pids demo_buckets 0x12000
    (demo_pid_task 0 0 0x205) 5).
  - apply demo_pids_ok.
  - reflexivity.
  - reflexivity.
  - reflexivity.
  - done.
  - by_dec.
  - reflexivity.
  - lia.
Defined.

Lemma alloc_pid_is_fresh_witness :
  if decide (ppInitialized (k_pid (demo 0 2)) = false ∧ new_page (H := P0) (demo 0 2) = NULL)
  then ∃ s', run 1 0 (anscheduler_pidmap_alloc_pid (H := P0)) (demo 0 2)
          = Stop (s_leave (leave_abort "failed to initialize PID pool")) s'
  else
    ∃ pid s' x', run 1 0 (anscheduler_pidmap_alloc_pid (H := P0)) (demo 0 2) = Done pid s' ∧
      pool_ok s' x' ∧ ix_ok x' ∧ ¬ ix_in_use pid ix_init ∧ ix_in_use pid x' ∧
      (∀ j, ix_in_use j ix_init → ix_in_use j x').
Proof.
  apply (alloc_pid_is_fresh (H := P0) 1 0 (demo 0 2) ix_init).
  - apply demo_mem_ok.
  - reflexivity.
  - apply ix_init_ok.
  - reflexivity.
  - by_dec.
Defined.
