(* ===== verification/Thread.v ===== *)
(** * Thread: threads and their stacks (src/thread.c) *)
From S2P Require Import Prelude Types Machine Demo Idxset RunQueue PagerQueue TaskRef Loop Interrupts.

(** ** Operations *)

(** The virtual pages of a thread's stacks. *)
Definition kernel_stack_page (stack : Z) : Z :=
  u64 (ANSCHEDULER_TASK_KERN_STACKS_PAGE + stack).
Definition user_stack_page (stack : Z) : Z :=
  u64 (ANSCHEDULER_TASK_USER_STACKS_PAGE + u64 (Z.shiftl stack 8)).

Definition anscheduler_thread_interrupt_stack (thread : Z) : prog Z :=
  stack ← rd thread thread_stack;
  let page := u64 (stack + ANSCHEDULER_TASK_KERN_STACKS_PAGE) in
  mret (u64 (Z.shiftl (u64 (page + 1)) 12)).

Definition anscheduler_thread_user_stack (thread : Z) : prog Z :=
  stack ← rd thread thread_stack;
  let page := u64 (u64 (Z.shiftl stack 8) + ANSCHEDULER_TASK_USER_STACKS_PAGE) in
  mret (u64 (Z.shiftl (u64 (page + 0x100)) 12)).

Section ops.
Context `{Platform}.

Definition _alloc_kernel_stack (task thread : Z) : prog bool :=
  buffer ← anscheduler_alloc 0x1000;
  if decide (buffer = NULL) then mret false else
  stack ← rd thread thread_stack;
  let kPage := kernel_stack_page stack in
  let phyPage := anscheduler_vm_physical (Z.shiftr buffer 12) in
  let flags := Z.lor ANSCHEDULER_PAGE_FLAG_PRESENT ANSCHEDULER_PAGE_FLAG_WRITE in
  anscheduler_lock (vmLock task);;
  vm ← rd task task_vm;
  ok ← anscheduler_vm_map vm kPage phyPage flags;
  if negb ok then
    anscheduler_unlock (vmLock task);;
    anscheduler_free buffer;;
    mret false
  else
    anscheduler_unlock (vmLock task);;
    mret true.

Definition _map_user_stack (task thread : Z) : prog bool :=
  let flags := Z.lor (Z.lor ANSCHEDULER_PAGE_FLAG_UNALLOC ANSCHEDULER_PAGE_FLAG_USER)
                 ANSCHEDULER_PAGE_FLAG_WRITE in
  stack ← rd thread thread_stack;
  let start := user_stack_page stack in
  anscheduler_lock (vmLock task);;
  r ← for_ 0x100 0 (λ i,
    vm ← rd task task_vm;
    ok ← anscheduler_vm_map vm (u64 (i + start)) 0 flags;
    if negb ok then
      for_each (Z.to_nat i) 0 (λ j,
        vm ← rd task task_vm;
        anscheduler_vm_unmap vm (u64 (j + start)));;
      anscheduler_unlock (vmLock task);;
      mret (Some false)
    else mret None);
  match r with
  | Some b => mret b
  | None => anscheduler_unlock (vmLock task);; mret true
  end.

Definition _dealloc_kernel_stack (task thread : Z) : prog () :=
  stack ← rd thread thread_stack;
  let page := kernel_stack_page stack in
  anscheduler_lock (vmLock task);;
  vm ← rd task task_vm;
  r ← anscheduler_vm_lookup vm page;
  let '(phyPage, flags) := r in
  (if test_flag flags ANSCHEDULER_PAGE_FLAG_PRESENT then
     vm ← rd task task_vm; anscheduler_vm_unmap vm page
   else mret ());;
  anscheduler_unlock (vmLock task);;
  if test_flag flags ANSCHEDULER_PAGE_FLAG_PRESENT then
    anscheduler_free (u64 (Z.shiftl (anscheduler_vm_virtual phyPage) 12))
  else mret ().

Definition anscheduler_thread_create (task : Z) : prog Z :=
  thread ← anscheduler_alloc sizeof_thread_t;
  if decide (thread = NULL) then mret NULL else
  anscheduler_lock (stacksLock task);;
  stack ← anidxset_get (root_stacks task);
  anscheduler_unlock (stacksLock task);;
  if decide (stack >= 0x100000) then
    anscheduler_free thread;; mret NULL
  else
  zero_as thread zero_thread;;
  wr thread (set_thread_task task);;
  wr thread (set_thread_stack stack);;
  ok ← _alloc_kernel_stack task thread;
  if negb ok then
    anscheduler_lock (stacksLock task);;
    _ ← anidxset_put (root_stacks task) stack;
    anscheduler_unlock (stacksLock task);;
    anscheduler_free thread;;
    mret NULL
  else
  ok ← _map_user_stack task thread;
  if negb ok then
    _dealloc_kernel_stack task thread;;
    anscheduler_lock (stacksLock task);;
    _ ← anidxset_put (root_stacks task) stack;
    anscheduler_unlock (stacksLock task);;
    anscheduler_free thread;;
    mret NULL
  else mret thread.

Definition anscheduler_thread_add (task thread : Z) : prog () :=
  anscheduler_lock (threadsLock task);;
  next ← rd task task_firstThread;
  (if decide (next ≠ NULL) then wr next (set_thread_last thread) else mret ());;
  wr task (set_task_firstThread thread);;
  wr thread (set_thread_last NULL);;
  wr thread (set_thread_next next);;
  anscheduler_unlock (threadsLock task);;
  anscheduler_loop_push thread.

Definition anscheduler_thread_poll : prog bool :=
  thread ← anscheduler_cpu_get_thread;
  task ← anscheduler_cpu_get_task;
  anscheduler_lock (pendingLock task);;
  first ← rd task task_firstPending;
  if decide (first ≠ NULL) then
    anscheduler_unlock (pendingLock task);; mret false
  else
  intd ← anscheduler_intd_get;
  if decide (thread = intd) then
    anscheduler_intd_lock;;
    waiting ← anscheduler_intd_waiting;
    if negb waiting then
      wr thread (set_thread_isPolling 1);;
      anscheduler_intd_unlock;;
      anscheduler_unlock (pendingLock task);;
      mret true
    else
      anscheduler_intd_unlock;;
      anscheduler_unlock (pendingLock task);;
      mret false
  else
  pager ← anscheduler_pager_get;
  if decide (thread = pager) then
    anscheduler_pager_lock;;
    waiting ← anscheduler_pager_waiting;
    if negb waiting then
      wr thread (set_thread_isPolling 1);;
      anscheduler_pager_unlock;;
      anscheduler_unlock (pendingLock task);;
      mret true
    else
      anscheduler_pager_unlock;;
      anscheduler_unlock (pendingLock task);;
      mret false
  else
    wr thread (set_thread_isPolling 1);;
    anscheduler_unlock (pendingLock task);;
    mret true.

(** First pass of [anscheduler_thread_deallocate] over one page: a present page
    becomes "to be freed". *)
Definition retire_page (task page : Z) : prog () :=
  anscheduler_cpu_lock;;
  anscheduler_lock (vmLock task);;
  vm ← rd task task_vm;
  r ← anscheduler_vm_lookup vm page;
  let '(phyPage, flags) := r in
  (if test_flag flags ANSCHEDULER_PAGE_FLAG_PRESENT then
     let flags := Z.lor (Z.lxor flags ANSCHEDULER_PAGE_FLAG_PRESENT)
                    ANSCHEDULER_PAGE_FLAG_UNALLOC in
     vm ← rd task task_vm;
     _ ← anscheduler_vm_map vm page phyPage flags;
     mret ()
   else if negb (flags =? 0) && (page =? 0) then
     vm ← rd task task_vm; anscheduler_vm_unmap vm page
   else mret ());;
  anscheduler_unlock (vmLock task);;
  anscheduler_cpu_unlock.

(** Second pass: the page is unmapped, and freed when it was marked. *)
Definition release_page (task page : Z) : prog () :=
  anscheduler_cpu_lock;;
  anscheduler_lock (vmLock task);;
  vm ← rd task task_vm;
  r ← anscheduler_vm_lookup vm page;
  let '(phyPage, flags) := r in
  (if negb (phyPage =? 0) || negb (flags =? 0) then
     vm ← rd task task_vm; anscheduler_vm_unmap vm page
   else mret ());;
  anscheduler_unlock (vmLock task);;
  (if negb (phyPage =? 0) && test_flag flags ANSCHEDULER_PAGE_FLAG_UNALLOC then
     anscheduler_free (u64 (Z.shiftl (anscheduler_vm_virtual phyPage) 12))
   else mret ());;
  anscheduler_cpu_unlock.

Definition anscheduler_thread_deallocate (task thread : Z) : prog () :=
  anscheduler_cpu_lock;;
  anscheduler_intd_cmpnull thread;;
  anscheduler_cpu_unlock;;
  stack ← rd thread thread_stack;
  let firstPage := user_stack_page stack in
  for_each 0x100 0 (λ i, retire_page task (u64 (firstPage + i)));;
  anscheduler_cpu_lock;;
  anscheduler_cpu_notify_invlpg task;;
  anscheduler_cpu_unlock;;
  for_each 0x100 0 (λ i, release_page task (u64 (firstPage + i))).

Definition anscheduler_thread_kernel_stack (task thread : Z) : prog Z :=
  stack ← rd thread thread_stack;
  let vPage := kernel_stack_page stack in
  anscheduler_lock (vmLock task);;
  vm ← rd task task_vm;
  r ← anscheduler_vm_lookup vm vPage;
  let '(entry, flags) := r in
  anscheduler_unlock (vmLock task);;
  if test_flag flags ANSCHEDULER_PAGE_FLAG_PRESENT then
    mret (u64 (Z.shiftl (anscheduler_vm_virtual entry) 12))
  else mret NULL.

(** The part of [_finalize_thread_exit] that takes the thread out of its task's
    list. *)
Definition unlink_thread (task thread : Z) : prog () :=
  anscheduler_lock (threadsLock task);;
  last ← rd thread thread_last;
  (if decide (last = NULL) then
     next ← rd thread thread_next;
     wr task (set_task_firstThread next);;
     next ← rd thread thread_next;
     if decide (next ≠ NULL) then wr next (set_thread_last NULL) else mret ()
   else
     last ← rd thread thread_last;
     (if decide (last ≠ NULL) then
        next ← rd thread thread_next; wr last (set_thread_next next)
      else mret ());;
     next ← rd thread thread_next;
     if decide (next ≠ NULL) then
       last ← rd thread thread_last; wr next (set_thread_last last)
     else mret ());;
  anscheduler_unlock (threadsLock task).

(** The part of [_finalize_thread_exit] that gives up the thread's memory. *)
Definition release_thread (task thread : Z) : prog () :=
  unlink_thread task thread;;
  anscheduler_lock (stacksLock task);;
  stack ← rd thread thread_stack;
  _ ← anidxset_put (root_stacks task) stack;
  anscheduler_unlock (stacksLock task);;
  stack ← anscheduler_thread_kernel_stack task thread;
  anscheduler_free stack;;
  anscheduler_free thread.

Definition _finalize_thread_exit (thread : Z) : prog Empty_set :=
  anscheduler_cpu_set_task NULL;;
  anscheduler_cpu_set_thread NULL;;
  task ← rd thread thread_task;
  release_thread task thread;;
  anscheduler_task_dereference task;;
  anscheduler_loop_run.

Definition anscheduler_thread_exit {A} : prog A :=
  anscheduler_cpu_lock;;
  task ← anscheduler_cpu_get_task;
  thread ← anscheduler_cpu_get_thread;
  anscheduler_cpu_unlock;;
  anscheduler_thread_deallocate task thread;;
  anscheduler_cpu_lock;;
  anscheduler_cpu_stack_run (_finalize_thread_exit thread).

End ops.

(** ** Polling *)

(** Is there something for a polling thread [th] of the task [tk] to do? *)
Definition poll_ready (s : kst) (th : Z) (tk : task_t) : Prop :=
  task_firstPending tk ≠ NULL ∨
  (th = interruptThread (k_intd s) ∧ irqMask (k_intd s) ≠ 0) ∨
  (th ≠ interruptThread (k_intd s) ∧ th = pagerThread (k_pager s) ∧
   firstFault (k_pager s) ≠ NULL).

#[export] Instance poll_ready_dec s th tk : Decision (poll_ready s th tk).
Proof. unfold poll_ready. apply _. Defined.

(** A thread that runs on CPU [c], and the locks that polling needs. *)
Record polls (s : kst) (c : nat) (t th : Z) (tk : task_t) (thr : thread_t) : Prop := {
  po_task : cpu_task (k_cpus s c) = t;
  po_thread : cpu_thread (k_cpus s c) = th;
  po_tk : k_tasks s !! t = Some tk;
  po_thr : k_threads s !! th = Some thr;
  po_pending : pendingLock t ∉ k_locks s;
  po_intd : intdLock ∉ k_locks s;
  po_pager : pagerLock ∉ k_locks s;
}.

Ltac same_locks :=
  unfold add_lock, del_lock; simpl; repeat rewrite del_add_lock by set_solver;
  match goal with s : kst |- _ => by destruct s end.

Lemma thread_poll_spec n c s t th tk thr :
  polls s c t th tk thr →
  run n c anscheduler_thread_poll s =
  if decide (poll_ready s th tk) then Done false s
  else Done true (set_k_threads (<[th := set_thread_isPolling 1 thr]> (k_threads s)) s).
Proof.
  intros [Ht Hth Htk Hthr Hl Hli Hlp]. unfold anscheduler_thread_poll.
  steps. rewrite Ht, Hth. steps. unfold poll_ready.
  destruct (decide (task_firstPending tk ≠ NULL)) as [Hp|Hp].
  { rewrite (decide_True (P := _ ∨ _)) by auto. steps. f_equal. same_locks. }
  unfold anscheduler_intd_get, anscheduler_intd_waiting, anscheduler_pager_waiting. steps.
  destruct (decide (th = interruptThread (k_intd s))) as [Hi|Hi].
  - steps. destruct (decide (irqMask (k_intd s) = 0)) as [Hm|Hm];
      [rewrite bool_decide_eq_false_2, decide_False by naive_solver
      |rewrite bool_decide_eq_true_2, decide_True by naive_solver];
      simpl negb; cbv iota; steps; f_equal; same_locks.
  - steps. destruct (decide (th = pagerThread (k_pager s))) as [Hg|Hg].
    + steps. destruct (decide (firstFault (k_pager s) = NULL)) as [Hm|Hm];
        [rewrite bool_decide_eq_false_2, decide_False by naive_solver
        |rewrite bool_decide_eq_true_2, decide_True by naive_solver];
        simpl negb; cbv iota; steps; f_equal; same_locks.
    + rewrite (decide_False (P := _ ∨ _)) by naive_solver. steps. f_equal. same_locks.
Qed.

(** C39. [anscheduler_thread_poll] decides under the task's pending lock, and returns
    with every lock released: it answers [false], and changes nothing, when the
    task has a pending socket, the interrupt thread an interrupt or the pager a
    page fault; otherwise it answers [true] and the thread is marked polling, so
    that the next event pushes it. Nothing else changes. *)
Theorem thread_poll_marks_only_idle_threads n c s t th tk thr :
  polls s c t th tk thr →
  ∃ b s', run n c anscheduler_thread_poll s = Done b s' ∧
    (b = false ↔ poll_ready s th tk) ∧
    s' = (if b then set_k_threads (<[th := set_thread_isPolling 1 thr]> (k_threads s)) s
          else s).
Proof.
  intros Hp. rewrite (thread_poll_spec _ _ _ _ _ _ _ Hp).
  case_decide; do 2 eexists; (split; [done|]); naive_solver.
Qed.

(** No wake-up is lost between two polls: whichever interrupts arrive while the
    interrupt thread is not polling, it finds them at its next
    [anscheduler_thread_poll], which does not let it go to sleep. *)
Theorem poll_sees_earlier_interrupts `{Platform} n c s it th tk tk' ks t :
  intd_ready s it th tk → thread_isPolling th = 0 → 0 ≤ task_refCount tk < 2 ^ 64 →
  (∀ k, k ∈ ks → 0 ≤ k < 32) → ks ≠ [] → polls s c t it tk' th →
  ∃ s', run n c (irqs ks;; anscheduler_thread_poll) s = Done false s' ∧
    k_threads s' = k_threads s ∧ ∀ k, k ∈ ks → Z.testbit (irqMask (k_intd s')) k = true.
Proof.
  intros Hir Hp Hr Hks Hne Hpo.
  rewrite (run_call _ _ _ _ _ _ _ (irqs_spec n c s it th tk ks Hir Hp Hr Hks)).
  match goal with |- context [run _ _ _ ?s1] => set (s2 := s1) end.
  assert (∀ k, k ∈ ks → Z.testbit (irqMask (k_intd s2)) k = true) as Hbits.
  { intros k Hk. destruct (Hks k Hk). simpl. rewrite mask_irqs_testbit by done.
    apply orb_true_iff. right. by apply bool_decide_eq_true. }
  assert (polls s2 c t it tk' th) as Hpo2 by (destruct Hpo; by split).
  rewrite (thread_poll_spec _ _ _ _ _ _ _ Hpo2). rewrite decide_True; [by eauto|].
  right. left. split; [symmetry; apply Hir|].
  destruct ks as [|k ks]; [done|]. intros Hz.
  specialize (Hbits k ltac:(set_solver)). by rewrite Hz, Z.testbit_0_l in Hbits.
Qed.

(** ** The layout of the stacks *)

(** The range of stack indexes that [anscheduler_thread_create] accepts. *)
Definition stack_index (i : Z) : Prop := 0 ≤ i < 0x100000.

Lemma kernel_stack_page_eq i : stack_index i → kernel_stack_page i = 0x100000 + i.
Proof. intros Hi. unfold kernel_stack_page. apply u64_small. unfold stack_index in Hi.
  change ANSCHEDULER_TASK_KERN_STACKS_PAGE with 0x100000. lia. Qed.

Lemma user_stack_page_eq i : stack_index i → user_stack_page i = 0x200000 + i * 0x100.
Proof.
  intros Hi. unfold stack_index in Hi. unfold user_stack_page.
  rewrite Z.shiftl_mul_pow2 by lia. change ANSCHEDULER_TASK_USER_STACKS_PAGE with 0x200000.
  rewrite (u64_small (i * 2 ^ 8)), u64_small by lia. lia.
Qed.

(** The pages of the stacks with index [i]. *)
Definition stack_pages (i p : Z) : Prop :=
  p = kernel_stack_page i ∨ ∃ j, 0 ≤ j < 0x100 ∧ p = u64 (user_stack_page i + j).

Lemma user_page_eq i j :
  stack_index i → 0 ≤ j < 0x100 → u64 (user_stack_page i + j) = 0x200000 + i * 0x100 + j.
Proof.
  intros Hi Hj. rewrite user_stack_page_eq by done. unfold stack_index in Hi.
  apply u64_small. lia.
Qed.

(** The stacks of threads do not overlap: for every index that
    [anscheduler_thread_create] accepts, kernel stacks stay below the user stacks,
    no address computation wraps, two threads share no stack page, and the two
    initial stack pointers are one byte past the end of the thread's own kernel
    stack page and of its own 256 user stack pages. *)
Theorem stacks_do_not_overlap n c s th thr :
  k_threads s !! th = Some thr → stack_index (thread_stack thr) →
  (∀ j p, stack_index j → stack_pages (thread_stack thr) p → stack_pages j p →
     j = thread_stack thr) ∧
  (∃ kp up, run n c (anscheduler_thread_interrupt_stack th) s = Done kp s ∧
     run n c (anscheduler_thread_user_stack th) s = Done up s ∧
     kp = (kernel_stack_page (thread_stack thr) + 1) * 0x1000 ∧
     up = (u64 (user_stack_page (thread_stack thr) + 0xff) + 1) * 0x1000 ∧
     kp ≤ ANSCHEDULER_TASK_USER_STACKS_PAGE * 0x1000 ∧ up < 2 ^ 48).
Proof.
  intros Hth Hi. split.
  - intros j p Hj Hp1 Hp2.
    destruct Hp1 as [->|(a & Ha & ->)], Hp2 as [Hp|(b & Hb & Hp)];
      rewrite ?kernel_stack_page_eq, ?user_page_eq in Hp by done;
      unfold stack_index in *; lia.
  - unfold anscheduler_thread_interrupt_stack, anscheduler_thread_user_stack. steps.
    do 2 eexists. split; [done|]. split; [done|].
    change ANSCHEDULER_TASK_KERN_STACKS_PAGE with 0x100000.
    change ANSCHEDULER_TASK_USER_STACKS_PAGE with 0x200000.
    rewrite kernel_stack_page_eq, user_page_eq by (done || lia). unfold stack_index in Hi.
    rewrite !Z.shiftl_mul_pow2 by lia. set (i := thread_stack thr) in *.
    rewrite (u64_small (i + 0x100000)), (u64_small (i * 2 ^ 8)) by lia.
    rewrite (u64_small (i + 0x100000 + 1)), (u64_small (i * 2 ^ 8 + 0x200000)) by lia.
    rewrite (u64_small (i * 2 ^ 8 + 0x200000 + 0x100)) by lia.
    rewrite !u64_small by lia. lia.
Qed.

Lemma stacks_do_not_overlap_witness :
  (∀ j p, stack_index j → stack_pages 2 p → stack_pages j p → j = 2) ∧
  (∃ kp up, run 0 0 (anscheduler_thread_interrupt_stack 0x3000) (demo 0 2) = Done kp (demo 0 2) ∧
     run 0 0 (anscheduler_thread_user_stack 0x3000) (demo 0 2) = Done up (demo 0 2) ∧
     kp = (kernel_stack_page 2 + 1) * 0x1000 ∧
     up = (u64 (user_stack_page 2 + 0xff) + 1) * 0x1000 ∧
     kp ≤ ANSCHEDULER_TASK_USER_STACKS_PAGE * 0x1000 ∧ up < 2 ^ 48).
Proof.
  apply (stacks_do_not_overlap 0 0 (demo 0 2) 0x3000 (demo_thread 0 0x2000 0 0 0 2 0));
    [reflexivity|unfold stack_index; simpl; lia].
Defined.

(** ** Creating threads *)
Section create.
Context `{Platform, !PlatformOk _} (n c : nat).

(** What a failed operation may leave behind: counters of the platform's calls and
    its log. *)
Definition bumped (s s' : kst) : Prop :=
  s' = set_k_nallocs (k_nallocs s') (set_k_nmaps (k_nmaps s') (set_k_log (k_log s') s)).

Lemma bumped_mem_ok s s' : bumped s s' → mem_ok s → mem_ok s'.
Proof. intros -> []. by split. Qed.

Lemma bumped_idx_ok r s s' x : bumped s s' → idx_ok r s x → idx_ok r s' x.
Proof.
  intros -> Hok. eapply idx_ok_frame; [done|by destruct r|done|]. intros p Hp Ho _. by split.
Qed.

(** Freeing what has just been allocated. *)
Lemma free_step_new s p :
  mem_ok s → p ∉ k_live s →
  free_step p (set_k_live ({[p]} ∪ k_live s) s) = set_k_log (k_log s ++ [ev_free p]) s.
Proof.
  intros Hm Hp. pose proof (fresh_only_node s p Hm Hp) as Ho.
  rewrite free_only_node by exact Ho. simpl.
  rewrite delete_id by (apply eq_None_not_Some; intros ?; by apply Hp, mem_nodes).
  replace (({[p]} ∪ k_live s) ∖ {[p]}) with (k_live s) by set_solver.
  by destruct s.
Qed.

(** The kernel stack's page, and the memory with it mapped. *)
Definition kstack_flags : Z := Z.lor ANSCHEDULER_PAGE_FLAG_PRESENT ANSCHEDULER_PAGE_FLAG_WRITE.
Definition kstack_frame (s : kst) : Z := anscheduler_vm_physical (Z.shiftr (new_page s) 12).
Definition with_kstack (vm stack : Z) (s : kst) : kst :=
  mapped vm (kernel_stack_page stack) (kstack_frame s) kstack_flags
    (set_k_nallocs (S (k_nallocs s)) (set_k_live ({[new_page s]} ∪ k_live s) s)).

Lemma alloc_kernel_stack_spec s T th tk thr :
  mem_ok s → k_tasks s !! T = Some tk → k_threads s !! th = Some thr →
  is_Some (k_vms s !! task_vm tk) → vmLock T ∉ k_locks s →
  ∃ b s', run n c (_alloc_kernel_stack T th) s = Done b s' ∧
    if b then new_page s ≠ NULL ∧ s' = with_kstack (task_vm tk) (thread_stack thr) s
    else bumped s s'.
Proof.
  intros Hm HT Hth Hvm Hl. unfold _alloc_kernel_stack. rewrite run_alloc. fold (new_page s).
  destruct (decide (new_page s = NULL)) as [Hn|Hn].
  { exists false. eexists. split; [done|]. rewrite alloc_step_null by done.
    by destruct s. }
  rewrite alloc_step_some by done. fold (new_page s). steps. rewrite run_vm_map by done.
  destruct (plat_map_ok _ _ _); simpl negb; cbv iota.
  - steps. exists true. eexists. split; [done|]. split; [done|]. unfold with_kstack. same_locks.
  - steps. rewrite run_free by (simpl; set_solver). exists false. eexists. split; [done|].
    assert (new_page s ∉ k_live s) as Hf by (by apply plat_alloc_fresh).
    pose proof (free_step_new (set_k_nmaps (S (k_nmaps s)) (set_k_nallocs (S (k_nallocs s)) s))
      (new_page s)) as Hfree. simpl in Hfree.
    unfold del_lock, add_lock. simpl. rewrite del_add_lock by done.
    match goal with |- bumped s ?s2 => replace s2 with
      (set_k_log (k_log s ++ [ev_free (new_page s)])
        (set_k_nmaps (S (k_nmaps s)) (set_k_nallocs (S (k_nallocs s)) s))) end;
      [by destruct s|].
    rewrite <- Hfree; [by destruct s|destruct Hm; by split|done].
Qed.

(** The user stack's pages, [k] of them, as pages to allocate on demand. *)
Definition ustack_flags : Z :=
  Z.lor (Z.lor ANSCHEDULER_PAGE_FLAG_UNALLOC ANSCHEDULER_PAGE_FLAG_USER)
    ANSCHEDULER_PAGE_FLAG_WRITE.
Definition ustack_table (stack lo hi : Z) (m m' : gmap Z (Z * Z)) : Prop :=
  ∀ p, m' !! p = if decide (user_stack_page stack + lo ≤ p < user_stack_page stack + hi)
                 then Some (0, ustack_flags) else m !! p.

(** Memories that differ in one page table, and in how often [vm_map] was called. *)
Definition table_set (vm : Z) (m : gmap Z (Z * Z)) (s s' : kst) : Prop :=
  s' = set_k_vms (<[vm := m]> (k_vms s)) (set_k_nmaps (k_nmaps s') s).

Lemma u64_user_page stack j :
  stack_index stack → 0 ≤ j < 0x100 →
  u64 (j + user_stack_page stack) = user_stack_page stack + j.
Proof.
  intros Hi Hj. rewrite Z.add_comm, user_page_eq, user_stack_page_eq by done. lia.
Qed.

(** Mapping the next page, and unmapping the first. *)
Lemma ustack_map stack k m m' :
  stack_index stack → 0 ≤ k < 0x100 → ustack_table stack 0 k m m' →
  ustack_table stack 0 (k + 1) m
    (<[u64 (k + user_stack_page stack) := (0, u16 ustack_flags)]> m').
Proof.
  intros Hi Hk Hm p. rewrite u64_user_page by done. rewrite lookup_insert.
  case_decide; [subst; by rewrite decide_True by lia|].
  rewrite Hm. repeat case_decide; try done; lia.
Qed.

Lemma ustack_unmap stack j k m m' :
  stack_index stack → 0 ≤ j < k → k ≤ 0x100 → m !! (user_stack_page stack + j) = None →
  ustack_table stack j k m m' →
  ustack_table stack (j + 1) k m (delete (u64 (j + user_stack_page stack)) m').
Proof.
  intros Hi Hj Hk Hn Hm p. rewrite u64_user_page by (done || lia). rewrite lookup_delete.
  case_decide; [subst; rewrite decide_False by lia; done|].
  rewrite Hm. repeat case_decide; try done; lia.
Qed.

(** Undoing the first [k] mappings. *)
Lemma undo_user_stack s T tk stack m k m' s1 :
  stack_index stack → k_tasks s !! T = Some tk → k_vms s !! task_vm tk = Some m →
  (∀ j, 0 ≤ j < k → m !! (user_stack_page stack + j) = None) → 0 ≤ k ≤ 0x100 →
  ustack_table stack 0 k m m' → table_set (task_vm tk) m' s s1 →
  ∃ s2, run n c (for_each (Z.to_nat k) 0 (λ j,
          vm ← rd T task_vm; anscheduler_vm_unmap vm (u64 (j + user_stack_page stack)))) s1
        = Done () s2 ∧ s2 = set_k_nmaps (k_nmaps s2) s.
Proof.
  intros Hi HT Hvm Hn Hk Hm' Hs1.
  match goal with |- context [run _ _ (for_each ?cnt ?i ?b) _] =>
    destruct (run_for_each n c cnt b (λ j s', ∃ m2, ustack_table stack j k m m2 ∧
      table_set (task_vm tk) m2 s s') i s1) as (s2 & Hrun & m2 & Hm2 & Hs2) end.
  - by exists m'.
  - intros j s2 Hj (m2 & Hm2 & Hs2).
    assert (k_tasks s2 !! T = Some tk) by (by rewrite Hs2).
    steps. rewrite run_tail, run_vm_unmap by (rewrite Hs2; simpl; by rewrite lookup_insert_eq).
    eexists. split; [done|]. eexists. split; [apply (ustack_unmap stack j k m m2); try done|].
    + lia.
    + lia.
    + apply Hn. lia.
    + unfold table_set in *. rewrite Hs2. unfold vm_upd. simpl.
      rewrite (alter_lookup _ _ _ m2) by (by rewrite lookup_insert_eq).
      by rewrite insert_insert_eq.
  - exists s2. split; [done|]. unfold table_set in Hs2. assert (m2 = m) as ->.
    + apply map_eq. intros p. rewrite Hm2, decide_False; [done|lia].
    + rewrite insert_id in Hs2 by done. rewrite Hs2. by destruct s.
Qed.

(** [_map_user_stack] maps all of the stack or nothing. *)
Lemma map_user_stack_spec s T th tk thr m :
  k_tasks s !! T = Some tk → k_threads s !! th = Some thr → stack_index (thread_stack thr) →
  k_vms s !! task_vm tk = Some m →
  (∀ j, 0 ≤ j < 0x100 → m !! (user_stack_page (thread_stack thr) + j) = None) →
  vmLock T ∉ k_locks s →
  ∃ b s', run n c (_map_user_stack T th) s = Done b s' ∧
    if b then ∃ m', ustack_table (thread_stack thr) 0 0x100 m m' ∧
                    table_set (task_vm tk) m' s s'
    else s' = set_k_nmaps (k_nmaps s') s.
Proof.
  intros HT Hth Hi Hvm Hn Hl. unfold _map_user_stack. steps. set (s0 := add_lock (vmLock T) s).
  match goal with |- context [for_ ?cnt ?i ?b] =>
    destruct (run_for n c cnt b (λ j s', ∃ m2, ustack_table (thread_stack thr) 0 j m m2 ∧
      table_set (task_vm tk) m2 s0 s')
      (λ v s', v = false ∧ s' = set_k_nmaps (k_nmaps s') s) i s0) as (r & s2 & Hrun & Hr) end.
  - exists m. split; [intros p; by rewrite decide_False by lia|].
    unfold table_set, s0. simpl. rewrite insert_id by done. by destruct s.
  - intros j s2 Hj (m2 & Hm2 & Hs2).
    assert (k_tasks s2 !! T = Some tk) by (by rewrite Hs2). steps.
    rewrite run_vm_map by (rewrite Hs2; simpl; by rewrite lookup_insert_eq).
    destruct (plat_map_ok _ _ _); simpl negb; cbv iota.
    + rewrite run_ret. do 2 eexists. split; [done|]. eexists. split; [by apply ustack_map|].
      unfold table_set in *. unfold mapped. rewrite Hs2. unfold vm_upd. simpl.
      rewrite (alter_lookup _ _ _ m2) by (by rewrite lookup_insert_eq).
      by rewrite insert_insert_eq.
    + destruct (undo_user_stack s0 T tk (thread_stack thr) m j m2
        (set_k_nmaps (S (k_nmaps s2)) s2)) as (s3 & Hrun3 & Hs3); try done.
      { intros j' Hj'. apply Hn. lia. }
      { lia. }
      { unfold table_set in *. rewrite Hs2. done. }
      rewrite (run_call _ _ _ _ _ _ _ Hrun3).
      rewrite run_unlock by (rewrite Hs3; unfold s0; simpl;
        first [rewrite bool_decide_eq_true; eauto; done|set_solver]).
      rewrite run_ret. do 2 eexists. split; [done|]. split; [done|].
      rewrite Hs3. unfold s0. same_locks.
  - rewrite (run_call _ _ _ _ _ _ _ Hrun). destruct r as [v|].
    + destruct Hr as [-> Hs2]. exists false, s2. by rewrite run_ret.
    + destruct Hr as (m2 & Hm2 & Hs2).
      rewrite run_unlock by (rewrite Hs2; unfold s0; simpl;
        first [rewrite bool_decide_eq_true; eauto; done|set_solver]).
      rewrite run_ret. exists true. eexists. split; [done|]. exists m2. split; [done|].
      unfold table_set. rewrite Hs2. unfold s0. same_locks.
Qed.

Lemma free_mem_ok s p : mem_ok s → mem_ok (free_step p s).
Proof.
  intros []. unfold free_step. split; simpl; [set_solver|..]; intros q [? Hq]%lookup_delete_is_Some;
    apply elem_of_difference; (split; [auto|set_solver]).
Qed.

Lemma free_idx_ok r s x p :
  idx_ok r s x → k_nodes s !! p = None → root_owner r ≠ Some p → idx_ok r (free_step p s) x.
Proof.
  intros Hok Hp Hr. eapply idx_ok_frame; [done|..].
  - destruct r; simpl in *; rewrite ?lookup_delete_ne by congruence; done.
  - intros q _. simpl. rewrite lookup_delete. by case_decide; subst.
  - intros q Hq Ho [? Hn]. simpl. split.
    + apply elem_of_difference. split; [done|]. intros ->%elem_of_singleton. congruence.
    + unfold only_node in *. simpl. rewrite !lookup_delete_None. naive_solver.
Qed.

(** The index and the thread are given back. *)
Lemma give_back s T th thr x i :
  mem_ok s → is_Some (k_tasks s !! T) → k_threads s !! th = Some thr →
  only_node (set_k_threads (delete th (k_threads s)) s) th → k_nodes s !! th = None →
  idx_ok (root_stacks T) s x → has_room (root_stacks T) s → stacksLock T ∉ k_locks s →
  ∃ s', run n c (anscheduler_lock (stacksLock T);;
                 _ ← anidxset_put (root_stacks T) i;
                 anscheduler_unlock (stacksLock T);;
                 anscheduler_free th;; mret NULL) s = Done NULL s' ∧
    mem_ok s' ∧ k_locks s' = k_locks s ∧ k_vms s' = k_vms s ∧
    k_threads s' = delete th (k_threads s) ∧ idx_ok (root_stacks T) s' (ix_put i x) ∧
    k_live s' = k_live s ∖ {[th]}.
Proof.
  intros Hm HT Hth Ho Hn Hok Hroom Hl.
  rewrite run_lock by (simpl; rewrite ?bool_decide_eq_true; done).
  set (s1 := add_lock (stacksLock T) s).
  destruct (put_spec_live n c (root_stacks T) s1 x i) as (b & s2 & Hrun & Hok2 & Hst & Hb & Hlv);
    [by destruct Hm|by apply idx_ok_locks|].
  assert (k_live s2 = k_live s) as Hl2' by (by destruct Hlv as [->|[[] _]]).
  rewrite (run_call _ _ _ _ _ _ _ Hrun).
  destruct Hst as ([v Hs2] & Hmem & _). destruct Hmem as [Hm2 Hn2]; [by destruct Hm|].
  rewrite Hb in Hok2 by (right; exact Hroom). clear Hb.
  assert (k_tasks s2 = alter (set_task_stacks v) T (k_tasks s)) as Ht2 by (by rewrite Hs2).
  assert (k_threads s2 = k_threads s) as Hth2 by (by rewrite Hs2).
  assert (k_locks s2 = {[stacksLock T]} ∪ k_locks s) as Hl2 by (by rewrite Hs2).
  assert (k_vms s2 = k_vms s) as Hv2 by (by rewrite Hs2).
  destruct Ho as (Hot & _ & _ & _ & _ & _ & _ & Hov). simpl in Hot, Hov.
  assert (T ≠ th) by (intros ->; destruct HT; congruence).
  rewrite run_unlock; [|rewrite Hl2; set_solver
    |simpl; rewrite bool_decide_eq_true, Ht2, lookup_alter_eq; by apply fmap_is_Some].
  rewrite run_free by (simpl; apply (mem_threads _ Hm2); rewrite Hth2; eauto).
  rewrite run_ret. eexists. split; [done|]. split_and!; simpl.
  - apply free_mem_ok. by destruct Hm2.
  - rewrite Hl2. by apply del_add_lock.
  - rewrite Hv2. by rewrite delete_id.
  - by rewrite Hth2.
  - apply free_idx_ok; [by apply idx_ok_locks| |simpl; congruence].
    simpl. apply eq_None_not_Some. intros [Hs|Hs]%Hn2.
    + simpl in Hs. rewrite Hn in Hs. by destruct Hs.
    + apply Hs. simpl. apply (mem_threads _ Hm). eauto.
  - by rewrite Hl2'.
Qed.

(** The address of an allocated page, from its frame. *)
Definition frame_addr (f : Z) : Z := u64 (Z.shiftl (anscheduler_vm_virtual f) 12).

Lemma frame_addr_page p :
  p mod 0x1000 = 0 → 0 ≤ p < 2 ^ 64 → frame_addr (anscheduler_vm_physical (Z.shiftr p 12)) = p.
Proof.
  intros Hm Hp. unfold frame_addr, anscheduler_vm_virtual, anscheduler_vm_physical.
  rewrite plat_virtual_physical, Z.shiftr_div_pow2, Z.shiftl_mul_pow2 by lia.
  change (2 ^ 12) with 0x1000. replace (p / 0x1000 * 0x1000) with p; [by apply u64_small|].
  pose proof (Z.div_mod p 0x1000 ltac:(lia)). lia.
Qed.

Lemma frame_addr_kstack s : frame_addr (kstack_frame s) = new_page s.
Proof.
  unfold kstack_frame. pose proof (plat_alloc_range (k_nallocs s) (k_live s) 0x1000).
  apply frame_addr_page; [apply plat_alloc_aligned|]. unfold new_page. lia.
Qed.

Lemma dealloc_kernel_stack_spec s T th tk thr m f fl :
  k_tasks s !! T = Some tk → k_threads s !! th = Some thr → k_vms s !! task_vm tk = Some m →
  m !! kernel_stack_page (thread_stack thr) = Some (f, fl) →
  test_flag fl ANSCHEDULER_PAGE_FLAG_PRESENT = true → frame_addr f ∈ k_live s →
  vmLock T ∉ k_locks s →
  run n c (_dealloc_kernel_stack T th) s =
  Done () (free_step (frame_addr f)
    (vm_upd (task_vm tk) (delete (kernel_stack_page (thread_stack thr))) s)).
Proof.
  intros HT Hth Hvm Hf Hfl Hlive Hl. unfold _dealloc_kernel_stack. steps.
  rewrite (run_vm_lookup _ _ _ _ _ _ m) by done. rewrite Hf. simpl. rewrite Hfl. steps.
  rewrite run_vm_unmap by (simpl; eauto). unfold vm_upd. simpl. steps.
  fold (frame_addr f). rewrite run_free by done. rewrite run_ret. f_equal.
  f_equal. same_locks.
Qed.

(** No memory is lost, and none is freed but pages of the index set [r]. *)
Definition no_leak (r : root_ptr) (s s' : kst) : Prop :=
  k_live s' ⊆ k_live s ∧ ∀ q, q ∈ k_live s → index_page r s q ∨ q ∈ k_live s'.

(** What [anscheduler_thread_create] leaves when it fails. *)
Definition create_failed (T : Z) (s : kst) (x : idxset) (s' : kst) : Prop :=
  mem_ok s' ∧ no_leak (root_stacks T) s s' ∧ k_locks s' = k_locks s ∧ k_threads s' = k_threads s ∧ k_vms s' = k_vms s ∧
  ∃ x', idx_ok (root_stacks T) s' x' ∧ ix_ok x' ∧
    ∀ j, stack_index j → ix_in_use j x' ↔ ix_in_use j x.

(** The thread it yields, and the page table with its stacks. *)
Definition new_thread (T i : Z) : thread_t := set_thread_stack i (set_thread_task T zero_thread).
Definition stack_table (i f : Z) (m m' : gmap Z (Z * Z)) : Prop :=
  m' !! kernel_stack_page i = Some (f, kstack_flags) ∧
  (∀ j, 0 ≤ j < 0x100 → m' !! u64 (user_stack_page i + j) = Some (0, ustack_flags)) ∧
  (∀ p, ¬ stack_pages i p → m' !! p = m !! p).
Definition create_done (T vm r : Z) (m : gmap Z (Z * Z)) (s : kst) (x : idxset) (s' : kst) :=
  mem_ok s' ∧ k_locks s' = k_locks s ∧ idx_ok (root_stacks T) s' (ix_get x).2 ∧
  r ∉ k_live s ∧ k_threads s' = <[r := new_thread T (ix_get x).1]> (k_threads s) ∧
  ∃ f m', k_vms s' = <[vm := m']> (k_vms s) ∧ stack_table (ix_get x).1 f m m' ∧
    frame_addr f ∈ k_live s' ∧ only_node s (frame_addr f) ∧ frame_addr f ≠ r.

Lemma with_kstack_mem_ok s vm i :
  mem_ok s → new_page s ≠ NULL → is_Some (k_vms s !! vm) → mem_ok (with_kstack vm i s).
Proof.
  intros [] Hn Hvm. unfold with_kstack, mapped, vm_upd. split; simpl; [set_solver|..];
    intros p Hp; try apply lookup_alter_is_Some in Hp; apply elem_of_union_r; auto.
Qed.

Lemma idx_ok_table r s s' x vm m :
  idx_ok r s x → is_Some (k_vms s !! vm) → k_live s ⊆ k_live s' →
  s' = set_k_vms (<[vm := m]> (k_vms s)) (set_k_live (k_live s')
         (set_k_nallocs (k_nallocs s') (set_k_nmaps (k_nmaps s') (set_k_log (k_log s') s)))) →
  idx_ok r s' x.
Proof.
  intros Hok Hvm Hl Hs. eapply idx_ok_frame; [done|rewrite Hs; by destruct r|by rewrite Hs|].
  intros p Hp Ho _. split; [set_solver|]. unfold only_node in *. rewrite Hs. simpl.
  rewrite lookup_insert_ne; [done|]. intros ->. destruct Hvm, Ho as (_&_&_&_&_&_&_&?). congruence.
Qed.

(** Undoing the kernel stack. *)
Lemma undo_kernel_stack s T th tk thr m s2 :
  let i := thread_stack thr in
  mem_ok s → k_tasks s !! T = Some tk → k_threads s !! th = Some thr →
  k_vms s !! task_vm tk = Some m → m !! kernel_stack_page i = None → new_page s ≠ NULL →
  vmLock T ∉ k_locks s → s2 = set_k_nmaps (k_nmaps s2) (with_kstack (task_vm tk) i s) →
  ∃ s3, run n c (_dealloc_kernel_stack T th) s2 = Done () s3 ∧ bumped s s3.
Proof.
  intros i Hm HT Hth Hvm Hk Hn Hl Hs2.
  assert (new_page s ∉ k_live s) as Hnew by (by apply plat_alloc_fresh).
  assert (k_vms s2 = <[task_vm tk :=
    <[kernel_stack_page i := (kstack_frame s, u16 kstack_flags)]> m]> (k_vms s)) as Hv2.
  { rewrite Hs2. unfold with_kstack, mapped, vm_upd. simpl. by rewrite (alter_lookup _ _ _ m). }
  assert (k_live s2 = {[new_page s]} ∪ k_live s) as Hlive by (by rewrite Hs2).
  eexists. split.
  - apply (dealloc_kernel_stack_spec s2 T th tk thr
      (<[kernel_stack_page i := (kstack_frame s, u16 kstack_flags)]> m)
      (kstack_frame s) (u16 kstack_flags)).
    + by rewrite Hs2.
    + by rewrite Hs2.
    + by rewrite Hv2, lookup_insert_eq.
    + by rewrite lookup_insert_eq.
    + reflexivity.
    + rewrite frame_addr_kstack, Hlive. set_solver.
    + by rewrite Hs2.
  - rewrite frame_addr_kstack. fold i.
    match goal with |- bumped s (free_step _ ?s4) => replace s4 with
      (set_k_live ({[new_page s]} ∪ k_live (set_k_nmaps (k_nmaps s2)
         (set_k_nallocs (S (k_nallocs s)) s)))
        (set_k_nmaps (k_nmaps s2) (set_k_nallocs (S (k_nallocs s)) s))) end.
    + rewrite free_step_new; [by destruct s|by destruct Hm|done].
    + unfold vm_upd. rewrite Hv2, (alter_lookup _ _ _ _ (lookup_insert_eq _ _ _)).
      rewrite insert_insert_eq, delete_insert_id, insert_id by done.
      rewrite Hs2. by destruct s.
Qed.

(** From the initialised thread on. *)
Section stacks.
Context (s : kst) (T th : Z) (tk : task_t) (m : gmap Z (Z * Z)) (x : idxset) (i : Z).
Let thr := new_thread T i.
Context (Hm : mem_ok s) (HT : k_tasks s !! T = Some tk) (Hth : k_threads s !! th = Some thr).
Context (Hon : only_node (set_k_threads (delete th (k_threads s)) s) th) (Hnn : k_nodes s !! th = None).
Context (Hvm : k_vms s !! task_vm tk = Some m) (Hfree : ∀ p, stack_pages i p → m !! p = None).
Context (Hi : stack_index i) (Hok : idx_ok (root_stacks T) s x) (Hroom : has_room (root_stacks T) s).
Context (Hls : stacksLock T ∉ k_locks s) (Hlv : vmLock T ∉ k_locks s).

Definition create_cleanup : prog Z :=
  anscheduler_lock (stacksLock T);;
  _ ← anidxset_put (root_stacks T) i;
  anscheduler_unlock (stacksLock T);;
  anscheduler_free th;;
  mret NULL.

(** Everything is given back. *)
Lemma create_cleanup_spec s1 : bumped s s1 →
  ∃ s', run n c create_cleanup s1 = Done NULL s' ∧ mem_ok s' ∧
    k_locks s' = k_locks s ∧ k_vms s' = k_vms s ∧ k_threads s' = delete th (k_threads s) ∧
    idx_ok (root_stacks T) s' (ix_put i x) ∧ k_live s' = k_live s ∖ {[th]}.
Proof using Hm HT Hth Hon Hnn Hok Hroom Hls PlatformOk0.
  intros Hb. pose proof Hb as Hs1. unfold bumped in Hs1.
  destruct (give_back s1 T th thr x i) as (s' & Hrun & Hm' & Hl' & Hv' & Ht' & Hok' & Hlv').
  - by eapply bumped_mem_ok.
  - rewrite Hs1. by exists tk.
  - by rewrite Hs1.
  - by rewrite Hs1.
  - by rewrite Hs1.
  - by eapply bumped_idx_ok.
  - by rewrite Hs1.
  - by rewrite Hs1.
  - exists s'. rewrite Hl', Hv', Ht', Hlv'. split_and!; [done|done|by rewrite Hs1..|done|by rewrite Hs1].
Qed.

(** The page table with the kernel stack. *)
Let s1 := with_kstack (task_vm tk) i s.
Let m1 := <[kernel_stack_page i := (kstack_frame s, u16 kstack_flags)]> m.

Lemma kstack_table : k_vms s1 = <[task_vm tk := m1]> (k_vms s).
Proof using Hvm.
  unfold s1, with_kstack, mapped, vm_upd. simpl. by rewrite (alter_lookup _ _ _ m).
Qed.

Lemma kstack_leaves_user_stack j : 0 ≤ j < 0x100 → m1 !! (user_stack_page i + j) = None.
Proof using Hfree Hi.
  intros Hj. unfold m1. rewrite lookup_insert_ne.
  - rewrite user_stack_page_eq by done. rewrite <- user_page_eq by done.
    apply Hfree. right. by exists j.
  - rewrite kernel_stack_page_eq, user_stack_page_eq by done. unfold stack_index in Hi. lia.
Qed.

(** Both stacks are in place. *)
Lemma both_stacks m2 :
  ustack_table i 0 0x100 m1 m2 → stack_table i (kstack_frame s) m m2.
Proof using Hi.
  intros Hm2. split_and!.
  - rewrite Hm2, decide_False; [by unfold m1; rewrite lookup_insert_eq|].
    rewrite kernel_stack_page_eq, user_stack_page_eq by done. unfold stack_index in Hi. lia.
  - intros j Hj. rewrite Hm2, decide_True; [done|].
    rewrite user_page_eq, user_stack_page_eq by done. lia.
  - intros p Hp. rewrite Hm2, decide_False.
    + unfold m1. rewrite lookup_insert_ne; [done|]. intros <-. apply Hp. by left.
    + intros Hr. rewrite user_stack_page_eq in Hr by done. apply Hp. right.
      exists (p - (0x200000 + i * 0x100)). split; [lia|].
      rewrite user_page_eq by (done || lia). lia.
Qed.

Lemma create_stacks :
  ∃ r s', run n c (
    ok ← _alloc_kernel_stack T th;
    if negb ok then create_cleanup else
    ok ← _map_user_stack T th;
    if negb ok then _dealloc_kernel_stack T th;; create_cleanup
    else mret th) s = Done r s' ∧ mem_ok s' ∧ k_locks s' = k_locks s ∧
    if decide (r = NULL) then
      k_vms s' = k_vms s ∧ k_threads s' = delete th (k_threads s) ∧
      idx_ok (root_stacks T) s' (ix_put i x) ∧ k_live s' = k_live s ∖ {[th]}
    else r = th ∧ k_threads s' = k_threads s ∧ idx_ok (root_stacks T) s' x ∧
      ∃ m', k_vms s' = <[task_vm tk := m']> (k_vms s) ∧
        stack_table i (kstack_frame s) m m' ∧
        new_page s ≠ NULL ∧ k_live s' = {[new_page s]} ∪ k_live s.
Proof using Type*.
  assert (th ≠ NULL) as Hth0.
  { intros ->. apply (mem_null _ Hm), (mem_threads _ Hm). eauto. }
  destruct (alloc_kernel_stack_spec s T th tk thr) as (b & s0 & Hrun1 & Hs1); eauto.
  rewrite (run_call _ _ _ _ _ _ _ Hrun1). destruct b; simpl negb; cbv iota; last first.
  { destruct (create_cleanup_spec s0 Hs1) as (s' & ? & ? & ? & ? & ? & ? & ?).
    exists NULL, s'. by rewrite decide_True by done. }
  destruct Hs1 as [Hn0 ->]. change (thread_stack thr) with i. fold s1.
  pose proof kstack_table as Hv1.
  assert (mem_ok s1) as Hm1 by (apply with_kstack_mem_ok; eauto).
  assert (k_vms s1 !! task_vm tk = Some m1) as Hvm1 by (by rewrite Hv1, lookup_insert_eq).
  destruct (map_user_stack_spec s1 T th tk thr m1) as (b & s2 & Hrun2 & Hs2);
    try done; [apply kstack_leaves_user_stack|].
  rewrite (run_call _ _ _ _ _ _ _ Hrun2). destruct b; simpl negb; cbv iota.
  - (* success *)
    destruct Hs2 as (m2 & Hm2 & Hs2). rewrite run_ret. exists th, s2.
    unfold table_set in Hs2. rewrite Hv1, insert_insert_eq in Hs2.
    rewrite (decide_False (P := th = NULL)) by done.
    assert (mem_ok s2) as Hmem2.
    { rewrite Hs2. destruct Hm1. split; try done. simpl. intros p.
      rewrite Hv1 in mem_vms.
      intros [<-|[Hne [y Hy]]]%lookup_insert_is_Some; apply mem_vms;
        [by rewrite lookup_insert_eq|]. exists y. by rewrite lookup_insert_ne. }
    split_and!; try done; [by rewrite Hs2|by rewrite Hs2| |].
    + eapply (idx_ok_table _ s s2 x (task_vm tk) m2); [done|by eexists|rewrite Hs2; simpl; set_solver|].
      by rewrite Hs2.
    + exists m2. split; [by rewrite Hs2|]. split; [by apply both_stacks|]. split; [done|by rewrite Hs2].
  - (* no user stack *)
    destruct (undo_kernel_stack s T th tk thr m s2) as (s3 & Hrun3 & Hs3); try done.
    { apply Hfree. by left. }
    destruct (create_cleanup_spec s3 Hs3) as (s' & ? & ? & ? & ? & ? & ? & ?).
    rewrite (run_call _ _ _ _ _ _ _ Hrun3).
    exists NULL, s'. by rewrite decide_True by done.
Qed.
End stacks.

(** The memory after a stack index has been taken, for a thread to be built at
    the new address [th]. *)
Record index_taken (T th : Z) (s : kst) (x : idxset) (s3 : kst) : Prop := {
  it_mem : mem_ok s3;
  it_idx : idx_ok (root_stacks T) s3 (ix_get x).2;
  it_room : has_room (root_stacks T) s3;
  it_task : ∃ v, k_tasks s3 = alter (set_task_stacks v) T (k_tasks s);
  it_rest : s3 = set_k_tasks (k_tasks s3) (set_k_nodes (k_nodes s3) (set_k_live (k_live s3)
      (set_k_log (k_log s3) (set_k_nallocs (k_nallocs s3) s))));
  it_live : th ∈ k_live s3;
  it_kept : k_live s3 ⊆ {[th]} ∪ k_live s ∧
    ∀ q, q ∈ k_live s → index_page (root_stacks T) s q ∨ q ∈ k_live s3;
  it_node : k_nodes s3 !! th = None;
  it_only : only_node s3 th;
}.

Lemma take_index s T x :
  let th := plat_alloc (k_nallocs s) (k_live s) sizeof_thread_t in
  mem_ok s → is_Some (k_tasks s !! T) → th ≠ NULL → idx_ok (root_stacks T) s x → ix_ok x →
  ix_used x + 0x1fe < 2 ^ 64 → stacksLock T ∉ k_locks s →
  ∃ s3, index_taken T th s x s3 ∧ ∀ A (k : Z → prog A),
    run n c (anscheduler_lock (stacksLock T);;
             stack ← anidxset_get (root_stacks T);
             anscheduler_unlock (stacksLock T);; k stack) (alloc_step sizeof_thread_t s)
    = run n c (k (ix_get x).1) s3.
Proof.
  intros th Hm HT Hn Hok Hx Hb Hls. rewrite alloc_step_some by done. fold th.
  assert (th ∉ k_live s) as Hf by (by apply plat_alloc_fresh).
  set (s0 := set_k_nallocs _ _).
  assert (mem_ok s0) as Hm0 by (destruct Hm; split; simpl; set_solver).
  assert (idx_ok (root_stacks T) s0 x) as Hok0.
  { eapply idx_ok_frame; [done|done|done|]. intros p Hp Ho _. split; [simpl; set_solver|done]. }
  destruct (get_room_spec n c (root_stacks T) (add_lock (stacksLock T) s0) x)
    as (s2 & Hrun & Hok2 & Hst & Hroom & Hsub); [by apply idx_ok_locks|apply Hx|done|].
  destruct Hst as ([v Hs2] & Hmem & Hlive & Hkeep). destruct Hmem as [Hm2 Hn2]; [by destruct Hm0|].
  assert (k_nodes s !! th = None) as Hnth.
  { apply eq_None_not_Some. intros ?. by apply Hf, (mem_nodes _ Hm). }
  assert (k_tasks s2 = alter (set_task_stacks v) T (k_tasks s)) as Ht2 by (by rewrite Hs2).
  assert (k_locks s2 = {[stacksLock T]} ∪ k_locks s) as Hl2 by (by rewrite Hs2).
  exists (del_lock (stacksLock T) s2). split; [|intros A k;
    rewrite run_lock by (simpl; rewrite ?bool_decide_eq_true; done);
    rewrite (run_call _ _ _ _ _ _ _ Hrun), run_unlock; [done|rewrite Hl2; set_solver
    |simpl; rewrite bool_decide_eq_true, Ht2, lookup_alter_eq; by apply fmap_is_Some]].
  split.
  - by destruct Hm2.
  - by apply idx_ok_locks.
  - done.
  - by exists v.
  - unfold del_lock. simpl. rewrite Hl2, del_add_lock by done. rewrite Hs2. by destruct s.
  - destruct (Hlive th) as [[_ [? Hs]]|?]; [simpl; set_solver|simpl in Hs; congruence|done].
  - split; [exact Hsub|]. intros q Hq. destruct (Hkeep q) as [Hip|[? _]]; [simpl; set_solver| |by right].
    left. exact Hip.
  - simpl. apply eq_None_not_Some. intros [[? Hs]|Hs]%Hn2; [simpl in Hs; congruence|].
    apply Hs. simpl. set_solver.
  - pose proof (only_node_root_upd (root_stacks T) v s th (fresh_only_node s th Hm Hf)) as Ho.
    unfold only_node. simpl. by rewrite Hs2.
Qed.

Lemma thread_undone T th s s3 s' :
  th ∉ k_live s → k_live s' = k_live s3 ∖ {[th]} → k_live s3 ⊆ {[th]} ∪ k_live s →
  (∀ q, q ∈ k_live s → index_page (root_stacks T) s q ∨ q ∈ k_live s3) →
  no_leak (root_stacks T) s s'.
Proof.
  intros Hf Hl Hsub Hkeep. split; rewrite Hl; [set_solver|]. intros q Hq.
  destruct (Hkeep q Hq) as [?|?]; [by left|right]. apply elem_of_difference. split; [done|].
  by intros ->%elem_of_singleton.
Qed.

(** Giving up before the thread is built. *)
Lemma create_too_many s T th x s3 :
  index_taken T th s x s3 → th ∉ k_live s → mem_ok s → is_Some (k_tasks s !! T) → ix_ok x →
  (ix_get x).1 >= 0x100000 → create_failed T s x (free_step th s3).
Proof.
  intros [Hm3 Hok Hroom [v Ht] Hs3 Hl [Hsub Hkeep] Hn Ho] Hf Hm HT Hx Hi.
  pose proof (fresh_only_node s th Hm Hf) as (Hot & Hoth & _ & _ & _ & _ & _ & Hov).
  split_and!.
  - by apply free_mem_ok.
  - by apply (thread_undone T th s s3).
  - by rewrite Hs3.
  - rewrite Hs3. simpl. by apply delete_id.
  - rewrite Hs3. simpl. by apply delete_id.
  - exists (ix_get x).2. split_and!; [|by apply ix_get_ok|].
    + apply free_idx_ok; [done|done|]. simpl. intros [= ->]. destruct HT. congruence.
    + intros j Hj. rewrite ix_get_in_use by done. unfold stack_index in Hj.
      split; [intros [?| ->]; [done|lia]|auto].
Qed.

(** The initialised thread is in place. *)
Lemma index_taken_thread T th s x s3 i :
  let s4 := set_k_threads (<[th := new_thread T i]> (k_threads s3)) s3 in
  index_taken T th s x s3 →
  mem_ok s4 ∧ idx_ok (root_stacks T) s4 (ix_get x).2 ∧
  only_node (set_k_threads (delete th (k_threads s4)) s4) th ∧
  (∀ p, only_node s4 p → only_node s p).
Proof.
  intros s4 [Hm3 Hok Hroom [v Ht] Hs3 Hl _ Hn Ho]. split_and!.
  - destruct Hm3. unfold s4. split; try done. simpl.
    intros q [<-|[_ ?]]%lookup_insert_is_Some; [done|]. by apply mem_threads.
  - eapply (idx_ok_frame _ s3); [done..|]. intros q Hq Hoq [? Hnq]. split; [done|].
    unfold only_node in *. simpl. rewrite lookup_insert_ne; [done|]. intros ->. congruence.
  - unfold s4. simpl. rewrite delete_insert_id by apply Ho. by destruct s3.
  - unfold s4, only_node. rewrite Hs3. simpl. intros p (Hp1 & Hp2 & Hp3).
    rewrite Ht, lookup_alter_None in Hp1. by apply lookup_insert_None in Hp2 as [? _].
Qed.

(** C21. [anscheduler_thread_create] is all or nothing. When it yields a thread, the
    thread is new, holds a stack index that no other thread holds, its kernel stack
    is backed by a new page and its 256 user stack pages are to be allocated on
    demand, and no other page of the task changes. When it yields NULL, whichever
    allocation or page-table update failed, every thread, every page table, every
    lock and the stack indexes in use are as before, all memory that was allocated on
    the way is freed again, and nothing else is freed, except pages of the task's own
    set of stack indexes that have been used up. *)
Theorem thread_create_is_atomic s T tk m x :
  mem_ok s → k_tasks s !! T = Some tk → k_vms s !! task_vm tk = Some m →
  idx_ok (root_stacks T) s x → ix_ok x → ix_used x + 0x1fe < 2 ^ 64 →
  (∀ i p, stack_index i → ¬ ix_in_use i x → stack_pages i p → m !! p = None) →
  stacksLock T ∉ k_locks s → vmLock T ∉ k_locks s →
  ∃ r s', run n c (anscheduler_thread_create T) s = Done r s' ∧
    if decide (r = NULL) then create_failed T s x s'
    else create_done T (task_vm tk) r m s x s' ∧ stack_index (ix_get x).1 ∧
         ¬ ix_in_use (ix_get x).1 x.
Proof.
  intros Hm HT Hvm Hok Hx Hb Hpages Hls Hlv. unfold anscheduler_thread_create.
  rewrite run_alloc. set (th := plat_alloc _ _ _).
  destruct (decide (th = NULL)) as [Hn|Hn].
  { rewrite run_ret, alloc_step_null by done. do 2 eexists. split; [done|].
    rewrite decide_True by done. split; [by destruct Hm|].
    split; [split; [reflexivity|by intros q Hq; right]|]. split_and!; try done.
    exists x. split; [|done]. eapply bumped_idx_ok; [|done]. by destruct s. }
  assert (th ∉ k_live s) as Hf by (by apply plat_alloc_fresh).
  destruct (take_index s T x) as (s3 & H3 & Hrun3); eauto. fold th in H3. rewrite Hrun3. clear Hrun3.
  case_decide as Hi.
  { rewrite run_free by apply (it_live _ _ _ _ _ H3). rewrite run_ret. do 2 eexists. split; [done|].
    rewrite decide_True by done. apply create_too_many; eauto. }
  destruct (ix_get_fresh x Hx) as (Hnew & Huse & _).
  assert (stack_index (ix_get x).1) as Hix by (unfold stack_index; destruct Huse; lia).
  destruct (index_taken_thread T th s x s3 (ix_get x).1 H3) as (Hm4 & Hok4 & Ho4 & Hps).
  destruct H3 as [_ _ Hroom [v Ht] Hs3 Hlive [Hsub Hkeep] Hnode Ho3].
  rewrite run_zero_as by done. steps. rewrite !insert_insert_eq.
  change (set_thread_stack _ _) with (new_thread T (ix_get x).1).
  set (s4 := set_k_threads (<[th := new_thread T (ix_get x).1]> (k_threads s3)) s3) in *.
  match goal with |- context [run _ _ _ ?st] => change st with s4 end.
  assert (k_locks s4 = k_locks s ∧ k_vms s4 = k_vms s ∧
    k_threads s4 = <[th := new_thread T (ix_get x).1]> (k_threads s)) as (Hl4 & Hv4 & Ht4)
    by (unfold s4; simpl; by rewrite Hs3).
  destruct (create_stacks s4 T th (set_task_stacks v tk) m (ix_get x).2 (ix_get x).1)
    as (r & s' & Hrun' & Hm' & Hl' & Hr); try done; try (by rewrite ?Hl4, ?Hv4); [| |eauto|].
  { unfold s4. simpl. by rewrite Ht, lookup_alter_eq, HT. }
  { rewrite Ht4. apply lookup_insert_eq. }
  exists r, s'. split; [exact Hrun'|]. rewrite Hl4 in Hl'.
  pose proof (fresh_only_node s th Hm Hf) as (_ & Hoth & _). case_decide as Hr0.
  - destruct Hr as (Hv' & Ht' & Hok' & Hlv'). rewrite Hv4 in Hv'. rewrite Ht4 in Ht'.
    rewrite delete_insert_id in Ht' by done. split; [done|]. split; [by apply (thread_undone T th s s3)|].
    do 3 (split; [done|]).
    exists (ix_put (ix_get x).1 (ix_get x).2). split_and!; [done| |].
    + apply ix_put_ok; [by apply ix_get_ok|done].
    + intros j _. by apply ix_get_put_in_use.
  - destruct Hr as (-> & Ht' & Hok' & m' & Hv' & Hst & Hnp & Hlv').
    rewrite Hv4 in Hv'. rewrite Ht4 in Ht'. split; [|done]. do 5 (split; [done|]).
    exists (kstack_frame s4), m'. rewrite frame_addr_kstack, Hlv'.
    assert (new_page s4 ∉ k_live s4) as Hnl by (by apply plat_alloc_fresh).
    do 2 (split; [done|]). split; [set_solver|].
    split; [by apply Hps, fresh_only_node|]. intros He. by rewrite He in Hnl.
Qed.
End create.

Lemma thread_create_is_atomic_witness :
  ∃ r s', run 0 0 (anscheduler_thread_create (H := P0) 0x10000) (demo 0 2) = Done r s' ∧
    if decide (r = NULL) then create_failed 0x10000 (demo 0 2) ix_init s'
    else create_done (H := P0) 0x10000 0x20000 r ∅ (demo 0 2) ix_init s' ∧
         stack_index (ix_get ix_init).1 ∧ ¬ ix_in_use (ix_get ix_init).1 ix_init.
Proof.
  apply (thread_create_is_atomic (H := P0) 0 0 (demo 0 2) 0x10000 (demo_task 0 2) ∅ ix_init).
  - apply demo_mem_ok.
  - reflexivity.
  - reflexivity.
  - apply demo_idx_ok.
  - apply ix_init_ok.
  - reflexivity.
  - intros i p _ _ _. apply lookup_empty.
  - by_dec.
  - by_dec.
Defined.

Definition demo_running_thread (polling : Z) : thread_t := demo_thread 0 0x2000 0 0 0 2 polling.

Lemma thread_poll_marks_only_idle_threads_witness :
  ∃ b s', run 0 0 anscheduler_thread_poll (demo 0 2) = Done b s' ∧
    (b = false ↔ poll_ready (demo 0 2) 0x3000 (demo_task 0 2)) ∧
    s' = (if b then set_k_threads (<[0x3000 := set_thread_isPolling 1 (demo_running_thread 0)]>
                                     (k_threads (demo 0 2))) (demo 0 2)
          else demo 0 2).
Proof.
  apply (thread_poll_marks_only_idle_threads 0 0 (demo 0 2) 0x10000 0x3000 (demo_task 0 2)
    (demo_running_thread 0)).
  split; try reflexivity; by_dec.
Defined.

(** The demo memory with the running thread as the interrupt thread. *)
Definition demo_intd_runs : kst := set_k_intd (mk_intd 0x3000 0) (demo 0 2).

Lemma poll_sees_earlier_interrupts_witness :
  ∃ s', run 0 0 (irqs (H := P0) [3; 5];; anscheduler_thread_poll) demo_intd_runs = Done false s' ∧
    k_threads s' = k_threads demo_intd_runs ∧
    ∀ k, k ∈ [3; 5] → Z.testbit (irqMask (k_intd s')) k = true.
Proof.
  apply (poll_sees_earlier_interrupts (H := P0) 0 0 demo_intd_runs 0x3000
    (demo_running_thread 0) (demo_task 0 2) (demo_task 0 2) [3; 5] 0x10000).
  - split; try done; by_dec.
  - reflexivity.
  - simpl; lia.
  - elems; lia.
  - done.
  - split; try reflexivity; by_dec.
Defined.
