(* ===== verification/ThreadExit.v ===== *)
(** * ThreadExit: giving a thread's stacks and memory back (src/thread.c)

    The two passes of [anscheduler_thread_deallocate] over the user stack, and the
    final part of [anscheduler_thread_exit]. The operations are in Thread.v. *)
From S2P Require Import Prelude Types Machine Demo Idxset RunQueue PagerQueue TaskRef Loop Interrupts Thread.

(** ** The two passes over the user stack *)
Section dealloc.
Context `{Platform, !PlatformOk _} (n c : nat).

(** What the two passes of [anscheduler_thread_deallocate] do to an entry. *)
Definition retire_entry (e : Z * Z) : Z * Z :=
  if test_flag e.2 ANSCHEDULER_PAGE_FLAG_PRESENT
  then (e.1, u16 (Z.lor (Z.lxor e.2 ANSCHEDULER_PAGE_FLAG_PRESENT)
                    ANSCHEDULER_PAGE_FLAG_UNALLOC))
  else e.
Definition release_entry (e : Z * Z) : option (Z * Z) :=
  if negb (e.1 =? 0) || negb (e.2 =? 0) then None else Some e.
Definition released_frame (e : Z * Z) : option Z :=
  if negb (e.1 =? 0) && test_flag e.2 ANSCHEDULER_PAGE_FLAG_UNALLOC
  then Some (frame_addr e.1) else None.

(** A page that holds no structure. *)
Definition raw (s : kst) (a : Z) : Prop := only_node s a ∧ k_nodes s !! a = None.

(** Memories that differ in one page table, in which pages are allocated, and in
    the log. *)
Definition page_step (vm : Z) (m : gmap Z (Z * Z)) (L : gset Z) (lg : list event)
    (s s' : kst) : Prop :=
  s' = set_k_vms (<[vm := m]> (k_vms s)) (set_k_live L (set_k_log lg
         (set_k_nmaps (k_nmaps s') (set_k_cpus (k_cpus s') s)))) ∧
  ∀ c', k_cpus s' c' = k_cpus s c'.

Lemma page_step_refl vm m s : k_vms s !! vm = Some m → page_step vm m (k_live s) (k_log s) s s.
Proof. intros Hm. split; [|done]. rewrite insert_id by done. by destruct s. Qed.

Lemma page_step_trans vm m1 m2 L1 L2 lg1 lg2 s1 s2 s3 :
  page_step vm m1 L1 lg1 s1 s2 → page_step vm m2 L2 lg2 s2 s3 → page_step vm m2 L2 lg2 s1 s3.
Proof.
  intros [E1 C1] [E2 C2]. split; [|intros c'; by rewrite C2, C1].
  rewrite E2. rewrite E1. simpl. by rewrite insert_insert_eq.
Qed.

Lemma page_step_vm vm m L lg s s' : page_step vm m L lg s s' → k_vms s' !! vm = Some m.
Proof. intros [-> _]. simpl. apply lookup_insert_eq. Qed.

Lemma page_step_raw vm m L lg s s' a :
  page_step vm m L lg s s' → is_Some (k_vms s !! vm) → raw s a → raw s' a.
Proof.
  intros [-> _] [? Hvm] [Ho Hn]. split; [|done]. unfold only_node in *. simpl.
  rewrite lookup_insert_ne; [done|]. intros ->. destruct Ho as (_&_&_&_&_&_&_&?). congruence.
Qed.

Lemma free_raw s a :
  raw s a → free_step a s = set_k_log (k_log s ++ [ev_free a]) (set_k_live (k_live s ∖ {[a]}) s).
Proof.
  intros [Ho Hn]. rewrite free_only_node by done. rewrite delete_id by done. by destruct s.
Qed.

Context (T vm : Z) (tk : task_t).

(** CPU [c] may enter a critical section and take the task's page-table lock. *)
Definition can_page (s : kst) : Prop :=
  k_tasks s !! T = Some tk ∧ task_vm tk = vm ∧ vmLock T ∉ k_locks s ∧
  cpu_locked (k_cpus s c) = false.

Lemma page_step_can m L lg s s' : page_step vm m L lg s s' → can_page s → can_page s'.
Proof. intros [Hs Hc]. unfold can_page. rewrite Hc, Hs. done. Qed.

Lemma set_cpu_locked_id g b : cpu_locked g = b → set_cpu_locked b g = g.
Proof. by destruct g; simpl; intros ->. Qed.

Lemma upd_cpu_relock s c' :
  cpu_locked (k_cpus s c) = false →
  k_cpus (upd_cpu c (set_cpu_locked false) (upd_cpu c (set_cpu_locked true) s)) c' = k_cpus s c'.
Proof.
  intros Hc. simpl. destruct (decide (c' = c)) as [->|]; [|done].
  rewrite decide_True by done. destruct (k_cpus s c). simpl in *. by rewrite Hc.
Qed.

Ltac page_step :=
  split; [unfold vm_upd, del_lock, add_lock, log_event; simpl; rewrite ?del_add_lock by done; reflexivity
         |intros c'; by apply upd_cpu_relock].

Lemma alter_retire_absent (m : gmap Z (Z * Z)) p e :
  m !! p = e → (∀ x, e = Some x → test_flag x.2 ANSCHEDULER_PAGE_FLAG_PRESENT = false) →
  alter retire_entry p m = m.
Proof.
  intros Hm He. apply map_eq. intros q. rewrite lookup_alter. case_decide; [subst|done].
  destruct (m !! q) as [[f fl]|]; [|done]. simpl. unfold retire_entry.
  by rewrite (He (f, fl)).
Qed.

Lemma retire_page_spec s m p :
  can_page s → k_vms s !! vm = Some m → p ≠ 0 →
  (is_Some (m !! p) → plat_map_ok (k_nmaps s) vm p = true) →
  ∃ s', run n c (retire_page T p) s = Done () s' ∧
    page_step vm (alter retire_entry p m) (k_live s) (k_log s) s s'.
Proof.
  intros (HT & Hv & Hl & Hc) Hm Hp Hok. unfold retire_page. rewrite run_tail. steps.
  rewrite Hv, (run_vm_lookup _ _ _ _ _ _ m) by done.
  destruct (default (0, 0) (m !! p)) as [f fl] eqn:He.
  destruct (test_flag fl ANSCHEDULER_PAGE_FLAG_PRESENT) eqn:Hfl.
  - assert (m !! p = Some (f, fl)) as Hmp.
    { destruct (m !! p); simpl in He; [by f_equal|]. by simplify_eq. }
    steps. rewrite Hv, run_vm_map by (simpl; eauto). simpl. rewrite Hok by eauto.
    unfold mapped. steps. eexists. split; [done|].
    rewrite (alter_lookup _ _ _ _ Hmp). unfold retire_entry. simpl. rewrite Hfl.
    split; [|intros c'; by apply upd_cpu_relock].
    unfold vm_upd, del_lock, add_lock. simpl. rewrite del_add_lock by done.
    rewrite (alter_lookup _ _ _ _ Hm). by destruct s.
  - replace (p =? 0) with false by (symmetry; by apply Z.eqb_neq). rewrite andb_false_r. steps.
    eexists. split; [done|]. rewrite (alter_retire_absent m p (m !! p)).
    + split; [|intros c'; by apply upd_cpu_relock].
      unfold vm_upd, del_lock, add_lock. simpl. rewrite del_add_lock by done.
      rewrite insert_id by done. by destruct s.
    + done.
    + intros x Hx. rewrite Hx in He. simpl in He. by subst.
Qed.

(** The page table after releasing a page. *)
Definition release_table (p : Z) (m : gmap Z (Z * Z)) : gmap Z (Z * Z) :=
  partial_alter (λ e, e ≫= release_entry) p m.
Definition page_released (m : gmap Z (Z * Z)) (p : Z) : list Z :=
  option_list (m !! p ≫= released_frame).

Lemma release_table_mapped p m f fl :
  m !! p = Some (f, fl) → negb (f =? 0) || negb (fl =? 0) = true →
  release_table p m = delete p m.
Proof.
  intros Hp He. apply map_eq. intros q. unfold release_table.
  rewrite lookup_partial_alter, lookup_delete. case_decide; [subst|done].
  rewrite Hp. change (release_entry (f, fl) = None). unfold release_entry. cbn [fst snd].
  by rewrite He.
Qed.

Lemma release_table_absent p m :
  default (0, 0) (m !! p) = (0, 0) → release_table p m = m ∧ page_released m p = [].
Proof.
  intros He. unfold page_released. split.
  - apply map_eq. intros q. unfold release_table. rewrite lookup_partial_alter.
    case_decide; [subst|done]. destruct (m !! q); simpl in *; by subst.
  - destruct (m !! p); simpl in *; by subst.
Qed.

Lemma release_page_spec s m p :
  can_page s → k_vms s !! vm = Some m → (∀ a, a ∈ page_released m p → a ∈ k_live s ∧ raw s a) →
  ∃ s', run n c (release_page T p) s = Done () s' ∧
    page_step vm (release_table p m) (k_live s ∖ list_to_set (page_released m p))
      (k_log s ++ (ev_free <$> page_released m p)) s s'.
Proof.
  intros (HT & Hv & Hl & Hc) Hm Hf. unfold release_page. rewrite run_tail. steps.
  rewrite Hv, (run_vm_lookup _ _ _ _ _ _ m) by done.
  destruct (default (0, 0) (m !! p)) as [f fl] eqn:He.
  destruct (negb (f =? 0) || negb (fl =? 0)) eqn:Hz.
  - assert (m !! p = Some (f, fl)) as Hmp.
    { destruct (m !! p); simpl in He; [by f_equal|]. by simplify_eq. }
    rewrite (release_table_mapped _ _ _ _ Hmp Hz). revert Hf. unfold page_released.
    rewrite Hmp. change (Some (f, fl) ≫= released_frame) with (released_frame (f, fl)).
    unfold released_frame. cbn [fst snd]. intros Hf.
    steps. rewrite Hv, run_vm_unmap by (simpl; eauto). unfold vm_upd. steps.
    destruct (negb (f =? 0) && test_flag fl ANSCHEDULER_PAGE_FLAG_UNALLOC) eqn:Hfr.
    + destruct (Hf (frame_addr f)) as [Hfl [Ho Hn]]; [by left|]. fold (frame_addr f).
      rewrite run_free by done. rewrite free_raw.
      2:{ split; [|done]. unfold only_node in *. simpl. rewrite lookup_alter_ne; [done|].
          intros ->. destruct Ho as (_&_&_&_&_&_&_&?). congruence. }
      steps. eexists. split; [done|]. split; [|intros c'; by apply upd_cpu_relock].
      unfold del_lock, add_lock. simpl. rewrite del_add_lock by done.
      rewrite (alter_lookup _ _ _ _ Hm). rewrite union_empty_r_L. by destruct s.
    + steps. eexists. split; [done|]. split; [|intros c'; by apply upd_cpu_relock].
      unfold del_lock, add_lock. simpl. rewrite del_add_lock by done.
      rewrite (alter_lookup _ _ _ _ Hm), app_nil_r, difference_empty_L. by destruct s.
  - apply orb_false_iff in Hz as [Hz1%negb_false_iff%Z.eqb_eq Hz2%negb_false_iff%Z.eqb_eq].
    subst. destruct (release_table_absent p m He) as [-> ->]. cbn [Z.eqb negb andb].
    cbv iota. steps. eexists. split; [done|]. split; [|intros c'; by apply upd_cpu_relock].
    unfold del_lock, add_lock. simpl. rewrite del_add_lock by done.
    rewrite app_nil_r, difference_empty_L, insert_id by done. by destruct s.
Qed.
(** The user stack's pages of the thread with stack index [i]. *)
Context (i : Z) (Hi : stack_index i).
Definition upage (j : Z) : Z := u64 (user_stack_page i + j).
Definition in_slice (k p : Z) : Prop := upage 0 ≤ p < upage 0 + k.

Lemma upage_eq j : 0 ≤ j < 0x100 → upage j = upage 0 + j.
Proof. intros Hj. unfold upage. rewrite !user_page_eq by (done || lia). lia. Qed.

Lemma upage_0 : 0 < upage 0.
Proof. unfold upage. rewrite user_page_eq by (done || lia). unfold stack_index in Hi. lia. Qed.

#[local] Instance in_slice_dec k p : Decision (in_slice k p).
Proof. unfold in_slice. apply _. Defined.

(** The page table after the first [k] pages have been retired, and released. *)
Definition retired (k : Z) (m m' : gmap Z (Z * Z)) : Prop :=
  ∀ p, m' !! p = if decide (in_slice k p) then retire_entry <$> m !! p else m !! p.
Definition released (k : Z) (m m' : gmap Z (Z * Z)) : Prop :=
  ∀ p, m' !! p = if decide (in_slice k p) then m !! p ≫= release_entry else m !! p.
Definition frames (k : Z) (m : gmap Z (Z * Z)) : list Z :=
  seqZ 0 k ≫= λ j, page_released m (upage j).

Lemma retired_step k m m' :
  0 ≤ k < 0x100 → retired k m m' → retired (k + 1) m (alter retire_entry (upage k) m').
Proof.
  intros Hk Hm p. rewrite upage_eq by done. rewrite lookup_alter. unfold in_slice.
  case_decide as Hp; [subst|]; rewrite Hm; unfold in_slice; repeat case_decide; try done; lia.
Qed.

Lemma released_step k m m' :
  0 ≤ k < 0x100 → released k m m' → released (k + 1) m (release_table (upage k) m').
Proof.
  intros Hk Hm p. rewrite upage_eq by done. unfold release_table. rewrite lookup_partial_alter.
  unfold in_slice.
  case_decide as Hp; [subst|]; rewrite Hm; unfold in_slice; repeat case_decide; try done; lia.
Qed.

Lemma frames_step k m : 0 ≤ k → frames (k + 1) m = frames k m ++ page_released m (upage k).
Proof.
  intros Hk. unfold frames. rewrite seqZ_app by lia.
  rewrite bind_app. f_equal. rewrite Z.add_0_l, seqZ_cons by lia. cbn.
  rewrite seqZ_nil by lia. cbn. apply app_nil_r.
Qed.

Lemma retire_pass s m :
  can_page s → k_vms s !! vm = Some m →
  (∀ k p, is_Some (m !! p) → plat_map_ok k vm p = true) →
  ∃ s' m', run n c (for_each 0x100 0 (λ j, retire_page T (upage j))) s = Done () s' ∧
    page_step vm m' (k_live s) (k_log s) s s' ∧ retired 0x100 m m'.
Proof using Type*.
  intros Hc Hm Hok.
  destruct (run_for_each n c 0x100 (λ j, retire_page T (upage j)) (λ j s', ∃ m',
    page_step vm m' (k_live s) (k_log s) s s' ∧ retired j m m') 0 s)
    as (s' & Hrun & m' & Hst & Hm').
  - exists m. split; [by apply page_step_refl|]. intros p. unfold in_slice.
    by rewrite decide_False by lia.
  - intros j s1 Hj (m1 & Hst & Hm1).
    destruct (retire_page_spec s1 m1 (upage j)) as (s2 & Hrun & Hst2).
    + by eapply page_step_can.
    + by eapply page_step_vm.
    + pose proof upage_0. rewrite upage_eq by lia. lia.
    + intros Hs. apply Hok. rewrite Hm1 in Hs. case_decide; [|done].
      by apply fmap_is_Some in Hs.
    + exists s2. split; [done|]. eexists. split; [|apply retired_step; [lia|done]].
      destruct Hst as [Hs1 ?]. replace (k_live s1) with (k_live s) in Hst2 by (by rewrite Hs1).
      replace (k_log s1) with (k_log s) in Hst2 by (by rewrite Hs1).
      by eapply page_step_trans.
  - exists s', m'. by rewrite Hrun.
Qed.

Lemma frames_fresh k m a :
  0 ≤ k < 0x100 → NoDup (frames 0x100 m) → a ∈ page_released m (upage k) →
  a ∈ frames 0x100 m ∧ a ∉ frames k m.
Proof.
  intros Hk Hd Ha. replace 0x100 with (k + 1 + (0x100 - (k + 1))) in * by lia.
  unfold frames in Hd |- *. rewrite seqZ_app, bind_app in Hd |- * by lia.
  fold (frames (k + 1) m) in *. rewrite frames_step in * by lia. split; [set_solver|].
  apply NoDup_app in Hd as ([_ [Hd _]]%NoDup_app & _ & _). intros Hin. by apply (Hd a).
Qed.

Lemma release_pass s m :
  can_page s → k_vms s !! vm = Some m → NoDup (frames 0x100 m) →
  (∀ a, a ∈ frames 0x100 m → a ∈ k_live s ∧ raw s a) →
  ∃ s' m', run n c (for_each 0x100 0 (λ j, release_page T (upage j))) s = Done () s' ∧
    page_step vm m' (k_live s ∖ list_to_set (frames 0x100 m))
      (k_log s ++ (ev_free <$> frames 0x100 m)) s s' ∧ released 0x100 m m'.
Proof using Type*.
  intros Hc Hm Hd Hf.
  destruct (run_for_each n c 0x100 (λ j, release_page T (upage j)) (λ j s', ∃ m',
    page_step vm m' (k_live s ∖ list_to_set (frames j m)) (k_log s ++ (ev_free <$> frames j m)) s s'
    ∧ released j m m') 0 s) as (s' & Hrun & m' & Hst & Hm').
  - exists m. split.
    + simpl. rewrite app_nil_r, difference_empty_L. by apply page_step_refl.
    + intros p. unfold in_slice. by rewrite decide_False by lia.
  - intros j s1 Hj (m1 & Hst & Hm1).
    assert (page_released m1 (upage j) = page_released m (upage j)) as Hpr.
    { unfold page_released. rewrite Hm1, decide_False; [done|]. unfold in_slice.
      rewrite (upage_eq j) by lia. lia. }
    destruct (release_page_spec s1 m1 (upage j)) as (s2 & Hrun & Hst2).
    + by eapply page_step_can.
    + by eapply page_step_vm.
    + rewrite Hpr. intros a Ha. destruct (frames_fresh j m a) as [Ha1 Ha2]; [lia|done..|].
      destruct (Hf a Ha1) as [Hal Har]. split; [|by eapply page_step_raw].
      destruct Hst as [-> _]. simpl. set_solver.
    + exists s2. split; [done|]. eexists. split; [|apply released_step; [lia|done]].
      rewrite Hpr in Hst2. destruct Hst as [Hs1 ?].
      rewrite frames_step, fmap_app, list_to_set_app_L by lia.
      replace (k_live s1) with (k_live s ∖ list_to_set (frames j m)) in Hst2 by (by rewrite Hs1).
      replace (k_log s1) with (k_log s ++ (ev_free <$> frames j m)) in Hst2 by (by rewrite Hs1).
      rewrite app_assoc, <- difference_difference_l_L. by eapply page_step_trans.
  - exists s', m'. by rewrite Hrun.
Qed.

(** The pages that the stack occupies, to be freed. *)
Definition stack_frames (m : gmap Z (Z * Z)) : list Z :=
  seqZ 0 0x100 ≫= λ j, option_list ((retire_entry <$> m !! upage j) ≫= released_frame).

Lemma frames_retired m m' : retired 0x100 m m' → frames 0x100 m' = stack_frames m.
Proof using Type*.
  intros Hm. unfold frames, stack_frames, page_released. apply bind_ext_in.
  intros j Hj%elem_of_seqZ. rewrite Hm, decide_True; [done|].
  unfold in_slice. rewrite (upage_eq j) by lia. lia.
Qed.

Lemma retired_unalloc fl :
  test_flag (u16 (Z.lor (Z.lxor fl ANSCHEDULER_PAGE_FLAG_PRESENT) ANSCHEDULER_PAGE_FLAG_UNALLOC))
    ANSCHEDULER_PAGE_FLAG_UNALLOC = true.
Proof.
  unfold test_flag. apply negb_true_iff, Z.eqb_neq. intros Hz.
  apply (f_equal (λ z, Z.testbit z 9)) in Hz. revert Hz. unfold u16.
  rewrite Z.land_spec, Z.mod_pow2_bits_low, Z.lor_spec by lia.
  by rewrite (orb_true_r (Z.testbit _ _)).
Qed.

Lemma present_page_released m j f fl :
  0 ≤ j < 0x100 → m !! upage j = Some (f, fl) → f ≠ 0 →
  test_flag fl ANSCHEDULER_PAGE_FLAG_PRESENT = true → frame_addr f ∈ stack_frames m.
Proof.
  intros Hj Hm Hf Hfl. unfold stack_frames. apply list_elem_of_bind. exists j.
  split; [|by apply elem_of_seqZ]. rewrite Hm.
  cbn [fmap option_fmap option_map].
  unfold retire_entry. cbn [fst snd]. rewrite Hfl.
  change (Some ?e ≫= released_frame) with (released_frame e).
  unfold released_frame. cbn [fst snd]. rewrite retired_unalloc.
  rewrite (proj2 (Z.eqb_neq f 0)) by done. simpl. set_solver.
Qed.

(** The interrupt thread does not survive as a pointer. *)
Definition intd_cleared (th : Z) (s : kst) : kst :=
  if decide (interruptThread (k_intd s) = th) then upd_intd (set_interruptThread NULL) s else s.

Lemma cmpnull_spec s th :
  cpu_locked (k_cpus s c) = false → intdLock ∉ k_locks s →
  ∃ s', (∀ A (k : () → prog A),
          run n c (anscheduler_cpu_lock;; anscheduler_intd_cmpnull th;; anscheduler_cpu_unlock;; k ()) s
          = run n c (k ()) s') ∧
    s' = set_k_cpus (k_cpus s') (intd_cleared th s) ∧ (∀ c', k_cpus s' c' = k_cpus s c').
Proof.
  intros Hc Hl.
  exists (upd_cpu c (set_cpu_locked false) (upd_cpu c (set_cpu_locked true) (intd_cleared th s))).
  split_and!; [|done|].
  - intros A k. unfold anscheduler_intd_cmpnull, intd_cleared. steps. case_decide; steps; f_equal;
      unfold del_lock, add_lock; simpl; rewrite del_add_lock by done; by destruct s.
  - intros c'. replace (k_cpus s c') with (k_cpus (intd_cleared th s) c')
      by (unfold intd_cleared; by case_decide).
    apply upd_cpu_relock. unfold intd_cleared. by case_decide.
Qed.

Lemma notify_spec s :
  cpu_locked (k_cpus s c) = false →
  ∃ s', (∀ A (k : () → prog A),
          run n c (anscheduler_cpu_lock;; anscheduler_cpu_notify_invlpg T;; anscheduler_cpu_unlock;; k ()) s
          = run n c (k ()) s') ∧
    s' = set_k_cpus (k_cpus s') (log_event (ev_notify_invlpg T) s) ∧
    (∀ c', k_cpus s' c' = k_cpus s c').
Proof.
  intros Hc. exists (upd_cpu c (set_cpu_locked false)
    (upd_cpu c (set_cpu_locked true) (log_event (ev_notify_invlpg T) s))).
  split_and!; [|done|intros c'; by apply (upd_cpu_relock (log_event (ev_notify_invlpg T) s))].
  intros A k. unfold anscheduler_cpu_notify_invlpg. steps. done.
Qed.

Lemma deallocate_spec s th thr m :
  can_page s → k_threads s !! th = Some thr → thread_stack thr = i → k_vms s !! vm = Some m →
  intdLock ∉ k_locks s → (∀ k p, is_Some (m !! p) → plat_map_ok k vm p = true) →
  NoDup (stack_frames m) → (∀ a, a ∈ stack_frames m → a ∈ k_live s ∧ raw s a) →
  ∃ s' m1 m', run n c (anscheduler_thread_deallocate T th) s = Done () s' ∧
    page_step vm m' (k_live s ∖ list_to_set (stack_frames m))
      (k_log s ++ ev_notify_invlpg T :: (ev_free <$> stack_frames m)) (intd_cleared th s) s' ∧
    retired 0x100 m m1 ∧ released 0x100 m1 m'.
Proof using Type*.
  intros Hcan Hth Hst Hm Hil Hok Hd Hf. unfold anscheduler_thread_deallocate.
  destruct (cmpnull_spec s th) as (s1 & Hrun1 & Hs1 & Hc1); [apply Hcan|done|].
  rewrite (Hrun1 _ (λ _, stack ← rd th thread_stack; _)). clear Hrun1.
  assert (page_step vm m (k_live s) (k_log s) (intd_cleared th s) s1) as Hst1.
  { split; [|intros c'; rewrite Hc1; unfold intd_cleared; by case_decide].
    rewrite Hs1. unfold intd_cleared. case_decide; simpl; rewrite insert_id by done; by destruct s. }
  assert (can_page (intd_cleared th s)) as Hcan0 by (unfold intd_cleared; by case_decide).
  pose proof (page_step_can _ _ _ _ _ Hst1 Hcan0) as Hcan1.
  erewrite run_rd by (rewrite Hs1; unfold intd_cleared; case_decide; exact Hth).
  rewrite Hst.
  destruct (retire_pass s1 m) as (s2 & m1 & Hrun2 & Hst2 & Hret);
    [done|by eapply page_step_vm|done|].
  rewrite (run_call _ _ _ _ _ _ _ Hrun2).
  replace (k_live s1) with (k_live s) in Hst2 by (rewrite Hs1; unfold intd_cleared; by case_decide).
  replace (k_log s1) with (k_log s) in Hst2 by (rewrite Hs1; unfold intd_cleared; by case_decide).
  pose proof (page_step_can _ _ _ _ _ Hst2 Hcan1) as Hcan2.
  destruct (notify_spec s2) as (s3 & Hrun3 & Hs3 & Hc3); [apply Hcan2|].
  rewrite (Hrun3 _ (λ _, for_each 0x100 0 (λ j, release_page T (upage j)))).
  assert (page_step vm m1 (k_live s) (k_log s ++ [ev_notify_invlpg T]) s2 s3) as Hst3.
  { split; [|done]. rewrite Hs3. destruct Hst2 as [Hs2 _]. rewrite Hs2. simpl.
    by rewrite insert_insert_eq. }
  assert (page_step vm m1 (k_live s) (k_log s ++ [ev_notify_invlpg T]) (intd_cleared th s) s3)
    as Hst03 by (do 2 (eapply page_step_trans; [done|]); done).
  rewrite <- (frames_retired m m1) in * by done.
  destruct (release_pass s3 m1) as (s4 & m' & Hrun4 & Hst4 & Hrel); try done.
  - by eapply page_step_can.
  - by eapply page_step_vm.
  - intros a Ha. destruct (Hf a Ha) as [Hal Har]. split.
    + destruct Hst03 as [-> _]. done.
    + eapply page_step_raw; [exact Hst03|unfold intd_cleared; case_decide; eauto|].
      unfold intd_cleared. by case_decide.
  - exists s4, m1, m'. split; [exact Hrun4|]. split; [|done].
    pose proof (proj1 Hst03) as Hs03. replace (k_live s3) with (k_live s) in Hst4 by (by rewrite Hs03).
    replace (k_log s3) with (k_log s ++ [ev_notify_invlpg T]) in Hst4 by (by rewrite Hs03).
    rewrite <- app_assoc in Hst4. eapply page_step_trans; [exact Hst03|exact Hst4].
Qed.
End dealloc.

(** ** Correctness *)

(** C37. [anscheduler_thread_deallocate] gives the whole user stack back, however much
    of it had been allocated: afterwards none of its 256 pages is mapped, every page
    that was present is freed exactly once, no other mapping changes, and every page
    is freed after the other CPUs were told to forget the mappings, never before. A
    thread that was the interrupt thread is not the interrupt thread any more. *)
Theorem thread_deallocate_frees_stack `{Platform, !PlatformOk _} n c T vm tk i s th thr m :
  stack_index i → can_page c T vm tk s → k_threads s !! th = Some thr →
  thread_stack thr = i → k_vms s !! vm = Some m → intdLock ∉ k_locks s →
  (∀ k p, is_Some (m !! p) → plat_map_ok k vm p = true) →
  NoDup (stack_frames i m) → (∀ a, a ∈ stack_frames i m → a ∈ k_live s ∧ raw s a) →
  ∃ s' m', run n c (anscheduler_thread_deallocate T th) s = Done () s' ∧
    page_step vm m' (k_live s ∖ list_to_set (stack_frames i m))
      (k_log s ++ ev_notify_invlpg T :: (ev_free <$> stack_frames i m))
      (intd_cleared th s) s' ∧
    (∀ j, 0 ≤ j < 0x100 → default (0, 0) (m' !! upage i j) = (0, 0)) ∧
    (∀ p, (∀ j, 0 ≤ j < 0x100 → p ≠ upage i j) → m' !! p = m !! p) ∧
    (∀ j f fl, 0 ≤ j < 0x100 → m !! upage i j = Some (f, fl) → f ≠ 0 →
       test_flag fl ANSCHEDULER_PAGE_FLAG_PRESENT = true → frame_addr f ∉ k_live s').
Proof.
  intros Hi Hc Hth Hst Hm Hil Hok Hd Hf.
  destruct (deallocate_spec n c T vm tk i Hi s th thr m) as (s' & m1 & m' & Hrun & Hs & Hr & Hl);
    try done.
  assert (∀ j, 0 ≤ j < 0x100 → in_slice i 0x100 (upage i j)) as Hin.
  { intros j Hj. unfold in_slice. rewrite (upage_eq i Hi j) by done. lia. }
  exists s', m'. split_and!; try done.
  - intros j Hj. rewrite Hl, decide_True by auto. destruct (m1 !! upage i j) as [[f fl]|]; [|done].
    change (Some (f, fl) ≫= release_entry) with (release_entry (f, fl)). unfold release_entry.
    cbn [fst snd]. destruct (negb (f =? 0) || negb (fl =? 0)) eqn:Hz; [done|].
    apply orb_false_iff in Hz as [?%negb_false_iff%Z.eqb_eq ?%negb_false_iff%Z.eqb_eq].
    by subst.
  - intros p Hp. assert (¬ in_slice i 0x100 p) as Hn.
    { intros Hn. apply (Hp (p - upage i 0)); [unfold in_slice in Hn; lia|].
      rewrite (upage_eq i Hi (p - _)); unfold in_slice in Hn; lia. }
    by rewrite Hl, decide_False, Hr, decide_False by done.
  - intros j f fl Hj Hmj Hf0 Hfl. destruct Hs as [-> _]. simpl.
    pose proof (present_page_released i Hi m j f fl Hj Hmj Hf0 Hfl). set_solver.
Qed.

(** The stack of thread 0x3000 has one allocated page, one to be allocated. *)
Definition demo_stack_table : gmap Z (Z * Z) :=
  list_to_map [(0x200200, (0x50, kstack_flags)); (0x200201, (0, ustack_flags));
               (0x100002, (0x60, kstack_flags)); (0x7, (0x70, kstack_flags))].
Definition demo_stack : kst :=
  set_k_vms {[0x20000 := demo_stack_table]}
    (set_k_live ({[0x50000; 0x60000]} ∪ k_live (demo 0 2))
      (set_k_cpus (λ c, mk_cpu 0x10000 0x3000 false 0) (demo 0 2))).

Lemma thread_deallocate_frees_stack_witness :
  ∃ s' m', run 0 0 (anscheduler_thread_deallocate (H := P0) 0x10000 0x3000) demo_stack = Done () s' ∧
    page_step 0x20000 m' (k_live demo_stack ∖ list_to_set (stack_frames (H := P0) 2 demo_stack_table))
      ([] ++ ev_notify_invlpg 0x10000 :: (ev_free <$> stack_frames (H := P0) 2 demo_stack_table))
      (intd_cleared 0x3000 demo_stack) s' ∧
    (∀ j, 0 ≤ j < 0x100 → default (0, 0) (m' !! upage 2 j) = (0, 0)) ∧
    (∀ p, (∀ j, 0 ≤ j < 0x100 → p ≠ upage 2 j) → m' !! p = demo_stack_table !! p) ∧
    (∀ j f fl, 0 ≤ j < 0x100 → demo_stack_table !! upage 2 j = Some (f, fl) → f ≠ 0 →
       test_flag fl ANSCHEDULER_PAGE_FLAG_PRESENT = true → frame_addr (H := P0) f ∉ k_live s').
Proof.
  apply (thread_deallocate_frees_stack (H := P0) 0 0 0x10000 0x20000 (demo_task 0 2) 2 demo_stack
    0x3000 (demo_thread 0 0x2000 0 0 0 2 0) demo_stack_table).
  - unfold stack_index; lia.
  - split_and!; try reflexivity; by_dec.
  - reflexivity.
  - reflexivity.
  - reflexivity.
  - by_dec.
  - done.
  - by_dec.
  - replace (stack_frames (H := P0) 2 demo_stack_table) with [0x50000] by (by vm_compute).
    intros a ->%list_elem_of_singleton. split; [by_dec|]. split; [|reflexivity].
    split_and!; reflexivity.
Defined.

(** ** Leaving the task's list of threads *)

(** The threads of task [T] are the list [l]. *)
Definition task_threads (s : kst) (T : Z) (l : list Z) : Prop :=
  dll (fld (k_threads s) thread_next) (fld (k_threads s) thread_last) l ∧
  (∀ p, p ∈ l → is_Some (k_threads s !! p)) ∧
  task_firstThread <$> k_tasks s !! T = Some (hd0 NULL l).

Definition thread_unlinked (th : thread_t) (m : gmap Z thread_t) : gmap Z thread_t :=
  unlink set_thread_next set_thread_last (thread_next th) (thread_last th) m.

Definition first_unlinked (T : Z) (th : thread_t) (m : gmap Z task_t) : gmap Z task_t :=
  if decide (thread_last th = NULL) then alter (set_task_firstThread (thread_next th)) T m else m.

Section unlink_thread.
Context `{Platform, !PlatformOk _} (n c : nat).

Lemma unlink_thread_spec s T tk x th l1 l2 :
  task_threads s T (l1 ++ x :: l2) → k_tasks s !! T = Some tk → k_threads s !! x = Some th →
  threadsLock T ∉ k_locks s →
  run n c (unlink_thread T x) s =
  Done () (set_k_tasks (first_unlinked T th (k_tasks s))
    (set_k_threads (thread_unlinked th (k_threads s)) s)).
Proof.
  intros (Hd & Hin & Hf) HT Hx Hl.
  destruct (unlink_neighbours _ _ _ _ _ _ _ Hd Hx)
    as (Hn & Hp & Hnx & Hpx & Hnin & Hpin).
  assert (∀ p, p ∈ l1 ++ l2 → ∃ t, k_threads s !! p = Some t) as Hs.
  { intros p Hpi. apply Hin. set_solver. }
  unfold unlink_thread. rewrite run_tail. steps.
  unfold first_unlinked, thread_unlinked, unlink.
  destruct (decide (thread_last th = NULL)) as [Hl0|Hl0].
  - steps. destruct (decide (thread_next th = NULL)) as [Hn0|Hn0];
      [rewrite decide_False by auto|rewrite decide_True by done].
    + steps. f_equal. rewrite (alter_lookup _ _ _ _ HT). kst_eq.
    + destruct (Hs (thread_next th)) as [nt Hnt]; [by apply Hnin|].
      steps. f_equal. rewrite (alter_lookup _ _ _ _ HT), (alter_lookup _ _ _ _ Hnt), Hl0.
      kst_eq.
  - steps. rewrite decide_True by done. destruct (Hs (thread_last th)) as [pt Hpt]; [by apply Hpin|].
    steps. destruct (decide (thread_next th = NULL)) as [Hn0|Hn0];
      [rewrite decide_False by auto|rewrite decide_True by done].
    + steps. f_equal. rewrite (alter_lookup _ _ _ _ Hpt). kst_eq.
    + destruct (Hs (thread_next th)) as [nt Hnt]; [by apply Hnin|].
      rewrite (alter_lookup _ _ _ _ Hpt).
      destruct (unlink_neighbours_ne _ _ _ _ _ _ _ Hd Hx) as [?|He]; [done|].
      steps. f_equal. rewrite (alter_lookup _ _ _ nt) by (by rewrite lookup_insert_ne).
      kst_eq.
Qed.

(** The list without the thread. *)
Lemma task_threads_unlinked s s' T tk x th l1 l2 :
  task_threads s T (l1 ++ x :: l2) → k_tasks s !! T = Some tk → k_threads s !! x = Some th →
  k_threads s' = delete x (thread_unlinked th (k_threads s)) →
  task_firstThread <$> k_tasks s' !! T = task_firstThread <$> first_unlinked T th (k_tasks s) !! T →
  task_threads s' T (l1 ++ l2) ∧
  ∀ p, p ≠ x → is_Some (k_threads s' !! p) ↔ is_Some (k_threads s !! p).
Proof.
  intros (Hd & Hin & Hf) HT Hx Ht Hfst.
  destruct (unlink_neighbours _ _ _ _ _ _ _ Hd Hx) as (Hn & Hp & _).
  assert (∀ p, is_Some (thread_unlinked th (k_threads s) !! p) ↔ is_Some (k_threads s !! p)) as Hsome.
  { intros p. unfold thread_unlinked, unlink. repeat case_decide;
      rewrite ?lookup_alter_is_Some; done. }
  assert (x ∉ l1 ++ l2) as Hx12.
  { apply dll_NoDup in Hd. apply NoDup_app in Hd as (_ & Hdis & [Hx2 _]%NoDup_cons).
    intros [Hx1|Hx1]%elem_of_app; [|done]. apply (Hdis x Hx1). set_solver. }
  assert (dll (fld (thread_unlinked th (k_threads s)) thread_next)
    (fld (thread_unlinked th (k_threads s)) thread_last) (l1 ++ l2)) as Hd'.
  { apply (unlink_dll thread_next thread_last set_thread_next set_thread_last _ _ _ _ _ Hd Hx).
    intros a Ha. apply Hin. set_solver. }
  split.
  - split_and!.
    + rewrite Ht. eapply dll_ext; [| |exact Hd']; intros p Hpi; unfold fld;
        rewrite lookup_delete_ne by (by intros ->); done.
    + intros p Hpi. rewrite Ht, lookup_delete_ne by (by intros ->). apply Hsome, Hin. set_solver.
    + rewrite Hfst. unfold first_unlinked. rewrite HT in Hf. simpl in Hf. simplify_eq.
      rewrite Hp. destruct l1 as [|q l1].
      * rewrite decide_True, lookup_alter_eq, HT by done. simpl. by rewrite Hn.
      * rewrite decide_False, HT.
        -- simpl. by rewrite Hf.
        -- eapply dll_nonnull; [exact Hd|]. pose proof (lst_elem_of NULL (q :: l1)). set_solver.
  - intros p Hpx. by rewrite Ht, lookup_delete_ne by done.
Qed.

Lemma unlinked_self s x th l1 l2 :
  dll (fld (k_threads s) thread_next) (fld (k_threads s) thread_last) (l1 ++ x :: l2) →
  k_threads s !! x = Some th → thread_unlinked th (k_threads s) !! x = Some th.
Proof.
  intros Hd Hx. destruct (unlink_neighbours _ _ _ _ _ _ _ Hd Hx) as (_ & _ & Hnx & Hpx & _).
  unfold thread_unlinked. rewrite unlink_other; auto.
Qed.

(** The memory after the thread has left the list. *)
Definition after_unlink (T : Z) (th : thread_t) (s : kst) : kst :=
  set_k_tasks (first_unlinked T th (k_tasks s))
    (set_k_threads (thread_unlinked th (k_threads s)) s).

Lemma first_unlinked_lookup T th m tk :
  m !! T = Some tk →
  ∃ v, first_unlinked T th m = <[T := set_task_firstThread v tk]> m.
Proof.
  intros HT. unfold first_unlinked. case_decide.
  - eexists. by apply alter_lookup.
  - exists (task_firstThread tk). rewrite insert_id; [done|]. rewrite HT. by destruct tk.
Qed.

Lemma after_unlink_ok T th s tk x :
  k_tasks s !! T = Some tk → mem_ok s → idx_ok (root_stacks T) s x →
  mem_ok (after_unlink T th s) ∧ idx_ok (root_stacks T) (after_unlink T th s) x.
Proof.
  intros HT Hm Hok. destruct (first_unlinked_lookup T th (k_tasks s) tk HT) as [v Hv].
  assert (∀ p, is_Some (thread_unlinked th (k_threads s) !! p) ↔ is_Some (k_threads s !! p)) as Hsome.
  { intros p. unfold thread_unlinked, unlink. repeat case_decide;
      rewrite ?lookup_alter_is_Some; done. }
  assert (∀ p, is_Some (k_tasks (after_unlink T th s) !! p) ↔ is_Some (k_tasks s !! p)) as Htasks.
  { intros p. simpl. rewrite Hv, lookup_insert_is_Some'. split; [intros [<-|]|]; eauto. }
  split.
  - destruct Hm. split; try done; simpl; intros p Hp.
    + apply mem_tasks. by apply Htasks.
    + apply mem_threads. by apply Hsome.
  - eapply idx_ok_frame; [done| |done|].
    + simpl. rewrite Hv, lookup_insert_eq, HT. done.
    + intros p Hp (Hot & Hoth & Ho) _. split; [done|]. split; [|split; [|exact Ho]].
      * apply eq_None_not_Some. intros Hs%Htasks. by apply eq_None_not_Some in Hot.
      * simpl. apply eq_None_not_Some. intros Hs%Hsome. by apply eq_None_not_Some in Hoth.
Qed.

(** Giving the stack index back, for a thread [x] of the task. *)
Lemma return_index s T x th ix :
  mem_ok s → is_Some (k_tasks s !! T) → k_threads s !! x = Some th →
  idx_ok (root_stacks T) s ix → stacksLock T ∉ k_locks s →
  ∃ (b : bool) s' v,
    (∀ A (k : () → prog A),
       run n c (anscheduler_lock (stacksLock T);; stack ← rd x thread_stack;
                _ ← anidxset_put (root_stacks T) stack;
                anscheduler_unlock (stacksLock T);; k ()) s = run n c (k ()) s') ∧
    mem_ok s' ∧ idx_ok (root_stacks T) s' (if b then ix_put (thread_stack th) ix else ix) ∧
    k_tasks s' = alter (set_task_stacks v) T (k_tasks s) ∧
    s' = set_k_tasks (k_tasks s') (set_k_nodes (k_nodes s') (set_k_live (k_live s')
           (set_k_log (k_log s') (set_k_nallocs (k_nallocs s') s)))) ∧
    (∀ p, p ∈ k_live s → raw s p → p ∈ k_live s' ∧ raw s' p) ∧
    (∀ p, p ∈ k_live s → k_nodes s !! p = None → k_nodes s' !! p = None) ∧
    (new_page s ≠ NULL ∨ has_room (root_stacks T) s → b = true).
Proof.
  intros Hm HT Hx Hok Hl.
  destruct (put_spec n c (root_stacks T) (add_lock (stacksLock T) s) ix (thread_stack th))
    as (b & s2 & Hrun & Hok2 & Hst & Hb); [by destruct Hm|by apply idx_ok_locks|].
  destruct Hst as ([v Hs2] & Hmem & Hlive & _). destruct Hmem as [Hm2 Hn2]; [by destruct Hm|].
  assert (k_tasks s2 = alter (set_task_stacks v) T (k_tasks s)) as Ht2 by (by rewrite Hs2).
  assert (k_locks s2 = {[stacksLock T]} ∪ k_locks s) as Hl2 by (by rewrite Hs2).
  assert (∀ p, p ∈ k_live s → k_nodes s !! p = None → k_nodes s2 !! p = None) as Hnode.
  { intros p Hp Hn. apply eq_None_not_Some. intros [Hs|Hs]%Hn2; [|done].
    simpl in Hs. rewrite Hn in Hs. by destruct Hs. }
  exists b, (del_lock (stacksLock T) s2), v. split_and!.
  - intros A k. rewrite run_lock by (simpl; rewrite ?bool_decide_eq_true; done).
    erewrite run_rd by exact Hx. rewrite (run_call _ _ _ _ _ _ _ Hrun), run_unlock; [done| |].
    + rewrite Hl2. set_solver.
    + simpl. rewrite bool_decide_eq_true, Ht2, lookup_alter_eq. by apply fmap_is_Some.
  - by destruct Hm2.
  - by apply idx_ok_locks.
  - done.
  - unfold del_lock. simpl. rewrite Hl2, del_add_lock by done. rewrite Hs2. by destruct s.
  - intros p Hp [Ho Hn]. split.
    + destruct (Hlive p Hp) as [[_ [? Hs]]|?]; [|done]. simpl in Hs. congruence.
    + split; [|by apply Hnode].
      pose proof (only_node_root_upd (root_stacks T) v s p Ho) as Ho'.
      unfold only_node. simpl. by rewrite Hs2.
  - done.
  - exact Hb.
Qed.

Lemma raw_unlinked T th s a tk : k_tasks s !! T = Some tk → raw s a → raw (after_unlink T th s) a.
Proof.
  intros HT [(Hot & Hoth & Ho) Hn]. split; [|done]. split; [|split; [|done]].
  - destruct (first_unlinked_lookup T th (k_tasks s) tk HT) as [v Hv]. simpl. rewrite Hv.
    rewrite lookup_insert_ne; [done|]. intros ->. congruence.
  - simpl. unfold thread_unlinked, unlink. repeat case_decide; rewrite ?lookup_alter_None; done.
Qed.

(** Where the kernel stack is, if its page is mapped. *)
Lemma run_thread_kernel_stack s T x tk th m f fl {A} (k : Z → prog A) :
  k_tasks s !! T = Some tk → k_threads s !! x = Some th → k_vms s !! task_vm tk = Some m →
  m !! kernel_stack_page (thread_stack th) = Some (f, fl) →
  test_flag fl ANSCHEDULER_PAGE_FLAG_PRESENT = true → vmLock T ∉ k_locks s →
  run n c (anscheduler_thread_kernel_stack T x ≫= k) s = run n c (k (frame_addr f)) s.
Proof.
  intros HT Hx Hvm Hf Hfl Hl. unfold anscheduler_thread_kernel_stack. steps.
  rewrite (run_vm_lookup _ _ _ _ _ _ m) by done. rewrite Hf. simpl. steps.
  rewrite Hfl, run_ret_bind. fold (frame_addr f). f_equal. kst_eq.
Qed.

(** No task, page table or page of indexes lies where the thread [x] does. *)
Definition only_thread (s : kst) (x : Z) : Prop :=
  k_tasks s !! x = None ∧ k_vms s !! x = None ∧ k_nodes s !! x = None.

(** C38. The memory of a thread that exits is given up: the thread leaves its task's
    list, its structure and the page behind its kernel stack are freed, and its stack
    index is back in the set of free indexes, to be used again; it is lost only when the
    set has no room left in its pages and there is no memory for another one. The page
    table, however, is not touched: the kernel stack's page stays mapped to the page
    that has just been freed, while the other way of giving up a kernel stack,
    [_dealloc_kernel_stack], does unmap it. *)
Theorem release_thread_gives_up_memory s T tk x th l1 l2 ix m f fl :
  let a := frame_addr f in
  mem_ok s → task_threads s T (l1 ++ x :: l2) → k_tasks s !! T = Some tk →
  k_threads s !! x = Some th → only_thread s x → idx_ok (root_stacks T) s ix →
  k_vms s !! task_vm tk = Some m → m !! kernel_stack_page (thread_stack th) = Some (f, fl) →
  test_flag fl ANSCHEDULER_PAGE_FLAG_PRESENT = true → a ∈ k_live s → raw s a →
  threadsLock T ∉ k_locks s → stacksLock T ∉ k_locks s → vmLock T ∉ k_locks s →
  ∃ (b : bool) s', run n c (release_thread T x) s = Done () s' ∧
    task_threads s' T (l1 ++ l2) ∧ k_threads s' !! x = None ∧ x ∉ k_live s' ∧ a ∉ k_live s' ∧
    idx_ok (root_stacks T) s' (if b then ix_put (thread_stack th) ix else ix) ∧
    (new_page s ≠ NULL ∨ has_room (root_stacks T) s → b = true) ∧
    k_locks s' = k_locks s ∧ k_vms s' = k_vms s.
Proof.
  intros a Hm Hts HT Hx (Hxt & Hxv & Hxn) Hok Hvm Hf Hfl Hal Hraw Hlt Hls Hlv. unfold release_thread.
  rewrite (run_call _ _ _ _ _ _ _ (unlink_thread_spec s T tk x th l1 l2 Hts HT Hx Hlt)).
  fold (after_unlink T th s).
  destruct (after_unlink_ok T th s tk ix HT Hm Hok) as [Hm1 Hok1].
  destruct (first_unlinked_lookup T th (k_tasks s) tk HT) as [v Hv].
  set (s1 := after_unlink T th s) in *.
  assert (k_threads s1 !! x = Some th) as Hx1 by (eapply unlinked_self; [apply Hts|done]).
  assert (k_tasks s1 = <[T := set_task_firstThread v tk]> (k_tasks s)) as HT1 by done.
  destruct (return_index s1 T x th ix) as (b & s3 & w & Hrun3 & Hm3 & Hok3 & Ht3 & Hs3 & Hraw3 & Hn3 & Hb);
    [done|rewrite HT1, lookup_insert_eq; eauto|done..|].
  rewrite (Hrun3 _ (λ _, stack ← anscheduler_thread_kernel_stack T x; _)). clear Hrun3.
  destruct (Hraw3 a Hal (raw_unlinked T th s a tk HT Hraw)) as [Hal3 Hr3].
  assert (k_tasks s3 !! T = Some (set_task_stacks w (set_task_firstThread v tk))) as HT3
    by (by rewrite Ht3, lookup_alter_eq, HT1, lookup_insert_eq).
  assert (k_threads s3 !! x = Some th) as Hx3 by (by rewrite Hs3).
  assert (k_vms s3 = k_vms s ∧ k_locks s3 = k_locks s) as [Hv3 Hl3] by (by rewrite Hs3).
  assert (x ≠ a) as Hxa by (intros ->; destruct Hraw as [(_ & ? & _) _]; congruence).
  assert (k_nodes s3 !! x = None) as Hnx3.
  { apply Hn3; [|done]. by apply (mem_threads _ Hm1); eauto. }
  rewrite (run_thread_kernel_stack s3 T x _ th m f fl _ HT3 Hx3) by (by rewrite ?Hv3, ?Hl3). fold a.
  rewrite run_free, free_raw by done. rewrite run_tail, run_free
    by (simpl; apply elem_of_difference; split; [apply (mem_threads _ Hm3); eauto|set_solver]).
  rewrite run_ret. exists b. eexists. split; [done|].
  destruct (task_threads_unlinked s (free_step x (set_k_log (k_log s3 ++ [ev_free a])
    (set_k_live (k_live s3 ∖ {[a]}) s3))) T tk x th l1 l2) as [Hts' _]; try done.
  { simpl. rewrite Hs3. done. }
  { simpl. rewrite lookup_delete_ne by congruence. rewrite HT3, Hv, lookup_insert_eq. done. }
  split; [done|]. split_and!.
  - simpl. apply lookup_delete_eq.
  - simpl. set_solver.
  - simpl. set_solver.
  - apply free_idx_ok; [|done|].
    + rewrite <- free_raw by done. apply free_idx_ok; [done|apply Hr3|].
      simpl. intros [= ->]. destruct Hraw as [(? & _) _]; congruence.
    + simpl. intros [= ->]. congruence.
  - intros [Hnp|(o & nd & Ho & Hnd)]; apply Hb; [by left|right]. exists o, nd. split; [|done].
    simpl in Ho |- *. by rewrite Hv, lookup_insert_eq, HT in *.
  - done.
  - simpl. rewrite Hv3. by apply delete_id.
Qed.
End unlink_thread.

(** The demo task's list is 0x1000, 0x2000, 0x3000. *)
Lemma release_thread_gives_up_memory_witness :
  ∃ s', run 0 0 (release_thread (H := P0) 0x10000 0x3000) demo_stack = Done () s' ∧
    task_threads s' 0x10000 [0x1000; 0x2000] ∧ k_threads s' !! 0x3000 = None ∧
    0x3000 ∉ k_live s' ∧ frame_addr (H := P0) 0x60 ∉ k_live s' ∧
    idx_ok (root_stacks 0x10000) s' (ix_put 2 ix_init) ∧
    k_locks s' = k_locks demo_stack ∧ k_vms s' = k_vms demo_stack.
Proof.
  destruct (release_thread_gives_up_memory (H := P0) 0 0 demo_stack 0x10000 (demo_task 0 2) 0x3000
    (demo_thread 0 0x2000 0 0 0 2 0) [0x1000; 0x2000] [] ix_init demo_stack_table 0x60 kstack_flags)
    as (b & s' & Hrun & H1 & H2 & H3 & H4 & H5 & Hb & H6).
  - apply mem_ok_dom; [by_dec|]. repeat split; by_dec.
  - split; [by_dll|]. split; [elems; by_vm|reflexivity].
  - reflexivity.
  - reflexivity.
  - split_and!; reflexivity.
  - eapply idx_ok_frame; [apply (demo_idx_ok 0 2)|reflexivity|done|].
    intros p Hp (H1&H2&H3&H4&H5&H6&H7&H8) [nd Hn]. split; [simpl; set_solver|]. split_and!; try done.
    simpl in H8 |- *. rewrite lookup_singleton_None in H8 |- *. done.
  - reflexivity.
  - reflexivity.
  - reflexivity.
  - by_dec.
  - split; [split_and!|]; reflexivity.
  - by_dec.
  - by_dec.
  - by_dec.
  - rewrite Hb in H5 by (left; by_dec). destruct H6 as [H6 H7]. exists s'.
    split; [exact Hrun|]. split; [exact H1|]. split; [exact H2|]. split; [exact H3|].
    split; [exact H4|]. split; [exact H5|]. split; [exact H6|exact H7].
Defined.
