(* ===== verification/SocketList.v ===== *)
(** * SocketList: a task's sockets (src/socketlist.c)

    The hash table of open descriptors and the list of descriptors with pending
    messages; and [anscheduler_socket_reference] of src/socket.c, which both use. *)
From S2P Require Import Prelude Types Machine Demo Idxset.

(** ** Operations *)

Definition anscheduler_socket_reference (socket : Z) : prog bool :=
  anscheduler_lock (closeLock socket);;
  closed ← rd socket desc_isClosed;
  if decide (closed ≠ 0) then anscheduler_unlock (closeLock socket);; mret false
  else
  count ← rd socket desc_refCount;
  wr socket (set_desc_refCount (u64 (count + 1)));;
  anscheduler_unlock (closeLock socket);;
  mret true.

Definition _descriptor_hash (desc : Z) : Z := u8 (Z.land desc 0xf).

(** [task->sockets[hash]]. *)
Definition rd_sockets (task hash : Z) : prog Z :=
  l ← rd task task_sockets; index l hash.
Definition wr_sockets (task hash v : Z) : prog () :=
  check_index hash 0x10;;
  wr task (λ t, set_task_sockets (nth_set (task_sockets t) hash v) t).

Definition anscheduler_descriptor_set (task desc : Z) : prog () :=
  d ← rd desc desc_descriptor;
  let hash := _descriptor_hash d in
  anscheduler_lock (socketsLock task);;
  wr desc (set_desc_last NULL);;
  head ← rd_sockets task hash;
  (if decide (head = NULL) then
     wr_sockets task hash desc;;
     wr desc (set_desc_next NULL)
   else
     head ← rd_sockets task hash;
     wr head (set_desc_last desc);;
     head ← rd_sockets task hash;
     wr desc (set_desc_next head);;
     wr_sockets task hash desc);;
  anscheduler_unlock (socketsLock task).

(** The loop of [anscheduler_descriptor_find]; the loop state is [obj], which no
    iteration changes. *)
Definition descriptor_find_body (task desc obj : Z) : prog (Z + Z) :=
  if decide (obj ≠ NULL) then
    d ← rd obj desc_descriptor;
    if decide (d = desc) then
      ok ← anscheduler_socket_reference obj;
      let obj := if (ok : bool) then obj else NULL in
      anscheduler_unlock (socketsLock task);;
      mret (inr obj)
    else mret (inl obj)
  else
    anscheduler_unlock (socketsLock task);;
    mret (inr NULL).

Definition anscheduler_descriptor_find (task desc : Z) : prog Z :=
  let hash := _descriptor_hash desc in
  anscheduler_lock (socketsLock task);;
  obj ← rd_sockets task hash;
  while_ obj (descriptor_find_body task desc).

Definition anscheduler_task_pending (task desc : Z) : prog () :=
  anscheduler_lock (pendingLock task);;
  last ← rd desc desc_pendingLast;
  next ← rd desc desc_pendingNext;
  first ← rd task task_firstPending;
  if decide (last ≠ NULL ∨ next ≠ NULL ∨ first = desc) then
    anscheduler_unlock (pendingLock task)
  else
  first ← rd task task_firstPending;
  (if decide (first ≠ NULL) then wr first (set_desc_pendingLast desc) else mret ());;
  first ← rd task task_firstPending;
  wr desc (set_desc_pendingNext first);;
  wr task (set_task_firstPending desc);;
  anscheduler_unlock (pendingLock task).

(** The part of [anscheduler_task_not_pending] after the membership test. *)
Definition unlink_pending (task desc : Z) : prog () :=
  last ← rd desc desc_pendingLast;
  (if decide (last = NULL) then
     next ← rd desc desc_pendingNext;
     wr task (set_task_firstPending next)
   else
     last ← rd desc desc_pendingLast;
     next ← rd desc desc_pendingNext;
     wr last (set_desc_pendingNext next));;
  next ← rd desc desc_pendingNext;
  (if decide (next ≠ NULL) then
     last ← rd desc desc_pendingLast; wr next (set_desc_pendingLast last)
   else mret ());;
  wr desc (set_desc_pendingLast NULL);;
  wr desc (set_desc_pendingNext NULL);;
  anscheduler_unlock (pendingLock task).

Definition anscheduler_task_not_pending (task desc : Z) : prog () :=
  anscheduler_lock (pendingLock task);;
  last ← rd desc desc_pendingLast;
  next ← rd desc desc_pendingNext;
  if decide (last = NULL ∧ next = NULL) then
    first ← rd task task_firstPending;
    if decide (first ≠ desc) then anscheduler_unlock (pendingLock task)
    else unlink_pending task desc
  else unlink_pending task desc.

(** The loop of [anscheduler_task_pop_pending]. *)
Definition pop_pending_body (task p : Z) : prog (Z + Z) :=
  if decide (p ≠ NULL) then
    next ← rd p desc_pendingNext;
    wr task (set_task_firstPending next);;
    wr p (set_desc_pendingLast NULL);;
    wr p (set_desc_pendingNext NULL);;
    ok ← anscheduler_socket_reference p;
    if (ok : bool) then
      anscheduler_unlock (pendingLock task);;
      mret (inr p)
    else
      p ← rd task task_firstPending;
      mret (inl p)
  else
    anscheduler_unlock (pendingLock task);;
    mret (inr NULL).

Definition anscheduler_task_pop_pending (task : Z) : prog Z :=
  anscheduler_lock (pendingLock task);;
  p ← rd task task_firstPending;
  while_ p (pop_pending_body task).

Section ops.
Context `{Platform}.

Definition anscheduler_descriptor_delete (task desc : Z) : prog () :=
  d ← rd desc desc_descriptor;
  let hash := _descriptor_hash d in
  anscheduler_lock (socketsLock task);;
  last ← rd desc desc_last;
  (if decide (last ≠ NULL) then
     last ← rd desc desc_last;
     next ← rd desc desc_next;
     wr last (set_desc_next next)
   else
     next ← rd desc desc_next;
     wr_sockets task hash next);;
  next ← rd desc desc_next;
  (if decide (next ≠ NULL) then
     next ← rd desc desc_next;
     last ← rd desc desc_last;
     wr next (set_desc_last last)
   else mret ());;
  wr desc (set_desc_last NULL);;
  wr desc (set_desc_next NULL);;
  anscheduler_lock (descriptorsLock task);;
  d ← rd desc desc_descriptor;
  _ ← anidxset_put (root_descriptors task) d;
  anscheduler_unlock (descriptorsLock task);;
  anscheduler_unlock (socketsLock task).

End ops.
