(* ===== verification/DescTable.v ===== *)
(** * DescTable: the table of a task's open descriptors (src/socketlist.c)

    Entering, finding and removing descriptors, against a table of lists. The
    operations are in SocketList.v. *)
From S2P Require Import Prelude Types Machine Demo Idxset PidMap SocketList.

(** ** The descriptor table *)

(** [desc_table s T B]: the open descriptors of task [T], by hash, are the lists
    [B h], from the newest on. *)
Definition desc_bucket (s : kst) (L : list Z) (h : Z) (l : list Z) : Prop :=
  L !! Z.to_nat h = Some (hd0 NULL l) ∧
  dll (fld (k_descs s) desc_next) (fld (k_descs s) desc_last) l ∧
  ∀ p, p ∈ l → ∃ d, k_descs s !! p = Some d ∧ _descriptor_hash (desc_descriptor d) = h.

Definition desc_table (s : kst) (T : Z) (B : Z → list Z) : Prop :=
  ∃ L, task_sockets <$> k_tasks s !! T = Some L ∧ length L = 16%nat ∧
    ∀ h, 0 ≤ h < 0x10 → desc_bucket s L h (B h).

(** A descriptor without its links in the table. *)
Definition desc_body (d : socket_desc_t) : socket_desc_t :=
  set_desc_next NULL (set_desc_last NULL d).

(** What an operation on the table may change: the task's table and the links. *)
Definition desc_step (T : Z) (s s' : kst) : Prop :=
  s' = set_k_tasks (k_tasks s') (set_k_descs (k_descs s') s) ∧
  (∃ L, k_tasks s' = alter (set_task_sockets L) T (k_tasks s)) ∧
  ∀ p, desc_body <$> k_descs s' !! p = desc_body <$> k_descs s !! p.

Lemma desc_hash_range d : 0 ≤ _descriptor_hash d < 0x10.
Proof.
  unfold _descriptor_hash, u8. change 0xf with (Z.ones 4). rewrite Z.land_ones by lia.
  pose proof (Z.mod_pos_bound d (2 ^ 4)). rewrite Z.mod_small; lia.
Qed.

Lemma run_rd_sockets n c {A} T h tk v (k : Z → prog A) s :
  k_tasks s !! T = Some tk → task_sockets tk !! Z.to_nat h = Some v →
  run n c (rd_sockets T h ≫= k) s = run n c (k v) s.
Proof.
  intros HT Hv. unfold rd_sockets. rewrite run_assoc. erewrite run_rd by exact HT.
  by rewrite (run_index _ _ _ _ v).
Qed.

(** The memory with a new list head in the table of task [T]. *)
Definition put_socket (T h v : Z) (tk : task_t) (s : kst) : kst :=
  set_k_tasks (<[T := set_task_sockets (nth_set (task_sockets tk) h v) tk]> (k_tasks s)) s.

Lemma run_wr_sockets n c {A} T h v tk (k : () → prog A) s :
  k_tasks s !! T = Some tk → 0 ≤ h < 0x10 →
  run n c (wr_sockets T h v ≫= k) s = run n c (k ()) (put_socket T h v tk s).
Proof.
  intros HT Hh. unfold wr_sockets. rewrite run_assoc, run_check_index by done.
  by erewrite run_wr by exact HT.
Qed.

Lemma desc_body_hash d d' :
  desc_body d' = desc_body d → desc_descriptor d' = desc_descriptor d.
Proof. intros Hb. by apply (f_equal desc_descriptor) in Hb. Qed.

Lemma nth_set_lookup l h v h' :
  length l = 16%nat → 0 ≤ h < 0x10 → 0 ≤ h' →
  nth_set l h v !! Z.to_nat h' = if decide (h' = h) then Some v else l !! Z.to_nat h'.
Proof.
  intros Hl Hh Hh'. unfold nth_set. case_decide; [subst|].
  - apply list_lookup_insert_eq. lia.
  - apply list_lookup_insert_ne. lia.
Qed.

(** Replacing one list of the table. *)
Lemma desc_table_update s s' T B h l tk :
  desc_table s T B → k_tasks s !! T = Some tk → 0 ≤ h < 0x10 → desc_step T s s' →
  k_tasks s' !! T = Some (set_task_sockets (nth_set (task_sockets tk) h (hd0 NULL l)) tk) →
  (∀ p d, k_descs s !! p = Some d → _descriptor_hash (desc_descriptor d) ≠ h →
     k_descs s' !! p = Some d) →
  dll (fld (k_descs s') desc_next) (fld (k_descs s') desc_last) l →
  (∀ p, p ∈ l → ∃ d, k_descs s !! p = Some d ∧ _descriptor_hash (desc_descriptor d) = h) →
  desc_table s' T (set_bucket h l B).
Proof.
  intros (L & HL & Hlen & HB) HT Hh (_ & _ & Hb) HT' Hsame Hd Hin.
  rewrite HT in HL. simpl in HL. simplify_eq.
  eexists. split; [by rewrite HT'|]. split; [simpl; unfold nth_set; by rewrite length_insert|].
  intros h' Hh'. unfold set_bucket. destruct (decide (h' = h)) as [->|Hne].
  - split_and!; [by simpl; rewrite nth_set_lookup, decide_True by lia|done|].
    intros p Hp. destruct (Hin p Hp) as (d & Hpd & Hpid). specialize (Hb p).
    rewrite Hpd in Hb. destruct (k_descs s' !! p) as [d'|]; [|done].
    apply (inj Some), desc_body_hash in Hb. exists d'. by rewrite Hb.
  - destruct (HB h' Hh') as (Hhd & Hdl & Hin').
    assert (∀ p, p ∈ B h' → k_descs s' !! p = k_descs s !! p) as Hk.
    { intros p Hp. destruct (Hin' p Hp) as (d & Hpd & Hpid). rewrite Hpd.
      apply Hsame; congruence. }
    split_and!.
    + simpl. by rewrite nth_set_lookup, decide_False by lia.
    + eapply dll_ext; [| |exact Hdl]; intros p Hp; unfold fld; by rewrite Hk.
    + intros p Hp. rewrite Hk by done. auto.
Qed.

Ltac dsteps := repeat first
  [ erewrite run_rd_sockets by (simpl; eassumption)
  | erewrite run_wr_sockets by (simpl; first [eassumption|apply desc_hash_range])
  | step ].

Lemma descriptor_set_spec n c s T B d desc :
  let h := _descriptor_hash (desc_descriptor desc) in
  desc_table s T B → k_descs s !! d = Some desc → d ∉ B h → d ≠ NULL →
  socketsLock T ∉ k_locks s →
  ∃ s', run n c (anscheduler_descriptor_set T d) s = Done () s' ∧
    desc_table s' T (set_bucket h (d :: B h) B) ∧ desc_step T s s'.
Proof.
  intros h HT Hd Hdb Hd0 Hl. pose proof HT as (L & HL & Hlen & HB).
  assert (0 ≤ h < 0x10) as Hh by apply desc_hash_range.
  destruct (HB h Hh) as (Hhd & Hdl & Hin).
  apply fmap_Some in HL as (tk & Htk & ->).
  pose proof (hd0_ne d (B h) Hdb Hd0) as Hne.
  unfold anscheduler_descriptor_set. dsteps. fold h. dsteps. case_decide as Hnull.
  - dsteps. unfold put_socket. dsteps. eexists. split; [done|].
    match goal with |- desc_table ?s2 _ _ ∧ _ => assert (desc_step T s s2) as Hst end.
    { split; [kst_eq|]. split; [eexists; simpl; by rewrite (alter_lookup _ _ _ _ Htk)|].
      intros p. simpl. rewrite !lookup_insert. repeat case_decide; subst; try done. by rewrite Hd. }
    split; [|done]. rewrite (hd0_null _ _ _ Hdl Hnull) in *.
    apply (desc_table_update s _ T B h [d] tk); try done; simpl.
    + by rewrite lookup_insert_eq.
    + intros p d' Hp Hpid. rewrite !lookup_insert_ne; [done|..]; intros <-; by simplify_eq.
    + eapply (dll_push_front (λ _, 0) (λ _, 0)); [apply dll_nil|set_solver|done|set_solver|set_solver|by flds|by flds].
    + intros p ->%list_elem_of_singleton. eauto.
  - assert (hd0 NULL (B h) ∈ B h) as Hhin by (apply hd0_elem_of; intros He; by rewrite He in Hnull).
    destruct (Hin _ Hhin) as (hk & Hhk & Hhp).
    dsteps. unfold put_socket. dsteps. eexists. split; [done|].
    match goal with |- desc_table ?s2 _ _ ∧ _ => assert (desc_step T s s2) as Hst end.
    { split; [kst_eq|]. split; [eexists; simpl; by rewrite (alter_lookup _ _ _ _ Htk)|].
      intros p. simpl. rewrite !lookup_insert. repeat case_decide; subst; try done;
        by rewrite ?Hd, ?Hhk. }
    split; [|done]. apply (desc_table_update s _ T B h (d :: B h) tk); try done; simpl.
    + by rewrite lookup_insert_eq.
    + intros p d' Hp Hpid. rewrite !lookup_insert_ne; [done|..]; intros <-; by simplify_eq.
    + eapply dll_push_front; [exact Hdl|done|done|..]; flds.
    + intros p [->|Hp]%elem_of_cons; eauto.
Qed.

(** *** Looking a descriptor up *)

(** The table does not see the other fields of descriptors. *)
Definition desc_key (d : socket_desc_t) : Z * Z * Z := (desc_next d, desc_last d, desc_descriptor d).

Lemma desc_table_ext s s' T B :
  desc_table s T B →
  task_sockets <$> k_tasks s' !! T = task_sockets <$> k_tasks s !! T →
  (∀ p, desc_key <$> k_descs s' !! p = desc_key <$> k_descs s !! p) → desc_table s' T B.
Proof.
  intros (L & HL & Hlen & HB) Ht Hk. exists L. rewrite Ht. split; [done|]. split; [done|].
  intros h Hh. destruct (HB h Hh) as (Hhd & Hdl & Hin). split_and!; [done| |].
  - eapply dll_ext; [| |exact Hdl]; intros p _; specialize (Hk p); unfold fld;
      destruct (k_descs s' !! p), (k_descs s !! p); simpl in *; try done; by injection Hk.
  - intros p Hp. destruct (Hin p Hp) as (d & Hpd & Hh'). specialize (Hk p). rewrite Hpd in Hk.
    destruct (k_descs s' !! p) as [d'|]; [|done]. injection Hk as _ _ Hdd. exists d'. by rewrite Hdd.
Qed.

Lemma socket_reference_spec n c s d desc :
  k_descs s !! d = Some desc → closeLock d ∉ k_locks s →
  run n c (anscheduler_socket_reference d) s =
  if decide (desc_isClosed desc = 0)
  then Done true (set_k_descs
         (<[d := set_desc_refCount (u64 (desc_refCount desc + 1)) desc]> (k_descs s)) s)
  else Done false s.
Proof.
  intros Hd Hl. unfold anscheduler_socket_reference. steps.
  destruct (decide (desc_isClosed desc = 0)) as [Hc|Hc];
    [rewrite decide_False by auto|rewrite decide_True by done]; steps; f_equal; kst_eq.
Qed.

(** What [anscheduler_descriptor_find] yields for the first descriptor of a list. *)
Lemma descriptor_find_head n c s T B desc d o :
  let h := _descriptor_hash desc in
  desc_table s T B → B h ≠ [] → hd0 NULL (B h) = d → k_descs s !! d = Some o →
  socketsLock T ∉ k_locks s → closeLock d ∉ k_locks s →
  desc_descriptor o = desc → (0 < n)%nat →
  run n c (anscheduler_descriptor_find T desc) s =
  if decide (desc_isClosed o = 0)
  then Done d (set_k_descs
         (<[d := set_desc_refCount (u64 (desc_refCount o + 1)) o]> (k_descs s)) s)
  else Done NULL s.
Proof.
  intros h (L & HL & Hlen & HB) Hne Hd Ho Hl Hlc.
  assert (0 ≤ h < 0x10) as Hh by apply desc_hash_range.
  destruct (HB h Hh) as (Hhd & Hdl & Hin). rewrite Hd in Hhd.
  apply fmap_Some in HL as (tk & Htk & ->).
  assert (d ≠ NULL) as Hd0.
  { rewrite <- Hd. eapply dll_nonnull; [exact Hdl|]. by apply hd0_elem_of. }
  unfold anscheduler_descriptor_find. dsteps. fold h. dsteps. rewrite run_tail, run_while.
  intros Hdesc Hn. destruct n as [|n]; [lia|]. rewrite iterate_S. unfold descriptor_find_body at 1.
  rewrite decide_True by done. dsteps. rewrite decide_True by done.
  rewrite run_bind, (socket_reference_spec _ _ _ _ o) by (simpl; first [done|set_solver]).
  destruct (decide (desc_isClosed o = 0)); dsteps; f_equal; kst_eq.
Qed.

(** A descriptor that has been entered into its task's table is found again:
    [anscheduler_descriptor_find] on its number yields it with one more reference,
    or NULL once it has been closed; the other descriptors stay in the table. *)
Theorem descriptor_set_then_find n c s T B d o :
  let h := _descriptor_hash (desc_descriptor o) in
  desc_table s T B → k_descs s !! d = Some o → d ∉ B h → d ≠ NULL →
  socketsLock T ∉ k_locks s → closeLock d ∉ k_locks s → (0 < n)%nat →
  ∃ r s', run n c (anscheduler_descriptor_set T d;;
                   anscheduler_descriptor_find T (desc_descriptor o)) s = Done r s' ∧
    desc_table s' T (set_bucket h (d :: B h) B) ∧
    if decide (desc_isClosed o = 0)
    then r = d ∧ desc_refCount <$> k_descs s' !! d = Some (u64 (desc_refCount o + 1))
    else r = NULL ∧ desc_refCount <$> k_descs s' !! d = Some (desc_refCount o).
Proof.
  intros h HT Ho Hdb Hd0 Hl Hlc Hn.
  destruct (descriptor_set_spec n c s T B d o HT Ho Hdb Hd0 Hl) as (s1 & Hrun & HT1 & Hst).
  fold h in HT1. rewrite (run_call _ _ _ _ _ _ _ Hrun).
  destruct Hst as (Hs1 & _ & Hb). specialize (Hb d). rewrite Ho in Hb.
  destruct (k_descs s1 !! d) as [o1|] eqn:Ho1; [|done]. apply (inj Some) in Hb.
  assert (set_bucket h (d :: B h) B h = d :: B h) as Hbk by (unfold set_bucket; by rewrite decide_True).
  pose proof (desc_body_hash _ _ Hb) as Hdesc.
  assert (desc_isClosed o1 = desc_isClosed o ∧ desc_refCount o1 = desc_refCount o) as [Hcl Hrc].
  { split; [by apply (f_equal desc_isClosed) in Hb|by apply (f_equal desc_refCount) in Hb]. }
  assert (k_locks s1 = k_locks s) as Hlk by (by rewrite Hs1).
  rewrite (descriptor_find_head n c s1 T (set_bucket h (d :: B h) B) (desc_descriptor o) d o1)
    by (fold h; rewrite ?Hbk, ?Hlk; done).
  rewrite Hcl, Hrc.
  destruct (decide (desc_isClosed o = 0)) as [Hz|Hz].
  - do 2 eexists. split; [done|]. split; [|split; [done|simpl; by rewrite lookup_insert_eq]].
    eapply desc_table_ext; [exact HT1|done|]. intros p. simpl. rewrite lookup_insert.
    destruct (decide (d = p)) as [Hdp|]; [rewrite <- Hdp, Ho1; done|done].
  - do 2 eexists. split; [done|]. split; [done|]. split; [done|]. rewrite Ho1. simpl. by f_equal.
Qed.

(** Looking up a descriptor that is not the first of its list never ends: the
    loop of [anscheduler_descriptor_find] does not advance, so whenever the first
    open descriptor with the same hash has another number, the CPU spins for ever and
    holds the task's socket lock, also when the wanted descriptor is the next one. *)
Theorem descriptor_find_never_returns n c s T B desc d l o :
  desc_table s T B → B (_descriptor_hash desc) = d :: l → k_descs s !! d = Some o →
  desc_descriptor o ≠ desc → socketsLock T ∉ k_locks s →
  run n c (anscheduler_descriptor_find T desc) s = Stop s_fuel (add_lock (socketsLock T) s).
Proof.
  intros (L & HL & Hlen & HB) Hdl Ho Hdesc Hl.
  set (h := _descriptor_hash desc) in *. assert (0 ≤ h < 0x10) as Hh by apply desc_hash_range.
  destruct (HB h Hh) as (Hhd & Hd & Hin). rewrite Hdl in *.
  apply fmap_Some in HL as (tk & Htk & ->).
  assert (d ≠ NULL) as Hd0 by (eapply dll_nonnull; [exact Hd|by left]).
  unfold anscheduler_descriptor_find. dsteps. fold h. dsteps. rewrite run_tail, run_while.
  set (s1 := add_lock (socketsLock T) s).
  assert (k_descs s1 !! d = Some o) as Ho1 by done. clearbody s1. clear -Ho1 Hd0 Hdesc.
  enough (∀ k, iterate k (λ x s, run n c (descriptor_find_body T desc x) s)
    (λ b s, run n c (mret b) s) d s1 = Stop s_fuel s1) by done.
  induction k as [|k IH]; [done|]. rewrite iterate_S. unfold descriptor_find_body at 1.
  rewrite decide_True by done. erewrite run_rd by exact Ho1. rewrite decide_False by done.
  rewrite run_ret. exact IH.
Qed.

(** *** Removing a descriptor *)

Definition descs_deleted (d : Z) (o : socket_desc_t) (m : gmap Z socket_desc_t) :=
  <[d := set_desc_next NULL (set_desc_last NULL o)]>
    (unlink set_desc_next set_desc_last (desc_next o) (desc_last o) m).


Lemma run_descriptor_unlink n c {A} s T tk h d o (k : () → prog A) :
  k_tasks s !! T = Some tk → k_descs s !! d = Some o → 0 ≤ h < 0x10 →
  desc_next o ≠ d → desc_last o ≠ d →
  (desc_next o ≠ NULL → is_Some (k_descs s !! desc_next o)) →
  (desc_last o ≠ NULL → is_Some (k_descs s !! desc_last o)) →
  desc_next o = NULL ∨ desc_next o ≠ desc_last o →
  run n c (last ← rd d desc_last;
    (if decide (last ≠ NULL) then
       last ← rd d desc_last; next ← rd d desc_next; wr last (set_desc_next next)
     else next ← rd d desc_next; wr_sockets T h next);;
    next ← rd d desc_next;
    (if decide (next ≠ NULL) then
       next ← rd d desc_next; last ← rd d desc_last; wr next (set_desc_last last)
     else mret ());;
    wr d (set_desc_last NULL);;
    wr d (set_desc_next NULL);; k ()) s =
  run n c (k ()) (set_k_descs (descs_deleted d o (k_descs s))
    (if decide (desc_last o = NULL) then put_socket T h (desc_next o) tk s else s)).
Proof.
  intros HT Ho Hh Hnd Hpd Hn Hp Hnp. unfold descs_deleted, unlink. dsteps.
  destruct (decide (desc_last o = NULL)) as [Hp0|Hp0];
    [rewrite decide_False by auto|rewrite decide_True by done];
    (destruct (decide (desc_next o = NULL)) as [Hn0|Hn0]).
  - dsteps. unfold put_socket. dsteps. rewrite decide_False by auto. dsteps.
    f_equal. rewrite ?insert_insert_eq. by destruct s.
  - destruct (Hn Hn0) as [no Hno]. dsteps. unfold put_socket. dsteps. rewrite decide_True by done.
    dsteps. rewrite (alter_lookup _ _ _ _ Hno). f_equal. rewrite ?insert_insert_eq. by destruct s.
  - destruct (Hp Hp0) as [po Hpo]. dsteps. rewrite decide_False by auto. dsteps.
    rewrite (alter_lookup _ _ _ _ Hpo). f_equal. rewrite ?insert_insert_eq. by destruct s.
  - destruct (Hp Hp0) as [po Hpo]. destruct (Hn Hn0) as [no Hno]. dsteps.
    destruct Hnp as [?|Hnp]; [done|].
    rewrite decide_True by done. dsteps. rewrite (alter_lookup _ _ _ _ Hpo).
    rewrite (alter_lookup _ _ _ no) by (by rewrite lookup_insert_ne).
    f_equal. rewrite ?insert_insert_eq. by destruct s.
Qed.

(** The memory after the descriptor has left the table. *)
Definition desc_removed (T h d : Z) (o : socket_desc_t) (tk : task_t) (s : kst) : kst :=
  set_k_descs (descs_deleted d o (k_descs s))
    (if decide (desc_last o = NULL) then put_socket T h (desc_next o) tk s else s).

Lemma desc_removed_table s T tk B d o l1 l2 :
  let h := _descriptor_hash (desc_descriptor o) in
  desc_table s T B → k_tasks s !! T = Some tk → k_descs s !! d = Some o → B h = l1 ++ d :: l2 →
  desc_table (desc_removed T h d o tk s) T (set_bucket h (l1 ++ l2) B) ∧
  desc_step T s (desc_removed T h d o tk s).
Proof.
  intros h HT Htk Ho HBh. pose proof HT as (L & HL & Hlen & HB).
  assert (0 ≤ h < 0x10) as Hh by apply desc_hash_range.
  destruct (HB h Hh) as (Hhd & Hd & Hin). rewrite HBh in *.
  rewrite Htk in HL. simpl in HL. simplify_eq.
  destruct (unlink_neighbours _ _ _ _ _ _ _ Hd Ho) as (Hnx & Hpv & Hnt & Hpt & Hni & Hpi).
  assert (d ∉ l1 ++ l2) as Hdl.
  { pose proof (dll_NoDup _ _ _ Hd) as (_ & ? & [? _]%NoDup_cons)%NoDup_app. set_solver. }
  set (s' := desc_removed T h d o tk s).
  assert (desc_step T s s') as Hst.
  { unfold s', desc_removed. split; [by destruct s; case_decide|]. split.
    - case_decide; [eexists; simpl; by rewrite (alter_lookup _ _ _ _ Htk)|].
      exists (task_sockets tk). simpl. rewrite (alter_lookup _ _ _ _ Htk), insert_id; [done|].
      rewrite Htk. by destruct tk.
    - intros p. simpl. unfold descs_deleted. rewrite lookup_insert.
      case_decide; [subst; by rewrite Ho|]. by apply (unlink_body set_desc_next set_desc_last). }
  split; [|done]. apply (desc_table_update s _ T B h (l1 ++ l2) tk); try done.
  - unfold s', desc_removed. case_decide as Hp0; simpl.
    + rewrite lookup_insert_eq. do 3 f_equal. destruct l1 as [|a l1]; [by rewrite Hnx|].
      destruct (dll_nonnull _ _ _ (lst NULL (a :: l1)) Hd); [|congruence].
      apply elem_of_app. left. by apply lst_elem_of.
    + destruct l1 as [|a l1]; [by destruct Hp0|]. rewrite Htk. f_equal. unfold nth_set.
      rewrite list_insert_id by done. by destruct tk.
  - intros p d' Hp Hpid. simpl. unfold descs_deleted.
    assert (∀ a, a ∈ l1 ++ d :: l2 → a ≠ p) as Hne.
    { intros a Ha <-. destruct (Hin a Ha) as (? & ? & ?). congruence. }
    rewrite lookup_insert_ne by (apply Hne, elem_of_app; right; left).
    rewrite unlink_other; [done|intros ?; apply Hne..]; set_solver.
  - simpl. unfold descs_deleted.
    eapply dll_ext; [| |eapply (unlink_dll _ _ set_desc_next set_desc_last); [exact Hd|exact Ho|]];
      [intros p Hp; apply fld_insert_ne; by intros ->..|].
    intros p Hp. destruct (Hin p) as (? & ? & _); [set_solver|eauto].
  - intros p Hp. apply Hin. set_solver.
Qed.

Lemma desc_step_ok T s s' ix :
  desc_step T s s' → mem_ok s → idx_ok (root_descriptors T) s ix →
  mem_ok s' ∧ idx_ok (root_descriptors T) s' ix.
Proof.
  intros (Hs & [L HL] & Hb) Hm Hix.
  assert (∀ p, is_Some (k_descs s' !! p) ↔ is_Some (k_descs s !! p)) as Hd.
  { intros p. specialize (Hb p). rewrite <- (fmap_is_Some desc_body), Hb. apply fmap_is_Some. }
  assert (∀ p, is_Some (k_tasks s' !! p) ↔ is_Some (k_tasks s !! p)) as Ht.
  { intros p. rewrite HL. apply lookup_alter_is_Some. }
  split.
  - rewrite Hs. destruct Hm. split; try done; simpl; intros p Hp.
    + apply mem_tasks. by apply Ht.
    + apply mem_descs. by apply Hd.
  - eapply idx_ok_frame; [done| |by rewrite Hs|].
    + simpl. rewrite HL, lookup_alter_eq. by destruct (k_tasks s !! T).
    + intros p Hp Ho _. split; [by rewrite Hs|]. unfold only_node in *.
      rewrite (eq_None_not_Some (k_tasks s' !! p)), (eq_None_not_Some (k_descs s' !! p)), Ht, Hd.
      rewrite <- !eq_None_not_Some. by rewrite Hs.
Qed.

(** What [anscheduler_descriptor_delete] leaves alone: everything but the task's
    table and index set, the links of its descriptors, and pages of indexes. *)
Definition delete_frame (T : Z) (s s' : kst) : Prop :=
  (s' = set_k_tasks (k_tasks s') (set_k_descs (k_descs s') (set_k_nodes (k_nodes s')
          (set_k_live (k_live s') (set_k_log (k_log s') (set_k_nallocs (k_nallocs s') s)))))) ∧
  (∃ L v, k_tasks s' = alter (λ tk, set_task_descriptors v (set_task_sockets L tk)) T (k_tasks s)) ∧
  (∀ p, desc_body <$> k_descs s' !! p = desc_body <$> k_descs s !! p) ∧ mem_ok s'.

Lemma delete_frame_intro T l1 l2 s s1 s2 s3 :
  mem_ok s → desc_step T s s1 → mem_ok s1 →
  s2 = add_lock l2 (add_lock l1 s1) → idx_step (root_descriptors T) s2 s3 →
  l1 ∉ k_locks s → l2 ∉ k_locks s → l1 ≠ l2 →
  delete_frame T s (del_lock l1 (del_lock l2 s3)).
Proof.
  intros Hm (Hs1 & [L HL] & Hb) Hm1 -> ([v Hs3] & Hmo & _) Hl1 Hl2 Hne.
  destruct Hmo as [Hm3 _]; [by destruct Hm1|]. split_and!.
  - rewrite Hs3, Hs1. unfold del_lock, add_lock. simpl.
    replace (_ ∖ {[l2]} ∖ {[l1]}) with (k_locks s) by set_solver. by destruct s.
  - exists L, v. simpl. rewrite Hs3. simpl. rewrite HL. apply map_eq. intros q.
    rewrite !lookup_alter. repeat case_decide; subst; try done. by destruct (k_tasks s !! _).
  - intros p. simpl. rewrite Hs3. simpl. apply Hb.
  - by destruct Hm3.
Qed.

(** Room for an index depends on the head of the chain only. *)
Lemma has_room_same r s s' :
  has_room r s → root_at r s' = root_at r s → k_nodes s' = k_nodes s → has_room r s'.
Proof. intros (o & nd & ?) Hr Hn. exists o, nd. by rewrite Hr, Hn. Qed.

(** Giving the number of the descriptor [d] back. *)
Lemma return_number `{Platform, !PlatformOk _} n c s T d o ix :
  mem_ok s → is_Some (k_tasks s !! T) → k_descs s !! d = Some o →
  idx_ok (root_descriptors T) s ix → descriptorsLock T ∉ k_locks s →
  ∃ (b : bool) s3 v, (∀ A (k : prog A),
      run n c (anscheduler_lock (descriptorsLock T);; num ← rd d desc_descriptor;
               _ ← anidxset_put (root_descriptors T) num;
               anscheduler_unlock (descriptorsLock T);; k) s =
      run n c k (del_lock (descriptorsLock T) s3)) ∧
    idx_step (root_descriptors T) (add_lock (descriptorsLock T) s) s3 ∧
    idx_ok (root_descriptors T) s3 (if b then ix_put (desc_descriptor o) ix else ix) ∧
    k_tasks s3 = alter (set_task_descriptors v) T (k_tasks s) ∧
    k_locks s3 = {[descriptorsLock T]} ∪ k_locks s ∧ k_descs s3 = k_descs s ∧
    (new_page s ≠ NULL ∨ has_room (root_descriptors T) s → b = true).
Proof.
  intros Hm HT Ho Hix Hl.
  destruct (put_spec n c (root_descriptors T) (add_lock (descriptorsLock T) s) ix (desc_descriptor o))
    as (b & s3 & Hrun & Hix3 & Hstep3 & Hb); [by destruct Hm|by apply idx_ok_locks|].
  pose proof Hstep3 as ([v Hs3] & _ & _).
  assert (k_tasks s3 = alter (set_task_descriptors v) T (k_tasks s)) as Ht3 by (by rewrite Hs3).
  assert (k_locks s3 = {[descriptorsLock T]} ∪ k_locks s) as Hl3 by (by rewrite Hs3).
  exists b, s3, v. split_and!; try done; [|by rewrite Hs3]. intros A k.
  rewrite run_lock by (first [by apply bool_decide_eq_true|done]).
  erewrite run_rd by exact Ho. rewrite (run_call _ _ _ _ _ _ _ Hrun).
  rewrite run_unlock; [done|rewrite Hl3; set_solver|].
  apply bool_decide_eq_true. rewrite Ht3, lookup_alter_eq. by apply fmap_is_Some.
Qed.

(** Taking the descriptor out of its list: the first part of
    [anscheduler_descriptor_delete]. *)
Lemma delete_unlinks `{Platform} n c s T B d o l1 l2 :
  let h := _descriptor_hash (desc_descriptor o) in
  desc_table s T B → k_descs s !! d = Some o → B h = l1 ++ d :: l2 → socketsLock T ∉ k_locks s →
  ∃ tk (s1 := desc_removed T h d o tk s), k_tasks s !! T = Some tk ∧
    desc_table s1 T (set_bucket h (l1 ++ l2) B) ∧ desc_step T s s1 ∧
    run n c (anscheduler_descriptor_delete T d) s =
    run n c (anscheduler_lock (descriptorsLock T);; num ← rd d desc_descriptor;
             _ ← anidxset_put (root_descriptors T) num;
             anscheduler_unlock (descriptorsLock T);; anscheduler_unlock (socketsLock T))
      (add_lock (socketsLock T) s1).
Proof.
  intros h HT Ho HBh Hl. pose proof HT as (L & HL & _ & HB).
  assert (0 ≤ h < 0x10) as Hh by apply desc_hash_range.
  destruct (HB h Hh) as (_ & Hd & Hin). rewrite HBh in *.
  destruct (unlink_neighbours _ _ _ _ _ _ _ Hd Ho) as (Hnx & Hpv & Hnt & Hpt & Hni & Hpi).
  apply fmap_Some in HL as (tk & Htk & _). exists tk. split; [done|].
  destruct (desc_removed_table s T tk B d o l1 l2 HT Htk Ho HBh) as [HT1 Hst1]. fold h in HT1, Hst1.
  split; [done|]. split; [done|].
  pose proof (unlink_neighbours_ne _ _ _ _ _ _ _ Hd Ho) as Hne.
  unfold anscheduler_descriptor_delete. erewrite run_rd by exact Ho. fold h.
  rewrite run_lock by lock_side. set (s0 := add_lock (socketsLock T) s).
  rewrite (run_descriptor_unlink n c s0 T tk h d o (λ _,
    anscheduler_lock (descriptorsLock T);; num ← rd d desc_descriptor;
    _ ← anidxset_put (root_descriptors T) num;
    anscheduler_unlock (descriptorsLock T);; anscheduler_unlock (socketsLock T))); try done.
  2: intros H0; destruct (Hin (desc_next o)) as (? & ? & _); [set_solver|by eexists].
  2: intros H0; destruct (Hin (desc_last o)) as (? & ? & _); [set_solver|by eexists].
  f_equal. unfold desc_removed. case_decide; by destruct s.
Qed.

Lemma descriptor_delete_spec `{Platform, !PlatformOk _} n c s T B d o l1 l2 ix :
  let h := _descriptor_hash (desc_descriptor o) in
  mem_ok s → desc_table s T B → k_descs s !! d = Some o → B h = l1 ++ d :: l2 →
  idx_ok (root_descriptors T) s ix → socketsLock T ∉ k_locks s → descriptorsLock T ∉ k_locks s →
  ∃ (b : bool) s', run n c (anscheduler_descriptor_delete T d) s = Done () s' ∧
    (desc_table s' T (set_bucket h (l1 ++ l2) B) ∧ k_locks s' = k_locks s ∧
    fld (k_descs s') desc_next d = NULL ∧ fld (k_descs s') desc_last d = NULL ∧
    idx_ok (root_descriptors T) s' (if b then ix_put (desc_descriptor o) ix else ix) ∧
    (new_page s ≠ NULL ∨ has_room (root_descriptors T) s → b = true)) ∧ delete_frame T s s'.
Proof.
  intros h Hm HT Ho HBh Hix Hl Hl2.
  destruct (delete_unlinks n c s T B d o l1 l2) as (tk & Htk & HT1 & Hst1 & ->); try done.
  fold h in HT1, Hst1 |- *.
  destruct (desc_step_ok T s (desc_removed T h d o tk s) ix Hst1 Hm Hix) as [Hm1 Hix1].
  set (s1 := desc_removed T h d o tk s) in *.
  assert (k_descs s1 !! d = Some (set_desc_next NULL (set_desc_last NULL o))) as Hd1 by apply lookup_insert_eq.
  assert (k_locks s1 = k_locks s ∧ new_page s1 = new_page s) as [Hl1 Hnp]
    by (unfold new_page; by rewrite (proj1 Hst1)).
  assert (is_Some (k_tasks s1 !! T)) as HT1s.
  { destruct Hst1 as (_ & [? ->] & _). rewrite lookup_alter_eq, Htk. eauto. }
  destruct (return_number n c (add_lock (socketsLock T) s1) T d (set_desc_next NULL (set_desc_last NULL o)) ix)
    as (b & s3 & v & Hrun & Hst3 & Hix3 & Ht3 & Hl3 & Hd3 & Hb);
    [by destruct Hm1|done|exact Hd1|by apply idx_ok_locks|simpl; set_solver|].
  change (k_tasks (add_lock _ s1)) with (k_tasks s1) in Ht3.
  change (k_locks (add_lock _ s1)) with ({[socketsLock T]} ∪ k_locks s1) in Hl3. rewrite Hl1 in Hl3.
  change (k_descs (add_lock _ s1)) with (k_descs s1) in Hd3.
  exists b, (del_lock (socketsLock T) (del_lock (descriptorsLock T) s3)).
  split; [|split; [|by eapply (delete_frame_intro T _ _ s s1)]].
  - rewrite Hrun, run_tail, run_unlock; [done|simpl; set_solver|].
    apply bool_decide_eq_true. simpl. rewrite Ht3, lookup_alter_eq. by apply fmap_is_Some.
  - split_and!; unfold del_lock; simpl; rewrite ?Hl3, ?Hd3.
    + eapply desc_table_ext; [exact HT1| |].
      * change (task_sockets <$> k_tasks s3 !! T = task_sockets <$> k_tasks s1 !! T).
        rewrite Ht3, lookup_alter_eq. by destruct (k_tasks s1 !! T).
      * intros p. change (desc_key <$> k_descs s3 !! p = desc_key <$> k_descs s1 !! p). by rewrite Hd3.
    + set_solver.
    + by rewrite (fld_lookup _ _ _ _ Hd1).
    + by rewrite (fld_lookup _ _ _ _ Hd1).
    + by apply (idx_ok_locks _ s3).
    + intros [Hp|Hr]; apply Hb; [left|right].
      * by rewrite <- Hnp in Hp.
      * destruct Hst1 as (Hs1 & [v1 HT1'] & _). eapply has_room_same; [exact Hr| |by rewrite Hs1].
        change (task_descriptors <$> k_tasks s1 !! T = task_descriptors <$> k_tasks s !! T).
        rewrite HT1', lookup_alter_eq. by destruct (k_tasks s !! T).
Qed.

(** C34. [anscheduler_descriptor_delete] takes a descriptor out of its task's table,
    wherever in its list it stands: the rest of that list and all the others stay as
    they are, the descriptor's links are null, and its number becomes free to be
    handed out again (unless there is no memory to note that). *)
Theorem descriptor_delete_removes `{Platform, !PlatformOk _} n c s T B d o l1 l2 ix :
  let h := _descriptor_hash (desc_descriptor o) in
  mem_ok s → desc_table s T B → k_descs s !! d = Some o → B h = l1 ++ d :: l2 →
  idx_ok (root_descriptors T) s ix → socketsLock T ∉ k_locks s → descriptorsLock T ∉ k_locks s →
  ∃ (b : bool) s', run n c (anscheduler_descriptor_delete T d) s = Done () s' ∧
    desc_table s' T (set_bucket h (l1 ++ l2) B) ∧ k_locks s' = k_locks s ∧
    fld (k_descs s') desc_next d = NULL ∧ fld (k_descs s') desc_last d = NULL ∧
    idx_ok (root_descriptors T) s' (if b then ix_put (desc_descriptor o) ix else ix) ∧
    (new_page s ≠ NULL → b = true).
Proof.
  intros h ???????. destruct (descriptor_delete_spec n c s T B d o l1 l2 ix)
    as (b & s' & Hrun & (?&?&?&?&?&Hb) & _); try done. exists b, s'. split_and!; auto.
Qed.

(** ** Witnesses

    The demo task has the descriptors 0x13 (at 0x42000) and 3 (at 0x41000), in this
    order in list 3; 0x23 (at 0x43000) is not entered. *)
Definition demo_desc (next last num : Z) : socket_desc_t :=
  mk_desc next last 0 0 0x40000 num 1 0x10000 0 1 0.

Definition demo_descs : kst :=
  set_k_descs (list_to_map [(0x41000, demo_desc 0 0x42000 3); (0x42000, demo_desc 0x41000 0 0x13);
      (0x43000, demo_desc 0 0 0x23)])
    (set_k_live ({[0x41000; 0x42000; 0x43000]} ∪ k_live (demo 0 2))
      (set_k_tasks {[0x10000 := set_task_sockets (<[3%nat := 0x42000]> (replicate 16 0)) (demo_task 0 2)]}
        (demo 0 2))).

Definition demo_desc_lists (h : Z) : list Z :=
  if decide (h = 3) then [0x42000; 0x41000] else [].

Lemma demo_descs_ok : desc_table demo_descs 0x10000 demo_desc_lists.
Proof.
  eexists. split; [reflexivity|]. split; [reflexivity|]. intros h Hh. unfold demo_desc_lists.
  case_decide as Hh3.
  - subst. split; [reflexivity|]. split; [by_dll|]. elems; eexists; split; reflexivity.
  - split_and!; [|apply dll_nil|by intros p []%not_elem_of_nil].
    change (<[3%nat := 0x42000]> (replicate 16 0) !! Z.to_nat h = Some 0).
    rewrite list_lookup_insert_ne by lia. apply lookup_replicate_2. lia.
Qed.

Lemma descriptor_set_then_find_witness :
  ∃ r s', run 1 0 (anscheduler_descriptor_set 0x10000 0x43000;;
                   anscheduler_descriptor_find 0x10000 0x23) demo_descs = Done r s' ∧
    desc_table s' 0x10000 (set_bucket 3 [0x43000; 0x42000; 0x41000] demo_desc_lists) ∧
    if decide (0 = 0)
    then r = 0x43000 ∧ desc_refCount <$> k_descs s' !! 0x43000 = Some (u64 (1 + 1))
    else r = NULL ∧ desc_refCount <$> k_descs s' !! 0x43000 = Some 1.
Proof.
  apply (descriptor_set_then_find 1 0 demo_descs 0x10000 demo_desc_lists 0x43000 (demo_desc 0 0 0x23)).
  - apply demo_descs_ok.
  - reflexivity.
  - by_dec.
  - done.
  - by_dec.
  - by_dec.
  - lia.
Defined.

Lemma descriptor_find_never_returns_witness :
  run 1000 0 (anscheduler_descriptor_find 0x10000 3) demo_descs
  = Stop s_fuel (add_lock (socketsLock 0x10000) demo_descs).
Proof.
  apply (descriptor_find_never_returns 1000 0 demo_descs 0x10000 demo_desc_lists 3 0x42000 [0x41000]
    (demo_desc 0x41000 0 0x13)).
  - apply demo_descs_ok.
  - reflexivity.
  - reflexivity.
  - done.
  - by_dec.
Defined.

Lemma descriptor_delete_removes_witness :
  ∃ (b : bool) s', run 0 0 (anscheduler_descriptor_delete (H := P0) 0x10000 0x41000) demo_descs
      = Done () s' ∧
    desc_table s' 0x10000 (set_bucket 3 [0x42000] demo_desc_lists) ∧
    k_locks s' = k_locks demo_descs ∧
    fld (k_descs s') desc_next 0x41000 = NULL ∧ fld (k_descs s') desc_last 0x41000 = NULL ∧
    idx_ok (root_descriptors 0x10000) s' (if b then ix_put 3 ix_init else ix_init) ∧
    (new_page (H := P0) demo_descs ≠ NULL → b = true).
Proof.
  apply (descriptor_delete_removes (H := P0) 0 0 demo_descs 0x10000 demo_desc_lists 0x41000
    (demo_desc 0 0x42000 3) [0x42000] [] ix_init).
  - apply mem_ok_dom; [by_dec|]. repeat split; by_dec.
  - apply demo_descs_ok.
  - reflexivity.
  - reflexivity.
  - eapply demo_chain_ok; first [reflexivity|by_dec|by split_and!].
  - by_dec.
  - by_dec.
Defined.
