(* ===== verification/PendingList.v ===== *)
(** * PendingList: the sockets of a task that have messages (src/socketlist.c)

    [firstPending] heads a list through [pendingNext]; [pendingLast] links back,
    except that [anscheduler_task_pop_pending] leaves the new first element's
    pointing at the one it has removed. The operations are in SocketList.v. *)
From S2P Require Import Prelude Types Machine Demo Idxset PidMap SocketList DescTable.

(** ** The invariant *)

(** What the list promises: forward links, which is all that popping uses, ... *)
Definition pending_chain (s : kst) (T : Z) (l : list Z) : Prop :=
  sll (fld (k_descs s) desc_pendingNext) l ∧
  (∀ p, p ∈ l → is_Some (k_descs s !! p)) ∧
  task_firstPending <$> k_tasks s !! T = Some (hd0 NULL l).

(** ... and back links as well, which is what removing from the middle needs. *)
Definition pending_ok (s : kst) (T : Z) (l : list Z) : Prop :=
  dll (fld (k_descs s) desc_pendingNext) (fld (k_descs s) desc_pendingLast) l ∧
  (∀ p, p ∈ l → is_Some (k_descs s !! p)) ∧
  task_firstPending <$> k_tasks s !! T = Some (hd0 NULL l).

(** Descriptors that are not pending have null links. *)
Definition not_pending (o : socket_desc_t) : Prop :=
  desc_pendingNext o = NULL ∧ desc_pendingLast o = NULL.

Definition pending_body (d : socket_desc_t) : socket_desc_t :=
  set_desc_pendingNext NULL (set_desc_pendingLast NULL d).

(** What an operation on the list may change. *)
Definition pending_step (T : Z) (s s' : kst) : Prop :=
  s' = set_k_tasks (k_tasks s') (set_k_descs (k_descs s') s) ∧
  (∃ v, k_tasks s' = alter (set_task_firstPending v) T (k_tasks s)) ∧
  ∀ p, pending_body <$> k_descs s' !! p = pending_body <$> k_descs s !! p.

Lemma dlseg_slseg nx pv b l : dlseg nx pv b l NULL → slseg nx l.
Proof. revert b. induction l as [|p l IH]; intros b; [done|]. cbn. naive_solver. Qed.

Lemma pending_ok_chain s T l : pending_ok s T l → pending_chain s T l.
Proof. intros ([Hnd Hs] & Hin & Hf). split; [split; [done|by eapply dlseg_slseg]|done]. Qed.

(** ** Entering *)

Lemma pending_spec n c s T l d o :
  pending_ok s T l → k_descs s !! d = Some o → d ≠ NULL → (d ∉ l → not_pending o) →
  pendingLock T ∉ k_locks s →
  ∃ s', run n c (anscheduler_task_pending T d) s = Done () s' ∧
    if decide (d ∈ l) then s' = s else pending_ok s' T (d :: l) ∧ pending_step T s s'.
Proof.
  intros (Hd & Hin & Hf) Ho Hd0 Hnp Hl.
  apply fmap_Some in Hf as (tk & Htk & Hfst). unfold anscheduler_task_pending. steps.
  destruct (decide (d ∈ l)) as [Hdl|Hdl].
  - apply list_elem_of_split in Hdl as (l1 & l2 & ->).
    destruct (dll_links _ _ _ _ _ Hd) as [Hn Hp].
    rewrite (fld_lookup _ _ _ _ Ho) in Hn. rewrite (fld_lookup _ _ _ _ Ho) in Hp.
    rewrite decide_True; [steps; eexists; split; [done|kst_eq]|].
    destruct l1 as [|a l1]; [right; right; simpl in Hfst; by rewrite <- Hfst|].
    left. rewrite Hp. eapply dll_nonnull; [exact Hd|].
    pose proof (lst_elem_of NULL (a :: l1)). set_solver.
  - destruct (Hnp Hdl) as [Hn Hp]. pose proof (hd0_ne d l Hdl Hd0) as Hne.
    rewrite decide_False by (rewrite Hn, Hp, <- Hfst; naive_solver). steps.
    rewrite <- Hfst. destruct (decide (hd0 NULL l = NULL)) as [Hz|Hz];
      [rewrite decide_False by auto|rewrite decide_True by done].
    + steps. eexists. split; [done|]. rewrite (hd0_null _ _ _ Hd Hz) in *.
      split; [split_and!|].
      * eapply (dll_push_front (λ _, 0) (λ _, 0));
          [apply dll_nil|set_solver|done|set_solver|set_solver|by flds|by flds].
      * intros p ->%list_elem_of_singleton. simpl. rewrite lookup_insert_eq. eauto.
      * simpl. by rewrite lookup_insert_eq.
      * split; [kst_eq|]. split; [eexists; simpl; by rewrite (alter_lookup _ _ _ _ Htk)|].
        intros p. simpl. rewrite lookup_insert. case_decide; [subst; by rewrite Ho|done].
    + destruct (Hin (hd0 NULL l)) as [ho Hho]; [apply hd0_elem_of; by intros ->|].
      rewrite Hfst in *. steps. rewrite ?Hfst. steps. eexists. split; [done|].
      split; [split_and!|].
      * eapply dll_push_front; [exact Hd|done|done|..]; simpl; rewrite ?Hfst; flds.
      * intros p Hp'. simpl. rewrite !lookup_insert. repeat case_decide; eauto.
        apply elem_of_cons in Hp' as [->|]; [done|auto].
      * simpl. by rewrite lookup_insert_eq.
      * split; [kst_eq|]. split; [eexists; simpl; by rewrite (alter_lookup _ _ _ _ Htk)|].
        intros p. simpl. rewrite !lookup_insert. repeat case_decide; subst; try done;
          by rewrite ?Ho, ?Hho.
Qed.

(** [anscheduler_task_pending] enters a descriptor into its task's pending list
    exactly once: one that is not in the list becomes its first element, for one
    that is, nothing changes; the rest of the list is kept. *)
Theorem task_pending_enters_once n c s T l d o :
  pending_ok s T l → k_descs s !! d = Some o → d ≠ NULL → (d ∉ l → not_pending o) →
  pendingLock T ∉ k_locks s →
  ∃ s', run n c (anscheduler_task_pending T d) s = Done () s' ∧
    if decide (d ∈ l) then s' = s else pending_ok s' T (d :: l) ∧ pending_step T s s'.
Proof. apply pending_spec. Qed.

(** ** Leaving *)

Definition descs_unlinked (d : Z) (o : socket_desc_t) (m : gmap Z socket_desc_t) :=
  <[d := set_desc_pendingNext NULL (set_desc_pendingLast NULL o)]>
    (unlink set_desc_pendingNext set_desc_pendingLast (desc_pendingNext o) (desc_pendingLast o) m).

Definition pending_unlinked (T d : Z) (o : socket_desc_t) (tk : task_t) (s : kst) : kst :=
  set_k_tasks (if decide (desc_pendingLast o = NULL)
               then <[T := set_task_firstPending (desc_pendingNext o) tk]> (k_tasks s) else k_tasks s)
    (set_k_descs (descs_unlinked d o (k_descs s)) s).

Lemma run_unlink_pending n c s T tk d o :
  k_tasks s !! T = Some tk → k_descs s !! d = Some o →
  desc_pendingNext o ≠ d → desc_pendingLast o ≠ d →
  (desc_pendingNext o ≠ NULL → is_Some (k_descs s !! desc_pendingNext o)) →
  (desc_pendingLast o ≠ NULL → is_Some (k_descs s !! desc_pendingLast o)) →
  desc_pendingNext o = NULL ∨ desc_pendingNext o ≠ desc_pendingLast o →
  pendingLock T ∉ k_locks s →
  run n c (unlink_pending T d) (add_lock (pendingLock T) s) =
  Done () (pending_unlinked T d o tk s).
Proof.
  intros HT Ho Hnd Hpd Hn Hp Hnp Hl. unfold unlink_pending, pending_unlinked, descs_unlinked, unlink.
  steps.
  destruct (decide (desc_pendingLast o = NULL)) as [Hp0|Hp0];
    destruct (decide (desc_pendingNext o = NULL)) as [Hn0|Hn0].
  - steps. rewrite decide_False by auto. steps. f_equal. rewrite ?insert_insert_eq. kst_eq.
  - destruct (Hn Hn0) as [no Hno]. steps. rewrite decide_True by done. steps.
    rewrite (alter_lookup _ _ _ _ Hno). f_equal. rewrite ?insert_insert_eq. kst_eq.
  - destruct (Hp Hp0) as [po Hpo]. steps. rewrite decide_False by auto. steps.
    rewrite (alter_lookup _ _ _ _ Hpo). f_equal. rewrite ?insert_insert_eq. kst_eq.
  - destruct (Hp Hp0) as [po Hpo]. destruct (Hn Hn0) as [no Hno].
    destruct Hnp as [?|Hnp]; [done|].
    steps. rewrite decide_True by done. steps. rewrite (alter_lookup _ _ _ _ Hpo).
    rewrite (alter_lookup _ _ _ no) by (by rewrite lookup_insert_ne).
    f_equal. rewrite ?insert_insert_eq. kst_eq.
Qed.

Lemma pending_unlinked_ok s T tk d o l1 l2 :
  pending_ok s T (l1 ++ d :: l2) → k_tasks s !! T = Some tk → k_descs s !! d = Some o →
  pending_ok (pending_unlinked T d o tk s) T (l1 ++ l2) ∧
  pending_step T s (pending_unlinked T d o tk s).
Proof.
  intros (Hd & Hin & Hf) HT Ho.
  destruct (unlink_neighbours _ _ _ _ _ _ _ Hd Ho) as (Hn & Hp & _).
  assert (d ∉ l1 ++ l2) as Hdl.
  { pose proof (dll_NoDup _ _ _ Hd) as (_ & ? & [? _]%NoDup_cons)%NoDup_app. set_solver. }
  assert (∀ p, pending_body <$> descs_unlinked d o (k_descs s) !! p
               = pending_body <$> k_descs s !! p) as Hb.
  { intros p. unfold descs_unlinked. rewrite lookup_insert.
    case_decide; [subst; by rewrite Ho|].
    by apply (unlink_body set_desc_pendingNext set_desc_pendingLast). }
  split; [split_and!|split_and!].
  - simpl. unfold descs_unlinked. eapply dll_ext;
      [| |eapply (unlink_dll _ _ set_desc_pendingNext set_desc_pendingLast); [exact Hd|exact Ho|]];
      [intros p Hpi; apply fld_insert_ne; by intros ->..|].
    intros p Hpi. apply Hin. set_solver.
  - intros p Hpi. rewrite <- (fmap_is_Some pending_body). simpl. rewrite Hb.
    apply fmap_is_Some, Hin. set_solver.
  - simpl. rewrite HT in Hf. simpl in Hf. rewrite Hp. destruct l1 as [|a l1].
    + rewrite decide_True, lookup_insert_eq by done. simpl. by rewrite Hn.
    + rewrite decide_False, HT; [done|]. eapply dll_nonnull; [exact Hd|].
      pose proof (lst_elem_of NULL (a :: l1)). set_solver.
  - by destruct s.
  - unfold pending_unlinked. simpl. case_decide.
    + eexists. by rewrite (alter_lookup _ _ _ _ HT).
    + exists (task_firstPending tk). rewrite (alter_lookup _ _ _ _ HT), insert_id; [done|].
      rewrite HT. by destruct tk.
  - exact Hb.
Qed.

Lemma not_pending_spec n c s T l d o :
  pending_ok s T l → k_descs s !! d = Some o → d ≠ NULL → (d ∉ l → not_pending o) →
  pendingLock T ∉ k_locks s →
  ∃ s', run n c (anscheduler_task_not_pending T d) s = Done () s' ∧
    pending_ok s' T (filter (λ p, p ≠ d) l) ∧ pending_step T s s' ∧
    fld (k_descs s') desc_pendingNext d = NULL ∧ fld (k_descs s') desc_pendingLast d = NULL.
Proof.
  intros Hok Ho Hd0 Hnp Hl. pose proof Hok as (Hd & Hin & Hf).
  pose proof Hf as (tk & Htk & Hfst)%fmap_Some.
  unfold anscheduler_task_not_pending. steps.
  destruct (decide (d ∈ l)) as [Hdl|Hdl].
  - apply list_elem_of_split in Hdl as (l1 & l2 & ->).
    destruct (unlink_neighbours _ _ _ _ _ _ _ Hd Ho) as (Hn & Hp & Hnd & Hpd & Hni & Hpi).
    pose proof (unlink_neighbours_ne _ _ _ _ _ _ _ Hd Ho) as Hne.
    destruct (pending_unlinked_ok s T tk d o l1 l2 Hok Htk Ho) as [Hok' Hst].
    assert (d ∉ l1 ++ l2) as Hdl.
    { pose proof (dll_NoDup _ _ _ Hd) as (_ & ? & [? _]%NoDup_cons)%NoDup_app. set_solver. }
    assert (filter (λ p, p ≠ d) (l1 ++ d :: l2) = l1 ++ l2) as Hfl.
    { rewrite filter_app, filter_cons_False, <- filter_app by auto.
      apply filter_all. by intros p Hp' ->. }
    exists (pending_unlinked T d o tk s).
    assert (run n c (unlink_pending T d) (add_lock (pendingLock T) s)
            = Done () (pending_unlinked T d o tk s)) as Hrun.
    { apply run_unlink_pending; try done; intros H0; apply Hin; set_solver. }
    split; [|rewrite Hfl; split_and!; try done; simpl; unfold descs_unlinked;
             by rewrite fld_insert_eq].
    destruct (decide (desc_pendingLast o = NULL ∧ desc_pendingNext o = NULL)) as [[Hp0 Hn0]|];
      [|done].
    destruct (dll_alone _ _ _ _ _ Hd) as [-> ->];
      [by rewrite (fld_lookup _ _ _ _ Ho)|by rewrite (fld_lookup _ _ _ _ Ho)|].
    simpl in Hfst. steps. rewrite <- Hfst, decide_False by auto. done.
  - destruct (Hnp Hdl) as [Hn Hp].
    rewrite decide_True by done. steps. rewrite decide_True.
    + steps. eexists. split; [done|].
      rewrite filter_all by (by intros p Hp' ->).
      match goal with |- pending_ok ?st _ _ ∧ _ => replace st with s by kst_eq end.
      split; [done|]. split; [|by rewrite !(fld_lookup _ _ _ _ Ho)].
      split; [by destruct s|]. split; [|done]. exists (task_firstPending tk).
      rewrite (alter_lookup _ _ _ _ Htk), insert_id; [done|]. rewrite Htk. by destruct tk.
    + rewrite <- Hfst. intros He. apply Hdl. rewrite <- He. apply hd0_elem_of.
      intros ->. by apply Hd0.
Qed.

(** C33. [anscheduler_task_not_pending] undoes it: a descriptor of the pending list
    leaves it, wherever it stands, and its links are null; one that is not in the
    list is left alone. The other descriptors stay pending, in order. *)
Theorem task_not_pending_removes n c s T l d o :
  pending_ok s T l → k_descs s !! d = Some o → d ≠ NULL → (d ∉ l → not_pending o) →
  pendingLock T ∉ k_locks s →
  ∃ s', run n c (anscheduler_task_not_pending T d) s = Done () s' ∧
    pending_ok s' T (filter (λ p, p ≠ d) l) ∧ pending_step T s s' ∧
    fld (k_descs s') desc_pendingNext d = NULL ∧ fld (k_descs s') desc_pendingLast d = NULL.
Proof. apply not_pending_spec. Qed.

(** ** Popping *)

(** The first descriptor of the list that is not closed, and what follows it. *)
Fixpoint first_open (m : gmap Z socket_desc_t) (l : list Z) : option (Z * list Z) :=
  match l with
  | [] => None
  | p :: l' => if decide (fld m desc_isClosed p = 0) then Some (p, l') else first_open m l'
  end.

Lemma first_open_ext m m' l :
  (∀ p, p ∈ l → m' !! p = m !! p) → first_open m' l = first_open m l.
Proof.
  induction l as [|p l IH]; intros Hm; [done|]. simpl.
  unfold fld. rewrite (Hm p) by set_solver. rewrite IH by set_solver. done.
Qed.

Lemma first_open_split m l d l2 :
  first_open m l = Some (d, l2) → ∃ l1, l = l1 ++ d :: l2 ∧ fld m desc_isClosed d = 0 ∧
    ∀ p, p ∈ l1 → fld m desc_isClosed p ≠ 0.
Proof.
  revert d l2. induction l as [|p l IH]; intros d l2; simpl; [done|]. case_decide as Hp.
  - intros [= -> ->]. exists []. split; [done|]. split; [done|]. set_solver.
  - intros (l1 & -> & Hd & Hl1)%IH. exists (p :: l1). split; [done|]. split; [done|].
    intros q [->|?]%elem_of_cons; auto.
Qed.

Section pop.
Context (n c : nat) (T : Z).

(** A popped descriptor. *)
Definition popped (d : Z) (o : socket_desc_t) (v : Z) (tk : task_t) (s : kst) : kst :=
  set_k_descs (<[d := set_desc_pendingNext NULL (set_desc_pendingLast NULL o)]> (k_descs s))
    (set_k_tasks (<[T := set_task_firstPending v tk]> (k_tasks s)) s).

Lemma popped_chain s d l o tk :
  pending_chain s T (d :: l) → k_tasks s !! T = Some tk →
  pending_chain (popped d o (hd0 NULL l) tk s) T l.
Proof.
  intros (Hs & Hin & Hf) HT. apply sll_tail in Hs as (Hs & Hdl & Hd0 & Hn).
  split_and!.
  - eapply sll_ext; [|exact Hs]. intros p Hp. simpl. apply fld_insert_ne. by intros ->.
  - intros p Hp. simpl. rewrite lookup_insert_ne by (by intros ->). apply Hin. by right.
  - simpl. by rewrite lookup_insert_eq.
Qed.

Lemma pending_chain_ext s s' l :
  pending_chain s T l → k_tasks s' = k_tasks s →
  (∀ p, p ∈ l → k_descs s' !! p = k_descs s !! p) → pending_chain s' T l.
Proof.
  intros (Hs & Hin & Hf) Ht Hd. split_and!; [|intros p Hp; rewrite Hd; auto|by rewrite Ht].
  eapply sll_ext; [|exact Hs]. intros p Hp. unfold fld. by rewrite Hd.
Qed.

(** What [anscheduler_task_pop_pending] leaves, with the list [l] before. *)
Definition pop_result (s : kst) (l : list Z) (r : Z) (s' : kst) : Prop :=
  k_locks s' = k_locks s ∖ {[pendingLock T]} ∧
  match first_open (k_descs s) l with
  | Some (d, l2) =>
      r = d ∧ pending_chain s' T l2 ∧
      (∀ p, p ∈ l2 → k_descs s' !! p = k_descs s !! p) ∧
      ∃ o, k_descs s' !! d = Some o ∧ not_pending o ∧
        desc_refCount o = u64 (fld (k_descs s) desc_refCount d + 1)
  | None => r = NULL ∧ pending_chain s' T []
  end.

Lemma pop_loop l : ∀ m s,
  pending_chain s T l → pendingLock T ∈ k_locks s → (∀ p, closeLock p ∉ k_locks s) →
  (length l < m)%nat →
  ∃ r s', iterate m (λ x s, run n c (pop_pending_body T x) s) (λ b s, run n c (mret b) s)
            (hd0 NULL l) s = Done r s' ∧ pop_result s l r s'.
Proof.
  induction l as [|d l IH]; intros m s Hch Hl Hcl Hm; (destruct m as [|m]; [simpl in Hm; lia|]);
    pose proof Hch as (Hs & Hin & (tk & Htk & Hfst)%fmap_Some); rewrite iterate_S;
    unfold pop_pending_body at 1.
  - rewrite decide_False by auto. steps. do 2 eexists. split; [done|]. split; [done|].
    split; [done|]. split_and!; [apply sll_nil|set_solver|simpl; by rewrite Htk, Hfst].
  - apply sll_tail in Hs as (Hs & Hdl & Hd0 & Hn).
    destruct (Hin d) as [o Ho]; [by left|]. rewrite (fld_lookup _ _ _ _ Ho) in Hn.
    change (hd0 NULL (d :: l)) with d in *. rewrite decide_True by done. steps. rewrite Hn, insert_insert_eq.
    match goal with |- context [run _ _ _ ?st] => change st with (popped d o (hd0 NULL l) tk s) end.
    pose proof (popped_chain s d l o tk Hch Htk) as Hch1.
    set (s1 := popped d o (hd0 NULL l) tk s) in *.
    assert (k_descs s1 !! d = Some (set_desc_pendingNext NULL (set_desc_pendingLast NULL o)))
      as Ho1 by apply lookup_insert_eq.
    assert (∀ p, p ∈ l → k_descs s1 !! p = k_descs s !! p) as Hsame.
    { intros p Hp. apply lookup_insert_ne. by intros ->. }
    rewrite run_bind, (socket_reference_spec n c s1 d _ Ho1) by apply Hcl.
    unfold pop_result. cbn [first_open]. rewrite (fld_lookup _ _ _ _ Ho). cbn [desc_isClosed set_desc_pendingNext set_desc_pendingLast].
    destruct (decide (desc_isClosed o = 0)) as [Hc|Hc].
    + cbn iota. rewrite run_unlock; [|done|by apply bool_decide_eq_true; exists (set_task_firstPending (hd0 NULL l) tk); apply lookup_insert_eq].
      rewrite run_ret, run_ret. do 2 eexists. split; [done|]. split; [done|]. split; [done|].
      split; [|split].
      * eapply pending_chain_ext; [exact Hch1|done|]. intros p Hp. apply lookup_insert_ne.
        by intros ->.
      * intros p Hp. rewrite <- Hsame by done. apply lookup_insert_ne. by intros ->.
      * eexists. split; [apply lookup_insert_eq|]. rewrite (fld_lookup _ _ _ _ Ho). done.
    + erewrite run_rd by (apply lookup_insert_eq). rewrite run_ret.
      destruct (IH m s1) as (r & s' & Hrun & Hlk & Hr); try done; [simpl in Hm; lia|].
      exists r, s'. split; [exact Hrun|]. split; [done|].
      rewrite (first_open_ext _ _ _ Hsame) in Hr.
      destruct (first_open (k_descs s) l) as [[d' l2]|] eqn:Hfo; [|done].
      apply first_open_split in Hfo as (l1 & -> & _).
      destruct Hr as (-> & Hch' & Hk & o' & Ho' & Hnp & Hrc). split; [done|]. split; [done|].
      split; [intros p Hp; rewrite Hk by done; apply Hsame; set_solver|].
      exists o'. split; [done|]. split; [done|]. rewrite Hrc. unfold fld.
      by rewrite Hsame by set_solver.
Qed.

(** C32. [anscheduler_task_pop_pending] always returns, and yields the first
    descriptor of the pending list that has not been closed, with a reference to it
    and out of the list; the closed ones before it are dropped, those behind it stay
    pending, in order and untouched. When there is none, it yields NULL and the list
    is empty. Back links are not needed, so stale ones do no harm here. *)
Theorem task_pop_pending_yields_first_open s l :
  pending_chain s T l → pendingLock T ∉ k_locks s → (∀ p, closeLock p ∉ k_locks s) →
  (length l < n)%nat →
  ∃ r s', run n c (anscheduler_task_pop_pending T) s = Done r s' ∧ k_locks s' = k_locks s ∧
    match first_open (k_descs s) l with
    | Some (d, l2) =>
        r = d ∧ pending_chain s' T l2 ∧
        (∀ p, p ∈ l2 → k_descs s' !! p = k_descs s !! p) ∧
        ∃ o, k_descs s' !! d = Some o ∧ not_pending o ∧
          desc_refCount o = u64 (fld (k_descs s) desc_refCount d + 1)
    | None => r = NULL ∧ pending_chain s' T []
    end.
Proof.
  intros Hch Hl Hcl Hn. pose proof Hch as (_ & _ & (tk & Htk & Hfst)%fmap_Some).
  unfold anscheduler_task_pop_pending. steps. rewrite run_tail, run_while, <- Hfst.
  destruct (pop_loop l n (add_lock (pendingLock T) s)) as (r & s' & Hrun & Hlk & Hr); try done.
  - simpl. set_solver.
  - intros p. simpl. specialize (Hcl p). set_solver.
  - exists r, s'. split; [exact Hrun|]. split; [|exact Hr]. rewrite Hlk. simpl. set_solver.
Qed.
End pop.

(** The back link that [anscheduler_task_pop_pending] leaves behind breaks
    [anscheduler_task_not_pending]: of two pending descriptors, after the first has
    been popped, removing the second, which now is the first, does not remove it.
    The task's list still starts with it, although the caller may go on to free it,
    and the descriptors behind it are lost. *)
Theorem pop_then_not_pending_keeps_descriptor n c s T a b l :
  pending_ok s T (a :: b :: l) → fld (k_descs s) desc_isClosed a = 0 →
  pendingLock T ∉ k_locks s → (∀ p, closeLock p ∉ k_locks s) → (length l + 2 < n)%nat →
  ∃ s', run n c (p ← anscheduler_task_pop_pending T; anscheduler_task_not_pending T b) s
        = Done () s' ∧ pending_chain s' T [b].
Proof.
  intros Hok Ha Hl Hcl Hn. pose proof (pending_ok_chain _ _ _ Hok) as Hch.
  pose proof Hok as (Hd & Hin & Hf). pose proof Hf as (tk & Htk & Hfst)%fmap_Some.
  destruct (dll_links _ _ [a] b l Hd) as [Hbn Hbp].
  destruct (Hin b) as [bo Hbo]; [set_solver|].
  rewrite (fld_lookup _ _ _ _ Hbo) in Hbn. rewrite (fld_lookup _ _ _ _ Hbo) in Hbp.
  assert (a ≠ NULL ∧ b ≠ NULL) as [Ha0 Hb0] by (split; eapply dll_nonnull; [exact Hd|set_solver..]).
  assert (a ≠ b ∧ b ∉ l ∧ a ∉ l) as (Hab & Hbl & Hal).
  { pose proof (dll_NoDup _ _ _ Hd) as [? [? _]%NoDup_cons]%NoDup_cons. set_solver. }
  destruct (pop_loop n c T (a :: b :: l) n (add_lock (pendingLock T) s))
    as (r & s1 & Hrun & Hlk & Hr); [done|simpl; set_solver|intros p; specialize (Hcl p); simpl; set_solver|simpl; lia|].
  cbn [first_open] in Hr. change (k_descs (add_lock _ s)) with (k_descs s) in Hr.
  rewrite decide_True in Hr by done. destruct Hr as (-> & Hch1 & Hk & ao & Hao & Hnp & _).
  assert (k_descs s1 !! b = Some bo) as Hbo1 by (rewrite Hk; [done|set_solver]).
  pose proof Hch1 as (_ & _ & (tk1 & Htk1 & Hfst1)%fmap_Some).
  assert (pendingLock T ∉ k_locks s1) as Hl1 by (rewrite Hlk; simpl; set_solver).
  assert (run n c (anscheduler_task_pop_pending T) s = Done a s1) as Hpop.
  { unfold anscheduler_task_pop_pending. steps. by rewrite run_tail, run_while, <- Hfst. }
  rewrite (run_call _ _ _ _ _ _ _ Hpop). clear Hpop Hrun.
  change (lst NULL [a]) with a in Hbp.
  exists (pending_unlinked T b bo tk1 s1). split.
  - unfold anscheduler_task_not_pending. steps. rewrite Hbp, decide_False by (intros []; done).
    apply run_unlink_pending; rewrite ?Hbp; try done.
    + rewrite Hbn. destruct l; [done|simpl; set_solver].
    + rewrite Hbn. intros H0. destruct l as [|q l]; [done|]. rewrite Hk by (simpl; set_solver).
      apply Hin. simpl. set_solver.
    + rewrite Hbn. destruct l as [|q l]; [by left|]. right. simpl. set_solver.
  - split_and!.
    + split; [apply NoDup_singleton|]. split; [done|]. split; [|done]. simpl. unfold descs_unlinked.
      by rewrite fld_insert_eq.
    + intros p ->%list_elem_of_singleton. simpl. unfold descs_unlinked. rewrite lookup_insert_eq. eauto.
    + simpl. rewrite decide_False by congruence. rewrite Htk1. simpl. by rewrite <- Hfst1.
Qed.

(** ** Witnesses

    The demo task's pending list is 0x41000, 0x42000, 0x43000; the first is closed
    in [demo_pending 1]. *)
Definition demo_pending_desc (next last closed : Z) : socket_desc_t :=
  mk_desc 0 0 next last 0x40000 3 1 0x10000 closed 1 0.

Definition demo_pending (closed : Z) : kst :=
  set_k_descs (list_to_map [(0x41000, demo_pending_desc 0x42000 0 closed);
      (0x42000, demo_pending_desc 0x43000 0x41000 0); (0x43000, demo_pending_desc 0 0x42000 0);
      (0x44000, demo_pending_desc 0 0 0)])
    (set_k_tasks {[0x10000 := set_task_firstPending 0x41000 (demo_task 0 2)]} (demo 0 2)).

Lemma demo_pending_ok closed : pending_ok (demo_pending closed) 0x10000 [0x41000; 0x42000; 0x43000].
Proof. split; [by_dll|]. split; [elems; by_vm|reflexivity]. Qed.

Lemma task_pending_enters_once_witness :
  ∃ s', run 0 0 (anscheduler_task_pending 0x10000 0x44000) (demo_pending 0) = Done () s' ∧
    if decide (0x44000 ∈ [0x41000; 0x42000; 0x43000]) then s' = demo_pending 0
    else pending_ok s' 0x10000 [0x44000; 0x41000; 0x42000; 0x43000] ∧
         pending_step 0x10000 (demo_pending 0) s'.
Proof.
  apply (task_pending_enters_once 0 0 (demo_pending 0) 0x10000 [0x41000; 0x42000; 0x43000] 0x44000
    (demo_pending_desc 0 0 0)).
  - apply demo_pending_ok.
  - reflexivity.
  - done.
  - done.
  - by_dec.
Defined.

Lemma task_not_pending_removes_witness :
  ∃ s', run 0 0 (anscheduler_task_not_pending 0x10000 0x42000) (demo_pending 0) = Done () s' ∧
    pending_ok s' 0x10000 (filter (λ p, p ≠ 0x42000) [0x41000; 0x42000; 0x43000]) ∧
    pending_step 0x10000 (demo_pending 0) s' ∧
    fld (k_descs s') desc_pendingNext 0x42000 = NULL ∧
    fld (k_descs s') desc_pendingLast 0x42000 = NULL.
Proof.
  apply (task_not_pending_removes 0 0 (demo_pending 0) 0x10000 [0x41000; 0x42000; 0x43000] 0x42000
    (demo_pending_desc 0x43000 0x41000 0)).
  - apply demo_pending_ok.
  - reflexivity.
  - done.
  - intros []. set_solver.
  - by_dec.
Defined.

Lemma task_pop_pending_yields_first_open_witness :
  ∃ r s', run 4 0 (anscheduler_task_pop_pending 0x10000) (demo_pending 1) = Done r s' ∧
    k_locks s' = k_locks (demo_pending 1) ∧
    match first_open (k_descs (demo_pending 1)) [0x41000; 0x42000; 0x43000] with
    | Some (d, l2) =>
        r = d ∧ pending_chain s' 0x10000 l2 ∧
        (∀ p, p ∈ l2 → k_descs s' !! p = k_descs (demo_pending 1) !! p) ∧
        ∃ o, k_descs s' !! d = Some o ∧ not_pending o ∧
          desc_refCount o = u64 (fld (k_descs (demo_pending 1)) desc_refCount d + 1)
    | None => r = NULL ∧ pending_chain s' 0x10000 []
    end.
Proof.
  apply (task_pop_pending_yields_first_open 4 0 0x10000 (demo_pending 1)).
  - apply pending_ok_chain, demo_pending_ok.
  - by_dec.
  - intros p. by apply not_elem_of_empty.
  - simpl. lia.
Defined.

Lemma pop_then_not_pending_keeps_descriptor_witness :
  ∃ s', run 4 0 (p ← anscheduler_task_pop_pending 0x10000;
                 anscheduler_task_not_pending 0x10000 0x42000) (demo_pending 0) = Done () s' ∧
    pending_chain s' 0x10000 [0x42000].
Proof.
  apply (pop_then_not_pending_keeps_descriptor 4 0 (demo_pending 0) 0x10000 0x41000 0x42000 [0x43000]).
  - apply demo_pending_ok.
  - reflexivity.
  - by_dec.
  - intros p. by apply not_elem_of_empty.
  - simpl. lia.
Defined.
