(* ===== verification/Socket.v ===== *)
(** * Socket: sockets and messages (src/socket.c)

    A [socket_t] has two message queues, one for each end. The functions that work
    on the queue of one end take pointers to its four fields in C; here the end is
    a [side] and the four fields are its accessors. *)
From S2P Require Import Prelude Types Machine Demo Idxset RunQueue PagerQueue TaskRef Loop SocketList.

(** ** The two queues of a socket *)

Inductive side := forConnector | forReceiver.

(** The side a descriptor reads from. *)
Definition side_of (isConnector : Z) : side :=
  if decide (isConnector ≠ 0) then forConnector else forReceiver.

Definition side_lock (d : side) (sock : Z) : lock_id :=
  match d with forConnector => forConnectorLock sock | forReceiver => forReceiverLock sock end.
Definition side_count (d : side) (o : socket_t) : Z :=
  match d with
  | forConnector => sock_forConnectorCount o
  | forReceiver => sock_forReceiverCount o
  end.
Definition side_first (d : side) (o : socket_t) : Z :=
  match d with
  | forConnector => sock_forConnectorFirst o
  | forReceiver => sock_forReceiverFirst o
  end.
Definition side_last (d : side) (o : socket_t) : Z :=
  match d with
  | forConnector => sock_forConnectorLast o
  | forReceiver => sock_forReceiverLast o
  end.
Definition set_side_count (d : side) (v : Z) (o : socket_t) : socket_t :=
  match d with
  | forConnector => set_sock_forConnectorCount v o
  | forReceiver => set_sock_forReceiverCount v o
  end.
Definition set_side_first (d : side) (v : Z) (o : socket_t) : socket_t :=
  match d with
  | forConnector => set_sock_forConnectorFirst v o
  | forReceiver => set_sock_forReceiverFirst v o
  end.
Definition set_side_last (d : side) (v : Z) (o : socket_t) : socket_t :=
  match d with
  | forConnector => set_sock_forConnectorLast v o
  | forReceiver => set_sock_forReceiverLast v o
  end.

(** ** Queue operations *)

(** The part of [_push_message] between taking and releasing the lock. *)
Definition push_locked (d : side) (sock msg : Z) : prog () :=
  count ← rd sock (side_count d);
  wr sock (set_side_count d (u64 (count + 1)));;
  wr msg (set_msg_next NULL);;
  last ← rd sock (side_last d);
  if decide (last = NULL) then
    wr sock (set_side_first d msg);;
    wr sock (set_side_last d msg)
  else
    last ← rd sock (side_last d);
    wr last (set_msg_next msg);;
    wr sock (set_side_last d msg).

Definition _push_message (dest msg : Z) : prog bool :=
  isConnector ← rd dest desc_isConnector;
  sock ← rd dest desc_socket;
  let d := side_of isConnector in
  anscheduler_lock (side_lock d sock);;
  type ← rd msg msg_type;
  full ← (if decide (type = ANSCHEDULER_MSG_TYPE_DATA) then
            count ← rd sock (side_count d);
            mret (bool_decide (ANSCHEDULER_SOCKET_MSG_MAX ≤ count))
          else mret false);
  if (full : bool) then
    anscheduler_unlock (side_lock d sock);;
    mret false
  else
    push_locked d sock msg;;
    anscheduler_unlock (side_lock d sock);;
    mret true.

Definition anscheduler_socket_read (dest : Z) : prog Z :=
  isConnector ← rd dest desc_isConnector;
  sock ← rd dest desc_socket;
  let d := side_of isConnector in
  anscheduler_lock (side_lock d sock);;
  count ← rd sock (side_count d);
  if decide (count = 0) then
    anscheduler_unlock (side_lock d sock);;
    mret NULL
  else
  res ← rd sock (side_first d);
  next ← rd res msg_next;
  (if decide (next = NULL) then
     wr sock (set_side_last d NULL);;
     wr sock (set_side_first d NULL)
   else
     next ← rd res msg_next;
     wr sock (set_side_first d next));;
  count ← rd sock (side_count d);
  wr sock (set_side_count d (u64 (count - 1)));;
  wr res (set_msg_next NULL);;
  anscheduler_unlock (side_lock d sock);;
  mret res.

(** ** Links *)

(** Reading the other end of [socket] and, when it is there, referencing it; the
    caller holds [connRecLock]. The result is NULL when there is none or it is
    closed. *)
Definition reference_other_end (socket sock : Z) : prog Z :=
  isConnector ← rd socket desc_isConnector;
  otherEnd ← (if decide (isConnector ≠ 0) then rd sock sock_receiver
              else rd sock sock_connector);
  if decide (otherEnd ≠ NULL) then
    ok ← anscheduler_socket_reference otherEnd;
    mret (if (ok : bool) then otherEnd else NULL)
  else mret NULL.

(** [if (socket->isConnector) sock->connector = NULL; else sock->receiver = NULL;
    shouldFree = sock->receiver == sock->connector;] *)
Definition drop_link (socket sock : Z) : prog bool :=
  isConnector ← rd socket desc_isConnector;
  (if decide (isConnector ≠ 0) then wr sock (set_sock_connector NULL)
   else wr sock (set_sock_receiver NULL));;
  receiver ← rd sock sock_receiver;
  connector ← rd sock sock_connector;
  mret (bool_decide (receiver = connector)).

Definition anscheduler_socket_close (socket code : Z) : prog () :=
  anscheduler_lock (closeLock socket);;
  closed ← rd socket desc_isClosed;
  (if decide (closed = 0) then wr socket (set_desc_closeCode code) else mret ());;
  wr socket (set_desc_isClosed 1);;
  anscheduler_unlock (closeLock socket).

Definition anscheduler_socket_for_descriptor (desc : Z) : prog Z :=
  task ← anscheduler_cpu_get_task;
  anscheduler_descriptor_find task desc.

Definition anscheduler_socket_next_pending : prog Z :=
  task ← anscheduler_cpu_get_task;
  anscheduler_task_pop_pending task.

(** The bytes of a 64-bit store, on a little-endian machine. *)
Definition le_bytes (v : Z) : list Z :=
  (λ k, u8 (Z.shiftr v (8 * k))) <$> seqZ 0 8.

(** The two loops of [_socket_free]. *)
Definition free_body (d : side) (socket : Z) (_ : ()) : prog (() + ()) :=
  anscheduler_cpu_lock;;
  first ← rd socket (side_first d);
  if decide (first = NULL) then
    anscheduler_cpu_unlock;;
    mret (inr ())
  else
    msg ← rd socket (side_first d);
    next ← rd msg msg_next;
    wr socket (set_side_first d next);;
    anscheduler_free msg;;
    anscheduler_cpu_unlock;;
    mret (inl ()).

Definition free_messages (d : side) (socket : Z) : prog () :=
  while_ () (free_body d socket).

Definition _socket_free (socket : Z) : prog () :=
  free_messages forConnector socket;;
  free_messages forReceiver socket;;
  anscheduler_cpu_lock;;
  anscheduler_free socket;;
  anscheduler_cpu_unlock.

Section ops.
Context `{Platform}.

Definition _create_descriptor (socket task : Z) (isConnector : bool) : prog Z :=
  desc ← anscheduler_alloc sizeof_socket_desc_t;
  if decide (desc = NULL) then mret NULL else
  zero_as desc zero_desc;;
  wr desc (set_desc_socket socket);;
  wr desc (set_desc_task task);;
  wr desc (set_desc_refCount 1);;
  wr desc (set_desc_isConnector (if isConnector then 1 else 0));;
  anscheduler_lock (descriptorsLock task);;
  d ← anidxset_get (root_descriptors task);
  wr desc (set_desc_descriptor d);;
  anscheduler_unlock (descriptorsLock task);;
  anscheduler_lock (connRecLock socket);;
  (if isConnector then wr socket (set_sock_connector desc)
   else wr socket (set_sock_receiver desc));;
  anscheduler_unlock (connRecLock socket);;
  anscheduler_descriptor_set task desc;;
  mret desc.

Definition anscheduler_socket_new : prog Z :=
  socket ← anscheduler_alloc sizeof_socket_t;
  if decide (socket = NULL) then mret NULL else
  zero_as socket zero_socket;;
  task ← anscheduler_cpu_get_task;
  _create_descriptor socket task true.

Definition anscheduler_socket_dereference (socket : Z) : prog () :=
  anscheduler_lock (closeLock socket);;
  closed ← rd socket desc_isClosed;
  count ← rd socket desc_refCount;
  if decide (closed ≠ 0 ∧ count = 0) then anscheduler_unlock (closeLock socket)
  else
  count ← rd socket desc_refCount;
  wr socket (set_desc_refCount (u64 (count - 1)));;
  closed ← rd socket desc_isClosed;
  if decide (u64 (count - 1) = 0 ∧ closed ≠ 0) then
    anscheduler_unlock (closeLock socket);;
    task ← rd socket desc_task;
    anscheduler_task_not_pending task socket;;
    task ← rd socket desc_task;
    anscheduler_descriptor_delete task socket;;
    anscheduler_loop_push_kernel socket fn_socket_hangup
  else anscheduler_unlock (closeLock socket).

Definition _switch_continuation (thread : Z) : prog Empty_set :=
  task ← rd thread thread_task;
  anscheduler_loop_switch task thread.

(** The loop of [_wakeup_endpoint] over the task's threads: the first one that
    polls is switched to, when the current one is resumed the function returns. *)
Definition wakeup_body (task thread : Z) : prog (Z + bool) :=
  if decide (thread ≠ NULL) then
    polling ← rmw thread thread_isPolling (set_thread_isPolling 0);
    if decide (polling ≠ 0) then
      anscheduler_unlock (threadsLock task);;
      curThread ← anscheduler_cpu_get_thread;
      anscheduler_save_return_state curThread (_switch_continuation thread);;
      mret (inr true)
    else
      next ← rd thread thread_next;
      mret (inl next)
  else mret (inr false).

Definition _wakeup_endpoint (dest : Z) : prog () :=
  task ← rd dest desc_task;
  ok ← anscheduler_task_reference task;
  if negb ok then anscheduler_socket_dereference dest else
  task ← rd dest desc_task;
  anscheduler_task_pending task dest;;
  anscheduler_socket_dereference dest;;
  anscheduler_lock (threadsLock task);;
  first ← rd task task_firstThread;
  found ← while_ first (wakeup_body task);
  if (found : bool) then mret () else
  anscheduler_unlock (threadsLock task);;
  task ← rd dest desc_task;
  anscheduler_task_dereference task.

Definition anscheduler_socket_msg (socket msg : Z) : prog bool :=
  sock ← rd socket desc_socket;
  anscheduler_lock (connRecLock sock);;
  otherEnd ← reference_other_end socket sock;
  anscheduler_unlock (connRecLock sock);;
  if decide (otherEnd = NULL) then mret false else
  ok ← _push_message otherEnd msg;
  if negb ok then
    anscheduler_socket_dereference otherEnd;;
    mret false
  else
    anscheduler_socket_dereference socket;;
    _wakeup_endpoint otherEnd;;
    mret true.

Definition anscheduler_socket_msg_async (socket msg : Z) : prog () :=
  ok ← anscheduler_socket_reference socket;
  if negb ok then anscheduler_free msg else
  info ← alloc_as plat_junk_info sizeof_msginfo_t;
  if decide (info = NULL) then
    anscheduler_abort "failed to allocate async message info" else
  wr info (set_info_message msg);;
  wr info (set_info_descriptor socket);;
  anscheduler_loop_push_kernel info fn_async_msg.

(** [data] holds the caller's buffer; reading beyond it is undefined. *)
Definition anscheduler_socket_msg_data (data : list Z) (len : Z) : prog Z :=
  if decide (len >= 0xfe8) then mret NULL else
  msg ← alloc_as plat_junk_msg sizeof_socket_msg_t;
  if decide (msg = NULL) then mret NULL else
  wr msg (set_msg_type ANSCHEDULER_MSG_TYPE_DATA);;
  wr msg (set_msg_len len);;
  for_each (Z.to_nat len) 0 (λ i,
    b ← index data i;
    wr msg (λ o, set_msg_message (nth_set (msg_message o) i b) o));;
  mret msg.

Definition anscheduler_socket_connect (socket task : Z) : prog bool :=
  sock ← rd socket desc_socket;
  connected ← rmw sock sock_hasBeenConnected
    (λ o, set_sock_hasBeenConnected (Z.lor (sock_hasBeenConnected o) 1) o);
  if decide (connected ≠ 0) then mret false else
  sock ← rd socket desc_socket;
  link ← _create_descriptor sock task false;
  if decide (link = NULL) then mret false else
  anscheduler_task_dereference task;;
  anscheduler_socket_dereference link;;
  msg ← alloc_as plat_junk_msg sizeof_socket_msg_t;
  if decide (msg = NULL) then
    anscheduler_abort "failed to allocate connect message" else
  wr msg (set_msg_type ANSCHEDULER_MSG_TYPE_CONNECT);;
  wr msg (set_msg_len 0);;
  ok ← anscheduler_socket_msg socket msg;
  if negb ok then anscheduler_abort "failed to send connect message" else
  mret true.

Definition anscheduler_socket_remote (socket : Z) : prog Z :=
  sock ← rd socket desc_socket;
  anscheduler_lock (connRecLock sock);;
  otherEnd ← reference_other_end socket sock;
  anscheduler_unlock (connRecLock sock);;
  if decide (otherEnd = NULL) then mret NULL else
  task ← rd otherEnd desc_task;
  res ← anscheduler_task_reference task;
  anscheduler_socket_dereference otherEnd;;
  mret (if (res : bool) then task else NULL).

(** The end of both branches of [_socket_hangup]. *)
Definition free_link (socket sock : Z) (shouldFree : bool) : prog () :=
  anscheduler_free socket;;
  if shouldFree then
    anscheduler_cpu_unlock;;
    _socket_free sock;;
    anscheduler_cpu_lock
  else mret ().

Definition _socket_hangup (socket : Z) : prog Empty_set :=
  anscheduler_cpu_lock;;
  sock ← rd socket desc_socket;
  anscheduler_lock (connRecLock sock);;
  otherEnd ← reference_other_end socket sock;
  shouldFree ← (if decide (otherEnd = NULL) then drop_link socket sock else mret false);
  anscheduler_unlock (connRecLock sock);;
  (if decide (otherEnd = NULL) then free_link socket sock shouldFree
   else
     msg ← alloc_as plat_junk_msg sizeof_socket_msg_t;
     if decide (msg = NULL) then
       anscheduler_abort "failed to allocate close message!" else
     wr msg (set_msg_type ANSCHEDULER_MSG_TYPE_CLOSE);;
     wr msg (set_msg_len 8);;
     code ← rd socket desc_closeCode;
     wr msg (λ o, set_msg_message (list_inserts 0 (le_bytes code) (msg_message o)) o);;
     _ ← _push_message otherEnd msg;
     _wakeup_endpoint otherEnd;;
     anscheduler_lock (connRecLock sock);;
     shouldFree ← drop_link socket sock;
     anscheduler_unlock (connRecLock sock);;
     free_link socket sock shouldFree);;
  anscheduler_loop_delete_cur_kernel.

Definition _async_msg (info : Z) : prog Empty_set :=
  anscheduler_cpu_lock;;
  message ← rd info info_message;
  descriptor ← rd info info_descriptor;
  anscheduler_free info;;
  ok ← anscheduler_socket_msg descriptor message;
  (if negb ok then
     anscheduler_free message;;
     anscheduler_socket_dereference descriptor
   else mret ());;
  anscheduler_loop_delete_cur_kernel.

End ops.
