(* ===== verification/MsgQueue.v ===== *)
(** * MsgQueue: the message queues of a socket (src/socket.c)

    Each end of a socket has a queue of messages for it. [_push_message] and
    [anscheduler_socket_read] of Socket.v are shown to implement a pair of bounded
    first-in first-out queues, and [_socket_free] to give up everything in them. *)
From S2P Require Import Prelude Types Machine Demo Idxset RunQueue PagerQueue TaskRef Loop SocketList DescTable PendingList Socket.

(** ** Abstract specification

    The two queues as lists of messages; a request and what it answers. *)
Definition mailbox : Type := side → list Z.

Definition mb_set (d : side) (q : list Z) (mb : mailbox) : mailbox :=
  λ d', match d, d' with
        | forConnector, forConnector | forReceiver, forReceiver => q
        | _, _ => mb d'
        end.

Definition other (d : side) : side :=
  match d with forConnector => forReceiver | forReceiver => forConnector end.

Inductive mail_op := op_send (dest m : Z) | op_recv (dest : Z).
Inductive mail_reply := sent (ok : bool) | got (m : Z).

(** A DATA message is refused when the queue holds 16 messages. *)
Definition refused (type : Z) (q : list Z) : bool :=
  bool_decide (type = ANSCHEDULER_MSG_TYPE_DATA ∧ ANSCHEDULER_SOCKET_MSG_MAX ≤ Z.of_nat (length q)).

(** [types] and [ends] tell the type of a message and the side of a descriptor.
    Sending a message that is in a queue already is outside the contract. *)
Definition mail_abs (types : Z → Z) (ends : Z → side) (o : mail_op) (mb : mailbox) :
    option (mail_reply * mailbox) :=
  match o with
  | op_send dest m =>
      let d := ends dest in
      if decide (m ∈ mb forConnector ∨ m ∈ mb forReceiver) then None
      else if refused (types m) (mb d) then Some (sent false, mb)
      else Some (sent true, mb_set d (mb d ++ [m]) mb)
  | op_recv dest =>
      let d := ends dest in
      match mb d with
      | [] => Some (got NULL, mb)
      | m :: q => Some (got m, mb_set d q mb)
      end
  end.

Fixpoint mails_abs (types : Z → Z) (ends : Z → side) (os : list mail_op) (mb : mailbox) :
    option (list mail_reply * mailbox) :=
  match os with
  | [] => Some ([], mb)
  | o :: os =>
      '(r, mb) ← mail_abs types ends o mb;
      '(rs, mb) ← mails_abs types ends os mb;
      Some (r :: rs, mb)
  end.

(** ** The implementation of a request *)
Definition mail_op_run (o : mail_op) : prog mail_reply :=
  match o with
  | op_send dest m => ok ← _push_message dest m; mret (sent ok)
  | op_recv dest => m ← anscheduler_socket_read dest; mret (got m)
  end.

Fixpoint mail_ops_run (os : list mail_op) : prog (list mail_reply) :=
  match os with
  | [] => mret []
  | o :: os => r ← mail_op_run o; rs ← mail_ops_run os; mret (r :: rs)
  end.

(** ** The representation of a mailbox *)

Definition queue_rep (s : kst) (o : socket_t) (d : side) (q : list Z) : Prop :=
  side_count d o = Z.of_nat (length q) ∧ side_first d o = hd0 NULL q ∧
  side_last d o = lst NULL q ∧ sll (fld (k_msgs s) msg_next) q ∧
  (∀ m, m ∈ q → is_Some (k_msgs s !! m)).

Definition mail_ok (s : kst) (sock : Z) (mb : mailbox) : Prop :=
  (∃ o, k_sockets s !! sock = Some o ∧ ∀ d, queue_rep s o d (mb d)) ∧
  ∀ m, m ∈ mb forConnector → m ∉ mb forReceiver.

(** The links of the socket and its flag, without the queues. *)
Definition sock_ends (o : socket_t) : Z * Z * Z :=
  (sock_connector o, sock_receiver o, sock_hasBeenConnected o).

(** What a request may change: the queues and the links of messages. *)
Definition mail_step (sock : Z) (s s' : kst) : Prop :=
  s' = set_k_sockets (k_sockets s') (set_k_msgs (k_msgs s') s) ∧
  (∀ p, p ≠ sock → k_sockets s' !! p = k_sockets s !! p) ∧
  sock_ends <$> k_sockets s' !! sock = sock_ends <$> k_sockets s !! sock ∧
  ∀ m, set_msg_next NULL <$> k_msgs s' !! m = set_msg_next NULL <$> k_msgs s !! m.

(** The descriptor [dest] reads from side [d] of [sock]. *)
Definition end_of (s : kst) (sock dest : Z) (d : side) : Prop :=
  ∃ o, k_descs s !! dest = Some o ∧ desc_socket o = sock ∧ side_of (desc_isConnector o) = d.

(** ** Accessors of a side *)
Create HintDb side.

Section laws.
Context (d : side) (v : Z) (o : socket_t).

Lemma side_count_count : side_count d (set_side_count d v o) = v.
Proof. by destruct d. Qed.
Lemma side_count_first : side_count d (set_side_first d v o) = side_count d o.
Proof. by destruct d. Qed.
Lemma side_count_last : side_count d (set_side_last d v o) = side_count d o.
Proof. by destruct d. Qed.
Lemma side_first_count : side_first d (set_side_count d v o) = side_first d o.
Proof. by destruct d. Qed.
Lemma side_first_first : side_first d (set_side_first d v o) = v.
Proof. by destruct d. Qed.
Lemma side_first_last : side_first d (set_side_last d v o) = side_first d o.
Proof. by destruct d. Qed.
Lemma side_last_count : side_last d (set_side_count d v o) = side_last d o.
Proof. by destruct d. Qed.
Lemma side_last_first : side_last d (set_side_first d v o) = side_last d o.
Proof. by destruct d. Qed.
Lemma side_last_last : side_last d (set_side_last d v o) = v.
Proof. by destruct d. Qed.
Lemma ends_count : sock_ends (set_side_count d v o) = sock_ends o.
Proof. by destruct d. Qed.
Lemma ends_first : sock_ends (set_side_first d v o) = sock_ends o.
Proof. by destruct d. Qed.
Lemma ends_last : sock_ends (set_side_last d v o) = sock_ends o.
Proof. by destruct d. Qed.
End laws.

#[export] Hint Rewrite side_count_count side_count_first side_count_last side_first_count
  side_first_first side_first_last side_last_count side_last_first side_last_last
  ends_count ends_first ends_last : side.

(** An update of one side leaves the other side's queue. *)
Definition same_side (d : side) (o o' : socket_t) : Prop :=
  side_count d o' = side_count d o ∧ side_first d o' = side_first d o ∧
  side_last d o' = side_last d o.

Lemma same_side_trans d o1 o2 o3 : same_side d o1 o2 → same_side d o2 o3 → same_side d o1 o3.
Proof. unfold same_side. intuition congruence. Qed.
Lemma other_count d v o : same_side (other d) o (set_side_count d v o).
Proof. by destruct d. Qed.
Lemma other_first d v o : same_side (other d) o (set_side_first d v o).
Proof. by destruct d. Qed.
Lemma other_last d v o : same_side (other d) o (set_side_last d v o).
Proof. by destruct d. Qed.

#[export] Hint Resolve other_count other_first other_last same_side_trans : side.

Lemma side_ind (P : side → Prop) d : P d → P (other d) → ∀ d', P d'.
Proof. by destruct d; intros ?? []. Qed.

Lemma mb_set_eq d q mb : mb_set d q mb d = q.
Proof. by destruct d. Qed.
Lemma mb_set_other d q mb : mb_set d q mb (other d) = mb (other d).
Proof. by destruct d. Qed.

(** The queue of the other side survives when its messages do. *)
Lemma queue_rep_other s s' o o' d q :
  queue_rep s o d q → same_side d o o' → (∀ m, m ∈ q → k_msgs s' !! m = k_msgs s !! m) →
  queue_rep s' o' d q.
Proof.
  intros (? & ? & ? & Hs & Hin) (? & ? & ?) Hm. split_and!; try congruence.
  - eapply sll_ext; [|exact Hs]. intros p Hp. unfold fld. by rewrite Hm.
  - intros m Hq. rewrite Hm by done. auto.
Qed.

(** ** One request *)

Lemma queue_rep_count_0 s o d q :
  queue_rep s o d q → side_count d o = 0 ↔ q = [].
Proof. intros (-> & _). destruct q; simpl; split; intros; try done; lia. Qed.

Lemma queue_rep_last_null s o d q :
  queue_rep s o d q → side_last d o = NULL → q = [].
Proof.
  intros (_ & _ & -> & Hs & _) Hl. destruct (decide (q = [])) as [|Hq]; [done|].
  by destruct (sll_nonnull _ _ _ Hs (lst_elem_of NULL q Hq)).
Qed.

Lemma side_lock_live s sock d o :
  k_sockets s !! sock = Some o → lock_live s (side_lock d sock) = true.
Proof. intros Ho. by destruct d; apply bool_decide_eq_true; eexists. Qed.

Lemma mail_disjoint s sock mb d m : mail_ok s sock mb → m ∈ mb d → m ∉ mb (other d).
Proof. intros [_ Hdis] Hm Hm'. by destruct d; eapply Hdis. Qed.

(** An update of one side that replaces its queue. *)
Lemma mail_update s s' sock mb d o o' q :
  mail_ok s sock mb → k_sockets s !! sock = Some o →
  k_sockets s' = <[sock:=o']> (k_sockets s) → same_side (other d) o o' →
  (∀ m, m ∈ mb (other d) → k_msgs s' !! m = k_msgs s !! m) →
  queue_rep s' o' d q → (∀ m, m ∈ q → m ∉ mb (other d)) →
  mail_ok s' sock (mb_set d q mb).
Proof.
  intros ((o1 & Ho1 & Hq) & Hdis) Ho Hs' Hside Hm Hrep Hnew. simplify_eq.
  split.
  - exists o'. rewrite Hs', lookup_insert_eq. split; [done|]. apply (side_ind _ d).
    + by rewrite mb_set_eq.
    + rewrite mb_set_other. by eapply queue_rep_other.
  - destruct d; simpl in *; intros m Hm1 Hm2; [by apply (Hnew m)|by apply (Hnew m)].
Qed.

Lemma mail_step_intro s sock o o' M :
  k_sockets s !! sock = Some o → sock_ends o' = sock_ends o →
  (∀ m, set_msg_next NULL <$> M !! m = set_msg_next NULL <$> k_msgs s !! m) →
  mail_step sock s (set_k_sockets (<[sock:=o']> (k_sockets s)) (set_k_msgs M s)).
Proof.
  intros Ho He HM. split_and!; simpl; [done| | |done].
  - intros p Hp. by rewrite lookup_insert_ne.
  - by rewrite lookup_insert_eq, Ho; simpl; rewrite He.
Qed.

(** The memory after an update of the socket and of messages. *)
Definition with_queue (sock : Z) (o : socket_t) (M : gmap Z socket_msg_t) (s : kst) : kst :=
  set_k_sockets (<[sock:=o]> (k_sockets s)) (set_k_msgs M s).

(** [push_locked] appends a message of no queue. *)
Section push.
Context (s : kst) (sock : Z) (mb : mailbox) (d : side) (o : socket_t) (m : Z) (mo : socket_msg_t).
Context (Hok : mail_ok s sock mb) (Ho : k_sockets s !! sock = Some o).
Context (Hm : k_msgs s !! m = Some mo) (Hm0 : m ≠ NULL) (Hmq : ∀ d', m ∉ mb d').
Context (Hlen : Z.of_nat (length (mb d)) + 1 < 2 ^ 64).

Let q := mb d.
Let count := u64 (side_count d o + 1).

Lemma push_queue : queue_rep s o d q ∧ count = Z.of_nat (length (q ++ [m])) ∧
  ∀ x, x ∈ q ++ [m] → x ∉ mb (other d).
Proof using Hok Ho Hmq Hlen.
  destruct Hok as ((o' & Ho' & Hq) & Hdis). rewrite Ho in Ho'. injection Ho' as <-.
  pose proof (Hq d) as (Hc & _). split; [apply Hq|]. split.
  - unfold count, q. rewrite Hc, length_app. simpl. rewrite u64_small by lia. lia.
  - intros x [Hx| ->%list_elem_of_singleton]%elem_of_app; [|done]. by eapply mail_disjoint.
Qed.

(** The first message of an empty queue. *)
Lemma push_first
    (s' := with_queue sock (set_side_last d m (set_side_first d m (set_side_count d count o)))
             (<[m:=set_msg_next NULL mo]> (k_msgs s)) s) :
  q = [] → mail_ok s' sock (mb_set d (q ++ [m]) mb) ∧ mail_step sock s s'.
Proof using Hok Ho Hm Hm0 Hmq Hlen.
  intros Hnil. destruct push_queue as (Hq & Hcnt & Hnew).
  split; [|apply (mail_step_intro _ _ o); [done|by autorewrite with side|]].
  - eapply (mail_update _ _ _ _ _ o); [done..|eauto with side| | |done].
    + intros x Hx. simpl. rewrite lookup_insert_ne; [done|]. intros ->. by eapply Hmq.
    + rewrite Hnil in *. split_and!; autorewrite with side; try done.
      * split; [apply NoDup_singleton|]. simpl. by rewrite fld_insert_eq.
      * intros x ->%list_elem_of_singleton. simpl. rewrite lookup_insert_eq. eauto.
  - intros x. rewrite lookup_insert. case_decide; [subst; by rewrite Hm|done].
Qed.

(** A message behind the last one, [lo]. *)
Lemma push_behind lo
    (s' := with_queue sock (set_side_last d m (set_side_count d count o))
             (<[lst NULL q:=set_msg_next m lo]> (<[m:=set_msg_next NULL mo]> (k_msgs s))) s) :
  q ≠ [] → k_msgs s !! lst NULL q = Some lo →
  mail_ok s' sock (mb_set d (q ++ [m]) mb) ∧ mail_step sock s s'.
Proof using Hok Ho Hm Hm0 Hmq Hlen.
  intros Hne Hlo. destruct push_queue as ((Hc & Hf & Hl & Hs & Hin) & Hcnt & Hnew).
  assert (lst NULL q ≠ m) by (intros <-; by apply (Hmq d), lst_elem_of).
  split; [|apply (mail_step_intro _ _ o); [done|by autorewrite with side|]].
  - eapply (mail_update _ _ _ _ _ o); [done..|eauto with side| | |done].
    + intros x Hx. simpl. rewrite !lookup_insert_ne; [done|by intros ->; eapply Hmq|].
      intros <-. eapply Hnew; [|exact Hx]. apply elem_of_app. left. by apply lst_elem_of.
    + split_and!; autorewrite with side; try done.
      * rewrite Hf, hd0_app. by destruct q.
      * by rewrite lst_snoc.
      * simpl. eapply sll_push_back; [exact Hs|apply (Hmq d)|done| |].
        -- intros p Hp. destruct (decide (p = lst NULL q)) as [->|]; [by rewrite fld_insert_eq|].
           rewrite !fld_insert_ne; [done| |done]. intros ->. by apply (Hmq d).
        -- by rewrite fld_insert_ne, fld_insert_eq.
      * intros x [Hx| ->%list_elem_of_singleton]%elem_of_app; simpl;
          rewrite !lookup_insert; repeat case_decide; eauto.
  - intros x. rewrite !lookup_insert. repeat case_decide; subst; try done; by rewrite ?Hm, ?Hlo.
Qed.

Lemma push_locked_spec n c :
  ∃ s', run n c (push_locked d sock m) s = Done () s' ∧
    mail_ok s' sock (mb_set d (q ++ [m]) mb) ∧ mail_step sock s s'.
Proof using Hok Ho Hm Hm0 Hmq Hlen.
  destruct push_queue as (Hq & _). pose proof Hq as (_ & _ & Hl & _ & Hin).
  unfold push_locked. steps. autorewrite with side. fold count. case_decide as Hlast.
  - steps. eexists. split; [|apply push_first; by eapply queue_rep_last_null].
    unfold with_queue. f_equal. rewrite !insert_insert_eq. by destruct s.
  - rewrite Hl in Hlast. assert (q ≠ []) as Hne by (intros Hn; by rewrite Hn in Hlast).
    destruct (Hin (lst NULL q)) as [lo Hlo]; [by apply lst_elem_of|].
    assert (lst NULL q ≠ m) by (intros <-; by apply (Hmq d), lst_elem_of).
    steps. autorewrite with side. rewrite Hl. steps. eexists. split; [|by apply push_behind].
    unfold with_queue. f_equal. rewrite !insert_insert_eq. by destruct s.
Qed.
End push.

(** Taking and releasing a lock around an update. *)
Lemma mail_ok_frame s s' sock mb :
  k_sockets s' = k_sockets s → k_msgs s' = k_msgs s → mail_ok s sock mb → mail_ok s' sock mb.
Proof. intros Hs Hm. unfold mail_ok, queue_rep. by rewrite Hs, Hm. Qed.

Lemma mail_step_unlock l sock s s1 :
  l ∉ k_locks s → mail_step sock (add_lock l s) s1 → mail_step sock s (del_lock l s1).
Proof.
  intros Hl (Heq & Ho & He & Hm). split_and!; simpl; [|done..].
  rewrite Heq. kst_eq.
Qed.

Lemma run_push_message n c s sock mb dest d m mo :
  mail_ok s sock mb → end_of s sock dest d → side_lock d sock ∉ k_locks s →
  k_msgs s !! m = Some mo → m ≠ NULL → (∀ d', m ∉ mb d') →
  Z.of_nat (length (mb d)) + 1 < 2 ^ 64 →
  if refused (msg_type mo) (mb d) then run n c (_push_message dest m) s = Done false s
  else ∃ s', run n c (_push_message dest m) s = Done true s' ∧
    mail_ok s' sock (mb_set d (mb d ++ [m]) mb) ∧ mail_step sock s s'.
Proof.
  intros Hok (de & Hde & <- & <-) Hlk Hm Hm0 Hmq Hlen.
  pose proof Hok as ((o & Ho & Hq) & Hdis). set (d := side_of (desc_isConnector de)) in *.
  set (sock := desc_socket de) in *.
  pose proof (Hq d) as (Hc & _). pose proof (side_lock_live s _ d o Ho) as Hlive.
  unfold _push_message. do 2 step. fold d sock. rewrite run_lock by done. step.
  assert (∀ k : bool → prog bool, run n c ((if decide (msg_type mo = ANSCHEDULER_MSG_TYPE_DATA)
      then count ← rd sock (side_count d); mret (bool_decide (ANSCHEDULER_SOCKET_MSG_MAX ≤ count))
      else mret false) ≫= k) (add_lock (side_lock d sock) s)
      = run n c (k (refused (msg_type mo) (mb d))) (add_lock (side_lock d sock) s)) as Hfull.
  { intros k. unfold refused. case_decide as Ht; steps.
    - rewrite Hc. do 2 f_equal. apply bool_decide_ext. tauto.
    - do 2 f_equal. symmetry. apply bool_decide_eq_false. tauto. }
  rewrite Hfull. destruct (refused _ _).
  - rewrite run_unlock by (simpl; first [set_solver|done]). steps. f_equal. kst_eq.
  - destruct (push_locked_spec (add_lock (side_lock d sock) s) sock mb d o m mo) with (n := n) (c := c)
      as (s1 & Hrun & Hok1 & Hst1); try done.
    rewrite (run_call _ _ _ _ _ _ _ Hrun).
    pose proof Hst1 as (Heq & _). pose proof Hok1 as ((o1 & Ho1 & _) & _).
    rewrite run_unlock; [steps|rewrite Heq; simpl; set_solver|by eapply side_lock_live].
    eexists. split; [done|]. split; [by eapply mail_ok_frame|by apply mail_step_unlock].
Qed.

(** [anscheduler_socket_read] takes the first message out. *)
Definition drop_first (d : side) (next : Z) (o : socket_t) : socket_t :=
  if decide (next = NULL) then set_side_first d NULL (set_side_last d NULL o)
  else set_side_first d next o.

Lemma drop_first_rep s o d m q :
  queue_rep s o d (m :: q) →
  side_first d (drop_first d (hd0 NULL q) o) = hd0 NULL q ∧
  side_last d (drop_first d (hd0 NULL q) o) = lst NULL q ∧
  side_count d (drop_first d (hd0 NULL q) o) = side_count d o ∧
  same_side (other d) o (drop_first d (hd0 NULL q) o) ∧
  sock_ends (drop_first d (hd0 NULL q) o) = sock_ends o.
Proof.
  intros (_ & _ & Hl & Hs & _). pose proof (sll_tail _ _ _ Hs) as (Hs' & _).
  unfold drop_first. case_decide as Hn; autorewrite with side; split_and!;
    eauto with side; rewrite ?Hl, ?lst_cons; destruct q as [|a q]; simpl in *; try done.
  - by destruct (sll_nonnull _ _ _ Hs' (list_elem_of_here a q)).
  - by rewrite !lst_cons.
Qed.

Lemma run_drop_first n c s sock d o m mo :
  k_sockets s !! sock = Some o → k_msgs s !! m = Some mo →
  run n c (if decide (msg_next mo = NULL)
           then wr sock (set_side_last d NULL);; wr sock (set_side_first d NULL)
           else next ← rd m msg_next; wr sock (set_side_first d next)) s
  = Done () (set_k_sockets (<[sock := drop_first d (msg_next mo) o]> (k_sockets s)) s).
Proof.
  intros Ho Hm. unfold drop_first. case_decide; steps; [|done]. by rewrite insert_insert_eq.
Qed.

Lemma run_socket_read n c s sock mb dest d :
  mail_ok s sock mb → end_of s sock dest d → side_lock d sock ∉ k_locks s →
  Z.of_nat (length (mb d)) < 2 ^ 64 →
  match mb d with
  | [] => run n c (anscheduler_socket_read dest) s = Done NULL s
  | m :: q => ∃ s', run n c (anscheduler_socket_read dest) s = Done m s' ∧
      mail_ok s' sock (mb_set d q mb) ∧ mail_step sock s s'
  end.
Proof.
  intros Hok (de & Hde & <- & <-) Hlk Hlen.
  pose proof Hok as ((o & Ho & Hq) & Hdis). set (d := side_of (desc_isConnector de)) in *.
  set (sock := desc_socket de) in *.
  pose proof (Hq d) as Hqd. pose proof (side_lock_live s _ d o Ho) as Hlive.
  unfold anscheduler_socket_read. do 2 step. fold d sock. rewrite run_lock by done. step.
  destruct (mb d) as [|m q] eqn:Hmb; pose proof Hqd as (Hc & Hf & Hl & Hs & Hin).
  { rewrite decide_True by done. rewrite run_unlock by (simpl; first [set_solver|done]).
    steps. f_equal. kst_eq. }
  destruct (sll_tail _ _ _ Hs) as (Hs' & Hmq & Hm0 & Hn). destruct (Hin m) as [mo Hmo]; [set_solver|].
  rewrite (fld_lookup _ _ _ _ Hmo) in Hn. destruct (drop_first_rep _ _ _ _ _ Hqd) as (H1 & H2 & H3 & H4 & H5).
  rewrite decide_False by (rewrite Hc; simpl; lia). step. rewrite Hf. simpl hd0. step.
  rewrite (run_call _ _ _ _ _ _ _ (run_drop_first n c (add_lock (side_lock d sock) s) sock d o m mo Ho Hmo)).
  do 3 step. rewrite run_unlock; [steps|simpl; set_solver|by eapply side_lock_live, lookup_insert_eq].
  set (o1 := set_side_count d (u64 (side_count d (drop_first d (msg_next mo) o) - 1))
               (drop_first d (msg_next mo) o)).
  exists (with_queue sock o1 (<[m:=set_msg_next NULL mo]> (k_msgs s)) s).
  split; [unfold with_queue; f_equal; rewrite insert_insert_eq; kst_eq|].
  subst o1. rewrite Hn, H3, Hc. 
  split; [|apply (mail_step_intro _ _ o); [done|by autorewrite with side|]].
  - eapply (mail_update _ _ _ _ _ o); [done..|eauto with side| | |].
    + intros x Hx. simpl. rewrite lookup_insert_ne; [done|]. intros ->.
      eapply (mail_disjoint _ _ _ d); [exact Hok| |exact Hx]. rewrite Hmb. by left.
    + split_and!; autorewrite with side; try done.
      * rewrite u64_small; cbn [length] in *; lia.
      * eapply sll_ext; [|exact Hs']. intros p Hp. simpl. apply fld_insert_ne. by intros ->.
      * intros x Hx. simpl. rewrite lookup_insert. case_decide; [eauto|]. apply Hin. by right.
    + intros x Hx. eapply mail_disjoint; [exact Hok|]. rewrite Hmb. by right.
  - intros x. rewrite lookup_insert. case_decide; [subst; by rewrite Hmo|done].
Qed.

(** ** Correctness *)

(** The requests name ends of [sock] and messages. *)
Definition mail_target (s : kst) (sock : Z) (types : Z → Z) (ends : Z → side) (o : mail_op) : Prop :=
  match o with
  | op_send dest m => end_of s sock dest (ends dest) ∧ m ≠ NULL ∧
      msg_type <$> k_msgs s !! m = Some (types m)
  | op_recv dest => end_of s sock dest (ends dest)
  end.

Lemma mail_target_step s s' sock types ends o :
  mail_step sock s s' → mail_target s sock types ends o → mail_target s' sock types ends o.
Proof.
  intros (Heq & _ & _ & Hm). unfold mail_target, end_of. rewrite Heq. simpl.
  destruct o as [dest m|]; [|done]. intros (? & ? & Ht). split_and!; try done.
  rewrite <- Ht. pose proof (f_equal (fmap msg_type) (Hm m)) as Hf.
  rewrite <- !option_fmap_compose in Hf. exact Hf.
Qed.

#[export] Instance mail_step_preorder sock : PreOrder (mail_step sock).
Proof.
  split.
  - intros s. by split_and!; [destruct s|..].
  - intros s1 s2 s3 (H1 & O1 & E1 & M1) (H2 & O2 & E2 & M2). split_and!.
    + rewrite H2, H1. simpl. done.
    + intros p Hp. by rewrite O2, O1.
    + by rewrite E2.
    + intros m. by rewrite M2.
Qed.

Definition mb_size (mb : mailbox) : Z :=
  Z.of_nat (length (mb forConnector)) + Z.of_nat (length (mb forReceiver)).

Lemma mb_size_set d q mb :
  mb_size (mb_set d q mb) = mb_size mb + Z.of_nat (length q) - Z.of_nat (length (mb d)).
Proof. unfold mb_size. destruct d; simpl; lia. Qed.

Lemma mb_size_side d mb : 0 ≤ Z.of_nat (length (mb d)) ≤ mb_size mb.
Proof. unfold mb_size. destruct d; lia. Qed.

Lemma mail_op_spec n c s sock mb types ends o r mb' :
  mail_ok s sock mb → (∀ d, side_lock d sock ∉ k_locks s) →
  mail_target s sock types ends o → mb_size mb + 1 < 2 ^ 64 →
  mail_abs types ends o mb = Some (r, mb') →
  ∃ s', run n c (mail_op_run o) s = Done r s' ∧ mail_ok s' sock mb' ∧
    mail_step sock s s' ∧ mb_size mb' ≤ mb_size mb + 1.
Proof.
  intros Hok Hlk Ht Hsz Ha. destruct o as [dest m|dest]; simpl in *.
  - destruct Ht as (Hend & Hm0 & (mo & Hm & Hty)%fmap_Some).
    case_decide as Hin; [done|]. pose proof (mb_size_side (ends dest) mb).
    pose proof (run_push_message n c s sock mb dest (ends dest) m mo) as Hrun.
    rewrite Hty in Ha. destruct (refused _ _); simplify_eq.
    + exists s. split_and!; [|done|reflexivity|lia].
      rewrite run_bind, Hrun; try done; [intros []; tauto|lia].
    + destruct Hrun as (s' & Hrun & ? & ?); try done; [intros []; tauto|lia|].
      exists s'. split_and!; try done; [by rewrite run_bind, Hrun|].
      rewrite mb_size_set, length_app. simpl. lia.
  - pose proof (mb_size_side (ends dest) mb).
    pose proof (run_socket_read n c s sock mb dest (ends dest) Hok Ht (Hlk _) ltac:(lia)) as Hrun.
    destruct (mb (ends dest)) as [|m q] eqn:Hmb; simplify_eq.
    + exists s. split_and!; [by rewrite run_bind, Hrun|done|reflexivity|lia].
    + destruct Hrun as (s' & Hrun & ? & ?). exists s'. split_and!; try done.
      * by rewrite run_bind, Hrun.
      * rewrite mb_size_set, Hmb. cbn [length]. lia.
Qed.

Lemma mail_ops_spec n c types ends os : ∀ s sock mb rs mb',
  mail_ok s sock mb → (∀ d, side_lock d sock ∉ k_locks s) →
  (∀ o, o ∈ os → mail_target s sock types ends o) →
  mb_size mb + Z.of_nat (length os) < 2 ^ 64 →
  mails_abs types ends os mb = Some (rs, mb') →
  ∃ s', run n c (mail_ops_run os) s = Done rs s' ∧ mail_ok s' sock mb' ∧ mail_step sock s s'.
Proof.
  induction os as [|o os IH]; intros s sock mb rs mb' Hok Hlk Ht Hsz Ha.
  - simplify_eq/=. exists s. split_and!; [done|done|reflexivity].
  - cbn [length] in Hsz. simpl in Ha. apply bind_Some in Ha as ([r mb1] & Ha1 & Ha).
    apply bind_Some in Ha as ([rs' mb2] & Ha2 & Ha). simplify_eq/=.
    destruct (mail_op_spec n c s sock mb types ends o r mb1) as (s1 & Hrun1 & Hok1 & Hst1 & Hsz1);
      try done; [apply Ht; by left|lia|].
    destruct (IH s1 sock mb1 rs' mb') as (s2 & Hrun2 & ? & ?); try done.
    { destruct Hst1 as [-> _]. done. }
    { intros o' Ho'. eapply mail_target_step; [done|]. apply Ht. by right. }
    { lia. }
    exists s2. split_and!; [|done|by transitivity s1].
    simpl. by rewrite (run_call _ _ _ _ _ _ _ Hrun1), (run_call _ _ _ _ _ _ _ Hrun2).
Qed.

(** C10. A socket implements two bounded first-in first-out mailboxes: the replies of
    any sequence of [_push_message] and [anscheduler_socket_read] calls on its two
    ends are those of the two lists of messages. A push appends to the list of the
    end it names, except that a DATA message is refused when 16 messages are there;
    a read yields the oldest message of its end or NULL. The two directions never
    mix, and nothing but the queues and the links of the messages changes. *)
Theorem socket_refines_mailbox n c s sock mb types ends os rs mb' :
  mail_ok s sock mb → (∀ d, side_lock d sock ∉ k_locks s) →
  (∀ o, o ∈ os → mail_target s sock types ends o) →
  mb_size mb + Z.of_nat (length os) < 2 ^ 64 →
  mails_abs types ends os mb = Some (rs, mb') →
  ∃ s', run n c (mail_ops_run os) s = Done rs s' ∧ mail_ok s' sock mb' ∧ mail_step sock s s'.
Proof. apply mail_ops_spec. Qed.

(** *** Bound *)

(** The number of DATA messages in a queue. *)
Definition data_count (types : Z → Z) (q : list Z) : Z :=
  Z.of_nat (length (filter (λ m, types m = ANSCHEDULER_MSG_TYPE_DATA) q)).

Definition mb_bounded (types : Z → Z) (mb : mailbox) : Prop :=
  ∀ d, data_count types (mb d) ≤ ANSCHEDULER_SOCKET_MSG_MAX.

Lemma mail_abs_bounded types ends o mb r mb' :
  mail_abs types ends o mb = Some (r, mb') → mb_bounded types mb → mb_bounded types mb'.
Proof.
  intros Ha Hb. destruct o as [dest m|dest]; simpl in Ha.
  - case_decide; [done|]. destruct (refused _ _) eqn:Hr; simplify_eq; [done|].
    apply bool_decide_eq_false in Hr. set (d := ends dest) in *.
    unfold mb_bounded. apply (side_ind _ d); rewrite ?mb_set_eq, ?mb_set_other; [|done].
    pose proof (Hb d) as Hd. unfold data_count in *. rewrite filter_app, length_app.
    rewrite filter_cons, filter_nil. case_decide as Hty; simpl; [|lia].
    pose proof (length_filter (λ m, types m = ANSCHEDULER_MSG_TYPE_DATA) (mb d)). lia.
  - destruct (mb (ends dest)) as [|m q] eqn:Hmb; simplify_eq; [done|]. set (d := ends dest) in *.
    unfold mb_bounded. apply (side_ind _ d); rewrite ?mb_set_eq, ?mb_set_other; [|done].
    pose proof (Hb d) as Hd. rewrite Hmb in Hd. unfold data_count in *.
    rewrite filter_cons in Hd. case_decide; simpl in Hd; lia.
Qed.

Lemma mails_abs_bounded types ends os : ∀ mb rs mb',
  mails_abs types ends os mb = Some (rs, mb') → mb_bounded types mb → mb_bounded types mb'.
Proof.
  induction os as [|o os IH]; intros mb rs mb' Ha Hb; simplify_eq/=; [done|].
  apply bind_Some in Ha as ([r mb1] & Ha1 & Ha). apply bind_Some in Ha as ([rs' mb2] & Ha2 & Ha).
  simplify_eq/=. eapply IH; [done|]. by eapply mail_abs_bounded.
Qed.

(** C31. No queue of a socket ever holds more than [ANSCHEDULER_SOCKET_MSG_MAX] DATA
    messages: a sender that nobody reads cannot exhaust memory through a socket.
    From queues within the bound, any sequence of pushes and reads on the two ends
    leads to well-formed queues within the bound. *)
Theorem socket_data_bounded n c s sock mb types ends os rs mb' :
  mail_ok s sock mb → (∀ d, side_lock d sock ∉ k_locks s) →
  (∀ o, o ∈ os → mail_target s sock types ends o) →
  mb_size mb + Z.of_nat (length os) < 2 ^ 64 →
  mails_abs types ends os mb = Some (rs, mb') →
  mb_bounded types mb →
  ∃ s' o', run n c (mail_ops_run os) s = Done rs s' ∧ k_sockets s' !! sock = Some o' ∧
    ∀ d, ∃ q, queue_rep s' o' d q ∧ data_count types q ≤ ANSCHEDULER_SOCKET_MSG_MAX.
Proof.
  intros Hok Hlk Ht Hsz Ha Hb.
  destruct (mail_ops_spec n c types ends os s sock mb rs mb')
    as (s' & Hrun & ((o' & Ho' & Hq) & _) & _); try done.
  exists s', o'. split_and!; [done..|]. intros d. exists (mb' d). split; [done|].
  by eapply mails_abs_bounded.
Qed.

(** *** Witnesses

    A socket with a queue of two messages for its receiver; the descriptors 0x61000
    and 0x62000 are its ends. *)
Definition demo_sock : kst :=
  set_k_sockets {[0x60000 := mk_socket 0x61000 0x62000 0 0 0 2 0x70000 0x71000 1]}
  (set_k_descs (list_to_map [(0x61000, mk_desc 0 0 0 0 0x60000 0 1 0x10000 0 1 0);
      (0x62000, mk_desc 0 0 0 0 0x60000 1 0 0x10000 0 1 0)])
  (set_k_msgs (list_to_map [(0x70000, mk_msg 0x71000 0 0 []); (0x71000, mk_msg 0 1 0 []);
      (0x72000, mk_msg 0 1 0 []); (0x73000, mk_msg 9 2 8 [])])
  (set_k_live (list_to_set [0x60000; 0x61000; 0x62000; 0x70000; 0x71000; 0x72000; 0x73000] ∪
     k_live (demo 0 2)) (demo 0 2)))).

Definition demo_mb : mailbox :=
  λ d, match d with forConnector => [] | forReceiver => [0x70000; 0x71000] end.

Definition demo_ends (dest : Z) : side :=
  if decide (dest = 0x61000) then forConnector else forReceiver.

Definition demo_types (m : Z) : Z := fld (k_msgs demo_sock) msg_type m.

Definition demo_mail : list mail_op :=
  [op_recv 0x61000; op_send 0x62000 0x72000; op_recv 0x62000; op_send 0x61000 0x73000;
   op_recv 0x61000; op_recv 0x62000; op_recv 0x62000].

Ltac by_sll := split; [by_dec|vm_compute; repeat split; congruence].

Lemma demo_mail_ok : mail_ok demo_sock 0x60000 demo_mb.
Proof.
  split; [|by intros m Hm%not_elem_of_nil]. eexists. split; [reflexivity|].
  intros []; (split_and!; [reflexivity..|by_sll|elems; by_vm]).
Qed.

Lemma demo_mail_target o : o ∈ demo_mail → mail_target demo_sock 0x60000 demo_types demo_ends o.
Proof.
  intros Ho. repeat (apply elem_of_cons in Ho as [->|Ho]); try (by apply not_elem_of_nil in Ho);
    repeat split; try done; eexists; repeat split; reflexivity.
Qed.

Lemma socket_refines_mailbox_witness :
  ∃ s', run 0 0 (mail_ops_run demo_mail) demo_sock
        = Done [got 0; sent true; got 0x70000; sent true; got 0x73000; got 0x71000; got 0x72000] s' ∧
    mail_ok s' 0x60000 (mb_set forReceiver [] (mb_set forReceiver [0x72000] (mb_set forConnector []
      (mb_set forConnector [0x73000] (mb_set forReceiver [0x71000; 0x72000]
        (mb_set forReceiver [0x70000; 0x71000; 0x72000] demo_mb)))))) ∧
    mail_step 0x60000 demo_sock s'.
Proof.
  apply (socket_refines_mailbox 0 0 demo_sock 0x60000 demo_mb demo_types demo_ends demo_mail).
  - apply demo_mail_ok.
  - intros []; by_dec.
  - apply demo_mail_target.
  - by_dec.
  - reflexivity.
Defined.

Lemma socket_data_bounded_witness :
  ∃ s' o', run 0 0 (mail_ops_run [op_send 0x62000 0x72000]) demo_sock = Done [sent true] s' ∧
    k_sockets s' !! 0x60000 = Some o' ∧
    ∀ d, ∃ q, queue_rep s' o' d q ∧ data_count demo_types q ≤ ANSCHEDULER_SOCKET_MSG_MAX.
Proof.
  eapply (socket_data_bounded 0 0 demo_sock 0x60000 demo_mb demo_types demo_ends).
  - apply demo_mail_ok.
  - intros []; by_dec.
  - intros o ->%list_elem_of_singleton. apply demo_mail_target. right. by left.
  - by_dec.
  - reflexivity.
  - intros []; by_dec.
Defined.

(** ** Giving a socket up *)

(** What freeing the structures at [ps] does ([free_pages]), heap by heap. *)
Section free_pages.
Context (ps : list Z).

Lemma free_pages_live s : k_live (free_pages ps s) = k_live s ∖ list_to_set ps.
Proof.
  unfold free_pages. revert s. induction ps as [|p l IH]; intros s; simpl; [by rewrite difference_empty_L|].
  rewrite IH. simpl. set_solver.
Qed.

Lemma free_pages_log s : k_log (free_pages ps s) = k_log s ++ (ev_free <$> ps).
Proof.
  unfold free_pages. revert s. induction ps as [|p l IH]; intros s; simpl; [by rewrite app_nil_r|].
  rewrite IH. simpl. by rewrite <- app_assoc.
Qed.

Lemma free_pages_msgs s m : k_msgs (free_pages ps s) !! m = if decide (m ∈ ps) then None else k_msgs s !! m.
Proof.
  unfold free_pages. revert s. induction ps as [|p l IH]; intros s; simpl.
  - done.
  - rewrite IH. simpl. rewrite lookup_delete.
    repeat case_decide; try done; set_solver.
Qed.

Lemma free_pages_rest s :
  k_locks (free_pages ps s) = k_locks s ∧ k_cpus (free_pages ps s) = k_cpus s.
Proof. unfold free_pages. revert s. induction ps as [|p l IH]; intros s; [done|]. simpl. by destruct (IH (free_step p s)) as [-> ->]. Qed.

Lemma free_pages_cpus f s : free_pages ps (set_k_cpus f s) = set_k_cpus f (free_pages ps s).
Proof. unfold free_pages. revert s. induction ps as [|p l IH]; intros s; [done|]. simpl. by rewrite <- IH. Qed.

(** A socket that stays. *)
Definition put_sock (sock : Z) (o : socket_t) (s : kst) : kst :=
  set_k_sockets (<[sock := o]> (k_sockets s)) s.

Lemma free_pages_sock sock o s :
  sock ∉ ps → free_pages ps (put_sock sock o s) = put_sock sock o (free_pages ps s).
Proof.
  unfold free_pages. revert s. induction ps as [|p l IH]; intros s Hs; [done|]. simpl.
  rewrite <- IH by set_solver. f_equal. unfold put_sock, free_step. simpl.
  rewrite delete_insert_ne by set_solver. by destruct s.
Qed.
End free_pages.

Lemma free_pages_app ps qs s : free_pages (ps ++ qs) s = free_pages qs (free_pages ps s).
Proof. apply fold_left_app. Qed.

(** The socket itself, whatever it holds by then. *)
Lemma free_step_sock sock o s : free_step sock (put_sock sock o s) = free_step sock s.
Proof. unfold put_sock, free_step. simpl. by rewrite delete_insert_eq. Qed.

Lemma put_sock_put sock o o' s : put_sock sock o' (put_sock sock o s) = put_sock sock o' s.
Proof. unfold put_sock. simpl. by rewrite insert_insert_eq. Qed.

(** A queue of messages to be freed: the forward links suffice. *)
Definition free_chain (s : kst) (o : socket_t) (d : side) (q : list Z) : Prop :=
  side_first d o = hd0 NULL q ∧ sll (fld (k_msgs s) msg_next) q ∧
  ∀ m, m ∈ q → is_Some (k_msgs s !! m) ∧ m ∈ k_live s.

Section free.
Context (n c : nat) (sock : Z).

(** What freeing a queue leaves: a socket [o'] whose other queue is as in [o], and the
    CPU outside critical sections. *)
Definition queue_freed (d : side) (q : list Z) (o : socket_t) (s s' : kst) : Prop :=
  ∃ o', s' = set_k_cpus (k_cpus s') (put_sock sock o' (free_pages q s)) ∧
    cpu_locked (k_cpus s' c) = false ∧ same_side (other d) o o'.

Lemma free_messages_loop d q : ∀ k s o,
  k_sockets s !! sock = Some o → free_chain s o d q → sock ∉ q →
  cpu_locked (k_cpus s c) = false → (length q < k)%nat →
  ∃ s', iterate k (λ x s, run n c (free_body d sock x) s) (λ b s, run n c (mret b) s) () s
        = Done () s' ∧ queue_freed d q o s s'.
Proof.
  induction q as [|m q IH]; intros k s o Ho (Hf & Hs & Hin) Hsq Hcpu Hk;
    (destruct k as [|k]; [simpl in Hk; lia|]); rewrite iterate_S;
    unfold free_body at 1; do 2 step; rewrite Hf.
  - rewrite decide_True by done. steps. eexists. split; [done|]. exists o.
    split; [|split; [simpl; by rewrite decide_True|done]].
    unfold put_sock. simpl. rewrite insert_id by done. by destruct s.
  - destruct (sll_tail _ _ _ Hs) as (Hs' & Hmq & Hm0 & Hn).
    destruct (Hin m) as [[mo Hmo] Hml]; [by left|]. rewrite (fld_lookup _ _ _ _ Hmo) in Hn.
    change (hd0 NULL (m :: q)) with m in *. rewrite decide_False by done. step. rewrite Hf. do 2 step.
    rewrite run_free by done.
    rewrite run_cpu_unlock by (simpl; by rewrite decide_True). rewrite run_ret.
    set (o1 := set_side_first d (msg_next mo) o). set (s1 := upd_cpu c (set_cpu_locked false) _).
    assert (s1 = set_k_cpus (k_cpus s1) (put_sock sock o1 (free_step m s))) as Hs1.
    { unfold s1, put_sock, free_step. simpl. rewrite delete_insert_ne by set_solver. done. }
    assert (∀ x, x ≠ m → k_msgs s1 !! x = k_msgs s !! x) as Hm1.
    { intros x Hx. by apply lookup_delete_ne. }
    destruct (IH k s1 o1) as (s' & Hrun & o' & Hs2 & Hc & Hsd).
    + rewrite Hs1. simpl. by rewrite lookup_insert_eq.
    + split_and!; unfold o1; autorewrite with side; [done| |].
      * eapply sll_ext; [|exact Hs']. intros p Hp. unfold fld. rewrite Hm1; [done|by intros ->].
      * intros x Hx. rewrite Hm1 by (by intros ->). split; [apply Hin; by right|].
        apply elem_of_difference. split; [apply Hin; by right|]. rewrite elem_of_singleton. by intros ->.
    + intros Hq. apply Hsq. by right.
    + simpl. by rewrite !decide_True.
    + simpl in Hk. lia.
    + exists s'. split; [exact Hrun|]. exists o'. split; [|split; [done|unfold o1 in *; eauto with side]].
      rewrite Hs2 at 1. rewrite Hs1, free_pages_cpus, free_pages_sock by set_solver.
      change (set_k_cpus (k_cpus s') (put_sock sock o' (put_sock sock o1 (free_pages q (free_step m s))))
        = set_k_cpus (k_cpus s') (put_sock sock o' (free_pages q (free_step m s)))).
      by rewrite put_sock_put.
Qed.

Lemma free_messages_spec d q s o :
  k_sockets s !! sock = Some o → free_chain s o d q → sock ∉ q →
  cpu_locked (k_cpus s c) = false → (length q < n)%nat →
  ∃ s', run n c (free_messages d sock) s = Done () s' ∧ queue_freed d q o s s'.
Proof.
  intros. unfold free_messages. rewrite run_tail. setoid_rewrite run_while.
  by apply (free_messages_loop d q n s o).
Qed.

(** [_socket_free] frees the messages for the connector, those for the receiver and the
    socket, in this order, and does nothing else. *)
Lemma socket_free_spec s o q1 q2 :
  k_sockets s !! sock = Some o → sock ∈ k_live s →
  free_chain s o forConnector q1 → free_chain s o forReceiver q2 →
  NoDup (sock :: q1 ++ q2) → cpu_locked (k_cpus s c) = false →
  (length (q1 ++ q2) < n)%nat →
  ∃ s', run n c (_socket_free sock) s = Done () s' ∧
    s' = set_k_cpus (k_cpus s') (free_pages (q1 ++ q2 ++ [sock]) s) ∧
    cpu_locked (k_cpus s' c) = false.
Proof.
  intros Ho Hlive H1 H2 [Hsq (Hnd1 & Hdis & Hnd2)%NoDup_app]%NoDup_cons Hcpu Hn.
  rewrite length_app in Hn. rewrite elem_of_app in Hsq.
  destruct (free_messages_spec forConnector q1 s o) as (s1 & Hrun1 & o1 & Hs1 & Hc1 & (_ & Hf1 & _));
    try done; [tauto|lia|].
  assert (∀ m, m ∈ q2 → k_msgs s1 !! m = k_msgs s !! m ∧ (m ∈ k_live s → m ∈ k_live s1)) as Hm1.
  { intros m Hm. assert (m ∉ q1) as Hmq by (intros Hq; by eapply Hdis). rewrite Hs1. simpl.
    rewrite free_pages_msgs, free_pages_live, decide_False by done. split; [done|].
    rewrite elem_of_difference, elem_of_list_to_set. done. }
  destruct (free_messages_spec forReceiver q2 s1 o1) as (s2 & Hrun2 & o2 & Hs2 & Hc2 & _);
    [rewrite Hs1; simpl; by rewrite lookup_insert_eq| |tauto|done|lia|].
  { destruct H2 as (Hf & Hs & Hin). split_and!.
    - simpl in Hf1. simpl. by rewrite Hf1.
    - eapply sll_ext; [|exact Hs]. intros p Hp. unfold fld. by destruct (Hm1 p Hp) as [-> _].
    - intros m Hm. destruct (Hm1 m Hm) as [-> Hl]. destruct (Hin m Hm). auto. }
  unfold _socket_free. rewrite (run_call _ _ _ _ _ _ _ Hrun1), (run_call _ _ _ _ _ _ _ Hrun2).
  assert (s2 = set_k_cpus (k_cpus s2) (put_sock sock o2 (free_pages (q1 ++ q2) s))) as Hs2'.
  { rewrite Hs2 at 1. rewrite Hs1, free_pages_cpus, free_pages_sock, free_pages_app by tauto.
    change (set_k_cpus (k_cpus s2) (put_sock sock o2 (put_sock sock o1 (free_pages q2 (free_pages q1 s))))
      = set_k_cpus (k_cpus s2) (put_sock sock o2 (free_pages q2 (free_pages q1 s)))).
    by rewrite put_sock_put. }
  rewrite run_cpu_lock by done. rewrite run_free.
  2:{ rewrite Hs2'. simpl. rewrite free_pages_live, elem_of_difference, elem_of_list_to_set, elem_of_app. tauto. }
  rewrite run_tail, run_cpu_unlock by (simpl; by rewrite decide_True). rewrite run_ret.
  eexists. split; [done|]. split; [|simpl; by rewrite decide_True].
  rewrite app_assoc, free_pages_app. simpl. rewrite Hs2' at 1.
  rewrite <- (free_step_sock sock o2 (free_pages (q1 ++ q2) s)). done.
Qed.

(** [_socket_free] always returns, whatever is still queued: it frees the
    messages for the connector, then those for the receiver, then the socket, each
    exactly once and in that order, and nothing else. *)
Theorem socket_free_frees_all s o q1 q2 :
  k_sockets s !! sock = Some o → sock ∈ k_live s →
  free_chain s o forConnector q1 → free_chain s o forReceiver q2 →
  NoDup (sock :: q1 ++ q2) → cpu_locked (k_cpus s c) = false →
  (length (q1 ++ q2) < n)%nat →
  ∃ s', run n c (_socket_free sock) s = Done () s' ∧
    k_live s' = k_live s ∖ list_to_set (q1 ++ q2 ++ [sock]) ∧
    k_log s' = k_log s ++ (ev_free <$> q1 ++ q2 ++ [sock]) ∧
    k_sockets s' !! sock = None ∧
    (∀ m, k_msgs s' !! m = if decide (m ∈ q1 ++ q2 ++ [sock]) then None else k_msgs s !! m) ∧
    k_locks s' = k_locks s ∧ cpu_locked (k_cpus s' c) = false.
Proof.
  intros Ho Hlive H1 H2 Hnd Hcpu Hn.
  destruct (socket_free_spec s o q1 q2) as (s' & Hrun & Hs' & Hc); [done..|].
  exists s'. split; [done|]. rewrite Hs'. simpl.
  rewrite free_pages_live, free_pages_log. split_and!; [done|done| | |by apply free_pages_rest|done].
  - rewrite !free_pages_app. simpl. apply lookup_delete_eq.
  - intros m. apply free_pages_msgs.
Qed.
End free.

Lemma demo_sock_chain d : free_chain (upd_cpu 0 (set_cpu_locked false) demo_sock)
  (mk_socket 0x61000 0x62000 0 0 0 2 0x70000 0x71000 1) d (demo_mb d).
Proof. destruct d; (split; [done|split; [by_sll|]]); elems; by_dec. Qed.

Lemma socket_free_frees_all_witness :
  let s := upd_cpu 0 (set_cpu_locked false) demo_sock in
  let freed := [] ++ [0x70000; 0x71000] ++ [0x60000] in
  ∃ s', run 3 0 (_socket_free 0x60000) s = Done () s' ∧
    k_live s' = k_live s ∖ list_to_set freed ∧
    k_log s' = k_log s ++ (ev_free <$> freed) ∧
    k_sockets s' !! 0x60000 = None ∧
    (∀ m, k_msgs s' !! m = if decide (m ∈ freed) then None else k_msgs s !! m) ∧
    k_locks s' = k_locks s ∧ cpu_locked (k_cpus s' 0%nat) = false.
Proof.
  intros s freed. apply (socket_free_frees_all 3 0 0x60000 (upd_cpu 0 (set_cpu_locked false) demo_sock)
    (mk_socket 0x61000 0x62000 0 0 0 2 0x70000 0x71000 1) [] [0x70000; 0x71000]).
  - reflexivity.
  - by_dec.
  - apply (demo_sock_chain forConnector).
  - apply (demo_sock_chain forReceiver).
  - by_dec.
  - reflexivity.
  - simpl. lia.
Defined.
