(* ===== verification/SocketLink.v ===== *)
(** * SocketLink: closing and releasing a descriptor (src/socket.c)

    Closing is final, and the last reference to a closed descriptor takes it out of its
    task and starts its hang-up (SocketHangup.v). *)
From S2P Require Import Prelude Types Machine Demo Idxset RunQueue PagerQueue TaskRef Loop PidMap SocketList DescTable PendingList Socket MsgQueue.

(** ** Closing *)

Definition closed_desc (code : Z) (o : socket_desc_t) : socket_desc_t :=
  set_desc_isClosed 1 (if decide (desc_isClosed o = 0) then set_desc_closeCode code o else o).

Definition set_desc (d : Z) (o : socket_desc_t) (s : kst) : kst :=
  set_k_descs (<[d := o]> (k_descs s)) s.

Lemma run_socket_close n c s d o code :
  k_descs s !! d = Some o → closeLock d ∉ k_locks s →
  run n c (anscheduler_socket_close d code) s = Done () (set_desc d (closed_desc code o) s).
Proof.
  intros Ho Hl. unfold anscheduler_socket_close, closed_desc, set_desc. steps.
  case_decide; steps; f_equal; rewrite ?insert_insert_eq; kst_eq.
Qed.

(** C40. Closing a descriptor is final: whatever code a second
    [anscheduler_socket_close] gives, the first one's stays, and from the first on
    [anscheduler_socket_reference] grants no reference, so that the reference count
    can only fall. *)
Theorem socket_close_is_final n c s d o code code' :
  k_descs s !! d = Some o → desc_isClosed o = 0 → closeLock d ∉ k_locks s →
  run n c (anscheduler_socket_close d code;;
           anscheduler_socket_close d code';;
           anscheduler_socket_reference d) s
  = Done false (set_desc d (set_desc_closeCode code (set_desc_isClosed 1 o)) s).
Proof.
  intros Ho Hc Hl. rewrite (run_call _ _ _ _ _ _ _ (run_socket_close n c s d o code Ho Hl)).
  set (s1 := set_desc d (closed_desc code o) s).
  assert (k_descs s1 !! d = Some (closed_desc code o)) as Ho1 by apply lookup_insert_eq.
  rewrite (run_call _ _ _ _ _ _ _ (run_socket_close n c s1 d _ code' Ho1 Hl)).
  rewrite (socket_reference_spec n c _ d (closed_desc code' (closed_desc code o)))
    by (first [apply lookup_insert_eq|done]).
  unfold s1, closed_desc. rewrite Hc. simpl. f_equal. unfold set_desc. simpl.
  rewrite insert_insert_eq. by destruct s, o.
Qed.

(** ** Releasing *)

Definition deref_desc (d : Z) (o : socket_desc_t) (s : kst) : kst :=
  set_desc d (set_desc_refCount (u64 (desc_refCount o - 1)) o) s.

Section dereference.
Context `{Platform} (n c : nat) (s : kst) (d : Z) (o : socket_desc_t).
Context (Ho : k_descs s !! d = Some o) (Hl : closeLock d ∉ k_locks s).

(** The count of a closed descriptor does not fall below zero. *)
Lemma socket_dereference_spent :
  desc_isClosed o ≠ 0 → desc_refCount o = 0 →
  run n c (anscheduler_socket_dereference d) s = Done () s.
Proof using Ho Hl.
  intros Hc Hr. unfold anscheduler_socket_dereference. steps. rewrite decide_True by done.
  steps. f_equal. kst_eq.
Qed.

Lemma socket_dereference_keep :
  desc_isClosed o = 0 ∨ 1 < desc_refCount o < 2 ^ 64 →
  run n c (anscheduler_socket_dereference d) s = Done () (deref_desc d o s).
Proof using Ho Hl.
  intros Hk. unfold anscheduler_socket_dereference, deref_desc, set_desc. steps.
  rewrite decide_False by (intros [??]; destruct Hk; lia). steps.
  rewrite decide_False; [steps; f_equal; kst_eq|].
  intros [Hz Hc]. destruct Hk as [|Hk]; [lia|]. rewrite u64_small in Hz by lia. lia.
Qed.

Lemma socket_dereference_last :
  desc_isClosed o ≠ 0 → desc_refCount o = 1 →
  run n c (anscheduler_socket_dereference d) s =
  run n c (anscheduler_task_not_pending (desc_task o) d;;
           task ← rd d desc_task;
           anscheduler_descriptor_delete task d;;
           anscheduler_loop_push_kernel d fn_socket_hangup) (deref_desc d o s).
Proof using Ho Hl.
  intros Hc Hr. unfold anscheduler_socket_dereference, deref_desc, set_desc. steps.
  rewrite decide_False by lia. steps. rewrite Hr. rewrite decide_True by done. steps.
  f_equal. kst_eq.
Qed.
End dereference.

(** The last reference: the descriptor leaves both lists of its task, and the number
    [num] it had goes back to the task's index set [ix], unless that needs a page, and
    there is none. *)
Definition released `{Platform} (T d : Z) (s s1 : kst) (l : list Z) (B : Z → list Z)
    (h : Z) (lh q : list Z) (num : Z) (ix : idxset) : Prop :=
  pending_ok s1 T (filter (λ p, p ≠ d) l) ∧ desc_table s1 T (set_bucket h lh B) ∧
  (∃ b : bool, idx_ok (root_descriptors T) s1 (if b then ix_put num ix else ix) ∧
     (new_page s ≠ NULL ∨ has_room (root_descriptors T) s → b = true)) ∧
  queue_ok s1 q ∧ k_locks s1 = k_locks s ∧ mem_ok s1 ∧
  k_sockets s1 = k_sockets s ∧ k_msgs s1 = k_msgs s ∧ is_Some (k_descs s1 !! d).

Lemma pending_ok_ext s s' T l :
  pending_ok s T l → task_firstPending <$> k_tasks s' !! T = task_firstPending <$> k_tasks s !! T →
  (∀ p, (λ o, (desc_pendingNext o, desc_pendingLast o)) <$> k_descs s' !! p =
        (λ o, (desc_pendingNext o, desc_pendingLast o)) <$> k_descs s !! p) →
  pending_ok s' T l.
Proof.
  intros (Hd & Hin & Hf) Ht Hp. split_and!; [| |by rewrite Ht].
  - eapply dll_ext; [| |exact Hd]; intros p _; specialize (Hp p); unfold fld;
      destruct (k_descs s' !! p), (k_descs s !! p); simplify_eq/=; congruence.
  - intros p Hpl. specialize (Hin p Hpl). rewrite <- (fmap_is_Some (λ o, (desc_pendingNext o, desc_pendingLast o))).
    rewrite Hp. by apply fmap_is_Some.
Qed.

Lemma mem_ok_pending_step T s s' : mem_ok s → pending_step T s s' → mem_ok s'.
Proof.
  intros Hm (Hs & [v HT] & Hb).
  assert (∀ p, is_Some (k_descs s' !! p) ↔ is_Some (k_descs s !! p)) as Hd.
  { intros p. specialize (Hb p). rewrite <- (fmap_is_Some pending_body), Hb. apply fmap_is_Some. }
  assert (∀ p, is_Some (k_tasks s' !! p) ↔ is_Some (k_tasks s !! p)) as Ht.
  { intros p. rewrite HT. apply lookup_alter_is_Some. }
  rewrite Hs. destruct Hm. split; try done; simpl; intros p Hp.
  - apply mem_tasks. by apply Ht.
  - apply mem_descs. by apply Hd.
Qed.

Lemma mem_ok_set_desc s d o o' : mem_ok s → k_descs s !! d = Some o → mem_ok (set_desc d o' s).
Proof.
  intros [] Ho. split; try done. simpl. intros p Hp. apply mem_descs.
  destruct (decide (d = p)) as [<-|Hne]; [eauto|]. by rewrite lookup_insert_ne in Hp.
Qed.

(** Index sets do not depend on the contents of descriptors and tasks' pending lists. *)
Lemma idx_ok_descs r s s' ix :
  idx_ok r s ix → root_at r s' = root_at r s →
  s' = set_k_tasks (k_tasks s') (set_k_descs (k_descs s') s) →
  (∀ p, k_tasks s' !! p = None ↔ k_tasks s !! p = None) →
  (∀ p, k_descs s' !! p = None ↔ k_descs s !! p = None) → idx_ok r s' ix.
Proof.
  intros Hix Hr Hs HT Hd. eapply idx_ok_frame; [exact Hix|exact Hr|by rewrite Hs|].
  intros p Hp Hon _. split; [by rewrite Hs|]. revert Hon. unfold only_node.
  rewrite HT, Hd. by rewrite Hs.
Qed.

Section last.
Context `{Platform, !PlatformOk _} (n c : nat) (s : kst) (T d : Z) (o : socket_desc_t).

Lemma release_lists B l l1 l2 q ix :
  let h := _descriptor_hash (desc_descriptor o) in
  mem_ok s → k_descs s !! d = Some o → d ≠ NULL →
  pending_ok s T l → (d ∉ l → not_pending o) →
  desc_table s T B → B h = l1 ++ d :: l2 → idx_ok (root_descriptors T) s ix → queue_ok s q →
  pendingLock T ∉ k_locks s → socketsLock T ∉ k_locks s → descriptorsLock T ∉ k_locks s →
  desc_task o = T →
  ∃ s1, run n c (anscheduler_task_not_pending T d;;
                 task ← rd d desc_task; anscheduler_descriptor_delete task d) s = Done () s1 ∧
    released T d s s1 l B h (l1 ++ l2) q (desc_descriptor o) ix.
Proof.
  intros h Hm Ho Hd0 Hpend Hnp Htab HB Hix Hq Hl1 Hl2 Hl3 HT.
  destruct (not_pending_spec n c s T l d o) as (sa & Hrun1 & Hpa & Hsta & _); try done.
  pose proof Hsta as (Hsa & [v HTa] & Hba). pose proof (mem_ok_pending_step _ _ _ Hm Hsta) as Hma.
  assert (desc_table sa T B) as Htaba.
  { eapply desc_table_ext; [exact Htab| |].
    - rewrite HTa, lookup_alter_eq. by destruct (k_tasks s !! T).
    - intros p. pose proof (f_equal (fmap desc_key) (Hba p)) as Hf.
      rewrite <- !option_fmap_compose in Hf. exact Hf. }
  destruct (k_descs sa !! d) as [oa|] eqn:Hoa; [|specialize (Hba d); by rewrite Hoa, Ho in Hba].
  pose proof (Hba d) as Hbd. rewrite Hoa, Ho in Hbd. apply (inj Some) in Hbd.
  assert (desc_descriptor oa = desc_descriptor o ∧ desc_task oa = T) as [Hnum Hta].
  { destruct oa, o. unfold pending_body in Hbd. simpl in *. by simplify_eq. }
  assert (k_locks sa = k_locks s) as Hlka by (by rewrite Hsa).
  assert (idx_ok (root_descriptors T) sa ix) as Hixa.
  { apply (idx_ok_descs _ s); [done| |done| |].
    - simpl. rewrite HTa, lookup_alter_eq. by destruct (k_tasks s !! T).
    - intros p. rewrite HTa. apply lookup_alter_None.
    - intros p. rewrite <- (fmap_None pending_body), Hba. apply fmap_None. }
  destruct (descriptor_delete_spec n c sa T B d oa l1 l2 ix)
    as (b & s1 & Hrun2 & (Htab1 & Hlk1 & _ & _ & Hix1 & Hb) & (Hs1 & (L & w & HT1) & Hb1 & Hm1)); rewrite ?Hnum; try done; [by rewrite Hlka..|].
  rewrite Hnum in *. exists s1. split.
  { rewrite (run_call _ _ _ _ _ _ _ Hrun1). erewrite run_rd by exact Hoa. by rewrite Hta. }
  split_and!; try done.
  - eapply pending_ok_ext; [exact Hpa| |].
    + rewrite HT1, lookup_alter_eq. by destruct (k_tasks sa !! T).
    + intros p. pose proof (f_equal (fmap (λ o, (desc_pendingNext o, desc_pendingLast o))) (Hb1 p)) as Hf.
      rewrite <- !option_fmap_compose in Hf. exact Hf.
  - exists b. split; [done|]. intros [Hp|Hr]; apply Hb; [left|right].
    + unfold new_page in *. by rewrite Hsa.
    + eapply has_room_same; [exact Hr| |by rewrite Hsa].
      simpl. rewrite HTa, lookup_alter_eq. by destruct (k_tasks s !! T).
  - rewrite Hs1, Hsa. exact Hq.
  - by rewrite Hlk1.
  - by rewrite Hs1, Hsa.
  - by rewrite Hs1, Hsa.
  - rewrite <- (fmap_is_Some desc_body), Hb1, fmap_is_Some. by exists oa.
Qed.
End last.

Section last_theorem.
Context `{Platform, !PlatformOk _} (n c : nat) (s : kst) (T d : Z) (o : socket_desc_t).

(** C20. When the last reference to a closed descriptor is given up,
    [anscheduler_socket_dereference] takes the descriptor out of its task's pending
    list and out of its table of open sockets, leaves all the other descriptors
    there, frees the descriptor's number in the task's index set (unless that needs
    a page, and none is left), and queues one kernel thread that runs [_socket_hangup] on the descriptor,
    which is still allocated; or it aborts because that thread cannot be allocated. *)
Theorem last_socket_dereference_hangs_up B l l1 l2 q ix :
  let h := _descriptor_hash (desc_descriptor o) in
  mem_ok s → k_descs s !! d = Some o → d ≠ NULL → desc_task o = T →
  desc_isClosed o ≠ 0 → desc_refCount o = 1 →
  pending_ok s T l → (d ∉ l → not_pending o) →
  desc_table s T B → B h = l1 ++ d :: l2 → idx_ok (root_descriptors T) s ix → queue_ok s q →
  pendingLock T ∉ k_locks s → socketsLock T ∉ k_locks s → descriptorsLock T ∉ k_locks s →
  closeLock d ∉ k_locks s → loopLock ∉ k_locks s →
  ∃ s1, released T d s s1 l B h (l1 ++ l2) q (desc_descriptor o) ix ∧
    if decide (spawn_thread s1 = NULL ∨ spawn_stack s1 = NULL) then
      ∃ msg s', run n c (anscheduler_socket_dereference d) s
                = Stop (s_leave (leave_abort msg)) s' ∧ k_live s' = k_live s1
    else
      ∃ s', run n c (anscheduler_socket_dereference d) s = Done () s' ∧
        queue_ok s' (q ++ [spawn_thread s1]) ∧
        queue_step (spawned fn_socket_hangup d s1) s' ∧
        spawn_thread s1 ∉ k_live s1 ∧ spawn_stack s1 ∉ k_live s1.
Proof.
  intros h Hm Ho Hd0 HT Hc Hr Hpend Hnp Htab HB Hix Hq Hl1 Hl2 Hl3 Hl4 Hl5.
  set (s0 := deref_desc d o s). set (o0 := set_desc_refCount (u64 (desc_refCount o - 1)) o).
  assert (∀ {X} (f : socket_desc_t → X), f o0 = f o →
    ∀ p, f <$> k_descs s0 !! p = f <$> k_descs s !! p) as Hsame.
  { intros X f Hf p. simpl. rewrite lookup_insert. case_decide; [subst; by rewrite Ho; simpl; rewrite <- Hf|done]. }
  destruct (release_lists n c s0 T d o0 B l l1 l2 q ix) as (s1 & Hrun & Hrel); try done.
  - by eapply mem_ok_set_desc.
  - apply lookup_insert_eq.
  - eapply pending_ok_ext; [exact Hpend|done|]. by apply Hsame.
  - eapply desc_table_ext; [exact Htab|done|]. by apply Hsame.
  - apply (idx_ok_descs _ s); [done|done|by destruct s|done|].
    intros p. rewrite <- (fmap_None desc_task), (Hsame _ desc_task) by done. apply fmap_None.
  - exists s1. pose proof Hrel as (_ & _ & _ & Hq1 & Hlk1 & Hm1 & _).
    split; [destruct Hrel as (?&?&?&?&?&?&?&?&?); split_and!; done|].
    rewrite (socket_dereference_last n c s d o) by done. rewrite HT. fold s0.
    pose proof (push_kernel_cases n c s1 q fn_socket_hangup d Hm1 Hq1) as Hpush.
    rewrite Hlk1 in Hpush. specialize (Hpush Hl5).
    assert (∀ k : prog (), run n c (anscheduler_task_not_pending T d;;
      task ← rd d desc_task; anscheduler_descriptor_delete task d;; k) s0 = run n c k s1) as Hk.
    { intros k. rewrite <- (run_call _ _ _ (λ _, k) _ _ _ Hrun), run_assoc, !(run_bind _ _ (anscheduler_task_not_pending T d)).
      destruct (run n c (anscheduler_task_not_pending T d) s0); [|done]. by rewrite run_assoc. }
    rewrite Hk. 
    exact Hpush.
Qed.
End last_theorem.

(** *** Witnesses

    The demo task has two open sockets, both pending; the first is closed and holds
    its last reference. *)
Definition demo_closed : socket_desc_t := mk_desc 0 0x42000 0x42000 0 0x40000 3 1 0x10000 1 1 0.
Definition demo_open : socket_desc_t := mk_desc 0x41000 0 0 0x41000 0x40000 0x13 1 0x10000 0 1 0.

Definition demo_link : kst :=
  set_k_descs (list_to_map [(0x41000, demo_closed); (0x42000, demo_open)])
    (set_k_live ({[0x41000; 0x42000]} ∪ k_live (demo 0 2))
      (set_k_tasks {[0x10000 := set_task_firstPending 0x41000
         (set_task_sockets (<[3%nat := 0x42000]> (replicate 16 0)) (demo_task 0 2))]}
        (demo 0 2))).

Lemma demo_link_table : desc_table demo_link 0x10000 demo_desc_lists.
Proof.
  eexists. split; [reflexivity|]. split; [reflexivity|]. intros h Hh. unfold demo_desc_lists.
  case_decide as Hh3.
  - subst. split; [reflexivity|]. split; [by_dll|]. elems; eexists; split; reflexivity.
  - split_and!; [|apply dll_nil|by intros p []%not_elem_of_nil].
    change (<[3%nat := 0x42000]> (replicate 16 0) !! Z.to_nat h = Some 0).
    rewrite list_lookup_insert_ne by lia. apply lookup_replicate_2. lia.
Qed.

Lemma socket_close_is_final_witness :
  run 0 0 (anscheduler_socket_close 0x42000 7;; anscheduler_socket_close 0x42000 9;;
           anscheduler_socket_reference 0x42000) demo_link
  = Done false (set_desc 0x42000 (set_desc_closeCode 7 (set_desc_isClosed 1 demo_open)) demo_link).
Proof. apply (socket_close_is_final 0 0 demo_link 0x42000 demo_open 7 9); by_vm || by_dec. Defined.

Lemma last_socket_dereference_hangs_up_witness :
  ∃ s1, released (H := P0) 0x10000 0x41000 demo_link s1 [0x41000; 0x42000] demo_desc_lists 3 [0x42000]
          [0x1000; 0x2000] 3 ix_init ∧
    if decide (spawn_thread (H := P0) s1 = NULL ∨ spawn_stack (H := P0) s1 = NULL) then
      ∃ msg s', run 0 0 (anscheduler_socket_dereference (H := P0) 0x41000) demo_link
                = Stop (s_leave (leave_abort msg)) s' ∧ k_live s' = k_live s1
    else
      ∃ s', run 0 0 (anscheduler_socket_dereference (H := P0) 0x41000) demo_link = Done () s' ∧
        queue_ok s' ([0x1000; 0x2000] ++ [spawn_thread (H := P0) s1]) ∧
        queue_step (spawned (H := P0) fn_socket_hangup 0x41000 s1) s' ∧
        spawn_thread (H := P0) s1 ∉ k_live s1 ∧ spawn_stack (H := P0) s1 ∉ k_live s1.
Proof.
  apply (last_socket_dereference_hangs_up (H := P0) 0 0 demo_link 0x10000 0x41000 demo_closed
    demo_desc_lists [0x41000; 0x42000] [0x42000] [] [0x1000; 0x2000] ix_init); try done.
  - apply mem_ok_dom; [by_dec|]. repeat split; by_dec.
  - split; [by_dll|]. split; [elems; by_vm|reflexivity].
  - intros []. by left.
  - apply demo_link_table.
  - eapply demo_chain_ok; first [reflexivity|by_dec|by split_and!].
  - split; [by_dll|]. split; [elems; by_vm|by_vm].
Defined.
