(* ===== verification/SocketSend.v ===== *)
(** * SocketSend: sending a message from end to end (src/socket.c)

    [anscheduler_socket_msg]: the other end is referenced, the message is queued
    for it, its task learns that the socket is pending and, when one of its threads
    polls, that thread runs at once. *)
From S2P Require Import Prelude Types Machine Demo Idxset RunQueue PagerQueue TaskRef Loop PidMap SocketList DescTable PendingList Socket MsgQueue SocketLink.

(** ** The other end *)

Definition other_end (isConnector : Z) (so : socket_t) : Z :=
  if decide (isConnector ≠ 0) then sock_receiver so else sock_connector so.

Definition ref_desc (d : Z) (o : socket_desc_t) (s : kst) : kst :=
  set_desc d (set_desc_refCount (u64 (desc_refCount o + 1)) o) s.

Lemma run_reference_other_end n c s d o S so e eo :
  k_descs s !! d = Some o → k_sockets s !! S = Some so →
  other_end (desc_isConnector o) so = e → e ≠ NULL →
  k_descs s !! e = Some eo → desc_isClosed eo = 0 → closeLock e ∉ k_locks s →
  run n c (reference_other_end d S) s = Done e (ref_desc e eo s).
Proof.
  intros Ho Hso He He0 Heo Hc Hl. unfold reference_other_end. step.
  assert (∀ k : Z → prog Z, run n c ((if decide (desc_isConnector o ≠ 0) then rd S sock_receiver
    else rd S sock_connector) ≫= k) s = run n c (k e) s) as ->.
  { intros k. unfold other_end in He. by case_decide; erewrite run_rd by exact Hso; rewrite He. }
  rewrite decide_True by done.
  rewrite run_bind, (socket_reference_spec n c s e eo) by done. by rewrite decide_True.
Qed.

(** Without another end that is open there is nobody to reference. *)
Lemma run_reference_other_end_none n c s d o S so e :
  k_descs s !! d = Some o → k_sockets s !! S = Some so →
  other_end (desc_isConnector o) so = e →
  (e ≠ NULL → ∃ eo, k_descs s !! e = Some eo ∧ desc_isClosed eo ≠ 0 ∧ closeLock e ∉ k_locks s) →
  run n c (reference_other_end d S) s = Done NULL s.
Proof.
  intros Ho Hso He Hcl. unfold reference_other_end. step.
  assert (∀ k : Z → prog Z, run n c ((if decide (desc_isConnector o ≠ 0) then rd S sock_receiver
    else rd S sock_connector) ≫= k) s = run n c (k e) s) as ->.
  { intros k. unfold other_end in He. by case_decide; erewrite run_rd by exact Hso; rewrite He. }
  case_decide as He0; [|done]. destruct (Hcl He0) as (eo & Heo & Hc & Hl).
  rewrite run_bind, (socket_reference_spec n c s e eo) by done. by rewrite decide_False.
Qed.

(** ** Waking up the other end's task *)

(** The first thread of the list that polls. *)
Fixpoint find_polling (m : gmap Z thread_t) (tl : list Z) : option Z :=
  match tl with
  | [] => None
  | t :: tl => if decide (fld m thread_isPolling t = 0) then find_polling m tl else Some t
  end.

Definition unpoll (t : Z) (s : kst) : kst :=
  set_k_threads (alter (set_thread_isPolling 0) t (k_threads s)) s.

Lemma unpoll_idle s t th : k_threads s !! t = Some th → thread_isPolling th = 0 → unpoll t s = s.
Proof.
  intros Ht Hp. unfold unpoll. rewrite (alter_lookup _ _ _ _ Ht), insert_id; [by destruct s|].
  rewrite Ht. destruct th. simpl in *. by subst.
Qed.

(** The switch to a polling thread, after which this thread is resumed later. *)
Definition wake (T t : Z) `{Platform} : prog (Z + bool) :=
  anscheduler_unlock (threadsLock T);;
  curThread ← anscheduler_cpu_get_thread;
  anscheduler_save_return_state curThread (_switch_continuation t);;
  mret (inr true).

(** The thread's state is stored, then the CPU runs [body], which does not return. *)
Definition saved (th : Z) (s : kst) : kst :=
  set_k_threads (alter (set_thread_state state_saved) th (k_threads s)) s.

Lemma run_save n c {A} th (body : prog Empty_set) (k : () → prog A) s :
  is_Some (k_threads s !! th) →
  ∃ w s', run n c body (saved th s) = Stop w s' ∧
    run n c (anscheduler_save_return_state th body ≫= k) s = Stop w s'.
Proof.
  intros [t Ht]. unfold saved. rewrite (alter_lookup _ _ _ _ Ht).
  unfold anscheduler_save_return_state. change (Save th body (Ret ()) ≫= k) with (Save th body (k ())).
  unfold run. fold run. rewrite Ht.
  destruct (run n c body _) as [[]|w s']; eauto.
Qed.

Lemma run_save_bad n c {A} th (body : prog Empty_set) (k : () → prog A) s :
  k_threads s !! th = None →
  run n c (anscheduler_save_return_state th body ≫= k) s = Stop (s_ub (bad_pointer th)) s.
Proof.
  intros Ht. unfold anscheduler_save_return_state.
  change (Save th body (Ret ()) ≫= k) with (Save th body (k ())). unfold run. by rewrite Ht.
Qed.

Lemma wake_stops `{Platform} n c T t s : ∃ w s', run n c (wake T t) s = Stop w s'.
Proof.
  unfold wake, anscheduler_unlock. rewrite run_act. case_decide; [|eauto]. rewrite (run_get_thread n c).
  set (s1 := del_lock _ s). set (cur := cpu_thread _).
  destruct (k_threads s1 !! cur) eqn:Hc; [|rewrite run_save_bad; eauto].
  destruct (run_save n c cur (_switch_continuation t) (λ _, mret (A := Z + bool) (inr true)) s1)
    as (w & s' & _ & ?); eauto.
Qed.

Lemma wakeup_loop `{Platform} {A} n c T (kont : bool → kst → outcome A) s tl : ∀ k,
  slseg (fld (k_threads s) thread_next) tl →
  (∀ t, t ∈ tl → is_Some (k_threads s !! t)) → (length tl < k)%nat →
  iterate k (λ x s, run n c (wakeup_body T x) s) kont (hd0 NULL tl) s =
  match find_polling (k_threads s) tl with
  | None => kont false s
  | Some t =>
      match run n c (wake T t) (unpoll t s) with
      | Done _ s' => kont true s'
      | Stop w s' => Stop w s'
      end
  end.
Proof.
  induction tl as [|t tl IH]; intros k Hs Hin Hk; (destruct k as [|k]; [simpl in Hk; lia|]);
    rewrite iterate_S; unfold wakeup_body at 1.
  - rewrite decide_False by auto. done.
  - destruct Hs as (Ht0 & Hn & Hs). destruct (Hin t) as [th Hth]; [by left|].
    change (hd0 NULL (t :: tl)) with t. rewrite decide_True by done.
    rewrite (fld_lookup _ _ _ _ Hth) in Hn. simpl find_polling. rewrite (fld_lookup _ _ _ _ Hth).
    erewrite run_rmw by exact Hth. simpl. rewrite <- (alter_lookup _ _ _ _ Hth). fold (unpoll t s).
    destruct (decide (thread_isPolling th = 0)) as [Hp|Hp].
    + rewrite decide_False by auto. rewrite (unpoll_idle s t th) by done.
      erewrite run_rd by exact Hth. rewrite run_ret, Hn. apply IH; [done| |simpl in Hk; lia].
      intros x Hx. apply Hin. by right.
    + rewrite decide_True by done. fold (wake T t).
      destruct (wake_stops n c T t (unpoll t s)) as (w & s' & Hrun). by rewrite Hrun.
Qed.

(** The memory once the task is referenced and knows that [e] is pending, and the
    reference to [e] is given up. *)
Record notified (s : kst) (T e : Z) (tk : task_t) (eo : socket_desc_t) (l : list Z) (s' : kst) : Prop := {
  nt_pending : pending_ok s' T (if decide (e ∈ l) then l else e :: l);
  nt_tasks : ∃ v, k_tasks s' =
    <[T := set_task_firstPending v (set_task_refCount (u64 (task_refCount tk + 1)) tk)]> (k_tasks s);
  nt_descs p : pending_body <$> k_descs s' !! p =
    pending_body <$> <[e := set_desc_refCount (u64 (desc_refCount eo - 1)) eo]> (k_descs s) !! p;
  nt_rest : s' = set_k_tasks (k_tasks s') (set_k_descs (k_descs s') s);
}.

(** The rest of [_wakeup_endpoint]. *)
Definition wake_threads `{Platform} (T e : Z) : prog () :=
  anscheduler_lock (threadsLock T);;
  first ← rd T task_firstThread;
  found ← while_ first (wakeup_body T);
  if (found : bool) then mret () else
  anscheduler_unlock (threadsLock T);;
  task ← rd e desc_task;
  anscheduler_task_dereference task.

Section wakeup.
Context `{Platform} (n c : nat) (s : kst) (T e : Z) (tk : task_t) (eo : socket_desc_t) (l : list Z).
Context (Heo : k_descs s !! e = Some eo) (He0 : e ≠ NULL) (Hclosed : desc_isClosed eo = 0).
Context (HT : desc_task eo = T) (Htk : k_tasks s !! T = Some tk) (Halive : task_isKilled tk = 0).
Context (Hpend : pending_ok s T l) (Hnp : e ∉ l → not_pending eo).
Context (Hl1 : killLock T ∉ k_locks s) (Hl2 : pendingLock T ∉ k_locks s).
Context (Hl3 : closeLock e ∉ k_locks s).

Lemma endpoint_notify_spec : ∃ s', notified s T e tk eo l s' ∧
  run n c (_wakeup_endpoint e) s = run n c (wake_threads T e) s'.
Proof using Type*.
  unfold _wakeup_endpoint. erewrite run_rd by exact Heo. rewrite HT.
  rewrite (run_call _ _ _ _ _ _ _ (reference_alive n c s T tk Htk Halive Hl1)). simpl negb. cbn iota.
  set (tk1 := set_task_refCount (u64 (task_refCount tk + 1)) tk). set (sa := set_task T tk1 s).
  erewrite run_rd by exact Heo. rewrite HT.
  assert (pending_ok sa T l) as Hpa.
  { eapply pending_ok_ext; [exact Hpend| |done]. simpl. by rewrite lookup_insert_eq, Htk. }
  destruct (pending_spec n c sa T l e eo) as (sb & Hrunb & Hb); try done.
  rewrite (run_call _ _ _ _ _ _ _ Hrunb).
  assert (pending_step T sa sb ∧ pending_ok sb T (if decide (e ∈ l) then l else e :: l)) as [Hstb Hpb].
  { case_decide; [|by destruct Hb]. subst sb. split; [|done]. split; [by destruct sa|]. split; [|done].
    exists (task_firstPending tk1). rewrite (alter_lookup _ _ _ tk1) by (simpl; apply lookup_insert_eq).
    rewrite insert_id; [done|]. simpl. rewrite lookup_insert_eq. by destruct tk. }
  destruct Hstb as (Hsb & [v HTb] & Hbb).
  assert (∃ eb, k_descs sb !! e = Some eb ∧ pending_body eb = pending_body eo) as (eb & Heb & Hebo).
  { specialize (Hbb e). simpl in Hbb. rewrite Heo in Hbb. destruct (k_descs sb !! e) as [eb|]; [|done].
    exists eb. split; [done|]. by apply (inj Some) in Hbb. }
  assert (desc_isClosed eb = 0 ∧ desc_task eb = T ∧ desc_refCount eb = desc_refCount eo) as (Hcb & HTe & Hrb).
  { destruct eb, eo. unfold pending_body in Hebo. simpl in *. by simplify_eq. }
  rewrite (run_call _ _ _ _ _ _ _ (socket_dereference_keep n c sb e eb Heb ltac:(by rewrite Hsb) (or_introl Hcb))).
  exists (deref_desc e eb sb). split; [|done]. split.
  - eapply pending_ok_ext; [exact Hpb|done|]. intros p. simpl.
    destruct (decide (e = p)) as [<-|Hx]; [by rewrite lookup_insert_eq, Heb|by rewrite lookup_insert_ne].
  - exists v. simpl. rewrite HTb. simpl.
    rewrite (alter_lookup _ _ _ tk1) by apply lookup_insert_eq. by rewrite insert_insert_eq.
  - intros p. simpl. destruct (decide (e = p)) as [<-|Hx];
      [rewrite !lookup_insert_eq|rewrite !lookup_insert_ne by done; apply Hbb].
    simpl. f_equal. rewrite Hrb. destruct eb, eo. unfold pending_body in Hebo. simpl in *. by simplify_eq.
  - simpl. rewrite Hsb. by destruct s.
Qed.
End wakeup.

Lemma switch_frame `{Platform} n c s q t th x xh task :
  queue_ok s q → clean s q → running s c t th → t ∉ q →
  k_threads s !! x = Some xh → loopLock ∉ k_locks s → (∀ k, killLock k ∉ k_locks s) →
  ∃ w s', run n c (A := ()) (anscheduler_loop_switch task x) s = Stop w s' ∧
    s' = set_k_loop (k_loop s') (set_k_threads (k_threads s')
           (set_k_tasks (k_tasks s') (set_k_cpus (k_cpus s') s))).
Proof.
  intros Hok Hcl Hr Htq Hx Hlk Hkl.
  destruct (push_cur_spec n c s q t th) as (s1 & Hrun1 & ? & ? & Hg); try done.
  destruct (threads_agree_lookup _ _ _ _ (gu_threads _ _ _ _ Hg) Hx) as (xh1 & Hx1 & Hb).
  unfold anscheduler_loop_switch. rewrite run_stack_run. unfold _switch_to_thread.
  rewrite (run_call _ _ _ _ _ _ _ Hrun1). steps.
  do 2 eexists. split; [done|]. rewrite (gu_rest _ _ _ _ Hg). by destruct s.
Qed.

Lemma find_polling_elem m tl t : find_polling m tl = Some t → t ∈ tl ∧ fld m thread_isPolling t ≠ 0.
Proof.
  induction tl as [|x tl IH]; [done|]. simpl. case_decide.
  - intros [? ?]%IH. split; [by right|done].
  - intros [= ->]. split; [by left|done].
Qed.

Lemma unlock_lock l s : l ∉ k_locks s → del_lock l (add_lock l s) = s.
Proof. intros Hl. kst_eq. Qed.

Lemma u64_succ_pred r : 0 ≤ r < 2 ^ 64 → u64 (u64 (r + 1) - 1) = r.
Proof.
  intros Hr. unfold u64. rewrite Zminus_mod_idemp_l. replace (r + 1 - 1) with r by lia.
  by apply Z.mod_small.
Qed.

Lemma queue_ok_same s s' q :
  k_threads s' = k_threads s → k_loop s' = k_loop s → queue_ok s q → queue_ok s' q.
Proof. intros Ht Hl. unfold queue_ok. by rewrite Ht, Hl. Qed.

Lemma switch_any `{Platform} n c {B} task t s w s' :
  run n c (A := ()) (anscheduler_loop_switch task t) s = Stop w s' →
  run n c (A := B) (anscheduler_loop_switch task t) s = Stop w s'.
Proof.
  unfold anscheduler_loop_switch. rewrite !run_stack_run.
  destruct (run n c (_switch_to_thread t) s) as [[]|]; intros [= -> ->]. done.
Qed.

Section wake_threads.
Context `{Platform} (n c : nat) (s s1 : kst) (T e : Z) (tk : task_t) (eo : socket_desc_t) (l tl : list Z).
Context (Hnt : notified s T e tk eo l s1) (Htk : k_tasks s !! T = Some tk) (Halive : task_isKilled tk = 0).
Context (Htl : task_threads s T tl) (Hn : (length tl < n)%nat).
Context (Heo : k_descs s !! e = Some eo) (HT : desc_task eo = T).
Context (Hlk : threadsLock T ∉ k_locks s) (Hkl : ∀ k, killLock k ∉ k_locks s).

Lemma notified_locks : k_locks s1 = k_locks s.
Proof using Hnt. by rewrite (nt_rest _ _ _ _ _ _ _ Hnt). Qed.
Lemma notified_threads : k_threads s1 = k_threads s.
Proof using Hnt. by rewrite (nt_rest _ _ _ _ _ _ _ Hnt). Qed.
Lemma notified_task : ∃ v, k_tasks s1 !! T =
  Some (set_task_firstPending v (set_task_refCount (u64 (task_refCount tk + 1)) tk)).
Proof using Hnt.
  destruct (nt_tasks _ _ _ _ _ _ _ Hnt) as [v Hv]. exists v. by rewrite Hv, lookup_insert_eq.
Qed.

Lemma notified_desc : ∃ eb, k_descs s1 !! e = Some eb ∧ desc_task eb = T.
Proof using Hnt Heo HT.
  pose proof (nt_descs _ _ _ _ _ _ _ Hnt e) as He. rewrite lookup_insert_eq in He. simpl in He.
  destruct (k_descs s1 !! e) as [eb|]; [|done]. exists eb. split; [done|].
  simpl in He. apply (inj Some) in He. rewrite <- HT.
  change (desc_task (pending_body eb) = desc_task (pending_body eo)).
  rewrite He. done.
Qed.

(** No thread polls: the task's reference is given back. *)
Lemma wake_none :
  find_polling (k_threads s) tl = None → 0 ≤ task_refCount tk < 2 ^ 64 - 1 →
  ∃ v, task_firstPending <$> k_tasks s1 !! T = Some v ∧
       run n c (wake_threads T e) s1 =
       Done () (set_task T (set_task_firstPending v tk) s1).
Proof using Type*.
  intros Hf Hr. destruct notified_task as [v Hv]. destruct notified_desc as (eb & Heb & HTb).
  exists v. split; [by rewrite Hv|]. unfold wake_threads. destruct Htl as ([_ Hs] & Hfst & Hin).
  rewrite (fld_lookup _ _ _ _ Htk) in Hfst.
  rewrite run_lock by (first [by apply bool_decide_eq_true; eexists|by rewrite notified_locks]).
  erewrite run_rd by exact Hv. simpl task_firstThread. rewrite Hfst.
  rewrite run_while, (wakeup_loop _ _ _ _ _ tl); simpl k_threads; rewrite ?notified_threads.
  - rewrite Hf. rewrite run_unlock; [|simpl; set_solver|by apply bool_decide_eq_true; eexists].
    erewrite run_rd by exact Heb. rewrite HTb.
    erewrite dereference_keep; [|exact Hv|simpl; rewrite notified_locks; specialize (Hkl T); set_solver|by right].
    rewrite (unlock_lock _ s1) by (by rewrite notified_locks).
    f_equal. simpl. rewrite u64_succ_pred by lia. by destruct tk.
  - exact (dlseg_slseg _ _ _ _ Hs).
  - intros t Ht. destruct (Hin t Ht) as (th & ? & _). eauto.
  - done.
Qed.

(** The memory at the switch: the polling flag of [t] is down, the state of [cur] is
    stored. *)
Lemma woken_state t th cur ch q (th' := set_thread_isPolling 0 th)
    (ch' := set_thread_state state_saved ch) (sw := saved cur (unpoll t s1)) :
  k_threads s !! t = Some th → queue_ok s q → clean s q → running s c cur ch → t ≠ cur →
  k_threads (unpoll t s1) !! cur = Some ch ∧ k_threads sw !! t = Some th' ∧
  k_threads sw = <[cur := ch']> (<[t := th']> (k_threads s)) ∧
  queue_ok sw q ∧ clean sw q ∧ running sw c cur ch'.
Proof using Hnt Halive.
  intros Ht Hok Hcl [Hrc Hrk Hrl Hr0 Hra] Hne.
  assert (k_threads (unpoll t s1) = <[t := th']> (k_threads s)) as Hsu.
  { simpl. rewrite notified_threads. by rewrite (alter_lookup _ _ _ _ Ht). }
  assert (k_threads (unpoll t s1) !! cur = Some ch) as Hcu by (rewrite Hsu; by rewrite lookup_insert_ne).
  assert (k_threads sw = <[cur := ch']> (<[t := th']> (k_threads s))) as Hsw.
  { unfold sw, saved. simpl. rewrite (alter_lookup _ _ _ _ Hcu). by rewrite <- Hsu. }
  assert (k_loop sw = k_loop s) as Hlw by (simpl; by rewrite (nt_rest _ _ _ _ _ _ _ Hnt)).
  split; [done|]. split; [by rewrite Hsw, lookup_insert_ne, lookup_insert_eq by done|]. split; [done|].
  split; [|split].
  - apply (queue_ok_insert s q t th th') in Hok; [|done..].
    apply (queue_ok_insert _ q cur ch ch') in Hok; [|simpl; by rewrite lookup_insert_ne|done..].
    eapply queue_ok_same; [| |exact Hok]; done.
  - apply (clean_insert s q t th th') in Hcl; [|done..].
    apply (clean_insert _ q cur ch ch') in Hcl; [|simpl; by rewrite lookup_insert_ne|done..].
    unfold clean. by rewrite Hsw.
  - split; try done; [by simpl; rewrite (nt_rest _ _ _ _ _ _ _ Hnt)..|by rewrite Hsw, lookup_insert_eq|].
    intros Hn0. destruct (Hra Hn0) as (ck & Hck & Hak). simpl.
    destruct (nt_tasks _ _ _ _ _ _ _ Hnt) as [v' ->].
    destruct (decide (T = thread_task ch)) as [He|He].
    + rewrite <- He. rewrite lookup_insert_eq. by eexists.
    + rewrite lookup_insert_ne by done. eauto.
Qed.

(** Up to the switch. *)
Lemma wake_prefix t w s' :
  find_polling (k_threads s) tl = Some t →
  run n c (wake T t) (add_lock (threadsLock T) (unpoll t s1)) = Stop w s' →
  run n c (wake_threads T e) s1 = Stop w s'.
Proof using Hnt Htk Htl Hn Hlk.
  intros Hf Hw. destruct notified_task as [v Hv]. destruct Htl as ([_ Hs] & Hfst & Hin).
  rewrite (fld_lookup _ _ _ _ Htk) in Hfst. unfold wake_threads.
  rewrite run_lock by (first [by apply bool_decide_eq_true; eexists|by rewrite notified_locks]).
  erewrite run_rd by exact Hv. simpl task_firstThread. rewrite Hfst.
  rewrite run_while, (wakeup_loop _ _ _ _ _ tl); simpl k_threads; rewrite ?notified_threads.
  - rewrite Hf. change (unpoll t (add_lock (threadsLock T) s1)) with (add_lock (threadsLock T) (unpoll t s1)).
    by rewrite Hw.
  - exact (dlseg_slseg _ _ _ _ Hs).
  - intros x Hx. destruct (Hin x Hx) as (xh & ? & _). eauto.
  - done.
Qed.

Lemma insert_is_Some_old {V} (p : Z) (v : V) (m : gmap Z V) q :
  is_Some (m !! p) → is_Some (<[p := v]> m !! q) ↔ is_Some (m !! q).
Proof. intros [w Hw]. rewrite lookup_insert_is_Some'. split; [|by right]. intros [<-|]; eauto. Qed.

(** A thread polls: it runs at once, this one is queued. *)
Lemma wake_some t th cur ch q :
  find_polling (k_threads s) tl = Some t → k_threads s !! t = Some th →
  queue_ok s q → clean s q → running s c cur ch → cur ∉ q → t ≠ cur → loopLock ∉ k_locks s →
  ∃ s', run n c (wake_threads T e) s1 = Stop (s_leave (leave_run T t)) s' ∧
    s' = set_k_loop (k_loop s') (set_k_threads (k_threads s') (set_k_tasks (k_tasks s')
           (set_k_cpus (k_cpus s') s1))) ∧
    queue_ok s' (q ++ [cur]) ∧ clean s' (q ++ [cur]) ∧
    cpu_task (k_cpus s' c) = T ∧ cpu_thread (k_cpus s' c) = t ∧
    (∀ p, fld (k_threads s') thread_isPolling p =
          if decide (p = t) then 0 else fld (k_threads s) thread_isPolling p) ∧
    k_tasks s' = deref_task (thread_task ch) s1 ∧
    ∀ p, is_Some (k_threads s' !! p) ↔ is_Some (k_threads s !! p).
Proof using Type*.
  intros Hf Ht Hok Hcl Hrun Hcq Hne Hll.
  destruct (woken_state t th cur ch q) as (Hcu & Htw & Hsw & Hokw & Hclw & Hrunw); try done.
  set (su := unpoll t s1) in *. set (sw := saved cur su) in *.
  assert (thread_task th = T) as HtT.
  { apply find_polling_elem in Hf as [Hel _]. destruct Htl as (_ & _ & Hin).
    destruct (Hin t Hel) as (th' & ? & ?). congruence. }
  assert (k_locks sw = k_locks s) as Hkw by (simpl; by rewrite notified_locks).
  assert (cpu_thread (k_cpus su c) = cur) as Hcpu
    by (simpl; rewrite (nt_rest _ _ _ _ _ _ _ Hnt); apply Hrun).
  set (xh := set_thread_isPolling 0 th) in *.
  destruct (switch_spec n c sw q cur (set_thread_state state_saved ch) t xh (thread_task xh))
    as (s2 & Hsw2 & H1 & H2 & H3 & H4 & H5 & H6 & _); try done; [by rewrite Hkw..|].
  destruct (switch_frame n c sw q cur (set_thread_state state_saved ch) t xh (thread_task xh))
    as (w2 & s3 & Hsw3 & Hfr); try done; [by rewrite Hkw..|].
  rewrite Hsw2 in Hsw3. injection Hsw3 as <- <-. apply (switch_any n c (B := Empty_set)) in Hsw2.
  change (thread_task xh) with (thread_task th) in *. rewrite HtT in *.
  exists s2. split.
  - apply (wake_prefix t); [done|]. unfold wake. fold su.
    rewrite run_unlock; [|simpl; set_solver|by destruct notified_task; apply bool_decide_eq_true; eexists].
    rewrite (unlock_lock _ su) by (simpl; by rewrite notified_locks).
    rewrite (run_get_thread n c), Hcpu.
    destruct (run_save n c cur (_switch_continuation t) (λ _, mret (A := Z + bool) (inr true)) su)
      as (w & s' & Hbody & ->); [by eexists|]. fold sw in Hbody.
    unfold _switch_continuation in Hbody. erewrite run_rd in Hbody by exact Htw.
    change (thread_task xh) with (thread_task th) in Hbody. rewrite HtT in Hbody. congruence.
  - split_and!; try done; intros p.
    + rewrite <- (threads_agree_fld _ _ thread_isPolling p H3) by done. rewrite Hsw.
      destruct (decide (p = t)) as [->|Hpt]; [by rewrite fld_insert_ne, fld_insert_eq|].
      rewrite (fld_insert_same _ _ cur ch); [|rewrite lookup_insert_ne by done; apply Hrun|done].
      by apply fld_insert_ne.
    + rewrite <- (threads_agree_is_Some _ _ p H3), Hsw, (insert_is_Some_old cur), insert_is_Some_old;
        [done|by eexists|rewrite lookup_insert_ne by done; eexists; apply Hrun].
Qed.
End wake_threads.

(** ** From end to end *)

(** What sending leaves alone: every task's table of open sockets and its sets of
    numbers, where the sockets' two ends are, and of a descriptor all but the links of
    the pending list and the reference count. *)
Definition task_table (tk : task_t) : list Z * anidxset_root_t * anidxset_root_t :=
  (task_sockets tk, task_descriptors tk, task_stacks tk).

Definition desc_stable (o : socket_desc_t) : socket_desc_t :=
  set_desc_refCount 0 (pending_body o).

Record keeps_tables (s s' : kst) : Prop := {
  kt_tasks t : task_table <$> k_tasks s' !! t = task_table <$> k_tasks s !! t;
  kt_descs p : desc_stable <$> k_descs s' !! p = desc_stable <$> k_descs s !! p;
  kt_sockets p : sock_ends <$> k_sockets s' !! p = sock_ends <$> k_sockets s !! p;
  kt_msgs p : set_msg_next NULL <$> k_msgs s' !! p = set_msg_next NULL <$> k_msgs s !! p;
  kt_threads p : is_Some (k_threads s' !! p) ↔ is_Some (k_threads s !! p);
  kt_rest : k_nodes s' = k_nodes s ∧ k_live s' = k_live s ∧ k_faults s' = k_faults s ∧
    k_infos s' = k_infos s ∧ k_vms s' = k_vms s;
}.

Lemma keeps_tables_desc_table s s' T B : keeps_tables s s' → desc_table s T B → desc_table s' T B.
Proof.
  intros Hk HB. eapply desc_table_ext; [exact HB| |].
  - pose proof (f_equal (fmap (λ x, x.1.1)) (kt_tasks _ _ Hk T)) as Hf.
    rewrite <- !option_fmap_compose in Hf. exact Hf.
  - intros p. pose proof (f_equal (fmap desc_key) (kt_descs _ _ Hk p)) as Hf.
    rewrite <- !option_fmap_compose in Hf. exact Hf.
Qed.

Lemma keeps_tables_idx_ok s s' T x :
  keeps_tables s s' → idx_ok (root_descriptors T) s x → idx_ok (root_descriptors T) s' x.
Proof.
  intros [Ht Hd Hs Hm Hth (Hn & Hl & Hf & Hi & Hv)] Hx. eapply idx_ok_frame; [exact Hx| |by rewrite Hn|].
  - pose proof (f_equal (fmap (λ x, x.1.2)) (Ht T)) as Hf'.
    rewrite <- !option_fmap_compose in Hf'. exact Hf'.
  - intros p Hp (H1 & H2 & H3 & H4 & H5 & H6) _. rewrite Hl. split; [done|]. unfold only_node.
    rewrite Hf, Hi, Hv, <- (fmap_None task_table), Ht, fmap_None, <- (fmap_None sock_ends), Hs, fmap_None,
      <- (fmap_None desc_stable), Hd, fmap_None, <- (fmap_None (set_msg_next NULL)), Hm, fmap_None.
    split_and!; try done; try apply H6. by rewrite eq_None_not_Some, Hth, <- eq_None_not_Some.
Qed.

Lemma keeps_tables_ext s0 s s' :
  keeps_tables s0 s →
  s' = set_k_loop (k_loop s') (set_k_threads (k_threads s') (set_k_tasks (k_tasks s')
         (set_k_cpus (k_cpus s') s))) →
  (∀ t, task_table <$> k_tasks s' !! t = task_table <$> k_tasks s !! t) →
  (∀ p, is_Some (k_threads s' !! p) ↔ is_Some (k_threads s0 !! p)) → keeps_tables s0 s'.
Proof.
  intros [Ht Hd Hs Hm _ Hr] Hs' Ht' Hth'.
  split; [intros t; by rewrite Ht'|by rewrite Hs'..|exact Hth'|by rewrite Hs'].
Qed.

(** A link from [d] to [e], an open socket of the task [T] whose pending list is [l] and
    whose threads are [tl]. *)
Record link_ready (n : nat) (s : kst) (S d e T : Z) (o eo : socket_desc_t)
    (tk : task_t) (mb : mailbox) (l tl : list Z) : Prop := {
  lr_desc : k_descs s !! d = Some o ∧ desc_socket o = S;
  lr_end : ∃ so, k_sockets s !! S = Some so ∧ other_end (desc_isConnector o) so = e;
  lr_ne : e ≠ NULL ∧ e ≠ d;
  lr_other : k_descs s !! e = Some eo ∧ desc_socket eo = S ∧ desc_task eo = T;
  lr_open : desc_isClosed eo = 0 ∧ 0 ≤ desc_refCount eo < 2 ^ 64 - 1;
  lr_mail : mail_ok s S mb;
  lr_room : mb_size mb + 1 < 2 ^ 64;
  lr_task : k_tasks s !! T = Some tk ∧ task_isKilled tk = 0 ∧ 0 ≤ task_refCount tk < 2 ^ 64 - 1;
  lr_pending : pending_ok s T l ∧ (e ∉ l → not_pending eo);
  lr_threads : task_threads s T tl ∧ (length tl < n)%nat;
  lr_locks : k_locks s = ∅;
}.

(** The message [m] that is to be sent is in no queue. *)
Definition unsent (s : kst) (m : Z) (mo : socket_msg_t) (mb : mailbox) : Prop :=
  k_msgs s !! m = Some mo ∧ m ≠ NULL ∧ ∀ d', m ∉ mb d'.

Section msg.
Context `{Platform} (n c : nat) (s : kst) (S d e T : Z) (o eo : socket_desc_t).
Context (tk : task_t) (mb : mailbox) (l tl : list Z).
Context (Hr : link_ready n s S d e T o eo tk mb l tl).

Let es := side_of (desc_isConnector eo).
Let s1 := ref_desc e eo s.

Lemma link_reference A (k : Z → prog A) :
  run n c (anscheduler_lock (connRecLock S);;
           otherEnd ← reference_other_end d S;
           anscheduler_unlock (connRecLock S);; k otherEnd) s = run n c (k e) s1.
Proof using Hr.
  destruct Hr as [[Ho _] (so & Hso & He) [He0 Hne] (Heo & _) [Hc _] _ _ _ _ _ Hlk].
  rewrite run_lock by (first [by apply bool_decide_eq_true; eexists|by rewrite Hlk]).
  rewrite (run_call _ _ _ _ _ _ _ (run_reference_other_end n c (add_lock (connRecLock S) s)
    d o S so e eo Ho Hso He He0 Heo Hc ltac:(simpl; rewrite Hlk; set_solver))).
  rewrite run_unlock by (first [simpl; set_solver|by apply bool_decide_eq_true; eexists]).
  f_equal. unfold s1, ref_desc, set_desc, del_lock, add_lock. simpl.
  by rewrite del_add_lock by (rewrite Hlk; set_solver).
Qed.

Context (m : Z) (mo : socket_msg_t) (Hu : unsent s m mo mb).

Lemma link_push :
  if refused (msg_type mo) (mb es) then run n c (_push_message e m) s1 = Done false s1
  else ∃ s2, run n c (_push_message e m) s1 = Done true s2 ∧
    mail_ok s2 S (mb_set es (mb es ++ [m]) mb) ∧ mail_step S s1 s2.
Proof using Hr Hu.
  destruct Hr as [_ _ _ (Heo & HS & _) _ Hmail Hroom _ _ _ Hlk]. destruct Hu as (Hm & Hm0 & Hmq).
  apply run_push_message; try done.
  - eexists. split; [apply lookup_insert_eq|]. done.
  - change (k_locks s1) with (k_locks s). rewrite Hlk. set_solver.
  - pose proof (mb_size_side es mb). lia.
Qed.

(** The memory when [_wakeup_endpoint] starts. *)
Definition sent_state (s2 : kst) : kst := deref_desc d o s2.

Lemma link_msg :
  desc_isClosed o = 0 ∨ 1 < desc_refCount o < 2 ^ 64 →
  if refused (msg_type mo) (mb es) then run n c (anscheduler_socket_msg d m) s = Done false s
  else ∃ s2, mail_ok s2 S (mb_set es (mb es ++ [m]) mb) ∧ mail_step S s1 s2 ∧
    run n c (anscheduler_socket_msg d m) s =
    run n c (_wakeup_endpoint e;; mret true) (sent_state s2).
Proof using Hr Hu.
  intros Hkeep. pose proof link_push as Hpush.
  destruct Hr as [[Ho HS] _ [He0 Hne] (Heo & _) [Hc Hrc] _ _ _ _ _ Hlk].
  assert (k_descs s1 !! e = Some (set_desc_refCount (u64 (desc_refCount eo + 1)) eo)) as He1
    by apply lookup_insert_eq.
  assert (∀ s', k_locks s' = ∅ → ∀ x, closeLock x ∉ k_locks s') as Hcl by (intros s' ->; set_solver).
  unfold anscheduler_socket_msg. erewrite run_rd by exact Ho. rewrite HS, link_reference.
  rewrite decide_False by done. destruct (refused _ _).
  - rewrite (run_call _ _ _ _ _ _ _ Hpush). simpl negb. cbn iota.
    rewrite (run_call _ _ _ _ _ _ _ (socket_dereference_keep n c s1 e _ He1 (Hcl s1 Hlk e) (or_introl Hc))).
    rewrite run_ret. f_equal. unfold deref_desc, s1, ref_desc, set_desc. simpl.
    rewrite insert_insert_eq, u64_succ_pred by lia. rewrite insert_id; [by destruct s|].
    rewrite Heo. by destruct eo.
  - destruct Hpush as (s2 & Hrun & Hok2 & Hst2). exists s2. split; [done|]. split; [done|].
    destruct Hst2 as [Hs2 _]. rewrite (run_call _ _ _ _ _ _ _ Hrun). simpl negb. cbn iota.
    assert (k_descs s2 !! d = Some o) as Ho2 by (rewrite Hs2; simpl; by rewrite lookup_insert_ne).
    rewrite (run_call _ _ _ _ _ _ _ (socket_dereference_keep n c s2 d o Ho2
      (Hcl s2 ltac:(by rewrite Hs2) d) Hkeep)). done.
Qed.
End msg.

(** What sending leaves when it is not refused: [rc] is what the sender's count is then. *)
Record delivered (S d e T : Z) (rc : Z) (eo : socket_desc_t) (mb : mailbox) (m : Z) (l : list Z)
    (s' : kst) : Prop := {
  dl_mail : mail_ok s' S (mb_set (side_of (desc_isConnector eo)) (mb (side_of (desc_isConnector eo)) ++ [m]) mb);
  dl_pending : pending_ok s' T (if decide (e ∈ l) then l else e :: l);
  dl_refs : fld (k_descs s') desc_refCount e = desc_refCount eo ∧
    fld (k_descs s') desc_refCount d = rc;
  dl_locks : k_locks s' = ∅;
}.

Lemma delivered_ext S d e T rc eo mb m l s s' :
  s' = set_k_loop (k_loop s') (set_k_threads (k_threads s') (set_k_tasks (k_tasks s')
         (set_k_cpus (k_cpus s') s))) →
  task_firstPending <$> k_tasks s' !! T = task_firstPending <$> k_tasks s !! T →
  delivered S d e T rc eo mb m l s → delivered S d e T rc eo mb m l s'.
Proof.
  intros Hs Ht [Hm Hp Href Hlk]. split; [| |by rewrite Hs..].
  - eapply mail_ok_frame; [| |exact Hm]; by rewrite Hs.
  - eapply pending_ok_ext; [exact Hp|done|by rewrite Hs].
Qed.

Section deliver.
Context `{Platform} (n c : nat) (s : kst) (S d e T : Z) (o eo : socket_desc_t).
Context (tk : task_t) (mb : mailbox) (l tl : list Z) (m : Z) (mo : socket_msg_t).
Context (Hr : link_ready n s S d e T o eo tk mb l tl).

(** The memory in which the other end's task is notified; the descriptor [d] is [o1] then. *)
Lemma link_notify s2 o1 (s3 := set_desc d o1 s2) (eo1 := set_desc_refCount (u64 (desc_refCount eo + 1)) eo) :
  (λ x, (desc_pendingNext x, desc_pendingLast x)) o1 =
    (λ x, (desc_pendingNext x, desc_pendingLast x)) o →
  mail_step S (ref_desc e eo s) s2 →
  mail_ok s2 S (mb_set (side_of (desc_isConnector eo)) (mb (side_of (desc_isConnector eo)) ++ [m]) mb) →
  k_threads s3 = k_threads s ∧ k_tasks s3 = k_tasks s ∧ k_locks s3 = ∅ ∧ k_loop s3 = k_loop s ∧
  k_cpus s3 = k_cpus s ∧ k_descs s3 !! e = Some eo1 ∧
  ∃ s4, notified s3 T e tk eo1 l s4 ∧ delivered S d e T (desc_refCount o1) eo mb m l s4 ∧
    run n c (_wakeup_endpoint e) s3 = run n c (wake_threads T e) s4.
Proof using Hr.
  intros Ho1 [Hs2 _] Hok2.
  destruct Hr as [[Ho HS] _ [He0 Hne] (Heo & _ & HT) [Hc Hrc] _ _ (Htk & Hal & _) [Hp Hnp] _ Hlk].
  assert (k_descs s3 = <[d := o1]> (<[e := eo1]> (k_descs s))) as Hd3 by (unfold s3; simpl; by rewrite Hs2).
  assert (k_descs s3 !! e = Some eo1) as He3 by (by rewrite Hd3, lookup_insert_ne, lookup_insert_eq).
  assert (k_tasks s3 = k_tasks s) as Ht3 by (unfold s3; simpl; by rewrite Hs2).
  assert (k_locks s3 = ∅) as Hl3 by (unfold s3; simpl; by rewrite Hs2).
  assert (∀ x, x ∉ k_locks s3) as Hno by (rewrite Hl3; set_solver).
  split; [unfold s3; simpl; by rewrite Hs2|]. split; [done|]. split; [done|].
  split; [unfold s3; simpl; by rewrite Hs2|]. split; [unfold s3; simpl; by rewrite Hs2|].
  split; [done|].
  destruct (endpoint_notify_spec n c s3 T e tk eo1 l) as (s4 & Hnt & Hrun); try done; [by rewrite Ht3| |].
  { eapply pending_ok_ext; [exact Hp|by rewrite Ht3|]. intros p. rewrite Hd3, !lookup_insert.
    repeat case_decide; subst; rewrite ?Ho, ?Heo; simpl; by rewrite ?Ho1. }
  exists s4. split; [done|]. split; [|done].
  assert (∀ p, desc_refCount <$> k_descs s4 !! p = desc_refCount <$>
    <[e := set_desc_refCount (u64 (desc_refCount eo1 - 1)) eo1]> (k_descs s3) !! p) as Hrc4.
  { intros p. pose proof (f_equal (fmap desc_refCount) (nt_descs _ _ _ _ _ _ _ Hnt p)) as Hf.
    rewrite <- !option_fmap_compose in Hf. exact Hf. }
  split.
  - eapply mail_ok_frame; [| |exact Hok2]; by rewrite (nt_rest _ _ _ _ _ _ _ Hnt).
  - apply Hnt.
  - pose proof (Hrc4 e) as H1. rewrite lookup_insert_eq in H1. simpl in H1. rewrite u64_succ_pred in H1 by lia.
    pose proof (Hrc4 d) as H2. rewrite lookup_insert_ne, Hd3, lookup_insert_eq in H2 by done. simpl in H2.
    unfold fld. destruct (k_descs s4 !! e), (k_descs s4 !! d); simplify_eq/=; done.
  - by rewrite (nt_rest _ _ _ _ _ _ _ Hnt).
Qed.

Lemma link_tables s2 o1 (s3 := set_desc d o1 s2) (eo1 := set_desc_refCount (u64 (desc_refCount eo + 1)) eo) s4 :
  desc_pendingNext o1 = desc_pendingNext o → desc_pendingLast o1 = desc_pendingLast o →
  desc_stable o1 = desc_stable o → mail_step S (ref_desc e eo s) s2 →
  notified s3 T e tk eo1 l s4 → keeps_tables s s4.
Proof using Hr.
  intros _ _ Ho1 (Hs2 & Hso & Hse & Hms) [_ [v Ht] Hd Hs4].
  destruct Hr as [[Ho HS] _ [He0 Hne] (Heo & _) _ _ _ (Htk & _) _ _ _].
  assert (k_tasks s3 = k_tasks s) as Ht3 by (unfold s3; simpl; by rewrite Hs2).
  split.
  - intros t. rewrite Ht, Ht3, lookup_insert. case_decide; [subst; by rewrite Htk|done].
  - intros p. pose proof (f_equal (fmap desc_stable) (Hd p)) as Hf.
    rewrite <- !option_fmap_compose in Hf.
    change (desc_stable <$> k_descs s4 !! p = desc_stable <$>
      <[e := set_desc_refCount (u64 (desc_refCount eo1 - 1)) eo1]> (k_descs s3) !! p) in Hf.
    rewrite Hf. unfold s3. simpl. rewrite Hs2. simpl. rewrite !lookup_insert.
    repeat case_decide; subst; rewrite ?Ho, ?Heo; simpl; by rewrite ?Ho1.
  - intros p. rewrite Hs4. unfold s3. simpl. destruct (decide (p = S)) as [->|Hp]; [exact Hse|by rewrite Hso].
  - intros p. rewrite Hs4. exact (Hms p).
  - intros p. rewrite Hs4. unfold s3. simpl. by rewrite Hs2.
  - rewrite Hs4. unfold s3. simpl. by rewrite Hs2.
Qed.

(** The other end's task is told: the first of its threads that polls runs at once. *)
Lemma link_wake s2 o1 q cur ch :
  (λ x, (desc_pendingNext x, desc_pendingLast x)) o1 =
    (λ x, (desc_pendingNext x, desc_pendingLast x)) o → desc_stable o1 = desc_stable o →
  mail_step S (ref_desc e eo s) s2 →
  mail_ok s2 S (mb_set (side_of (desc_isConnector eo)) (mb (side_of (desc_isConnector eo)) ++ [m]) mb) →
  queue_ok s q → clean s q → running s c cur ch → cur ∉ q →
  fld (k_threads s) thread_isPolling cur = 0 →
  ∃ s', delivered S d e T (desc_refCount o1) eo mb m l s' ∧ keeps_tables s s' ∧
    (k_msgs s' = k_msgs s2 ∧ k_sockets s' = k_sockets s2 ∧ k_live s' = k_live s2 ∧
     pending_body <$> k_descs s' !! d = Some (pending_body o1)) ∧
    match find_polling (k_threads s) tl with
    | None => run n c (_wakeup_endpoint e) (set_desc d o1 s2) = Done () s' ∧
        k_threads s' = k_threads s ∧ k_cpus s' = k_cpus s ∧ queue_ok s' q ∧
        fld (k_tasks s') task_refCount T = task_refCount tk
    | Some t => run n c (_wakeup_endpoint e) (set_desc d o1 s2) = Stop (s_leave (leave_run T t)) s' ∧
        queue_ok s' (q ++ [cur]) ∧ cpu_thread (k_cpus s' c) = t ∧ cpu_task (k_cpus s' c) = T ∧
        fld (k_threads s') thread_isPolling t = 0
    end.
Proof using Hr.
  intros Ho1 Hos Hst2 Hok2 Hq Hcl Hrun Hcq Hidle.
  destruct (link_notify s2 o1 Ho1 Hst2 Hok2)
    as (Hth & Htk3 & Hl3 & Hlo & Hcp & He3 & s4 & Hnt & Hdl & Hw).
  set (s3 := set_desc d o1 s2) in *. set (eo1 := set_desc_refCount _ eo) in *.
  assert (keeps_tables s s4) as Hkt by (injection Ho1 as ??; by eapply link_tables).
  destruct Hr as [_ _ [_ Hne] (_ & _ & HT) _ _ _ (Htk & Hal & Hrt) _ [Htl Hn] _].
  assert (∀ x, x ∉ k_locks s3) as Hno by (rewrite Hl3; set_solver).
  assert (task_threads s3 T tl) as Htl3 by (unfold task_threads; by rewrite Hth, Htk3).
  assert (k_tasks s3 !! T = Some tk) as Htk3' by (by rewrite Htk3).
  assert (pending_body <$> k_descs s4 !! d = Some (pending_body o1)) as Hd4.
  { rewrite (nt_descs _ _ _ _ _ _ _ Hnt), lookup_insert_ne by done. simpl. by rewrite lookup_insert_eq. }
  pose proof (nt_rest _ _ _ _ _ _ _ Hnt) as Hs4.
  rewrite Hw, <- Hth. destruct (find_polling (k_threads s3) tl) as [t|] eqn:Hf.
  - apply find_polling_elem in Hf as Hfe. destruct Hfe as [Hti Htp].
    destruct Htl3 as (Hd3 & Hf3 & Hin3). destruct (Hin3 t Hti) as (th & Hlt & _).
    destruct (wake_some n c s3 s4 T e tk eo1 l tl Hnt) with (t := t) (th := th) (cur := cur) (ch := ch) (q := q)
      as (s' & Hrun' & Hfr & H1 & H2 & H3 & H4 & H5 & H6 & H7); try done.
    + by eapply queue_ok_same.
    + unfold clean. by rewrite Hth.
    + destruct Hrun. split; try done; by rewrite ?Hcp, ?Hth, ?Htk3.
    + intros ->. by rewrite Hth in Htp.
    + exists s'. rewrite Hrun'. split; [|split; [|split; [by rewrite Hfr, Hs4|split_and!; try done; by rewrite H5, decide_True]]].
      2: { eapply keeps_tables_ext; [exact Hkt|exact Hfr| |by rewrite <- Hth]. intros t'. rewrite H6.
        unfold deref_task. case_decide; [done|]. rewrite lookup_alter.
        case_decide; [subst; by destruct (k_tasks s4 !! _)|done]. }
      eapply delivered_ext; [exact Hfr| |exact Hdl]. rewrite H6. unfold deref_task.
      destruct (decide (thread_task ch = NULL)); [done|]. rewrite lookup_alter.
      destruct (decide (thread_task ch = T)) as [->|]; [by destruct (k_tasks s4 !! _)|done].
  - destruct (wake_none n c s3 s4 T e tk eo1 l tl Hnt) as (v & Hv & Hrun'); try done.
    exists (set_task T (set_task_firstPending v tk) s4). rewrite Hrun'.
    assert (k_threads s4 = k_threads s3 ∧ k_loop s4 = k_loop s3 ∧ k_cpus s4 = k_cpus s3) as (Hth4 & Hlo4 & Hcp4)
      by (by rewrite Hs4).
    split; [|split; [|split; [by rewrite Hs4|split_and!; [done|done|by etrans|
      by eapply (queue_ok_same s); [etrans; [exact Hth4|]|etrans; [exact Hlo4|]|]
      |simpl; by rewrite fld_insert_eq]]]].
    2: { destruct Hkt as [Hk1 Hk2 Hk3 Hk4 Hk5 Hk6]. split; try done. intros t'. simpl. rewrite lookup_insert.
      case_decide; [subst; by rewrite Htk|done]. }
    eapply delivered_ext; [by destruct s4| |exact Hdl]. simpl. by rewrite lookup_insert_eq, Hv.
Qed.

(** The whole call when the message is not refused. *)
Lemma link_sent q cur ch :
  unsent s m mo mb → desc_isClosed o = 0 ∨ 1 < desc_refCount o < 2 ^ 64 →
  refused (msg_type mo) (mb (side_of (desc_isConnector eo))) = false →
  queue_ok s q → clean s q → running s c cur ch → cur ∉ q →
  fld (k_threads s) thread_isPolling cur = 0 →
  ∃ s', delivered S d e T (u64 (desc_refCount o - 1)) eo mb m l s' ∧ keeps_tables s s' ∧
    ((∀ p, set_msg_next NULL <$> k_msgs s' !! p = set_msg_next NULL <$> k_msgs s !! p) ∧
     k_live s' = k_live s ∧ (find_polling (k_threads s) tl = None → k_cpus s' = k_cpus s)) ∧
    match find_polling (k_threads s) tl with
    | None => run n c (anscheduler_socket_msg d m) s = Done true s' ∧
        k_threads s' = k_threads s ∧ queue_ok s' q ∧
        fld (k_tasks s') task_refCount T = task_refCount tk
    | Some t => run n c (anscheduler_socket_msg d m) s = Stop (s_leave (leave_run T t)) s' ∧
        queue_ok s' (q ++ [cur]) ∧ cpu_thread (k_cpus s' c) = t ∧ cpu_task (k_cpus s' c) = T ∧
        fld (k_threads s') thread_isPolling t = 0
    end.
Proof using Hr.
  intros Hu Hkeep Href Hq Hcl Hrun Hcq Hidle.
  pose proof (link_msg n c s S d e T o eo tk mb l tl Hr m mo Hu Hkeep) as Hmsg. rewrite Href in Hmsg.
  destruct Hmsg as (s2 & Hok2 & Hst2 & ->).
  destruct (link_wake s2 (set_desc_refCount (u64 (desc_refCount o - 1)) o) q cur ch)
    as (s' & Hdl & Hkt & (Hm' & _ & Hlv & _) & Hw); try done.
  exists s'. split; [done|]. split; [done|]. split.
  { split; [rewrite Hm'; apply Hst2|]. split; [rewrite Hlv; by destruct Hst2 as [-> _]|].
    intros Hf. rewrite Hf in Hw. apply Hw. }
  fold (deref_desc d o s2) (sent_state d o s2) in Hw. rewrite run_bind.
  destruct (find_polling _ _); [by destruct Hw as (-> & Hw)|]. by destruct Hw as (-> & Hth & _ & Hw).
Qed.

(** C11. Sending from end to end. A DATA message for a queue of 16 messages is
    refused and nothing has changed. Otherwise the message is the last of the other
    end's queue and that socket is on its task's pending list, once; the sender's
    reference is used up and the other end's count is as before. When a thread of
    that task polls, the first such thread runs now, its polling flag is down, and
    the sending thread is queued behind all others; when none polls, the call
    returns true and no thread and no task's count has changed. *)
Theorem socket_msg_delivers q cur ch :
  unsent s m mo mb → desc_isClosed o = 0 ∨ 1 < desc_refCount o < 2 ^ 64 →
  queue_ok s q → clean s q → running s c cur ch → cur ∉ q →
  fld (k_threads s) thread_isPolling cur = 0 →
  if refused (msg_type mo) (mb (side_of (desc_isConnector eo)))
  then run n c (anscheduler_socket_msg d m) s = Done false s
  else ∃ s', delivered S d e T (u64 (desc_refCount o - 1)) eo mb m l s' ∧
    match find_polling (k_threads s) tl with
    | None => run n c (anscheduler_socket_msg d m) s = Done true s' ∧
        k_threads s' = k_threads s ∧ queue_ok s' q ∧
        fld (k_tasks s') task_refCount T = task_refCount tk
    | Some t => run n c (anscheduler_socket_msg d m) s = Stop (s_leave (leave_run T t)) s' ∧
        queue_ok s' (q ++ [cur]) ∧ cpu_thread (k_cpus s' c) = t ∧ cpu_task (k_cpus s' c) = T ∧
        fld (k_threads s') thread_isPolling t = 0
    end.
Proof using Hr.
  intros Hu Hkeep Hq Hcl Hrun Hcq Hidle. destruct (refused _ _) eqn:Href.
  - pose proof (link_msg n c s S d e T o eo tk mb l tl Hr m mo Hu Hkeep) as Hmsg. by rewrite Href in Hmsg.
  - destruct (link_sent q cur ch) as (s' & Hdl & _ & _ & Hw); [done..|]. by exists s'.
Qed.
End deliver.

(** *** Witness

    The demo socket; its two ends belong to the demo task, whose second thread polls. *)
Definition demo_send : kst :=
  set_k_threads (alter (set_thread_isPolling 1) 0x2000 demo_threads) demo_sock.

Lemma demo_link_ready :
  link_ready 4 demo_send 0x60000 0x61000 0x62000 0x10000
    (mk_desc 0 0 0 0 0x60000 0 1 0x10000 0 1 0) (mk_desc 0 0 0 0 0x60000 1 0 0x10000 0 1 0)
    (demo_task 0 2) demo_mb [] [0x1000; 0x2000; 0x3000].
Proof.
  split; try (by split); try (by left).
  - eexists. by split.
  - apply (mail_ok_frame demo_sock); [done|done|apply demo_mail_ok].
  - split; [|done]. split; [apply dll_nil|]. split; [by intros p Hp%not_elem_of_nil|done].
  - split; [|simpl; lia]. split; [by_dll|]. split; [done|]. elems; eexists; split; reflexivity.
Qed.

Lemma socket_msg_delivers_witness :
  ∃ s', delivered 0x60000 0x61000 0x62000 0x10000 0 (mk_desc 0 0 0 0 0x60000 1 0 0x10000 0 1 0)
      demo_mb 0x72000 [] s' ∧
    run 4 0 (anscheduler_socket_msg (H := P0) 0x61000 0x72000) demo_send
    = Stop (s_leave (leave_run 0x10000 0x2000)) s' ∧
    queue_ok s' [0x1000; 0x2000; 0x3000] ∧ cpu_thread (k_cpus s' 0%nat) = 0x2000 ∧
    cpu_task (k_cpus s' 0%nat) = 0x10000 ∧ fld (k_threads s') thread_isPolling 0x2000 = 0.
Proof.
  apply (socket_msg_delivers (H := P0) 4 0 demo_send 0x60000 0x61000 0x62000 0x10000 _ _
    (demo_task 0 2) demo_mb [] [0x1000; 0x2000; 0x3000] 0x72000 (mk_msg 0 1 0 []) demo_link_ready
    [0x1000; 0x2000] 0x3000 (demo_thread 0 0x2000 0 0 0 2 0)).
  - split_and!; [done|done|]. intros []; by_dec.
  - by left.
  - split; [by_dll|]. split; [elems; by_vm|by_vm].
  - apply clean_compute. by_vm.
  - split; try done. intros _. exists (demo_task 0 2). by split.
  - by_dec.
  - reflexivity.
Defined.
