(* ===== verification/SocketHangup.v ===== *)
(** * SocketHangup: hanging up a socket (src/socket.c)

    The end of a descriptor's life: [_socket_hangup] runs in a kernel thread of its
    own once the last reference to a closed descriptor is gone. When the other end
    is gone too the descriptor, or with the second hang-up the whole socket, is freed;
    otherwise the other end is sent a CLOSE message. *)
From S2P Require Import Prelude Types Machine Demo Idxset RunQueue PagerQueue TaskRef Loop PidMap SocketList DescTable PendingList Socket MsgQueue SocketLink SocketSend.

(** ** Dropping a link *)

(** The socket once the end that hangs up has taken its own link out. *)
Definition drop_end (isConnector : Z) (so : socket_t) : socket_t :=
  if decide (isConnector ≠ 0) then set_sock_connector NULL so else set_sock_receiver NULL so.

Lemma run_drop_link n c {A} (k : bool → prog A) s d o S so :
  k_descs s !! d = Some o → k_sockets s !! S = Some so →
  run n c (drop_link d S ≫= k) s =
  run n c (k (bool_decide (other_end (desc_isConnector o) so = NULL)))
    (put_sock S (drop_end (desc_isConnector o) so) s).
Proof.
  intros Ho Hso. unfold drop_link, other_end, drop_end, put_sock. do 2 step.
  case_decide; repeat step; do 2 f_equal; by apply bool_decide_ext.
Qed.

Lemma put_sock_unlock l S o s : l ∉ k_locks s →
  del_lock l (put_sock S o (add_lock l s)) = put_sock S o s.
Proof. intros Hl. unfold put_sock. kst_eq. Qed.

(** The socket itself goes last, whatever it holds by then. *)
Lemma free_pages_last ps S o s :
  S ∉ ps → free_pages (ps ++ [S]) (put_sock S o s) = free_pages (ps ++ [S]) s.
Proof.
  intros HS. rewrite !free_pages_app, free_pages_sock by done. apply free_step_sock.
Qed.

Lemma free_chain_drop ic s so sd q :
  free_chain s so sd q → free_chain s (drop_end ic so) sd q.
Proof. unfold drop_end, free_chain. case_decide; by destruct sd. Qed.

Lemma free_chain_ext s s' so sd q :
  (∀ m, m ∈ q → k_msgs s' !! m = k_msgs s !! m ∧ (m ∈ k_live s → m ∈ k_live s')) →
  free_chain s so sd q → free_chain s' so sd q.
Proof.
  intros Hm (Hf & Hs & Hin). split_and!; [done| |].
  - eapply sll_ext; [|exact Hs]. intros p Hp. unfold fld. by destruct (Hm p Hp) as [-> _].
  - intros p Hp. destruct (Hm p Hp) as [-> Hl]. destruct (Hin p Hp). auto.
Qed.

(** ** Without another end *)
Section alone.
Context `{Platform} (n c : nat) (s : kst) (d S : Z) (o : socket_desc_t) (so : socket_t).
Context (Ho : k_descs s !! d = Some o) (HS : desc_socket o = S) (Hso : k_sockets s !! S = Some so).
Context (Hcpu : cpu_locked (k_cpus s c) = false) (Hlk : connRecLock S ∉ k_locks s).

Let e := other_end (desc_isConnector o) so.
Let s1 := put_sock S (drop_end (desc_isConnector o) so) (upd_cpu c (set_cpu_locked true) s).

(** Both branches of [_socket_hangup] end alike. *)
Lemma run_free_link {A} (k : prog A) b : d ∈ k_live s →
  run n c (free_link d S b;; k) s1 =
  if b then run n c (_socket_free S;; anscheduler_cpu_lock;; k)
              (upd_cpu c (set_cpu_locked false) (free_step d s1))
  else run n c k (free_step d s1).
Proof using Type.
  intros Hd. unfold free_link. rewrite run_assoc, run_free by done. destruct b; [|done].
  rewrite run_assoc, run_cpu_unlock by (simpl; by rewrite decide_True). by rewrite run_assoc.
Qed.

Lemma hangup_alone_prefix :
  (e ≠ NULL → ∃ eo, k_descs s !! e = Some eo ∧ desc_isClosed eo ≠ 0 ∧ closeLock e ∉ k_locks s) →
  run n c (_socket_hangup d) s =
  run n c (free_link d S (bool_decide (e = NULL));; anscheduler_loop_delete_cur_kernel) s1.
Proof using Ho HS Hso Hcpu Hlk.
  intros He. unfold _socket_hangup. rewrite run_cpu_lock by done. erewrite run_rd by exact Ho. rewrite HS.
  rewrite run_lock by (first [by apply bool_decide_eq_true; eexists|done]).
  erewrite run_call by (eapply (run_reference_other_end_none n c _ d o S so e); [exact Ho|exact Hso|done|];
    intros He0; destruct (He He0) as (eo & ? & ? & ?); exists eo; split_and!; [done..|];
    simpl; set_solver).
  rewrite decide_True by done. erewrite run_drop_link by (first [exact Ho|exact Hso]). fold e.
  rewrite run_unlock; [|simpl; set_solver|].
  - rewrite put_sock_unlock by done. by rewrite decide_True.
  - apply bool_decide_eq_true. simpl. rewrite lookup_insert_eq. by eexists.
Qed.

(** What a hang-up frees when the other end is gone or is about to hang up itself. *)
Definition hung_up (q1 q2 : list Z) : kst :=
  if decide (e = NULL) then free_pages (d :: q1 ++ q2 ++ [S]) s
  else free_step d (put_sock S (drop_end (desc_isConnector o) so) s).

(** C14. Hanging up when there is no other end to tell. [_socket_hangup] gets to the
    point where its kernel thread ends, whatever is still queued. If the other end is
    gone, the descriptor, the messages for the connector, those for the receiver and
    the socket have been freed, each once, and nothing else has changed. If the other
    end is still there but closed, so that its own hang-up is to come, only the
    descriptor is freed and only the socket's link to it is cleared: the socket and its
    messages stay for the last one. *)
Theorem hangup_without_other_end q1 q2 :
  d ∈ k_live s → S ∈ k_live s → NoDup (S :: d :: q1 ++ q2) →
  free_chain s so forConnector q1 → free_chain s so forReceiver q2 → (length (q1 ++ q2) < n)%nat →
  (e ≠ NULL → ∃ eo, k_descs s !! e = Some eo ∧ desc_isClosed eo ≠ 0 ∧ closeLock e ∉ k_locks s) →
  ∃ s', run n c (_socket_hangup d) s = run n c anscheduler_loop_delete_cur_kernel s' ∧
    s' = set_k_cpus (k_cpus s') (hung_up q1 q2) ∧ cpu_locked (k_cpus s' c) = true.
Proof using Ho HS Hso Hcpu Hlk.
  intros Hd HSl [HSn [Hdn Hnd]%NoDup_cons]%NoDup_cons H1 H2 Hn He.
  assert (S ≠ d) as HSd by (intros ->; apply HSn; by left).
  rewrite (hangup_alone_prefix He), run_free_link by done. unfold hung_up.
  case_bool_decide as He0; [rewrite decide_True by done|rewrite decide_False by done].
  2:{ eexists. split; [done|]. split; [done|]. simpl. by rewrite decide_True. }
  set (s2 := upd_cpu c (set_cpu_locked false) (free_step d s1)).
  assert (k_sockets s2 !! S = Some (drop_end (desc_isConnector o) so)) as Hs2
    by (simpl; by rewrite lookup_delete_ne, lookup_insert_eq).
  assert (∀ sd q, (∀ m, m ∈ q → m ∈ q1 ++ q2) → free_chain s so sd q →
    free_chain s2 (drop_end (desc_isConnector o) so) sd q) as Hch.
  { intros sd q Hq Hc. apply free_chain_drop. eapply free_chain_ext; [|exact Hc]. intros m Hm.
    assert (m ≠ d) by (intros ->; by apply Hdn, Hq). simpl. rewrite lookup_delete_ne by done.
    split; [done|]. set_solver. }
  destruct (socket_free_spec n c S s2 _ q1 q2 Hs2) as (s3 & Hrun & Hs3 & Hc3); try done.
  - simpl. set_solver.
  - apply Hch; [|done]. set_solver.
  - apply Hch; [|done]. set_solver.
  - apply NoDup_cons. split; [set_solver|done].
  - simpl. by rewrite decide_True.
  - rewrite (run_call _ _ _ _ _ _ _ Hrun), run_cpu_lock by done. eexists. split; [done|].
    split; [|simpl; by rewrite decide_True].
    set (x := drop_end (desc_isConnector o) so) in *.
    assert (free_pages (d :: q1 ++ q2 ++ [S]) s =
      free_pages (q1 ++ q2 ++ [S]) (free_pages [d] (put_sock S x s))) as ->.
    { rewrite <- free_pages_app.
      replace ([d] ++ q1 ++ q2 ++ [S]) with ((d :: q1 ++ q2) ++ [S]) by (simpl; by rewrite <- app_assoc).
      rewrite free_pages_last by set_solver. simpl. by rewrite <- app_assoc. }
    rewrite Hs3 at 1.
    assert (s2 = set_k_cpus (k_cpus s2) (free_pages [d] (put_sock S x s))) as -> by done.
    by rewrite free_pages_cpus.
Qed.
End alone.

(** ** With another end *)

(** The message that the other end gets. *)
Definition close_msg `{Platform} (code m : Z) : socket_msg_t :=
  let junk := plat_junk_msg m in
  set_msg_message (list_inserts 0 (le_bytes code) (msg_message junk))
    (set_msg_len 8 (set_msg_type ANSCHEDULER_MSG_TYPE_CLOSE junk)).

(** A CLOSE message of 8 bytes with the code. *)
Definition tells_close (code : Z) (o : socket_msg_t) : Prop :=
  msg_type o = ANSCHEDULER_MSG_TYPE_CLOSE ∧ msg_len o = 8 ∧ take 8 (msg_message o) = le_bytes code.

Lemma take_inserts (l k : list Z) :
  (length l ≤ length k)%nat → take (length l) (list_inserts 0 l k) = l.
Proof.
  intros Hl. rewrite <- (take_drop (length l) k), list_inserts_0_r by (rewrite length_take; lia).
  apply take_app_length.
Qed.

Lemma close_msg_tells `{Platform, !PlatformOk _} code m : tells_close code (close_msg code m).
Proof.
  split_and!; [done..|]. simpl. apply (take_inserts (le_bytes code)).
  rewrite plat_junk_msg_length. simpl. lia.
Qed.

(** The queues do not depend on the socket's ends. *)
Definition sock_queues (so : socket_t) (d : side) : Z * Z * Z :=
  (side_count d so, side_first d so, side_last d so).

Lemma mail_ok_queues s s' S so so' mb :
  k_sockets s !! S = Some so → k_sockets s' !! S = Some so' → (∀ d, sock_queues so' d = sock_queues so d) →
  (∀ d m, m ∈ mb d → k_msgs s' !! m = k_msgs s !! m) → mail_ok s S mb → mail_ok s' S mb.
Proof.
  intros Hso Hso' Hq Hm ((o & Ho & Hr) & Hdis). simplify_eq. split; [|done]. exists so'. split; [done|].
  intros d. specialize (Hq d). unfold queue_rep. injection Hq as -> -> ->. destruct (Hr d) as (? & ? & ? & Hl & Hin).
  split_and!; try done.
  - eapply sll_ext; [|exact Hl]. intros p Hp. unfold fld. by rewrite (Hm d p Hp).
  - intros p Hp. rewrite (Hm d p Hp). by apply Hin.
Qed.

Lemma mail_ok_ext s s' S mb :
  k_sockets s' = k_sockets s → (∀ d m, m ∈ mb d → k_msgs s' !! m = k_msgs s !! m) →
  mail_ok s S mb → mail_ok s' S mb.
Proof.
  intros Hs Hm Hok. pose proof Hok as ((so & Hso & _) & _).
  apply (mail_ok_queues s s' S so so); by rewrite ?Hs.
Qed.

Lemma mail_ok_drop ic S so s mb :
  k_sockets s !! S = Some so → mail_ok s S mb → mail_ok (put_sock S (drop_end ic so) s) S mb.
Proof.
  intros Hso. eapply mail_ok_queues; [exact Hso|apply lookup_insert_eq| |done].
  intros d. unfold drop_end. case_decide; by destruct d.
Qed.

(** The end of the branch: the socket stays with the other end. *)
Lemma run_drop_free `{Platform} n c {A} (k : prog A) s d o S so :
  k_descs s !! d = Some o → k_sockets s !! S = Some so →
  other_end (desc_isConnector o) so ≠ NULL → connRecLock S ∉ k_locks s → d ∈ k_live s →
  run n c ((anscheduler_lock (connRecLock S);; shouldFree ← drop_link d S;
            anscheduler_unlock (connRecLock S);; free_link d S shouldFree);; k) s =
  run n c k (free_step d (put_sock S (drop_end (desc_isConnector o) so) s)).
Proof.
  intros Ho Hso He Hl Hd.
  rewrite run_assoc, run_lock by (first [apply bool_decide_eq_true; by eexists|done]).
  erewrite run_assoc, run_drop_link by (first [exact Ho|exact Hso]).
  rewrite bool_decide_eq_false_2 by done.
  rewrite run_assoc, run_unlock; [|simpl; set_solver|apply bool_decide_eq_true; simpl; rewrite lookup_insert_eq; by eexists].
  rewrite put_sock_unlock by done. unfold free_link. by rewrite run_assoc, run_free.
Qed.

Lemma drop_end_idem ic so : drop_end ic (drop_end ic so) = drop_end ic so.
Proof. unfold drop_end. by case_decide. Qed.

Lemma other_end_drop ic so : other_end ic (drop_end ic so) = other_end ic so.
Proof. unfold other_end, drop_end. by case_decide. Qed.

Lemma other_end_ends ic so so' : sock_ends so' = sock_ends so → other_end ic so' = other_end ic so.
Proof. unfold sock_ends, other_end. intros ?. case_decide; congruence. Qed.

Section told.
Context `{Platform, !PlatformOk _} (n c : nat) (s : kst) (S d e T : Z) (o eo : socket_desc_t).
Context (tk : task_t) (mb : mailbox) (l tl : list Z).
Context (Hr : link_ready n s S d e T o eo tk mb l tl) (Hmem : mem_ok s).
Context (Hcpu : cpu_locked (k_cpus s c) = false).

Let m := plat_alloc (k_nallocs s) (k_live s) sizeof_socket_msg_t.

(** The memory with the CLOSE message, which nobody knows yet. *)
Let sm := set_k_msgs (<[m := close_msg (desc_closeCode o) m]> (k_msgs s))
  (alloc_step sizeof_socket_msg_t (upd_cpu c (set_cpu_locked true) s)).

Lemma close_msg_new : m ≠ NULL → m ∉ k_live s ∧ ∀ sd, m ∉ mb sd.
Proof using Hr Hmem PlatformOk0.
  intros Hm. assert (m ∉ k_live s) as Hf by (by apply plat_alloc_fresh). split; [done|].
  intros sd Hin. destruct (lr_mail _ _ _ _ _ _ _ _ _ _ _ _ Hr) as ((so & _ & Hq) & _).
  destruct (Hq sd) as (_ & _ & _ & _ & Hms). by apply Hf, (mem_msgs _ Hmem), Hms.
Qed.

Lemma close_msg_ready : m ≠ NULL →
  link_ready n sm S d e T o eo tk mb l tl ∧ unsent sm m (close_msg (desc_closeCode o) m) mb.
Proof using Hr Hmem PlatformOk0.
  intros Hm. destruct (close_msg_new Hm) as [Hf Hq]. split.
  - destruct Hr as [? ? ? ? ? Hml]. split; try done. eapply mail_ok_ext; [| |exact Hml]; [done|].
    intros sd x Hx. simpl. rewrite lookup_insert_ne; [done|]. intros <-. by apply (Hq sd).
  - split; [apply lookup_insert_eq|]. done.
Qed.

(** Up to the message: the other end is referenced and the message written. *)
Lemma hangup_close_msg :
  if decide (m = NULL)
  then ∃ msg s', run n c (_socket_hangup d) s = Stop (s_leave (leave_abort msg)) s'
  else run n c (_socket_hangup d) s =
    run n c ((_ ← _push_message e m; _wakeup_endpoint e;;
              anscheduler_lock (connRecLock S);; shouldFree ← drop_link d S;
              anscheduler_unlock (connRecLock S);; free_link d S shouldFree);;
             anscheduler_loop_delete_cur_kernel) (ref_desc e eo sm).
Proof using Hr Hcpu Hmem PlatformOk0.
  destruct Hr as [[Ho HS] (so & Hso & He) [He0 Hne] (Heo & _) [Hc _] _ _ _ _ _ Hlk].
  unfold _socket_hangup. rewrite run_cpu_lock by done. erewrite run_rd by exact Ho. rewrite HS.
  rewrite run_lock by (first [by apply bool_decide_eq_true; eexists|rewrite ?Hlk; set_solver]).
  set (sl := add_lock (connRecLock S) (upd_cpu c (set_cpu_locked true) s)).
  rewrite (run_call _ _ _ _ _ _ _ (run_reference_other_end n c sl
    d o S so e eo Ho Hso He He0 Heo Hc ltac:(simpl; rewrite Hlk; set_solver))).
  rewrite (decide_False (P := e = NULL)), run_ret_bind by done.
  rewrite run_unlock by (first [simpl; set_solver|by apply bool_decide_eq_true; eexists]).
  assert (del_lock (connRecLock S) (ref_desc e eo sl) =
    ref_desc e eo (upd_cpu c (set_cpu_locked true) s)) as ->.
  { unfold sl, ref_desc, set_desc, del_lock, add_lock. simpl.
    by rewrite del_add_lock by (rewrite Hlk; set_solver). }
  rewrite (decide_False (P := e = NULL)) by done. rewrite run_assoc, run_alloc_as. cbv zeta.
  change (plat_alloc _ _ _) with m. case_decide as Hm.
  - eexists _, _. reflexivity.
  - do 2 (rewrite run_assoc; erewrite run_wr by apply lookup_insert_eq).
    rewrite run_assoc. erewrite run_rd by (simpl; rewrite lookup_insert_ne by done; exact Ho).
    rewrite run_assoc. erewrite run_wr by (simpl; apply lookup_insert_eq).
    f_equal. unfold sm, close_msg, ref_desc, set_desc. simpl. by rewrite !insert_insert_eq.
Qed.

(** The message is queued, and what it says is as written. *)
Lemma close_msg_pushed : m ≠ NULL →
  ∃ s2, run n c (_push_message e m) (ref_desc e eo sm) = Done true s2 ∧
    mail_ok s2 S (mb_set (side_of (desc_isConnector eo)) (mb (side_of (desc_isConnector eo)) ++ [m]) mb) ∧
    mail_step S (ref_desc e eo sm) s2 ∧ set_desc d o s2 = s2 ∧
    k_live s2 = {[m]} ∪ k_live s ∧
    ∃ mo, k_msgs s2 !! m = Some mo ∧ tells_close (desc_closeCode o) mo.
Proof using Hr Hmem PlatformOk0.
  intros Hm. destruct (close_msg_ready Hm) as [Hrm Hu].
  pose proof (link_push n c sm S d e T o eo tk mb l tl Hrm m _ Hu) as Hpush.
  assert (∀ q', refused ANSCHEDULER_MSG_TYPE_CLOSE q' = false) as Href
    by (intros q'; apply bool_decide_eq_false; by intros [? _]).
  simpl msg_type in Hpush. rewrite Href in Hpush.
  destruct Hpush as (s2 & Hrun & Hok & Hst). exists s2. destruct (Hst) as (Hs2 & _ & _ & Hmsg).
  split_and!; try done.
  - unfold set_desc. rewrite insert_id; [by destruct s2|]. rewrite Hs2. simpl.
    rewrite lookup_insert_ne; apply Hr.
  - rewrite Hs2. simpl. fold m. by rewrite decide_False.
  - specialize (Hmsg m). simpl in Hmsg. rewrite lookup_insert_eq in Hmsg.
    destruct (k_msgs s2 !! m) as [mo|]; [|done]. exists mo. split; [done|].
    pose proof (close_msg_tells (desc_closeCode o) m) as (H1 & H2 & H3).
    simpl in Hmsg. apply (inj Some) in Hmsg. destruct mo. simpl in Hmsg.
    injection Hmsg as -> -> ->. done.
Qed.

Definition close_code_sent (s' : kst) : Prop :=
  ∃ mo, k_msgs s' !! m = Some mo ∧ tells_close (desc_closeCode o) mo.

(** C13. Hanging up while the other end is open. [_socket_hangup] aborts only when no
    message can be allocated. Otherwise a CLOSE message that carries the descriptor's
    close code is the last one of the other end's queue, that socket is on its task's
    pending list, once, and its count is as before. When a thread of that task polls,
    the first such thread runs now and the hang-up goes on when its own thread is
    resumed. When none polls, the socket's link to the descriptor has been cleared, the
    descriptor freed and nothing else, since the socket stays with the other end, and
    the kernel thread ends. *)
Theorem hangup_notifies_other_end q cur ch :
  queue_ok s q → clean s q → running s c cur ch → cur ∉ q →
  fld (k_threads s) thread_isPolling cur = 0 →
  if decide (m = NULL)
  then ∃ msg s', run n c (_socket_hangup d) s = Stop (s_leave (leave_abort msg)) s'
  else ∃ s', delivered S d e T (desc_refCount o) eo mb m l s' ∧ close_code_sent s' ∧
    k_live s' = {[m]} ∪ k_live s ∧ m ∉ k_live s ∧
    match find_polling (k_threads s) tl with
    | Some t => run n c (_socket_hangup d) s = Stop (s_leave (leave_run T t)) s' ∧
        queue_ok s' (q ++ [cur]) ∧ cpu_thread (k_cpus s' c) = t ∧ cpu_task (k_cpus s' c) = T ∧
        fld (k_threads s') thread_isPolling t = 0
    | None =>
        run n c (_socket_hangup d) s = run n c anscheduler_loop_delete_cur_kernel (free_step d s') ∧
        (∃ so', k_sockets s' !! S = Some so' ∧ other_end (desc_isConnector o) so' = e ∧
           drop_end (desc_isConnector o) so' = so') ∧
        k_threads s' = k_threads s ∧ queue_ok s' q ∧
        fld (k_tasks s') task_refCount T = task_refCount tk ∧ cpu_locked (k_cpus s' c) = true
    end.
Proof using Hr Hmem Hcpu PlatformOk0.
  intros Hq Hcl Hrun Hcq Hidle. pose proof hangup_close_msg as Hpre. case_decide as Hm; [done|].
  destruct (close_msg_new Hm) as [Hfresh _]. destruct (close_msg_ready Hm) as [Hrm _].
  destruct (close_msg_pushed Hm) as (s2 & Hrunp & Hok2 & Hst2 & Hsame & Hlv2 & Hmo).
  pose proof Hst2 as (_ & _ & Hends & _).
  destruct (link_wake n c sm S d e T o eo tk mb l tl m Hrm s2 o q cur ch eq_refl eq_refl Hst2 Hok2)
    as (s' & Hdl & _ & (Hm' & Hso' & Hlv' & Hd') & Hw); try done.
  { destruct Hrun. split; simpl; by rewrite ?decide_True. }
  rewrite Hsame in Hw. rewrite Hpre, run_assoc, (run_call _ _ _ _ _ _ _ Hrunp), run_assoc.
  simpl k_threads in Hw.
  destruct (find_polling (k_threads s) tl) as [t|]; destruct Hw as [Hw Hrest].
  - exists s'. split; [done|]. unfold close_code_sent. rewrite Hm', Hlv', Hlv2.
    split_and!; try apply Hrest; try done. by erewrite run_call_stop by exact Hw.
  - rewrite (run_call _ _ _ _ _ _ _ Hw). destruct Hrest as (Hth & Hcp & Hqs & Href').
    destruct (lr_end _ _ _ _ _ _ _ _ _ _ _ _ Hr) as (so & Hso & He).
    simpl in Hends. rewrite Hso in Hends.
    destruct (k_sockets s2 !! S) as [so2|] eqn:Hs2S; [|done]. apply (inj Some) in Hends.
    destruct (k_descs s' !! d) as [od|] eqn:Hod; [|done]. apply (inj Some) in Hd'.
    assert (desc_isConnector od = desc_isConnector o) as Hic.
    { change (desc_isConnector (pending_body od) = desc_isConnector (pending_body o)). by rewrite Hd'. }
    pose proof (dl_locks _ _ _ _ _ _ _ _ _ _ Hdl) as Hl'.
    assert (other_end (desc_isConnector o) so2 = e) as He2 by (by rewrite (other_end_ends _ so)).
    rewrite (run_drop_free n c _ s' d od S so2), Hic; try done;
      [|by rewrite Hso'|rewrite Hic, He2; apply Hr|rewrite Hl'; set_solver|].
    2:{ rewrite Hlv', Hlv2. apply elem_of_union_r, (mem_descs _ Hmem). eexists. apply Hr. }
    exists (put_sock S (drop_end (desc_isConnector o) so2) s'). split.
    { destruct Hdl. split; try done. apply mail_ok_drop; [by rewrite Hso'|done]. }
    unfold close_code_sent. simpl. rewrite Hm', Hlv', Hlv2, Hcp. simpl. rewrite decide_True by done.
    split_and!; try done. eexists. split; [apply lookup_insert_eq|].
    by rewrite other_end_drop, drop_end_idem.
Qed.
End told.

(** *** Witnesses

    The demo socket with its connector alone, then with a receiver whose task has a
    thread that polls. *)
Definition alone_sock : socket_t := mk_socket 0x61000 0 0 0 0 2 0x70000 0x71000 1.

Definition demo_alone : kst := upd_cpu 0 (set_cpu_locked false) (put_sock 0x60000 alone_sock demo_sock).

Lemma hangup_without_other_end_witness :
  ∃ s', run 3 0 (_socket_hangup (H := P0) 0x61000) demo_alone =
        run 3 0 (anscheduler_loop_delete_cur_kernel (H := P0)) s' ∧
    s' = set_k_cpus (k_cpus s') (hung_up demo_alone 0x61000 0x60000 (mk_desc 0 0 0 0 0x60000 0 1 0x10000 0 1 0)
           alone_sock [] [0x70000; 0x71000]) ∧
    cpu_locked (k_cpus s' 0%nat) = true.
Proof.
  apply (hangup_without_other_end (H := P0) 3 0 demo_alone 0x61000 0x60000 _ alone_sock); try reflexivity.
  - by_dec.
  - by_dec.
  - split; [done|split; [by_sll|]]. by intros p Hp%not_elem_of_nil.
  - split; [done|split; [by_sll|]]. elems; by_dec.
  - by_dec.
  - done.
Defined.

Definition demo_hung : socket_desc_t := mk_desc 0 0 0 0 0x60000 0 1 0x10000 1 0 7.

Definition demo_hang : kst :=
  upd_cpu 0 (set_cpu_locked false) (set_k_descs (<[0x61000 := demo_hung]> (k_descs demo_send)) demo_send).

Lemma demo_hang_ready :
  link_ready 4 demo_hang 0x60000 0x61000 0x62000 0x10000 demo_hung
    (mk_desc 0 0 0 0 0x60000 1 0 0x10000 0 1 0) (demo_task 0 2) demo_mb [] [0x1000; 0x2000; 0x3000].
Proof.
  destruct demo_link_ready. split; try done; try by (split_and!; reflexivity).
  split; [|done]. split; [apply dll_nil|]. split; [by intros p Hp%not_elem_of_nil|done].
Qed.

Lemma hangup_notifies_other_end_witness :
  let m := plat_alloc (Platform := P0) (k_nallocs demo_hang) (k_live demo_hang) sizeof_socket_msg_t in
  ∃ s', delivered 0x60000 0x61000 0x62000 0x10000 0 (mk_desc 0 0 0 0 0x60000 1 0 0x10000 0 1 0)
      demo_mb m [] s' ∧ (∃ mo, k_msgs s' !! m = Some mo ∧ tells_close 7 mo) ∧
    k_live s' = {[m]} ∪ k_live demo_hang ∧ m ∉ k_live demo_hang ∧
    run 4 0 (_socket_hangup (H := P0) 0x61000) demo_hang = Stop (s_leave (leave_run 0x10000 0x2000)) s' ∧
    queue_ok s' [0x1000; 0x2000; 0x3000] ∧ cpu_thread (k_cpus s' 0%nat) = 0x2000 ∧
    cpu_task (k_cpus s' 0%nat) = 0x10000 ∧ fld (k_threads s') thread_isPolling 0x2000 = 0.
Proof.
  apply (hangup_notifies_other_end (H := P0) 4 0 demo_hang 0x60000 0x61000 0x62000 0x10000 _ _
    (demo_task 0 2) demo_mb [] [0x1000; 0x2000; 0x3000] demo_hang_ready)
    with (q := [0x1000; 0x2000]) (cur := 0x3000) (ch := demo_thread 0 0x2000 0 0 0 2 0).
  - apply mem_ok_dom; [by_dec|]. repeat split; by_dec.
  - reflexivity.
  - split; [by_dll|]. split; [elems; by_vm|by_vm].
  - apply clean_compute. by_vm.
  - split; try done. intros _. exists (demo_task 0 2). by split.
  - by_dec.
  - reflexivity.
Defined.
