(* ===== verification/SocketOpen.v ===== *)
(** * SocketOpen: opening a socket (src/socket.c)

    The beginning of a descriptor's life: [_create_descriptor] numbers a new
    descriptor, links it to its end of the socket and enters it in its task's table;
    [anscheduler_socket_new] does so for the connector of a new socket. *)
From S2P Require Import Prelude Types Machine Demo Idxset RunQueue PagerQueue TaskRef Loop PidMap SocketList DescTable PendingList Socket MsgQueue SocketLink SocketSend SocketHangup.

Definition new_desc (sock T : Z) (ic : bool) (num : Z) : socket_desc_t :=
  mk_desc 0 0 0 0 sock num (if ic then 1 else 0) T 0 1 0.

Definition set_end (ic : bool) (d : Z) (so : socket_t) : socket_t :=
  if ic then set_sock_connector d so else set_sock_receiver d so.

(** The memory with the descriptor [d] of task [T], an end of the socket [sock], which
    was [so]; [B] are the task's open descriptors and [x] is its set of numbers. *)
Record opened (T sock d : Z) (ic : bool) (s : kst) (B : Z → list Z) (x : idxset) (so : socket_t)
    (s' : kst) (num := (ix_get x).1) (h := _descriptor_hash num) : Prop := {
  op_mem : mem_ok s';
  op_live : d ∈ k_live s';
  op_descs p : desc_body <$> k_descs s' !! p =
    desc_body <$> <[d := new_desc sock T ic num]> (k_descs s) !! p;
  op_table : desc_table s' T (set_bucket h (d :: B h) B);
  op_numbers : idx_ok (root_descriptors T) s' (ix_get x).2;
  op_task : ∃ L v, k_tasks s' = alter (λ tk, set_task_descriptors v (set_task_sockets L tk)) T (k_tasks s);
  op_rest : s' = set_k_tasks (k_tasks s') (set_k_sockets (<[sock := set_end ic d so]> (k_sockets s))
    (set_k_descs (k_descs s') (set_k_nodes (k_nodes s') (set_k_live (k_live s')
      (set_k_log (k_log s') (set_k_nallocs (k_nallocs s') s))))));
}.

(** ** What the parts leave alone *)

Lemma mem_ok_put_sock s sock so so' :
  mem_ok s → k_sockets s !! sock = Some so → mem_ok (put_sock sock so' s).
Proof.
  intros [] Hso. split; try done. simpl.
  intros p [<-|[_ Hp]]%lookup_insert_is_Some; [apply mem_sockets; by eexists|auto].
Qed.

Lemma idx_ok_put_sock r s sock so so' x :
  idx_ok r s x → k_sockets s !! sock = Some so → idx_ok r (put_sock sock so' s) x.
Proof.
  intros Hx Hso. eapply idx_ok_frame; [exact Hx|by destruct r|done|]. intros p Hp Ho _. split; [done|].
  unfold only_node in *. simpl. rewrite lookup_insert_ne; [done|]. intros <-.
  destruct Ho as (_ & _ & Ho & _). congruence.
Qed.

Lemma idx_ok_set_desc r s d o o' x :
  idx_ok r s x → k_descs s !! d = Some o → idx_ok r (set_desc d o' s) x.
Proof.
  intros Hx Ho. apply (idx_ok_descs _ s); [done|by destruct r|by destruct s|done|].
  intros p. simpl. destruct (decide (d = p)) as [<-|Hp]; [by rewrite lookup_insert_eq, Ho|by rewrite lookup_insert_ne].
Qed.

(** New descriptors are not in the table yet. *)
Lemma desc_table_frame s s' T B :
  desc_table s T B → task_sockets <$> k_tasks s' !! T = task_sockets <$> k_tasks s !! T →
  (∀ p, is_Some (k_descs s !! p) → k_descs s' !! p = k_descs s !! p) → desc_table s' T B.
Proof.
  intros (L & HL & Hlen & HB) Ht Hp. exists L. rewrite Ht. split; [done|]. split; [done|].
  intros h Hh. destruct (HB h Hh) as (Hhd & Hdl & Hin).
  assert (∀ p, p ∈ B h → k_descs s' !! p = k_descs s !! p) as Hsame.
  { intros p Hpb. apply Hp. destruct (Hin p Hpb) as (? & ? & _). by eexists. }
  split_and!; [done| |].
  - eapply dll_ext; [| |exact Hdl]; intros p Hpb; unfold fld; by rewrite Hsame.
  - intros p Hpb. rewrite Hsame by done. auto.
Qed.

Lemma desc_table_fresh s T B h d :
  desc_table s T B → mem_ok s → 0 ≤ h < 0x10 → d ∉ k_live s → d ∉ B h.
Proof.
  intros (L & _ & _ & HB) Hm Hh Hf Hd. destruct (HB h Hh) as (_ & _ & Hin).
  destruct (Hin d Hd) as (o & Ho & _). apply Hf, (mem_descs _ Hm). by eexists.
Qed.

Section create.
Context `{Platform, !PlatformOk _} (n c : nat).

(** The new descriptor before it has a number. *)
Definition desc_allocated (sock T : Z) (ic : bool) (d : Z) (s : kst) : kst :=
  set_k_descs (<[d := new_desc sock T ic 0]> (k_descs s)) (alloc_step sizeof_socket_desc_t s).

Lemma desc_allocated_ok sock T ic s r x
    (d := plat_alloc (k_nallocs s) (k_live s) sizeof_socket_desc_t)
    (s0 := desc_allocated sock T ic d s) :
  mem_ok s → d ≠ NULL → idx_ok r s x → mem_ok s0 ∧ idx_ok r s0 x ∧ d ∈ k_live s0 ∧ d ∉ k_live s.
Proof.
  intros Hm Hd Hx. assert (d ∉ k_live s) as Hf by (by apply plat_alloc_fresh).
  unfold s0, desc_allocated. rewrite alloc_step_some by done. fold d. split_and!; [| |by apply elem_of_union_l, elem_of_singleton|done].
  - destruct Hm. split; simpl; [by intros [Hn%elem_of_singleton|?]%elem_of_union|..];
      try (intros p Hp; apply elem_of_union_r; by auto).
    intros p [<-|[_ Hp]]%lookup_insert_is_Some; [by apply elem_of_union_l, elem_of_singleton|].
    apply elem_of_union_r. auto.
  - eapply idx_ok_frame; [exact Hx|by destruct r|done|]. intros p Hp Ho _. split; [by apply elem_of_union_r|].
    unfold only_node in *. simpl. rewrite lookup_insert_ne; [done|]. by intros ->.
Qed.

(** The number: the locked middle part of [_create_descriptor]. *)
Lemma take_number s d o T x :
  mem_ok s → idx_ok (root_descriptors T) s x → ix_ok x → ix_used x + 0x1fe < 2 ^ 64 →
  descriptorsLock T ∉ k_locks s → is_Some (k_tasks s !! T) → k_descs s !! d = Some o →
  ∃ s1 v, mem_ok s1 ∧ idx_ok (root_descriptors T) s1 (ix_get x).2 ∧ d ∈ k_live s1 ∧
    s1 = set_k_tasks (alter (set_task_descriptors v) T (k_tasks s)) (set_k_nodes (k_nodes s1)
      (set_k_live (k_live s1) (set_k_log (k_log s1) (set_k_nallocs (k_nallocs s1) s)))) ∧
    ∀ A (k : prog A),
    run n c (anscheduler_lock (descriptorsLock T);; num ← anidxset_get (root_descriptors T);
             wr d (set_desc_descriptor num);; anscheduler_unlock (descriptorsLock T);; k) s =
    run n c k (set_desc d (set_desc_descriptor (ix_get x).1 o) s1).
Proof.
  intros Hm Hok Hx Hb Hl [tk Htk] Ho.
  destruct (get_spec n c (root_descriptors T) (add_lock (descriptorsLock T) s) x)
    as (s2 & Hrun & Hok2 & ([v Hs2] & Hmem & Hlive & _)); [by apply idx_ok_locks|apply Hx|done|].
  destruct Hmem as [Hm2 _]; [by destruct Hm|].
  assert (k_locks s2 = {[descriptorsLock T]} ∪ k_locks s) as Hl2 by (by rewrite Hs2).
  exists (del_lock (descriptorsLock T) s2), v. split; [by destruct Hm2|].
  split; [by apply idx_ok_locks|]. split; [|split].
  - destruct (Hlive d) as [[Hon _]|?]; [by apply (mem_descs _ Hm); eexists| |done].
    destruct Hon as (_ & _ & _ & Hd & _). simpl in Hd. congruence.
  - unfold del_lock. simpl. rewrite Hl2, del_add_lock by done. rewrite Hs2. by destruct s.
  - intros A k. rewrite run_lock by (first [apply bool_decide_eq_true; by eexists|done]).
    rewrite (run_call _ _ _ _ _ _ _ Hrun). erewrite run_wr by (rewrite Hs2; exact Ho).
    rewrite run_unlock; [done|simpl; rewrite Hl2; set_solver|].
    apply bool_decide_eq_true. rewrite Hs2. simpl. rewrite lookup_alter_eq, Htk. by eexists.
Qed.

(** Linking it to its end of the socket. *)
Lemma run_set_end (sock : Z) (ic : bool) (d : Z) so {A} (k : prog A) s :
  k_sockets s !! sock = Some so → connRecLock sock ∉ k_locks s →
  run n c (anscheduler_lock (connRecLock sock);;
           (if ic then wr sock (set_sock_connector d) else wr sock (set_sock_receiver d));;
           anscheduler_unlock (connRecLock sock);; k) s =
  run n c k (put_sock sock (set_end ic d so) s).
Proof.
  intros Hso Hl. rewrite run_lock by (first [apply bool_decide_eq_true; by eexists|done]).
  destruct ic; erewrite run_wr by exact Hso;
    (rewrite run_unlock; [|simpl; set_solver|apply bool_decide_eq_true; simpl; rewrite lookup_insert_eq; by eexists]);
    f_equal; by apply put_sock_unlock.
Qed.

(** The memory before the descriptor [d] enters its task's table. *)
Record linked (T sock d : Z) (ic : bool) (s : kst) (x : idxset) (so : socket_t) (v : anidxset_root_t)
    (s' : kst) : Prop := {
  ln_mem : mem_ok s';
  ln_live : d ∈ k_live s';
  ln_descs : k_descs s' = <[d := new_desc sock T ic (ix_get x).1]> (k_descs s);
  ln_numbers : idx_ok (root_descriptors T) s' (ix_get x).2;
  ln_rest : s' = set_k_tasks (alter (set_task_descriptors v) T (k_tasks s))
    (set_k_sockets (<[sock := set_end ic d so]> (k_sockets s))
    (set_k_descs (k_descs s') (set_k_nodes (k_nodes s') (set_k_live (k_live s')
      (set_k_log (k_log s') (set_k_nallocs (k_nallocs s') s))))));
}.

Section spec.
Context (s : kst) (sock T : Z) (ic : bool) (so : socket_t) (B : Z → list Z) (x : idxset).
Context (Hm : mem_ok s) (Hso : k_sockets s !! sock = Some so) (HB : desc_table s T B).
Context (Hok : idx_ok (root_descriptors T) s x) (Hx : ix_ok x) (Hb : ix_used x + 0x1fe < 2 ^ 64).
Context (Hl1 : descriptorsLock T ∉ k_locks s) (Hl2 : connRecLock sock ∉ k_locks s).
Context (Hl3 : socketsLock T ∉ k_locks s).

Let d := plat_alloc (k_nallocs s) (k_live s) sizeof_socket_desc_t.

Lemma create_links : d ≠ NULL →
  ∃ s' v, linked T sock d ic s x so v s' ∧ d ∉ k_live s ∧
    run n c (_create_descriptor sock T ic) s =
    run n c (anscheduler_descriptor_set T d;; mret d) s'.
Proof using Hm Hso HB Hok Hx Hb Hl1 Hl2 PlatformOk0.
  intros Hd. unfold _create_descriptor. rewrite run_alloc. fold d. rewrite decide_False by done.
  destruct (desc_allocated_ok sock T ic s _ x Hm Hd Hok) as (Hm0 & Hok0 & Hdl & Hf). fold d in Hm0, Hok0, Hdl.
  set (s0 := desc_allocated sock T ic d s) in *.
  pose proof HB as (L & HL & _). apply fmap_Some in HL as (tk & Htk & _).
  assert (k_descs s0 !! d = Some (new_desc sock T ic 0)) as Ho0.
  { change (k_descs s0) with (<[d := new_desc sock T ic 0]> (k_descs s)). apply lookup_insert_eq. }
  destruct (take_number s0 d (new_desc sock T ic 0) T x)
    as (s1 & v & Hm1 & Hok1 & Hd1 & Hs1 & Hrun1); try done.
  rewrite run_zero_as by exact Hdl. do 4 (erewrite run_wr by apply lookup_insert_eq).
  simpl set_heap. simpl heap. rewrite !insert_insert_eq.
  match goal with |- context [run _ _ (anscheduler_lock _;; _) ?st] => replace st with s0
    by (unfold s0, desc_allocated, new_desc; simpl; by destruct ic) end.
  rewrite Hrun1. set (s2 := set_desc d _ s1).
  assert (k_locks s2 = k_locks s ∧ k_sockets s2 = k_sockets s) as [Hlk2 Hso2] by (unfold s2; simpl; by rewrite Hs1).
  rewrite (run_set_end sock ic d so) by (by rewrite ?Hlk2, ?Hso2).
  exists (put_sock sock (set_end ic d so) s2), v. split; [|done]. split.
  - eapply mem_ok_put_sock; [|by rewrite Hso2]. eapply mem_ok_set_desc; [done|]. rewrite Hs1. exact Ho0.
  - done.
  - unfold s2. simpl. rewrite Hs1. simpl. by rewrite insert_insert_eq.
  - eapply idx_ok_put_sock; [|by rewrite Hso2]. eapply idx_ok_set_desc; [done|]. rewrite Hs1. exact Ho0.
  - unfold put_sock. rewrite Hso2. unfold s2, set_desc. simpl. by rewrite Hs1.
Qed.

(** [_create_descriptor] fails for want of memory and nothing has changed, or the
    descriptor is complete. *)
Lemma create_descriptor_spec :
  if decide (d = NULL)
  then run n c (_create_descriptor sock T ic) s = Done NULL (set_k_nallocs (S (k_nallocs s)) s)
  else ∃ s', run n c (_create_descriptor sock T ic) s = Done d s' ∧ opened T sock d ic s B x so s' ∧
    d ∉ k_live s.
Proof using Hm Hso HB Hok Hx Hb Hl1 Hl2 Hl3 PlatformOk0.
  case_decide as Hd; [unfold _create_descriptor; rewrite run_alloc; fold d;
    rewrite decide_True by done; by rewrite alloc_step_null|].
  destruct (create_links Hd) as (s3 & v & [Hm3 Hd3 Hds3 Hok3 Hs3] & Hf & ->).
  set (num := (ix_get x).1) in *.
  assert (k_tasks s3 = alter (set_task_descriptors v) T (k_tasks s)) as Ht3 by (by rewrite Hs3).
  assert (desc_table s3 T B) as HB3.
  { eapply desc_table_frame; [exact HB| |].
    - rewrite Ht3, lookup_alter_eq. by destruct (k_tasks s !! T).
    - intros p Hp. rewrite Hds3, lookup_insert_ne; [done|]. intros <-. by apply Hf, (mem_descs _ Hm). }
  destruct (descriptor_set_spec n c s3 T B d (new_desc sock T ic num)) as (s4 & Hrun4 & HB4 & Hst4); try done.
  { rewrite Hds3. apply lookup_insert_eq. }
  { apply (desc_table_fresh s T B); try done. apply desc_hash_range. }
  { by rewrite Hs3. }
  rewrite (run_call _ _ _ _ _ _ _ Hrun4), run_ret. exists s4. split; [done|]. split; [|done].
  destruct (desc_step_ok T s3 s4 (ix_get x).2 Hst4 Hm3 Hok3) as [Hm4 Hok4].
  destruct Hst4 as (Hs4 & [L' HL'] & Hb4). split; try done.
  - by rewrite Hs4.
  - intros p. by rewrite Hb4, Hds3.
  - exists L', v. rewrite HL', Ht3. apply map_eq. intros q.
    rewrite !lookup_alter. repeat case_decide; subst; try done. by destruct (k_tasks s !! _).
  - assert (k_nodes s4 = k_nodes s3 ∧ k_live s4 = k_live s3 ∧ k_log s4 = k_log s3 ∧
      k_nallocs s4 = k_nallocs s3) as (-> & -> & -> & ->) by (by rewrite Hs4).
    rewrite Hs4 at 1. by rewrite Hs3.
Qed.
End spec.
End create.

(** ** A new socket *)
Section new.
Context `{Platform, !PlatformOk _} (n c : nat) (s : kst) (T : Z) (B : Z → list Z) (x : idxset).

Let p := plat_alloc (k_nallocs s) (k_live s) sizeof_socket_t.

(** The memory with the socket, which has no end yet. *)
Definition sock_allocated : kst := put_sock p zero_socket (alloc_step sizeof_socket_t s).

Let d := plat_alloc (k_nallocs sock_allocated) (k_live sock_allocated) sizeof_socket_desc_t.

Lemma sock_allocated_ok r :
  mem_ok s → p ≠ NULL → idx_ok r s x →
  mem_ok sock_allocated ∧ idx_ok r sock_allocated x ∧ p ∉ k_live s ∧
  k_live sock_allocated = {[p]} ∪ k_live s.
Proof using PlatformOk0.
  intros Hm Hp Hx. assert (p ∉ k_live s) as Hf by (by apply plat_alloc_fresh).
  unfold sock_allocated. rewrite alloc_step_some by done. fold p. split_and!; [| |done|done].
  - destruct Hm. split; simpl; [by intros [Hn%elem_of_singleton|?]%elem_of_union|..];
      try (intros q Hq; apply elem_of_union_r; by auto).
    intros q [<-|[_ Hq]]%lookup_insert_is_Some; [by apply elem_of_union_l, elem_of_singleton|].
    apply elem_of_union_r. auto.
  - eapply idx_ok_frame; [exact Hx|by destruct r|done|]. intros q Hq Ho _.
    split; [by apply elem_of_union_r|]. unfold only_node in *. simpl.
    rewrite lookup_insert_ne; [done|]. by intros ->.
Qed.

Lemma empty_mail s' so :
  k_sockets s' !! p = Some so → so = set_sock_connector d zero_socket → mail_ok s' p (λ _, []).
Proof using Type.
  intros Hso ->. split; [|by intros m Hm%not_elem_of_nil]. eexists. split; [exact Hso|].
  intros sd. do 3 (split; [by destruct sd|]). split; [apply sll_nil|].
  by intros m Hm%not_elem_of_nil.
Qed.

(** C22. [anscheduler_socket_new] yields a descriptor of the calling task, or NULL for
    want of memory. The descriptor is new, has one reference, a number that no open
    descriptor of the task has, and is the first of its list in the task's table; it is
    the connector of a new socket whose queues are empty. When the memory suffices for
    the socket only, nothing has changed but that the socket is allocated, and nobody
    knows its address: it is lost. *)
Theorem socket_new_opens_connector :
  mem_ok s → cpu_task (k_cpus s c) = T → desc_table s T B →
  idx_ok (root_descriptors T) s x → ix_ok x → ix_used x + 0x1fe < 2 ^ 64 →
  descriptorsLock T ∉ k_locks s → connRecLock p ∉ k_locks s → socketsLock T ∉ k_locks s →
  if decide (p = NULL)
  then run n c anscheduler_socket_new s = Done NULL (set_k_nallocs (S (k_nallocs s)) s)
  else if decide (d = NULL)
  then run n c anscheduler_socket_new s =
         Done NULL (set_k_nallocs (S (S (k_nallocs s))) (set_k_live ({[p]} ∪ k_live s)
           (put_sock p zero_socket s)))
  else ∃ s', run n c anscheduler_socket_new s = Done d s' ∧
    opened T p d true sock_allocated B x zero_socket s' ∧ ¬ ix_in_use (ix_get x).1 x ∧
    mail_ok s' p (λ _, []) ∧ p ∉ k_live s ∧ d ∉ k_live s ∧ d ≠ p.
Proof using PlatformOk0.
  intros Hm HT HB Hok Hx Hb Hl1 Hl2 Hl3. unfold anscheduler_socket_new. rewrite run_alloc. fold p.
  case_decide as Hp; [by rewrite alloc_step_null|].
  destruct (sock_allocated_ok _ Hm Hp Hok) as (Hm1 & Hok1 & Hf & Hlive).
  rewrite run_zero_as by (rewrite alloc_step_some by done; by apply elem_of_union_l, elem_of_singleton).
  change (set_heap _ _) with sock_allocated. rewrite run_get_task.
  change (cpu_task _) with (cpu_task (k_cpus s c)). rewrite HT.
  pose proof (create_descriptor_spec n c sock_allocated p T true zero_socket B x Hm1) as Hspec.
  fold d in Hspec. assert (k_locks sock_allocated = k_locks s) as Hlk by done.
  specialize (Hspec (lookup_insert_eq _ _ _)). rewrite Hlk in Hspec.
  assert (desc_table sock_allocated T B) as HB1 by (by eapply desc_table_frame).
  specialize (Hspec HB1 Hok1 Hx Hb Hl1 Hl2 Hl3). case_decide as Hd.
  - rewrite Hspec. unfold sock_allocated. by rewrite alloc_step_some.
  - destruct Hspec as (s' & Hrun & Ho & Hdf). rewrite Hlive in Hdf. exists s'.
    split_and!; try done; [by apply ix_get_fresh| |set_solver|set_solver].
    eapply empty_mail; [|done]. rewrite (op_rest _ _ _ _ _ _ _ _ _ Ho). apply lookup_insert_eq.
Qed.
End new.

Lemma socket_new_opens_connector_witness :
  let s1 := sock_allocated (H := P0) demo_link in
  let p := plat_alloc (Platform := P0) (k_nallocs demo_link) (k_live demo_link) sizeof_socket_t in
  let d := plat_alloc (Platform := P0) (k_nallocs s1) (k_live s1) sizeof_socket_desc_t in
  ∃ s', run 0 0 (anscheduler_socket_new (H := P0)) demo_link = Done d s' ∧
    opened 0x10000 p d true s1 demo_desc_lists ix_init zero_socket s' ∧
    ¬ ix_in_use (ix_get ix_init).1 ix_init ∧
    mail_ok s' p (λ _, []) ∧ p ∉ k_live demo_link ∧ d ∉ k_live demo_link ∧ d ≠ p.
Proof.
  apply (socket_new_opens_connector (H := P0) 0 0 demo_link 0x10000 demo_desc_lists ix_init).
  - apply mem_ok_dom; [by_dec|]. repeat split; by_dec.
  - reflexivity.
  - apply demo_link_table.
  - eapply demo_chain_ok; first [reflexivity|by_dec|by split_and!].
  - apply ix_init_ok.
  - reflexivity.
  - by_dec.
  - by_dec.
  - by_dec.
Defined.
