(* ===== verification/SocketConnect.v ===== *)
(** * SocketConnect: connecting a socket (src/socket.c)

    [anscheduler_socket_connect] from end to end: the receiver is created in the task
    that is to be reached and the CONNECT message queued for it; and
    [anscheduler_socket_remote], the way back from a socket to that task. *)
From S2P Require Import Prelude Types Machine Demo Idxset RunQueue PagerQueue TaskRef Loop PidMap SocketList DescTable PendingList Socket MsgQueue SocketLink SocketSend SocketHangup SocketOpen.

(** ** Frames *)

Lemma pending_ok_frame s s' T l :
  pending_ok s T l → task_firstPending <$> k_tasks s' !! T = task_firstPending <$> k_tasks s !! T →
  (∀ p o, k_descs s !! p = Some o → ∃ o', k_descs s' !! p = Some o' ∧
     desc_pendingNext o' = desc_pendingNext o ∧ desc_pendingLast o' = desc_pendingLast o) →
  pending_ok s' T l.
Proof.
  intros (Hd & Hin & Hf) Ht Hp. split_and!; [| |by rewrite Ht].
  - eapply dll_ext; [| |exact Hd]; intros p Hpl; destruct (Hin p Hpl) as [o Ho];
      destruct (Hp p o Ho) as (o' & Ho' & ? & ?); unfold fld; by rewrite Ho, Ho'; simpl; congruence.
  - intros p Hpl. destruct (Hin p Hpl) as [o Ho]. destruct (Hp p o Ho) as (o' & Ho' & _). by eexists.
Qed.

(** ** Connecting *)

Definition connect_msg `{Platform} (m : Z) : socket_msg_t :=
  set_msg_len 0 (set_msg_type ANSCHEDULER_MSG_TYPE_CONNECT (plat_junk_msg m)).

(** An unconnected socket [S] whose connector is [d], and a task [T] that the caller
    holds a reference to; the notation is that of [link_ready]. *)
Record connectable (n : nat) (s : kst) (S d T : Z) (o : socket_desc_t) (so : socket_t) (tk : task_t)
    (B : Z → list Z) (x : idxset) (mb : mailbox) (l tl : list Z) : Prop := {
  cn_mem : mem_ok s;
  cn_desc : k_descs s !! d = Some o ∧ desc_socket o = S ∧ desc_isConnector o ≠ 0 ∧ d ≠ NULL;
  cn_keep : desc_isClosed o = 0 ∨ 1 < desc_refCount o < 2 ^ 64;
  cn_sock : k_sockets s !! S = Some so;
  cn_mail : mail_ok s S mb ∧ mb_size mb + 1 < 2 ^ 64;
  cn_task : k_tasks s !! T = Some tk ∧ task_isKilled tk = 0 ∧ 0 < task_refCount tk < 2 ^ 64;
  cn_table : desc_table s T B;
  cn_numbers : idx_ok (root_descriptors T) s x ∧ ix_ok x ∧ ix_used x + 0x1fe < 2 ^ 64;
  cn_pending : pending_ok s T l;
  cn_threads : task_threads s T tl ∧ (length tl < n)%nat;
  cn_locks : k_locks s = ∅;
}.

Section connect.
Context `{Platform, !PlatformOk _} (n c : nat) (s : kst) (S d T : Z) (o : socket_desc_t) (so : socket_t).
Context (tk : task_t) (B : Z → list Z) (x : idxset) (mb : mailbox) (l tl : list Z).
Context (Hc : connectable n s S d T o so tk B x mb l tl).

(** The flag is set first, atomically. *)
Definition flagged : kst :=
  put_sock S (set_sock_hasBeenConnected (Z.lor (sock_hasBeenConnected so) 1) so) s.

(** A socket is connected at most once. *)
Lemma connect_again : sock_hasBeenConnected so ≠ 0 →
  run n c (anscheduler_socket_connect d T) s = Done false flagged.
Proof using Hc.
  intros Hf. destruct (cn_desc _ _ _ _ _ _ _ _ _ _ _ _ _ Hc) as (Ho & HS & _).
  unfold anscheduler_socket_connect. erewrite run_rd by exact Ho. rewrite HS.
  erewrite run_rmw by apply (cn_sock _ _ _ _ _ _ _ _ _ _ _ _ _ Hc). by rewrite decide_True.
Qed.

Let e := plat_alloc (k_nallocs s) (k_live s) sizeof_socket_desc_t.
Let so1 := set_sock_hasBeenConnected (Z.lor (sock_hasBeenConnected so) 1) so.

Lemma flagged_ok :
  mem_ok flagged ∧ k_sockets flagged !! S = Some so1 ∧ desc_table flagged T B ∧
  idx_ok (root_descriptors T) flagged x ∧ mail_ok flagged S mb.
Proof using Hc.
  destruct Hc as [Hm _ _ Hso [Hmail _] _ HB (Hx & _) _ _ _]. split_and!.
  - by eapply mem_ok_put_sock.
  - apply lookup_insert_eq.
  - by eapply desc_table_frame.
  - by eapply idx_ok_put_sock.
  - eapply mail_ok_queues; [exact Hso|apply lookup_insert_eq|by intros []|done|done].
Qed.

(** The memory once the receiver [e] is open and neither the caller's reference to the
    task nor the first one to [e] is held. *)
Definition released_link (s2 : kst) (e2 : socket_desc_t) (tk2 : task_t) : kst :=
  deref_desc e e2 (set_task T (set_task_refCount (u64 (task_refCount tk2 - 1)) tk2) s2).

Definition link_created (s2 : kst) (e2 : socket_desc_t) (tk2 : task_t) : Prop :=
  opened T S e false flagged B x so1 s2 ∧ e ∉ k_live s ∧ k_descs s2 !! e = Some e2 ∧
  desc_body e2 = new_desc S T false (ix_get x).1 ∧
  k_tasks s2 !! T = Some tk2 ∧ ∃ L v, tk2 = set_task_descriptors v (set_task_sockets L tk).

(** The rest of [anscheduler_socket_connect]. *)
Definition send_connect : prog bool :=
  msg ← alloc_as plat_junk_msg sizeof_socket_msg_t;
  if decide (msg = NULL) then anscheduler_abort "failed to allocate connect message" else
  wr msg (set_msg_type ANSCHEDULER_MSG_TYPE_CONNECT);;
  wr msg (set_msg_len 0);;
  ok ← anscheduler_socket_msg d msg;
  if negb ok then anscheduler_abort "failed to send connect message" else mret true.

(** The receiver [e] is open: first of its list in the task's table under a number that
    the task's set has given out for it, and the receiving end of the socket. *)
Record receiver_open (s' : kst) (num := (ix_get x).1) (h := _descriptor_hash num) : Prop := {
  ro_table : desc_table s' T (set_bucket h (e :: B h) B);
  ro_numbers : idx_ok (root_descriptors T) s' (ix_get x).2;
  ro_socket : sock_ends <$> k_sockets s' !! S = Some (sock_connector so, e, Z.lor (sock_hasBeenConnected so) 1);
  ro_desc : ∃ eo, k_descs s' !! e = Some eo ∧ desc_socket eo = S ∧ desc_task eo = T ∧
    desc_descriptor eo = num ∧ desc_isConnector eo = 0 ∧ desc_isClosed eo = 0 ∧ desc_refCount eo = 0;
}.

Lemma connect_links : sock_hasBeenConnected so = 0 →
  if decide (e = NULL)
  then run n c (anscheduler_socket_connect d T) s =
       Done false (set_k_nallocs (Datatypes.S (k_nallocs s)) flagged)
  else ∃ s2 e2 tk2, link_created s2 e2 tk2 ∧
    run n c (anscheduler_socket_connect d T) s = run n c send_connect (released_link s2 e2 tk2).
Proof using Hc PlatformOk0.
  intros Hf. destruct flagged_ok as (Hm1 & Hso1 & HB1 & Hx1 & _).
  destruct Hc as [Hm (Ho & HS & _) _ Hso _ (Htk & Hal & _) HB (Hx & Hxo & Hb) _ _ Hlk].
  unfold anscheduler_socket_connect. erewrite run_rd by exact Ho. rewrite HS.
  erewrite run_rmw by exact Hso.
  rewrite (decide_False (P := sock_hasBeenConnected so ≠ 0)) by lia.
  change (set_heap _ s) with flagged. erewrite run_rd by exact Ho. rewrite HS.
  pose proof (create_descriptor_spec n c flagged S T false so1 B x Hm1 Hso1 HB1 Hx1 Hxo Hb) as Hspec.
  change (plat_alloc (k_nallocs flagged) (k_live flagged) _) with e in Hspec.
  change (k_locks flagged) with (k_locks s) in Hspec. rewrite Hlk in Hspec.
  do 3 specialize (Hspec (not_elem_of_empty _)). case_decide as He.
  - by rewrite (run_call _ _ _ _ _ _ _ Hspec), decide_True.
  - destruct Hspec as (s2 & Hrun & Hop & Hef). rewrite (run_call _ _ _ _ _ _ _ Hrun), decide_False by done.
    pose proof (op_descs _ _ _ _ _ _ _ _ _ Hop e) as He2. rewrite lookup_insert_eq in He2.
    destruct (k_descs s2 !! e) as [e2|] eqn:Hs2e; [|done]. apply (inj Some) in He2.
    destruct (op_task _ _ _ _ _ _ _ _ _ Hop) as (L & v & Ht2).
    assert (k_tasks s2 !! T = Some (set_task_descriptors v (set_task_sockets L tk))) as Htk2
      by (rewrite Ht2, lookup_alter_eq; change (k_tasks flagged) with (k_tasks s); by rewrite Htk).
    assert (k_locks s2 = ∅) as Hlk2 by (by rewrite (op_rest _ _ _ _ _ _ _ _ _ Hop)).
    eexists s2, e2, _. split; [split_and!; try done; by eauto|].
    rewrite (run_call _ _ _ _ _ _ _ (dereference_keep n c s2 T _ Htk2
      ltac:(rewrite Hlk2; set_solver) (or_intror Hal))).
    assert (desc_isClosed e2 = 0) as Hcl by (change (desc_isClosed (desc_body e2) = 0); by rewrite He2).
    set (s2' := set_task T _ s2).
    by rewrite (run_call _ _ _ _ _ _ _ (socket_dereference_keep n c s2' e e2 Hs2e
      ltac:(simpl; rewrite Hlk2; set_solver) (or_introl Hcl))).
Qed.

Section ready.
Context (s2 : kst) (e2 : socket_desc_t) (tk2 : task_t) (Hl : link_created s2 e2 tk2) (He : e ≠ NULL).

Let s3 := released_link s2 e2 tk2.
Let m := plat_alloc (k_nallocs s3) (k_live s3) sizeof_socket_msg_t.

(** The memory with the CONNECT message. *)
Definition connect_ready_state : kst :=
  set_k_msgs (<[m := connect_msg m]> (k_msgs s3)) (alloc_step sizeof_socket_msg_t s3).

(** The descriptors of [s] are there with their contents. *)
Lemma connect_descs p o1 : k_descs s !! p = Some o1 →
  p ≠ e ∧ ∃ o', k_descs connect_ready_state !! p = Some o' ∧ desc_body o' = desc_body o1.
Proof using Hc Hl PlatformOk0.
  intros Hp. destruct Hl as (Hop & Hef & _). assert (p ≠ e) as Hpe.
  { intros ->. apply Hef, (mem_descs _ (cn_mem _ _ _ _ _ _ _ _ _ _ _ _ _ Hc)). by eexists. }
  split; [done|]. pose proof (op_descs _ _ _ _ _ _ _ _ _ Hop p) as Hd.
  rewrite lookup_insert_ne in Hd by done. change (k_descs flagged) with (k_descs s) in Hd. rewrite Hp in Hd.
  simpl. rewrite lookup_insert_ne by done. destruct (k_descs s2 !! p) as [o'|]; [|done].
  exists o'. split; [done|]. by apply (inj Some) in Hd.
Qed.

Lemma connect_fresh sd : m ≠ NULL → m ∉ mb sd.
Proof using Hc Hl PlatformOk0.
  intros Hm Hin. destruct Hl as (Hop & _).
  destruct (cn_mail _ _ _ _ _ _ _ _ _ _ _ _ _ Hc) as [((so' & _ & Hq) & _) _].
  destruct (Hq sd) as (_ & _ & _ & _ & Hms). pose proof (plat_alloc_fresh _ _ _ Hm) as Hf.
  fold m in Hf. clearbody m. apply Hf. apply (mem_msgs s2 (op_mem _ _ _ _ _ _ _ _ _ Hop)).
  assert (k_msgs s2 = k_msgs s) as -> by (by rewrite (op_rest _ _ _ _ _ _ _ _ _ Hop)). by apply Hms.
Qed.

(** The receiver is open, and nobody holds a reference to it. *)
Lemma connect_receiver : ∃ e3, k_descs connect_ready_state !! e = Some e3 ∧
  desc_isConnector e3 = 0 ∧ desc_refCount e3 = 0 ∧ desc_isClosed e3 = 0 ∧
  desc_socket e3 = S ∧ desc_task e3 = T ∧ not_pending e3.
Proof using Hl.
  destruct Hl as (_ & _ & _ & He2 & _). eexists. split; [apply lookup_insert_eq|].
  assert (∀ {R} (f : socket_desc_t → R), f (desc_body e2) = f (new_desc S T false (ix_get x).1)) as Hf
    by (by rewrite He2).
  split_and!; [apply (Hf _ desc_isConnector)| |apply (Hf _ desc_isClosed)|apply (Hf _ desc_socket)
    |apply (Hf _ desc_task)|split; [apply (Hf _ desc_pendingNext)|apply (Hf _ desc_pendingLast)]].
  change (u64 (desc_refCount (desc_body e2) - 1) = 0). by rewrite He2.
Qed.

(** The rest of the memory. *)
Definition referenced_once (tk3 : task_t) : Prop :=
  task_refCount tk3 = task_refCount tk - 1 ∧ task_isKilled tk3 = 0 ∧
  task_firstPending tk3 = task_firstPending tk ∧ task_firstThread tk3 = task_firstThread tk.

Lemma connect_memory (s4 := connect_ready_state) :
  k_sockets s4 !! S = Some (set_end false e so1) ∧ k_msgs s4 = <[m := connect_msg m]> (k_msgs s) ∧
  k_threads s4 = k_threads s ∧ k_loop s4 = k_loop s ∧ k_cpus s4 = k_cpus s ∧ k_locks s4 = ∅ ∧
  (∃ tk3, k_tasks s4 !! T = Some tk3 ∧ referenced_once tk3) ∧
  ∀ t, t ≠ T → k_tasks s4 !! t = k_tasks s !! t.
Proof using Hc Hl.
  destruct (cn_task _ _ _ _ _ _ _ _ _ _ _ _ _ Hc) as (Htk & Hal & Hrt).
  pose proof (cn_locks _ _ _ _ _ _ _ _ _ _ _ _ _ Hc) as Hlk.
  destruct Hl as (Hop & _ & _ & _ & Htk2 & L & v & Ht2). pose proof (op_rest _ _ _ _ _ _ _ _ _ Hop) as Hs2.
  destruct (op_task _ _ _ _ _ _ _ _ _ Hop) as (L' & v' & Hts). split_and!.
  - simpl. rewrite Hs2. apply lookup_insert_eq.
  - simpl. by rewrite Hs2.
  - simpl. by rewrite Hs2.
  - simpl. by rewrite Hs2.
  - simpl. by rewrite Hs2.
  - simpl. by rewrite Hs2.
  - eexists. split; [apply lookup_insert_eq|]. unfold referenced_once. simpl. rewrite Ht2. simpl.
    split_and!; try done. apply u64_small. lia.
  - intros t Ht. simpl. rewrite lookup_insert_ne by done. rewrite Hts. by rewrite lookup_alter_ne.
Qed.

(** The receiver is entered, and is linked to the socket. *)
Lemma connect_entered (num := (ix_get x).1) (h := _descriptor_hash num) (s4 := connect_ready_state) :
  m ≠ NULL → desc_table s4 T (set_bucket h (e :: B h) B) ∧ idx_ok (root_descriptors T) s4 (ix_get x).2.
Proof using Hl PlatformOk0.
  intros Hm. destruct Hl as (Hop & _ & He2 & _ & Htk2 & _). split.
  - eapply desc_table_ext; [apply (op_table _ _ _ _ _ _ _ _ _ Hop)| |].
    + simpl. rewrite lookup_insert_eq. by rewrite Htk2.
    + intros p. simpl. rewrite lookup_insert. case_decide; [subst; by rewrite He2|done].
  - eapply idx_ok_frame; [apply (op_numbers _ _ _ _ _ _ _ _ _ Hop)| |done|].
    + simpl. rewrite lookup_insert_eq. by rewrite Htk2.
    + intros p Hp (H1 & H2 & H3 & H4 & H5 & H6) _. split; [simpl; case_decide; [done|by apply elem_of_union_r]|].
      unfold only_node. simpl. rewrite !lookup_insert_ne; [done|..]; intros <-; try congruence.
      by apply (plat_alloc_fresh _ _ _ Hm).
Qed.

Lemma receiver_kept s' : m ≠ NULL → keeps_tables connect_ready_state s' →
  fld (k_descs s') desc_refCount e = 0 → receiver_open s'.
Proof using Hl PlatformOk0.
  intros Hm Hk Hrc. destruct (connect_entered Hm) as [HB Hx].
  destruct Hl as (Hop & _ & He2 & Heb & _). split.
  - by eapply keeps_tables_desc_table.
  - by eapply keeps_tables_idx_ok.
  - rewrite (kt_sockets _ _ Hk). simpl. rewrite (op_rest _ _ _ _ _ _ _ _ _ Hop). simpl.
    by rewrite lookup_insert_eq.
  - pose proof (f_equal (fmap desc_body) (kt_descs _ _ Hk e)) as Hd.
    simpl in Hd. rewrite lookup_insert_eq in Hd. simpl in Hd.
    unfold fld in Hrc. destruct (k_descs s' !! e) as [eo|]; [|done]. simpl in *. exists eo. split; [done|].
    apply (inj Some) in Hd.
    assert (∀ {R} (f : socket_desc_t → R), (∀ o', f (desc_body (desc_stable o')) = f o') →
      (∀ o', f (desc_body o') = f o') → f eo = f (new_desc S T false (ix_get x).1)) as Hf.
    { intros R f H1 H2. rewrite <- (H1 eo), Hd. change (f (desc_body (desc_stable e2)) = f (new_desc S T false (ix_get x).1)).
      by rewrite H1, <- Heb, H2. }
    split_and!; [apply (Hf _ desc_socket)|apply (Hf _ desc_task)|apply (Hf _ desc_descriptor)
      |apply (Hf _ desc_isConnector)|apply (Hf _ desc_isClosed)|]; done.
Qed.

Lemma connect_ready : m ≠ NULL →
  ∃ o2 e3 tk3, link_ready n connect_ready_state S d e T o2 e3 tk3 mb l tl ∧
    unsent connect_ready_state m (connect_msg m) mb ∧
    desc_isClosed o2 = desc_isClosed o ∧ desc_refCount o2 = desc_refCount o ∧
    desc_isConnector e3 = 0 ∧ desc_refCount e3 = 0 ∧ referenced_once tk3.
Proof using Hc Hl He PlatformOk0.
  intros Hm. destruct connect_receiver as (e3 & He3 & Hic & Hrc & Hcl & Hsk & Htk3 & Hnp).
  destruct connect_memory as (Hso4 & Hm4 & Hth4 & _ & _ & Hlk4 & (tk3 & Ht4 & Hr3) & _).
  pose proof Hc as [_ (Ho & HS & Hdc & Hd0) _ Hso [Hmail Hroom] (Htk & _ & Hrt) _ _ Hpend [Hth Hn] _].
  destruct (connect_descs d o Ho) as (Hde & o2 & Ho2 & Hb2).
  assert (∀ {R} (f : socket_desc_t → R), f (desc_body o2) = f (desc_body o)) as Hf by (by rewrite Hb2).
  pose proof Hr3 as (Hr & Hal & Hfp & Hft). pose proof (λ sd, connect_fresh sd Hm) as Hfresh.
  exists o2, e3, tk3. split; [split|split_and!; try done].
  - split; [done|]. rewrite <- HS. apply (Hf _ desc_socket).
  - eexists. split; [exact Hso4|]. unfold other_end. rewrite decide_True; [done|].
    by rewrite (Hf _ desc_isConnector : desc_isConnector o2 = desc_isConnector o).
  - by split.
  - done.
  - rewrite Hrc. split; [done|lia].
  - eapply (mail_ok_queues s _ S so); [done|exact Hso4|by intros []| |done].
    intros sd p Hp. rewrite Hm4, lookup_insert_ne; [done|]. intros <-. by apply (Hfresh sd).
  - done.
  - rewrite Hr. split_and!; [done|done|lia..].
  - split; [|done]. eapply pending_ok_frame; [exact Hpend|rewrite Ht4, Htk; simpl; by rewrite Hfp|].
    intros p o1 Hp. destruct (connect_descs p o1 Hp) as (_ & o' & Ho' & Hb). exists o'. split; [done|].
    by split; [apply (f_equal desc_pendingNext) in Hb|apply (f_equal desc_pendingLast) in Hb].
  - split; [|done]. destruct Hth as (Hdl & Hfst & Hin). unfold task_threads. rewrite Hth4.
    split_and!; [done| |done]. rewrite (fld_lookup _ _ _ _ Ht4), Hft. by rewrite (fld_lookup _ _ _ _ Htk) in Hfst.
  - done.
  - split; [rewrite Hm4; apply lookup_insert_eq|done].
  - apply (Hf _ desc_isClosed).
  - apply (Hf _ desc_refCount).
Qed.
End ready.

(** C12. Connecting a socket to a task, from end to end. A socket is connected at most
    once: a second attempt returns false. So does the first when there is no memory for
    the receiver, and the socket keeps the mark. Otherwise the receiver is created, the
    caller's reference to the task is used up, and the rest of the call sends the
    CONNECT message. When the call is over, the receiver is an open descriptor in the
    task's table, under a number that the task's set has given out for it, linked to
    the socket, and nobody holds a reference to it. The CONNECT message is the last of the receiver's queue and the receiver is on
    the task's pending list, once. When a thread of the task polls, the first such
    thread runs now and the connecting thread is queued behind all others; when none
    polls, the call returns true. The kernel aborts only when no message can be
    allocated. *)
Theorem socket_connect_reaches_task q cur ch :
  queue_ok s q → clean s q → running s c cur ch → cur ∉ q →
  fld (k_threads s) thread_isPolling cur = 0 →
  if decide (sock_hasBeenConnected so ≠ 0)
  then run n c (anscheduler_socket_connect d T) s = Done false flagged
  else if decide (e = NULL)
  then run n c (anscheduler_socket_connect d T) s =
       Done false (set_k_nallocs (Datatypes.S (k_nallocs s)) flagged)
  else ∃ s2 e2 tk2, link_created s2 e2 tk2 ∧
    let s3 := released_link s2 e2 tk2 in
    run n c (anscheduler_socket_connect d T) s = run n c send_connect s3 ∧
    let m := plat_alloc (k_nallocs s3) (k_live s3) sizeof_socket_msg_t in
    if decide (m = NULL)
    then ∃ msg s', run n c (anscheduler_socket_connect d T) s = Stop (s_leave (leave_abort msg)) s'
    else ∃ s' e3, delivered S d e T (u64 (desc_refCount o - 1)) e3 mb m l s' ∧
      desc_isConnector e3 = 0 ∧ desc_refCount e3 = 0 ∧ receiver_open s' ∧
      (∃ mo, k_msgs s' !! m = Some mo ∧ msg_type mo = ANSCHEDULER_MSG_TYPE_CONNECT ∧ msg_len mo = 0) ∧
      match find_polling (k_threads s) tl with
      | Some t => run n c (anscheduler_socket_connect d T) s = Stop (s_leave (leave_run T t)) s' ∧
          queue_ok s' (q ++ [cur]) ∧ cpu_thread (k_cpus s' c) = t ∧ cpu_task (k_cpus s' c) = T ∧
          fld (k_threads s') thread_isPolling t = 0
      | None => run n c (anscheduler_socket_connect d T) s = Done true s' ∧
          k_threads s' = k_threads s ∧ queue_ok s' q ∧
          fld (k_tasks s') task_refCount T = task_refCount tk - 1
      end.
Proof using Hc PlatformOk0.
  intros Hq Hcl Hrun Hcq Hidle. case_decide as Hf; [by apply connect_again|].
  assert (sock_hasBeenConnected so = 0) as Hf0 by lia. pose proof (connect_links Hf0) as Hlinks.
  case_decide as He; [done|]. destruct Hlinks as (s2 & e2 & tk2 & Hl & ->).
  exists s2, e2, tk2. split; [done|]. split; [done|]. intros m. unfold send_connect. rewrite run_alloc_as. cbv zeta.
  change (plat_alloc _ _ _) with m. case_decide as Hm; [eexists _, _; reflexivity|].
  destruct (connect_ready s2 e2 tk2 Hl He Hm) as (o2 & e3 & tk3 & Hlr & Hu & Hco & Hro & Hic & Hrc & Hr3).
  destruct (connect_memory s2 e2 tk2 Hl) as (_ & Hm4 & Hth4 & Hlo4 & Hcp4 & _ & (tk3' & Ht4 & Hr3') & Hts4).
  do 2 (erewrite run_wr by apply lookup_insert_eq). simpl set_heap. simpl heap. rewrite !insert_insert_eq.
  change (set_k_msgs _ _) with (connect_ready_state s2 e2 tk2).
  assert (running (connect_ready_state s2 e2 tk2) c cur ch) as Hrun4.
  { destruct Hrun as [? ? ? ? Hal]. split; rewrite ?Hcp4, ?Hth4; try done. intros Hn.
    destruct (decide (thread_task ch = T)) as [->|Hne]; [|rewrite Hts4 by done; auto].
    exists tk3'. split; [done|]. apply Hr3'. }
  destruct (link_sent n c _ S d e T o2 e3 tk3 mb l tl m (connect_msg m) Hlr q cur ch)
    as (s' & Hdl & Hkt & [Hms _] & Hw); try done.
  { by rewrite Hco, Hro; apply (cn_keep _ _ _ _ _ _ _ _ _ _ _ _ _ Hc). }
  { by eapply queue_ok_same. }
  { unfold clean. by rewrite Hth4. }
  { by rewrite Hth4. }
  exists s', e3. rewrite Hro in Hdl. split_and!; try done.
  - apply (receiver_kept s2 e2 tk2 Hl s' Hm Hkt). rewrite <- Hrc. apply Hdl.
  - specialize (Hms m). rewrite Hm4, lookup_insert_eq in Hms.
    destruct (k_msgs s' !! m) as [mo|]; [|done]. exists mo. split; [done|].
    simpl in Hms. apply (inj Some) in Hms. split; [by apply (f_equal msg_type) in Hms|by apply (f_equal msg_len) in Hms].
  - rewrite Hth4 in Hw. rewrite run_bind. destruct (find_polling _ _).
    + by destruct Hw as [-> Hw].
    + destruct Hw as (-> & ? & ? & Hr). rewrite Hr. split_and!; try done. apply Hr3.
Qed.
End connect.

(** The receiver is in its task's table before the message is sent, so that the task may
    have closed it by then: the whole kernel is aborted. *)
Lemma connect_aborts_on_closed_receiver `{Platform} n c s d o S so e eo :
  k_descs s !! d = Some o → desc_socket o = S → k_sockets s !! S = Some so →
  other_end (desc_isConnector o) so = e → k_descs s !! e = Some eo → desc_isClosed eo ≠ 0 →
  k_locks s = ∅ → ∃ msg s', run n c (send_connect d) s = Stop (s_leave (leave_abort msg)) s'.
Proof.
  intros Ho HS Hso He Heo Hcl Hlk. unfold send_connect. rewrite run_alloc_as. cbv zeta.
  case_decide as Hm; [eexists _, _; reflexivity|].
  do 2 (erewrite run_wr by apply lookup_insert_eq). simpl set_heap. simpl heap.
  unfold anscheduler_socket_msg. rewrite run_assoc. erewrite run_rd by exact Ho. rewrite HS.
  rewrite run_assoc, run_lock by (first [by apply bool_decide_eq_true; eexists|simpl; rewrite Hlk; set_solver]).
  rewrite run_assoc. erewrite run_call by (eapply run_reference_other_end_none; [exact Ho|exact Hso|exact He|];
    intros _; exists eo; split_and!; [done..|simpl; rewrite Hlk; set_solver]).
  rewrite run_assoc, run_unlock by (first [simpl; set_solver|by apply bool_decide_eq_true; eexists]).
  rewrite decide_True by done. eexists _, _. reflexivity.
Qed.

(** ** The task at the other end *)

(** Without an open other end [anscheduler_socket_remote] yields NULL. *)
Lemma socket_remote_alone `{Platform} n c s d o S so e :
  k_descs s !! d = Some o → desc_socket o = S → k_sockets s !! S = Some so →
  other_end (desc_isConnector o) so = e → k_locks s = ∅ →
  (e ≠ NULL → ∃ eo, k_descs s !! e = Some eo ∧ desc_isClosed eo ≠ 0) →
  run n c (anscheduler_socket_remote d) s = Done NULL s.
Proof.
  intros Ho HS Hso He Hlk Hcl. unfold anscheduler_socket_remote. erewrite run_rd by exact Ho. rewrite HS.
  rewrite run_lock by (first [by apply bool_decide_eq_true; eexists|rewrite Hlk; set_solver]).
  erewrite run_call by (eapply run_reference_other_end_none; [exact Ho|exact Hso|exact He|];
    intros He0; destruct (Hcl He0) as (eo & ? & ?); exists eo; split_and!; [done..|simpl; rewrite Hlk; set_solver]).
  rewrite run_unlock by (first [simpl; set_solver|by apply bool_decide_eq_true; eexists]).
  rewrite decide_True, run_ret by done. f_equal. apply unlock_lock. rewrite Hlk. set_solver.
Qed.

(** With one, it yields the task there with one reference more, or NULL when the task
    has been killed; the other end's count is as before. *)
Theorem socket_remote_references_task `{Platform} n c s d o S so e eo tk :
  k_descs s !! d = Some o → desc_socket o = S → k_sockets s !! S = Some so →
  other_end (desc_isConnector o) so = e → e ≠ NULL → k_locks s = ∅ →
  k_descs s !! e = Some eo → desc_isClosed eo = 0 → 0 ≤ desc_refCount eo < 2 ^ 64 - 1 →
  k_tasks s !! desc_task eo = Some tk →
  run n c (anscheduler_socket_remote d) s =
  if decide (task_isKilled tk = 0)
  then Done (desc_task eo) (set_task (desc_task eo) (set_task_refCount (u64 (task_refCount tk + 1)) tk) s)
  else Done NULL s.
Proof.
  intros Ho HS Hso He He0 Hlk Heo Hcl Hrc Htk. unfold anscheduler_socket_remote.
  erewrite run_rd by exact Ho. rewrite HS.
  rewrite run_lock by (first [by apply bool_decide_eq_true; eexists|rewrite Hlk; set_solver]).
  rewrite (run_call _ _ _ _ _ _ _ (run_reference_other_end n c (add_lock (connRecLock S) s)
    d o S so e eo Ho Hso He He0 Heo Hcl ltac:(simpl; rewrite Hlk; set_solver))).
  rewrite run_unlock by (first [simpl; set_solver|by apply bool_decide_eq_true; eexists]).
  change (del_lock (connRecLock S) (ref_desc e eo (add_lock (connRecLock S) s)))
    with (ref_desc e eo (del_lock (connRecLock S) (add_lock (connRecLock S) s))).
  rewrite unlock_lock by (rewrite Hlk; set_solver). rewrite decide_False by done.
  set (eo1 := set_desc_refCount (u64 (desc_refCount eo + 1)) eo).
  assert (∀ s', k_descs s' = k_descs (ref_desc e eo s) → k_descs s' !! e = Some eo1) as He1
    by (intros s' ->; apply lookup_insert_eq).
  assert (∀ s', deref_desc e eo1 (ref_desc e eo s') = set_desc e eo s') as Hback.
  { intros s'. unfold deref_desc, ref_desc, set_desc, eo1. simpl. rewrite insert_insert_eq, u64_succ_pred by lia.
    by destruct eo. }
  erewrite run_rd by (apply He1; done). change (desc_task eo1) with (desc_task eo).
  assert (∀ s', k_locks s' = ∅ → ∀ x, x ∉ k_locks s') as Hno by (intros s' ->; set_solver).
  case_decide as Hk.
  - rewrite (run_call _ _ _ _ _ _ _ (reference_alive n c (ref_desc e eo s) _ tk Htk Hk (Hno (ref_desc e eo s) Hlk _))).
    set (s1 := set_task (desc_task eo) (set_task_refCount (u64 (task_refCount tk + 1)) tk) s).
    change (set_task _ _ (ref_desc e eo s)) with (ref_desc e eo s1).
    rewrite (run_call _ _ _ _ _ _ _ (socket_dereference_keep n c (ref_desc e eo s1) e eo1
      (lookup_insert_eq _ _ _) (Hno s1 Hlk _) (or_introl Hcl))), run_ret, Hback.
    f_equal. unfold set_desc. rewrite insert_id by exact Heo. by destruct s.
  - rewrite (run_call _ _ _ _ _ _ _ (reference_killed n c (ref_desc e eo s) _ tk Htk Hk (Hno (ref_desc e eo s) Hlk _))).
    rewrite (run_call _ _ _ _ _ _ _ (socket_dereference_keep n c (ref_desc e eo s) e eo1
      (lookup_insert_eq _ _ _) (Hno s Hlk _) (or_introl Hcl))), run_ret, Hback.
    f_equal. unfold set_desc. rewrite insert_id by exact Heo. by destruct s.
Qed.

(** *** Witness

    The demo task connects its socket to itself; its second thread polls. *)
Definition unconnected_sock : socket_t := mk_socket 0x61000 0 0 0 0 2 0x70000 0x71000 0.

Definition demo_conn : kst :=
  put_sock 0x60000 unconnected_sock
    (set_k_descs {[0x61000 := mk_desc 0 0 0 0 0x60000 0x13 1 0x10000 0 1 0]} demo_send).

Lemma demo_connectable :
  connectable 4 demo_conn 0x60000 0x61000 0x10000 (mk_desc 0 0 0 0 0x60000 0x13 1 0x10000 0 1 0)
    unconnected_sock (demo_task 0 2) (λ _, []) ix_init demo_mb [] [0x1000; 0x2000; 0x3000].
Proof.
  split; try (by split_and!); try (by left); try reflexivity.
  - apply mem_ok_dom; [by_dec|]. repeat split; by_dec.
  - split; [|by_dec]. apply (mail_ok_queues demo_sock _ 0x60000 (mk_socket 0x61000 0x62000 0 0 0 2 0x70000 0x71000 1)
      unconnected_sock); [done|reflexivity|by intros []|done|apply demo_mail_ok].
  - eexists. split; [reflexivity|]. split; [reflexivity|]. intros h Hh.
    split; [|split; [apply dll_nil|by intros p Hp%not_elem_of_nil]].
    change (replicate 16 0 !! Z.to_nat h = Some 0). apply lookup_replicate_2. lia.
  - split; [|split; [apply ix_init_ok|by_dec]].
    eapply demo_chain_ok; first [reflexivity|by_dec|by split_and!].
  - split; [apply dll_nil|]. split; [by intros p Hp%not_elem_of_nil|done].
  - split; [|simpl; lia]. split; [by_dll|]. split; [done|]. elems; eexists; split; reflexivity.
Qed.

Lemma socket_connect_reaches_task_witness :
  ∃ s2 e2 tk2, link_created (H := P0) demo_conn 0x60000 0x10000 unconnected_sock (demo_task 0 2)
      (λ _, []) ix_init s2 e2 tk2 ∧
    let e := plat_alloc (Platform := P0) (k_nallocs demo_conn) (k_live demo_conn) sizeof_socket_desc_t in
    let s3 := released_link (H := P0) demo_conn 0x10000 s2 e2 tk2 in
    run 4 0 (anscheduler_socket_connect (H := P0) 0x61000 0x10000) demo_conn =
    run 4 0 (send_connect (H := P0) 0x61000) s3 ∧
    let m := plat_alloc (Platform := P0) (k_nallocs s3) (k_live s3) sizeof_socket_msg_t in
    if decide (m = NULL)
    then ∃ msg s', run 4 0 (anscheduler_socket_connect (H := P0) 0x61000 0x10000) demo_conn
                   = Stop (s_leave (leave_abort msg)) s'
    else ∃ s' e3, delivered 0x60000 0x61000 e 0x10000 0 e3 demo_mb m [] s' ∧
      desc_isConnector e3 = 0 ∧ desc_refCount e3 = 0 ∧
      receiver_open (H := P0) demo_conn 0x60000 0x10000 unconnected_sock (λ _, []) ix_init s' ∧
      (∃ mo, k_msgs s' !! m = Some mo ∧ msg_type mo = ANSCHEDULER_MSG_TYPE_CONNECT ∧ msg_len mo = 0) ∧
      run 4 0 (anscheduler_socket_connect (H := P0) 0x61000 0x10000) demo_conn
      = Stop (s_leave (leave_run 0x10000 0x2000)) s' ∧
      queue_ok s' [0x1000; 0x2000; 0x3000] ∧ cpu_thread (k_cpus s' 0%nat) = 0x2000 ∧
      cpu_task (k_cpus s' 0%nat) = 0x10000 ∧ fld (k_threads s') thread_isPolling 0x2000 = 0.
Proof.
  apply (socket_connect_reaches_task (H := P0) 4 0 demo_conn 0x60000 0x61000 0x10000 _ unconnected_sock
    (demo_task 0 2) (λ _, []) ix_init demo_mb [] [0x1000; 0x2000; 0x3000] demo_connectable)
    with (q := [0x1000; 0x2000]) (cur := 0x3000) (ch := demo_thread 0 0x2000 0 0 0 2 0).
  - split; [by_dll|]. split; [elems; by_vm|by_vm].
  - apply clean_compute. by_vm.
  - split; try done. intros _. exists (demo_task 0 2). by split.
  - by_dec.
  - reflexivity.
Defined.
