(* ===== verification/TaskLife.v ===== *)
(** * TaskLife: creation, launch and destruction of tasks (src/task.c)

    [anscheduler_task_create], [anscheduler_task_launch] and the kill job
    [_free_task_method]; and which function a kernel thread runs. *)
From S2P Require Import Prelude Types Machine Demo Idxset RunQueue PagerQueue TaskRef Loop Interrupts PidMap Thread SocketList Socket.

Section ops.
Context `{Platform}.

(** ** Operations *)

Definition _map_first_4mb (task : Z) : prog bool :=
  r ← for_ 0x400 0 (λ i,
    let flags := Z.lor (Z.lor ANSCHEDULER_PAGE_FLAG_PRESENT ANSCHEDULER_PAGE_FLAG_WRITE)
                   ANSCHEDULER_PAGE_FLAG_GLOBAL in
    vm ← rd task task_vm;
    ok ← anscheduler_vm_map vm i i flags;
    mret (if negb ok then Some false else None));
  mret (default true r).

Definition anscheduler_task_create : prog Z :=
  task ← anscheduler_alloc sizeof_task_t;
  if decide (task = NULL) then mret NULL else
  zero_as task zero_task;;
  wr task (set_task_refCount 1);;
  vm ← anscheduler_vm_root_alloc;
  wr task (set_task_vm vm);;
  if decide (vm = NULL) then
    anscheduler_free task;; mret NULL
  else
  ok ← anscheduler_idxset_init (root_descriptors task);
  if negb ok then
    vm ← rd task task_vm;
    anscheduler_vm_root_free vm;;
    anscheduler_free task;;
    mret NULL
  else
  ok ← anscheduler_idxset_init (root_stacks task);
  if negb ok then
    anidxset_free (root_descriptors task);;
    vm ← rd task task_vm;
    anscheduler_vm_root_free vm;;
    anscheduler_free task;;
    mret NULL
  else
  ok ← _map_first_4mb task;
  if negb ok then
    anidxset_free (root_descriptors task);;
    anidxset_free (root_stacks task);;
    vm ← rd task task_vm;
    anscheduler_vm_root_free vm;;
    anscheduler_free task;;
    mret NULL
  else
  pid ← anscheduler_pidmap_alloc_pid;
  wr task (set_task_pid pid);;
  mret task.

(** The loop of [anscheduler_task_launch]. *)
Definition push_threads (first : Z) : prog () :=
  while_ first (λ thread,
    if decide (thread ≠ NULL) then
      anscheduler_loop_push thread;;
      next ← rd thread thread_next;
      mret (inl next)
    else mret (inr ())).

Definition anscheduler_task_launch (task : Z) : prog () :=
  _ ← anscheduler_task_reference task;
  anscheduler_pidmap_set task;;
  anscheduler_lock (threadsLock task);;
  thread ← rd task task_firstThread;
  push_threads thread;;
  anscheduler_unlock (threadsLock task);;
  anscheduler_task_dereference task.

Definition _resign_continuation : prog Empty_set := anscheduler_loop_resign.

(** The inner loop of [_close_task_sockets_async]: wait for [desc] to leave the
    bucket. *)
Definition wait_socket_gone (task thread i desc : Z) : prog () :=
  while_ () (λ _,
    anscheduler_lock (socketsLock task);;
    head ← rd_sockets task i;
    if decide (head ≠ desc) then
      anscheduler_unlock (socketsLock task);;
      mret (inr ())
    else
      anscheduler_save_return_state thread _resign_continuation;;
      mret (inl ())).

(** The loop of [_close_task_sockets_async] over one bucket. *)
Definition close_bucket (task thread i : Z) : prog () :=
  while_ () (λ _,
    anscheduler_lock (socketsLock task);;
    desc ← rd_sockets task i;
    desc ← (if decide (desc ≠ NULL) then
              ok ← anscheduler_socket_reference desc;
              mret (if (ok : bool) then desc else NULL)
            else mret NULL);
    anscheduler_unlock (socketsLock task);;
    if decide (desc = NULL) then mret (inr ()) else
    reason ← rd task task_killReason;
    anscheduler_socket_close desc (Z.lor 1 (u64 (Z.shiftl reason 1)));;
    anscheduler_socket_dereference desc;;
    wait_socket_gone task thread i desc;;
    mret (inl ())).

Definition _close_task_sockets_async (task : Z) : prog () :=
  anscheduler_cpu_lock;;
  thread ← anscheduler_cpu_get_thread;
  for_each 0x10 0 (close_bucket task thread);;
  anscheduler_cpu_unlock.

(** The loop of [_free_task_method] over the task's threads. *)
Definition free_threads (task : Z) : prog () :=
  while_ () (λ _,
    first ← rd task task_firstThread;
    if decide (first = NULL) then mret (inr ()) else
    thread ← rd task task_firstThread;
    next ← rd thread thread_next;
    wr task (set_task_firstThread next);;
    anscheduler_thread_deallocate task thread;;
    anscheduler_cpu_lock;;
    stack ← anscheduler_thread_kernel_stack task thread;
    anscheduler_free stack;;
    anscheduler_free thread;;
    anscheduler_cpu_unlock;;
    mret (inl ())).

Definition _free_task_method (task : Z) : prog Empty_set :=
  anscheduler_cpu_lock;;
  anscheduler_pidmap_unset task;;
  anscheduler_cpu_unlock;;
  _close_task_sockets_async task;;
  free_threads task;;
  anscheduler_task_cleanup task;;
  vm ← rd task task_vm;
  anscheduler_vm_root_free_async vm;;
  anscheduler_cpu_lock;;
  anidxset_free (root_stacks task);;
  anidxset_free (root_descriptors task);;
  pid ← rd task task_pid;
  anscheduler_pidmap_free_pid pid;;
  anscheduler_free task;;
  anscheduler_loop_delete_cur_kernel.

(** What a kernel thread set up by [anscheduler_set_state] runs. *)
Definition kernel_code (fn : kernel_fn) (arg : Z) : prog Empty_set :=
  match fn with
  | fn_free_task_method => _free_task_method arg
  | fn_socket_hangup => _socket_hangup arg
  | fn_async_msg => _async_msg arg
  end.

End ops.
