(* ===== verification/TaskCreate.v ===== *)
(** * TaskCreate: creating a task is all or nothing

    [anscheduler_task_create] (TaskLife.v) yields a complete task, or gives back all it
    has taken. *)
From S2P Require Import Prelude Types Machine Demo Idxset RunQueue TaskRef PidMap Thread TaskLife.

Section create.
Context `{Platform, !PlatformOk _} (n c : nat).

(** ** Memories that have grown

    [grown N s s']: the structures at the new addresses [N] are all that is in [s'] and
    not in [s], apart from the counters and the log of the platform. *)
Definition grown (N : gset Z) (s s' : kst) : Prop :=
  s' = set_k_tasks (k_tasks s') (set_k_nodes (k_nodes s') (set_k_vms (k_vms s')
         (set_k_live (k_live s') (set_k_nallocs (k_nallocs s') (set_k_nmaps (k_nmaps s')
           (set_k_log (k_log s') s)))))) ∧
  (NULL ∉ N ∧ N ## k_live s ∧ k_live s' = N ∪ k_live s) ∧
  (∀ p, p ∉ N → k_tasks s' !! p = k_tasks s !! p ∧ k_nodes s' !! p = k_nodes s !! p ∧
                k_vms s' !! p = k_vms s !! p).

(** How many allocations and mappings the platform was asked for. *)
Definition asked (allocs maps : nat) (s s' : kst) : Prop :=
  k_nallocs s' = (allocs + k_nallocs s)%nat ∧ k_nmaps s' = (maps + k_nmaps s)%nat.

Lemma grown_refl s : grown ∅ s s.
Proof. split_and!; try done; [by destruct s|set_solver..]. Qed.

(** More structures, at the addresses of [N'] and those of [N]. *)
Lemma grown_more N N' s s1 s2 :
  grown N s s1 → N ⊆ N' → NULL ∉ N' → N' ## k_live s →
  s2 = set_k_tasks (k_tasks s2) (set_k_nodes (k_nodes s2) (set_k_vms (k_vms s2)
         (set_k_live (N' ∪ k_live s) (set_k_nallocs (k_nallocs s2) (set_k_nmaps (k_nmaps s2)
           (set_k_log (k_log s2) s1)))))) →
  (∀ p, p ∉ N' → k_tasks s2 !! p = k_tasks s1 !! p ∧ k_nodes s2 !! p = k_nodes s1 !! p ∧
                 k_vms s2 !! p = k_vms s1 !! p) →
  grown N' s s2.
Proof.
  intros (Heq & _ & Hf) HN H0 Hd Heq2 Hf2. split; [|split].
  - rewrite Heq2, Heq. done.
  - split_and!; [done..|by rewrite Heq2].
  - intros p Hp. destruct (Hf2 p Hp) as (-> & -> & ->). apply Hf. set_solver.
Qed.

(** Freeing one of the new structures. *)
Lemma grown_free N p s s1 :
  mem_ok s → grown N s s1 → p ∈ N → grown (N ∖ {[p]}) s (free_step p s1).
Proof.
  intros Hm (Heq & (H0 & Hd & Hl) & Hf) Hp.
  assert (p ∉ k_live s) as Hpl by set_solver.
  pose proof (fresh_only_node s p Hm Hpl) as (_ & Ht & Hs & Hde & Hms & Hfa & Hin & _).
  split; [|split].
  - unfold free_step. rewrite Heq. simpl.
    rewrite (delete_id (k_threads s)), (delete_id (k_sockets s)), (delete_id (k_descs s)),
      (delete_id (k_msgs s)), (delete_id (k_faults s)), (delete_id (k_infos s)) by done.
    by destruct s.
  - split_and!; [set_solver..|]. simpl. rewrite Hl. set_solver.
  - intros q Hq. simpl. rewrite !lookup_delete. case_decide as Hqp; [subst q|apply Hf; set_solver].
    destruct Hm. split_and!; symmetry; apply eq_None_not_Some; intros ?; apply Hpl; auto.
Qed.

Lemma grown_mem_ok N s s' : grown N s s' → mem_ok s → mem_ok s'.
Proof.
  intros (Heq & (H0 & _ & Hl) & Hf) []. rewrite Heq. split; simpl; rewrite Hl; [set_solver|..];
    intros p Hp; (destruct (decide (p ∈ N)); [set_solver|]); apply elem_of_union_r;
    try (destruct (Hf p) as (Ht & Hn & Hv); [done|]; rewrite ?Ht, ?Hn, ?Hv in Hp); auto.
Qed.

Lemma grown_bumped s s' : grown ∅ s s' → bumped s s'.
Proof.
  intros (Heq & (_ & _ & Hl) & Hf). unfold bumped.
  rewrite union_empty_l_L in Hl.
  assert (k_tasks s' = k_tasks s ∧ k_nodes s' = k_nodes s ∧ k_vms s' = k_vms s) as (Ht & Hn & Hv)
    by (split_and!; apply map_eq; intros p; by apply Hf).
  rewrite Heq at 1. rewrite Ht, Hn, Hv, Hl. by destruct s.
Qed.

(** A structure that is allocated is at a new address. *)
Lemma grown_fresh N s s' size :
  let p := plat_alloc (k_nallocs s') (k_live s') size in
  grown N s s' → p ≠ NULL → p ∉ N ∧ p ∉ k_live s ∧ {[p]} ∪ N ## k_live s ∧ NULL ∉ {[p]} ∪ N.
Proof.
  intros p (_ & (H0 & Hd & Hl) & _) Hp.
  assert (p ∉ k_live s') as Hpl by (by apply plat_alloc_fresh).
  rewrite Hl in Hpl. split_and!; set_solver.
Qed.

(** What the platform answers to allocations of these sizes, one after the other, from
    [s] on; no more are asked for when one has failed. *)
Fixpoint allocations (sizes : list Z) (k : nat) (L : gset Z) : list Z :=
  match sizes with
  | [] => []
  | size :: sizes =>
      let p := plat_alloc k L size in
      p :: if decide (p = NULL) then [] else allocations sizes (S k) ({[p]} ∪ L)
  end.

(** The structures of a new task: the task itself, the root of its address space and a
    page for each of its index sets. *)
Definition task_structures (s : kst) : list Z :=
  allocations [sizeof_task_t; 0x1000; 0x1000; 0x1000] (k_nallocs s) (k_live s).

(** Do all of the mappings of the low memory into the address space [V] succeed? *)
Definition low_mapped (V : Z) (s : kst) : bool :=
  forallb (λ j, plat_map_ok (j + k_nmaps s) V (Z.of_nat j)) (seq 0 0x400).

Lemma low_mapped_true V s :
  (∀ j, 0 ≤ j < 0x400 → plat_map_ok (Z.to_nat j + k_nmaps s) V j = true) → low_mapped V s = true.
Proof.
  intros Hj. apply forallb_forall. intros j Hin%in_seq.
  rewrite <- (Hj (Z.of_nat j)), Nat2Z.id; [done|lia].
Qed.

Lemma low_mapped_false V s j :
  0 ≤ j < 0x400 → plat_map_ok (Z.to_nat j + k_nmaps s) V j = false → low_mapped V s = false.
Proof.
  intros Hj Hf. apply not_true_iff_false. unfold low_mapped. rewrite forallb_forall. intros Ht.
  specialize (Ht (Z.to_nat j)). rewrite Z2Nat.id, Hf in Ht by lia.
  discriminate Ht. apply in_seq. lia.
Qed.

(** ** The pieces of a task *)

(** A page of indexes, all free, in order; and the set it makes. *)
Definition first_node : anidxset_node_t := mk_node 0x1fe (reverse (seqZ 0 0x1fe)) 0.

Definition has_page (r : root_ptr) (p : Z) (s : kst) : Prop :=
  root_at r s = Some (mk_root ANIDXSET_NODE_CAPACITY p) ∧ k_nodes s !! p = Some first_node ∧
  p ≠ NULL ∧ p ∈ k_live s.

Lemma has_page_ok r p s : has_page r p s → only_node s p → idx_ok r s ix_init.
Proof.
  intros (Hr & Hp & Hp0 & Hl) Ho. exists [(p, seqZ 0 0x1fe)]. split_and!; try done.
  - simpl. split_and!; [done| |constructor|done]. exists first_node. by split_and!.
  - apply NoDup_singleton.
  - by intros q ->%list_elem_of_singleton.
Qed.

Lemma run_free_page r p s :
  (2 ≤ n)%nat → has_page r p s → run n c (anidxset_free r) s = Done () (free_step p s).
Proof.
  intros Hn (Hr & Hp & Hp0 & Hl). unfold anidxset_free. erewrite run_rd_root by done.
  simpl root_first. rewrite run_tail, run_while. destruct n as [|[|m]]; [lia..|].
  rewrite iterate_S, decide_True by done. erewrite run_rd by done.
  unfold anscheduler_idxset_free. rewrite run_free, run_ret by done. done.
Qed.

(** The root of one of a task's two sets. *)
Definition root_of (T : Z) (r : root_ptr) : Prop := r = root_descriptors T ∨ r = root_stacks T.

Lemma root_upd_other T r v s p :
  root_of T r → p ≠ T → k_tasks (root_upd r v s) !! p = k_tasks s !! p.
Proof. intros [-> | ->] Hp; simpl; by rewrite lookup_alter_ne. Qed.

Lemma grown_root N T r v s s' :
  grown N s s' → T ∈ N → root_of T r → grown N s (root_upd r v s').
Proof.
  intros Hg HT Hr. pose proof Hg as (_ & (H0 & Hd & Hl) & _).
  eapply grown_more; [exact Hg|done..| |].
  - rewrite <- Hl. by destruct Hr as [-> | ->], s'.
  - intros p Hp. split; [apply (root_upd_other T); [done|set_solver]|].
    by destruct Hr as [-> | ->].
Qed.

(** Setting up one of the sets of the new task. *)
Lemma init_new N s s' T r o :
  mem_ok s → grown N s s' → T ∈ N → root_of T r → root_at r s' = Some o →
  let p := new_page s' in
  ∃ s2, run n c (anscheduler_idxset_init r) s' = Done (bool_decide (p ≠ NULL)) s2 ∧ asked 1 0 s' s2 ∧
    k_vms s2 = k_vms s' ∧ k_tasks s2 = k_tasks (root_upd r (mk_root ANIDXSET_NODE_CAPACITY p) s') ∧
    if decide (p = NULL) then grown N s s2 ∧ k_nodes s2 = k_nodes s'
    else p ∉ N ∧ p ∉ k_live s ∧ grown ({[p]} ∪ N) s s2 ∧ has_page r p s2 ∧
         (∀ q, q ≠ p → k_nodes s2 !! q = k_nodes s' !! q).
Proof.
  intros Hm Hg HT Hr Ho p. unfold anscheduler_idxset_init.
  destruct (decide (p = NULL)) as [Hn|Hn].
  - rewrite bool_decide_false by auto. eexists. split; [by eapply initialize_fails|].
    rewrite Hn. split_and!; try (by destruct Hr as [-> | ->]).
    eapply grown_root; [|done..]. pose proof Hg as (_ & (H0 & Hd & Hl) & _).
    eapply grown_more; [exact Hg|done..| |done]. simpl. rewrite <- Hl. by destruct s'.
  - rewrite bool_decide_true by done. exists (initialized r s'). split; [by eapply run_initialize|].
    destruct (grown_fresh N s s' 0x1000 Hg Hn) as (HpN & Hpl & Hd & H0).
    split_and!; try done; try (by destruct Hr as [-> | ->]).
    + eapply grown_more; [by eapply (grown_root N T r _ s s')|set_solver|done|done|..].
      * pose proof Hg as (_ & (_ & _ & Hl) & _). unfold initialized. simpl. rewrite Hl, assoc_L by apply _.
        by destruct Hr as [-> | ->], s'.
      * intros q Hq. simpl. rewrite lookup_insert_ne by set_solver. by destruct Hr as [-> | ->].
    + split_and!; [by eapply root_at_initialized| |done|].
      * simpl. by rewrite lookup_insert_eq.
      * simpl. set_solver.
    + intros q Hq. simpl. rewrite lookup_insert_ne by done. by destruct Hr as [-> | ->].
Qed.

(** *** Mapping the low memory *)

Definition low_flags : Z :=
  Z.lor (Z.lor ANSCHEDULER_PAGE_FLAG_PRESENT ANSCHEDULER_PAGE_FLAG_WRITE) ANSCHEDULER_PAGE_FLAG_GLOBAL.

Definition low_table (k : Z) (m : gmap Z (Z * Z)) : Prop :=
  ∀ p, m !! p = if decide (0 ≤ p < k) then Some (p, low_flags) else None.

Lemma map_low_spec s T tk :
  k_tasks s !! T = Some tk → k_vms s !! task_vm tk = Some ∅ →
  ∃ m s', run n c (_map_first_4mb T) s = Done (low_mapped (task_vm tk) s) s' ∧
    table_set (task_vm tk) m s s' ∧ (low_mapped (task_vm tk) s = true → low_table 0x400 m).
Proof.
  intros HT Hvm. unfold _map_first_4mb.
  match goal with |- context [for_ ?cnt ?i ?b] =>
    destruct (run_for n c cnt b (λ j s', ∃ m, low_table j m ∧ table_set (task_vm tk) m s s' ∧
        k_nmaps s' = (Z.to_nat j + k_nmaps s)%nat ∧
        ∀ q, 0 ≤ q < j → plat_map_ok (Z.to_nat q + k_nmaps s) (task_vm tk) q = true)
      (λ v s', v = false ∧ low_mapped (task_vm tk) s = false ∧ ∃ m, table_set (task_vm tk) m s s') i s)
      as (r & s2 & Hrun & Hr) end.
  - exists ∅. split_and!; [|by unfold table_set; rewrite insert_id; destruct s|done|lia].
    intros p. by rewrite decide_False, lookup_empty by lia.
  - intros j s2 Hj (m & Hm & Hs2 & Hn & Hall).
    assert (k_tasks s2 !! T = Some tk) by (by rewrite Hs2). steps.
    rewrite run_vm_map by (rewrite Hs2; simpl; by rewrite lookup_insert_eq).
    destruct (plat_map_ok (k_nmaps s2) (task_vm tk) j) eqn:Hok; simpl negb; cbv iota; rewrite run_ret;
      do 2 eexists; (split; [done|]).
    + exists (<[j := (j, low_flags)]> m). split_and!.
      * intros p. rewrite lookup_insert, Hm. repeat case_decide; try done; try lia. by subst.
      * unfold table_set in *. unfold mapped. rewrite Hs2. unfold vm_upd. simpl.
        rewrite (alter_lookup _ _ _ m) by (by rewrite lookup_insert_eq).
        by rewrite insert_insert_eq.
      * simpl. lia.
      * intros i Hi. destruct (decide (i = j)) as [->|]; [by rewrite <- Hn|apply Hall; lia].
    + split; [done|]. split; [by apply (low_mapped_false _ _ j); [lia|rewrite <- Hn]|].
      exists m. unfold table_set in *. by rewrite Hs2.
  - rewrite (run_call _ _ _ _ _ _ _ Hrun). rewrite run_ret. destruct r as [v|].
    + destruct Hr as (-> & Hf & m & ?). rewrite Hf. by exists m, s2.
    + destruct Hr as (m & ? & ? & _ & Hall). rewrite (low_mapped_true _ _ Hall). by exists m, s2.
Qed.
(** ** Giving up *)

Lemma grown_log N e s s' : grown N s s' → grown N s (log_event e s').
Proof. intros (Heq & ?). split; [rewrite Heq; by destruct s|done]. Qed.

Lemma give_up_vm N s s' T tk :
  mem_ok s → grown N s s' → T ∈ N → task_vm tk ∈ N → T ≠ task_vm tk → N ⊆ {[T; task_vm tk]} →
  k_tasks s' !! T = Some tk →
  ∃ s2, run n c (vm ← rd T task_vm;
                 anscheduler_vm_root_free vm;;
                 anscheduler_free T;;
                 mret NULL) s' = Done NULL s2 ∧ bumped s s2.
Proof.
  intros Hm Hg HT HV Hne HN Htk. pose proof Hg as (_ & (_ & _ & Hl) & _).
  erewrite run_rd by done. unfold anscheduler_vm_root_free. rewrite run_act. simpl.
  rewrite decide_True by set_solver. rewrite run_free by (simpl; set_solver).
  rewrite run_ret. eexists. split; [done|].
  eapply grown_bumped. replace ∅ with ((N ∖ {[task_vm tk]}) ∖ {[T]}) by set_solver.
  apply grown_free; [done| |set_solver]. apply grown_log, grown_free; done.
Qed.

(** One of the sets of the new task, and what freeing it leaves. *)
Lemma give_up_page N p T tk r s s' :
  mem_ok s → grown N s s' → (2 ≤ n)%nat → has_page r p s' → p ∈ N → p ≠ T →
  k_tasks s' !! T = Some tk →
  ∃ s2, (∀ A (k : prog A), run n c (anidxset_free r;; k) s' = run n c k s2) ∧ grown (N ∖ {[p]}) s s2 ∧
    k_tasks s2 !! T = Some tk ∧
    (∀ r2 p2, p2 ≠ p → (∀ t, root_of t r2 → t ≠ p) → has_page r2 p2 s' → has_page r2 p2 s2).
Proof.
  intros Hm Hg Hn Hp HpN HpT Htk.
  exists (free_step p s'). split_and!; [by intros A k; rewrite (run_call _ _ _ _ _ _ _ (run_free_page r p s' Hn Hp))|by apply grown_free| |].
  - simpl. by rewrite lookup_delete_ne.
  - intros r2 p2 Hp2 Ht (Hroot & Hnode & H0 & Hl). split_and!; [|simpl|done|simpl; set_solver].
    + destruct r2; simpl; rewrite ?lookup_delete_ne by (symmetry; apply Ht; unfold root_of; by auto); done.
    + by rewrite lookup_delete_ne.
Qed.

(** *** Taking an identifier *)

Lemma pool_ok_grown N s s' x : mem_ok s → grown N s s' → pool_ok s x → pool_ok s' x.
Proof.
  intros Hm (Heq & (_ & Hd & Hl) & Hf). unfold pool_ok.
  assert (k_pid s' = k_pid s) as Hpid by (by rewrite Heq). rewrite Hpid.
  destruct (ppInitialized (k_pid s)); [|done]. intros Hok.
  assert (∀ p, p ∈ k_live s → p ∉ N) as HN by set_solver.
  eapply idx_ok_frame; [exact Hok|simpl; by rewrite Hpid|..].
  - intros p Hp. by apply Hf, HN.
  - intros p Hp Ho _. split; [set_solver|]. destruct (Hf p (HN p Hp)) as (Ht & _ & Hv).
    unfold only_node in *. rewrite Ht, Hv, Heq. exact Ho.
Qed.

(** The pool's pages are none of the new structures. *)
Lemma pool_page_grown N s s' x q :
  mem_ok s → grown N s s' → pool_ok s x → pool_page s' q → q ∈ k_live s ∧ pool_page s q.
Proof.
  intros Hm Hg Hok (Hi & u & cs & Hr & Hc & Hq). pose proof Hg as (Heq & (_ & Hd & _) & Hf).
  assert (k_pid s' = k_pid s) as Hpid by (by rewrite Heq). rewrite Hpid in Hi.
  unfold pool_ok in Hok. rewrite Hi in Hok. destruct Hok as (cs' & Hr' & _ & Hc' & _ & Hl & _).
  simpl in Hr, Hr'. rewrite Hpid in Hr. rewrite Hr' in Hr. injection Hr as _ Hhd.
  rewrite (chunks_ok_unique (k_nodes s') cs cs') in Hq; [|done| |done].
  - split; [by apply Hl|]. split; [done|]. by exists (ix_used x), cs'.
  - eapply chunks_ok_ext; [|exact Hc']. intros p Hp. apply Hf. destruct (Hl p Hp). set_solver.
Qed.

(** ** Stages of the creation

    [made N T tk m]: so far the task [tk] at [T] and its page table [m], among the new
    structures [N]. *)
Definition made (N : gset Z) (T : Z) (tk : task_t) (m : gmap Z (Z * Z)) (s s' : kst) : Prop :=
  grown N s s' ∧ (T ∈ N ∧ task_vm tk ∈ N ∧ T ≠ task_vm tk) ∧
  k_tasks s' = <[T := tk]> (k_tasks s) ∧ k_vms s' = <[task_vm tk := m]> (k_vms s).

Lemma made_task N T tk m s s' : made N T tk m s s' → k_tasks s' !! T = Some tk.
Proof. intros (_ & _ & -> & _). by rewrite lookup_insert_eq. Qed.

Definition created (vm : Z) (descriptors stacks : anidxset_root_t) (pid : Z) : task_t :=
  set_task_pid pid (set_task_stacks stacks (set_task_descriptors descriptors
    (set_task_vm vm (set_task_refCount 1 zero_task)))).

(** Both structures of the first stage, or nothing. *)
Lemma create_start s (k : Z → prog Z) start :
  mem_ok s →
  start = (task ← anscheduler_alloc sizeof_task_t;
    if decide (task = NULL) then mret NULL else
    zero_as task zero_task;;
    wr task (set_task_refCount 1);;
    vm ← anscheduler_vm_root_alloc;
    wr task (set_task_vm vm);;
    if decide (vm = NULL) then anscheduler_free task;; mret NULL else k task) →
  let T := plat_alloc (k_nallocs s) (k_live s) sizeof_task_t in
  let V := plat_alloc (S (k_nallocs s)) ({[T]} ∪ k_live s) 0x1000 in
  (T = NULL ∨ V = NULL → ∃ s', run n c start s = Done NULL s' ∧ bumped s s') ∧
  (T ≠ NULL → V ≠ NULL → ∃ s', run n c start s = run n c (k T) s' ∧
     made {[T; V]} T (created V zero_root zero_root 0) ∅ s s' ∧ asked 2 0 s s').
Proof.
  intros Hm -> T V. rewrite run_alloc. fold T.
  destruct (decide (T = NULL)) as [HT|HT].
  { split; [|done]. intros _. eexists. split; [done|]. rewrite alloc_step_null by done.
    unfold bumped. simpl. clear. by destruct s. }
  destruct (grown_fresh ∅ s s sizeof_task_t (grown_refl s) HT) as (_ & HTl & Hd & H0).
  rewrite alloc_step_some by done. fold T. rewrite run_zero_as by (simpl; set_solver).
  erewrite run_wr by (simpl; by rewrite lookup_insert_eq). simpl. rewrite insert_insert_eq.
  match goal with |- context [run n c _ ?st] => set (s1 := st) end.
  assert (grown ({[T]} ∪ ∅) s s1) as Hg1.
  { apply (grown_more ∅ _ s s s1 (grown_refl s)); [set_solver|done|done|..]; simpl.
    - unfold s1. rewrite union_empty_r_L. by destruct s.
    - intros p Hp. rewrite lookup_insert_ne by set_solver. done. }
  rewrite union_empty_r_L in Hg1.
  unfold anscheduler_vm_root_alloc. rewrite run_act. cbv zeta beta.
  change (plat_alloc (k_nallocs s1) (k_live s1) 0x1000) with V.
  destruct (decide (V = NULL)) as [HV|HV].
  - split; [intros _|done]. rewrite alloc_step_null by done.
    erewrite run_wr by (simpl; by rewrite lookup_insert_eq). rewrite run_free by (simpl; set_solver).
    rewrite run_ret. eexists. split; [done|].
    apply grown_bumped. replace ∅ with ({[T]} ∖ {[T]} : gset Z) by set_solver.
    apply grown_free; [done| |set_solver].
    eapply grown_more; [exact Hg1|set_solver|set_solver|set_solver|..]; simpl.
    + by destruct s.
    + intros p Hp. by rewrite !lookup_insert_ne by set_solver.
  - split; [by intros []|intros _ _]. destruct (grown_fresh _ s s1 0x1000 Hg1 HV) as (HVT & HVl & Hd2 & H02).
    change (plat_alloc (k_nallocs s1) (k_live s1) 0x1000) with V in HVT, HVl, Hd2, H02.
    rewrite alloc_step_some by done. change (plat_alloc (k_nallocs s1) (k_live s1) 0x1000) with V.
    erewrite run_wr by (simpl; by rewrite lookup_insert_eq).
    eexists. split; [done|]. split; [|done].
    split_and!; simpl; [|set_solver|set_solver|set_solver|by rewrite insert_insert_eq|done].
    eapply grown_more; [exact Hg1|set_solver|set_solver|set_solver|..]; simpl.
    + replace ({[T; V]} ∪ k_live s) with ({[V]} ∪ ({[T]} ∪ k_live s)) by set_solver. by destruct s.
    + intros p Hp. by rewrite !lookup_insert_ne by set_solver.
Qed.

(** Setting up one of the two sets of indexes. *)
Definition put_root (r : root_ptr) (v : anidxset_root_t) (tk : task_t) : task_t :=
  match r with
  | root_stacks _ => set_task_stacks v tk
  | root_descriptors _ => set_task_descriptors v tk
  | root_pidPool => tk
  end.

Lemma root_upd_insert T r v s s' tk :
  root_of T r → k_tasks s' = <[T := tk]> (k_tasks s) →
  k_tasks (root_upd r v s') = <[T := put_root r v tk]> (k_tasks s).
Proof.
  intros Hr Ht. destruct Hr as [-> | ->]; simpl; rewrite Ht;
    rewrite (alter_lookup _ _ _ tk) by (by rewrite lookup_insert_eq); by rewrite insert_insert_eq.
Qed.

Lemma made_init N T tk m r s s' :
  mem_ok s → made N T tk m s s' → root_of T r →
  let p := new_page s' in let tk2 := put_root r (mk_root ANIDXSET_NODE_CAPACITY p) tk in
  ∃ s2, run n c (anscheduler_idxset_init r) s' = Done (bool_decide (p ≠ NULL)) s2 ∧ asked 1 0 s' s2 ∧
    if decide (p = NULL) then made N T tk2 m s s2 ∧ k_nodes s2 = k_nodes s'
    else p ∉ N ∧ made ({[p]} ∪ N) T tk2 m s s2 ∧ has_page r p s2 ∧
         (∀ q, q ≠ p → k_nodes s2 !! q = k_nodes s' !! q).
Proof.
  intros Hm Hmade Hr p tk2. pose proof (made_task _ _ _ _ _ _ Hmade) as HT.
  pose proof Hmade as (Hg & (HTN & HV & Hne) & Ht & Hv).
  assert (∃ o, root_at r s' = Some o) as [o Ho]
    by (destruct Hr as [-> | ->]; simpl; rewrite HT; by eexists).
  destruct (init_new N s s' T r o) as (s2 & Hrun & Hask & Hv2 & Ht2 & Hb); [done..|].
  exists s2. split; [done|]. split; [done|]. fold p in Hb, Ht2.
  assert (task_vm tk2 = task_vm tk) as Hvm by (unfold tk2; by destruct Hr as [-> | ->]).
  case_decide as Hp0.
  - destruct Hb as (Hg2 & Hn).
    split; [|done]. unfold made. rewrite Hvm, Ht2, Hv2.
    split_and!; [done..|by eapply root_upd_insert|done].
  - destruct Hb as (HpN & _ & Hg2 & Hp & Hn).
    split; [done|]. split; [|done]. unfold made. rewrite Hvm, Ht2, Hv2.
    split_and!; [done|set_solver|set_solver|done|by eapply root_upd_insert|done].
Qed.

(** A set of the new task at a later stage. *)
Lemma has_page_made N T tk m r p s s2 s' :
  made N T tk m s s' → root_of T r → has_page r p s2 → p ∈ N → k_nodes s' !! p = k_nodes s2 !! p →
  match r with root_stacks _ => task_stacks tk | _ => task_descriptors tk end
  = mk_root ANIDXSET_NODE_CAPACITY p →
  has_page r p s'.
Proof.
  intros Hmade Hr (_ & Hn & H0 & _) Hp Heq Hroot. pose proof (made_task _ _ _ _ _ _ Hmade) as HT.
  pose proof Hmade as ((_ & (_ & _ & Hl) & _) & _). split_and!; [|by rewrite Heq|done|set_solver].
  destruct Hr as [-> | ->]; simpl in *; by rewrite HT; simpl; rewrite Hroot.
Qed.

(** Mapping the low memory. *)
Lemma made_map N T tk s s' :
  made N T tk ∅ s s' →
  ∃ m s2, run n c (_map_first_4mb T) s' = Done (low_mapped (task_vm tk) s') s2 ∧ made N T tk m s s2 ∧
    k_nodes s2 = k_nodes s' ∧ k_nallocs s2 = k_nallocs s' ∧
    (low_mapped (task_vm tk) s' = true → low_table 0x400 m).
Proof.
  intros Hmade. pose proof (made_task _ _ _ _ _ _ Hmade) as HT.
  pose proof Hmade as (Hg & (HTN & HV & Hne) & Ht & Hv).
  destruct (map_low_spec s' T tk HT) as (m & s2 & Hrun & Hs2 & Hb);
    [rewrite Hv; by rewrite lookup_insert_eq|].
  exists m, s2. split; [done|]. unfold table_set in Hs2. split; [|split_and!; [by rewrite Hs2..|done]].
  - split_and!; try done; [|by rewrite Hs2|rewrite Hs2; simpl; by rewrite Hv, insert_insert_eq].
    pose proof Hg as (_ & (H0 & Hd & Hl) & _). eapply grown_more; [exact Hg|done..| |].
    + rewrite <- Hl, Hs2. by destruct s'.
    + intros p Hp. rewrite Hs2. simpl. rewrite lookup_insert_ne by set_solver. done.
Qed.

(** *** The complete task *)

(** What a creation keeps of the memory before it: all but the pool of identifiers, with
    its pages. *)
Definition kept (s s' : kst) : Prop :=
  s' = set_k_tasks (k_tasks s') (set_k_nodes (k_nodes s') (set_k_vms (k_vms s')
         (set_k_live (k_live s') (set_k_nallocs (k_nallocs s') (set_k_nmaps (k_nmaps s')
           (set_k_log (k_log s') (set_k_pid (k_pid s') s))))))) ∧
  ∀ q, q ∈ k_live s → k_tasks s' !! q = k_tasks s !! q ∧ k_vms s' !! q = k_vms s !! q ∧
    (pool_page s q ∨ (q ∈ k_live s' ∧ k_nodes s' !! q = k_nodes s !! q)).

Definition complete (x : idxset) (s : kst) (T V D S : Z) (s' : kst) : Prop :=
  ∃ m, NoDup [NULL; T; V; D; S] ∧ (∀ p, p ∈ [T; V; D; S] → p ∉ k_live s ∧ p ∈ k_live s') ∧
    k_tasks s' !! T = Some (created V (mk_root ANIDXSET_NODE_CAPACITY D)
                                      (mk_root ANIDXSET_NODE_CAPACITY S) (ix_get x).1) ∧
    idx_ok (root_descriptors T) s' ix_init ∧ idx_ok (root_stacks T) s' ix_init ∧
    k_vms s' !! V = Some m ∧ low_table 0x400 m ∧
    pool_ok s' (ix_get x).2 ∧ mem_ok s' ∧ kept s s'.

Lemma set_task_mem_ok T tk s : T ∈ k_live s → mem_ok s → mem_ok (set_task T tk s).
Proof.
  intros HT []. split; simpl; try done. intros p [<-|[_ ?]]%lookup_insert_is_Some; auto.
Qed.

Lemma pool_ok_task T tk tk' s x :
  k_tasks s !! T = Some tk → pool_ok s x → pool_ok (set_task T tk' s) x.
Proof.
  intros HT. unfold pool_ok. simpl. destruct (ppInitialized _); [|done]. intros Hok.
  eapply idx_ok_frame; [exact Hok|done..|]. intros p Hp (Ht & Ho) _. split; [done|].
  split; [|exact Ho]. simpl. rewrite lookup_insert_ne; [done|]. intros ->. congruence.
Qed.

(** The last step, when all four structures [T], its page table, [D] and [S] are there. *)
Lemma pid_kept N T tk m s s4 s5 tk' x :
  mem_ok s → made N T tk m s s4 → pool_ok s x → pool_step s4 s5 → kept s (set_task T tk' s5).
Proof.
  intros Hm Hmade Hx (Heq5 & _ & Hf5). pose proof Hmade as (Hg & (HT & HV & _) & Ht & Hv).
  pose proof Hg as (Heq & (_ & Hd & Hl) & Hf).
  assert (k_tasks s5 = k_tasks s4 ∧ k_vms s5 = k_vms s4) as [Ht5 Hv5] by (by rewrite Heq5).
  split; [unfold set_task; simpl; rewrite Heq5, Heq; by destruct s|]. intros q Hq. simpl.
  assert (q ∉ N) as HqN by set_solver. rewrite Ht5, Hv5, lookup_insert_ne by (by intros ->).
  destruct (Hf q HqN) as (-> & Hn & ->). split_and!; [done..|].
  destruct (Hf5 q) as [Hp|[? ->]]; [set_solver| |by right].
  left. by eapply (pool_page_grown N s s4 x q).
Qed.

Lemma new_survives N T tk m s s4 s5 x p :
  mem_ok s → made N T tk m s s4 → pool_ok s x → pool_step s4 s5 → p ∈ N →
  p ∉ k_live s ∧ p ∈ k_live s5 ∧ k_nodes s5 !! p = k_nodes s4 !! p.
Proof.
  intros Hm (Hg & _) Hx (_ & _ & Hf5) Hp. pose proof Hg as (_ & (_ & Hd & Hl) & _).
  split; [set_solver|]. destruct (Hf5 p) as [Hpp|?]; [set_solver| |done].
  apply (pool_page_grown N s s4 x) in Hpp as [Hpl _]; [set_solver|done..].
Qed.

(** A set of the new task after its identifier is set. *)
Lemma page_complete N T tk m s s4 s5 tk' x r p :
  mem_ok s → made N T tk m s s4 → pool_ok s x → pool_step s4 s5 → root_of T r →
  has_page r p s4 → p ∈ N → p ≠ T → p ≠ task_vm tk →
  task_descriptors tk' = task_descriptors tk → task_stacks tk' = task_stacks tk →
  idx_ok r (set_task T tk' s5) ix_init.
Proof.
  intros Hm Hmade Hx Hst Hr Hp HpN HpT HpV Hde Hsk.
  destruct (new_survives N T tk m s s4 s5 x p) as (Hps & Hp5 & Hn5); [done..|].
  pose proof Hmade as (Hg & _ & Ht & Hv). destruct Hg as (Heq & _).
  pose proof Hst as (Heq5 & _).
  assert (k_tasks s5 = k_tasks s4 ∧ k_vms s5 = k_vms s4) as [Ht5 Hv5] by (by rewrite Heq5).
  pose proof (made_task _ _ _ _ _ _ Hmade) as HT.
  apply has_page_ok with p.
  - destruct Hp as (Hroot & Hnode & H0 & Hl). split_and!; [|by simpl; rewrite Hn5|done|done].
    destruct Hr as [-> | ->]; simpl in *; rewrite lookup_insert_eq; rewrite HT in Hroot; simpl in *; congruence.
  - destruct (fresh_only_node s p Hm Hps) as (Hft & ? & ? & ? & ? & ? & ? & Hfv).
    unfold only_node. simpl. rewrite Ht5, Ht, Hv5, Hv, !lookup_insert_ne by done.
    rewrite Heq5, Heq. by split_and!.
Qed.

Lemma four_in (T V D S p : Z) : p ∈ [T; V; D; S] → p ∈ ({[T; V; D; S]} : gset Z).
Proof. set_solver. Qed.

Lemma four_distinct (T V D S : Z) :
  NoDup [T; V; D; S] →
  let N : gset Z := {[T; V; D; S]} in
  T ∈ N ∧ D ∈ N ∧ S ∈ N ∧ D ≠ T ∧ D ≠ V ∧ S ≠ T ∧ S ≠ V.
Proof. rewrite !NoDup_cons. intros (HT & HV & _) N. unfold N. set_solver. Qed.

Lemma create_last T V D S x m s s4 :
  let tk := created V (mk_root ANIDXSET_NODE_CAPACITY D) (mk_root ANIDXSET_NODE_CAPACITY S) 0 in
  let last := (pid ← anscheduler_pidmap_alloc_pid;
               wr T (set_task_pid pid);;
               mret T) in
  mem_ok s → made {[T; V; D; S]} T tk m s s4 → NoDup [T; V; D; S] → low_table 0x400 m →
  has_page (root_descriptors T) D s4 → has_page (root_stacks T) S s4 →
  pool_ok s x → ix_ok x → ix_used x + 0x1fe < 2 ^ 64 → ppLock ∉ k_locks s →
  if decide (ppInitialized (k_pid s) = false ∧ new_page s4 = NULL)
  then ∃ s', run n c last s4 = Stop (s_leave (leave_abort "failed to initialize PID pool")) s'
  else ∃ s', run n c last s4 = Done T s' ∧ complete x s T V D S s'.
Proof.
  intros tk last Hm Hmade Hnd Hlow HD HS Hx Hxok Hb Hlk.
  destruct (four_distinct T V D S Hnd) as (HTN & HDN & HSN & HDT & HDV & HST & HSV).
  pose proof (four_in T V D S) as Hin. pose proof Hmade as (Hg & _ & _ & Hv).
  pose proof Hg as (Heq & (H0 & _) & _).
  assert (k_pid s4 = k_pid s ∧ k_locks s4 = k_locks s) as [Hpid Hlk4] by (by rewrite Heq).
  assert (mem_ok s4) as Hm4 by (by eapply grown_mem_ok). rewrite <- Hpid.
  destruct (decide _) as [[Hi Hn]|Hn].
  { destruct (alloc_pid_aborts n c s4) as [s' Hrun]; [done|done|by rewrite Hlk4|].
    exists s'. unfold last. by rewrite run_bind, Hrun. }
  destruct (alloc_pid_spec n c s4 x) as (s5 & Hrun & Hx5 & Hst);
    [done|by apply (pool_ok_grown _ s s4 x Hm Hg)|done|done|by rewrite Hlk4|done|].
  pose proof Hst as (Heq5 & Hm5 & _).
  assert (k_tasks s5 = k_tasks s4 ∧ k_vms s5 = k_vms s4) as [Ht5 Hv5] by (by rewrite Heq5).
  unfold last. rewrite (run_call _ _ _ _ _ _ _ Hrun).
  erewrite run_wr by (simpl; rewrite Ht5; by eapply made_task). rewrite run_ret.
  exists (set_task T (set_task_pid (ix_get x).1 tk) s5). split; [done|]. exists m.
  destruct (new_survives {[T; V; D; S]} T tk m s s4 s5 x T) as (_ & HT5 & _); [done..|].
  split_and!.
  - apply NoDup_cons. split; [by intros ?%Hin|done].
  - intros p Hp%Hin. by destruct (new_survives {[T; V; D; S]} T tk m s s4 s5 x p) as (? & ? & _).
  - simpl. by rewrite lookup_insert_eq.
  - by apply (page_complete {[T; V; D; S]} T tk m s s4 s5 _ x _ D); try done; left.
  - by apply (page_complete {[T; V; D; S]} T tk m s s4 s5 _ x _ S); try done; right.
  - simpl. by rewrite Hv5, Hv, lookup_insert_eq.
  - done.
  - apply (pool_ok_task T tk); [by rewrite Ht5; eapply made_task|done].
  - by apply set_task_mem_ok, Hm5.
  - by eapply pid_kept.
Qed.

(** *** Failures on the way *)

Lemma fail_first s s' N T tk m :
  mem_ok s → made N T tk m s s' → N ⊆ {[T; task_vm tk]} →
  ∃ s2, run n c (vm ← rd T task_vm;
                 anscheduler_vm_root_free vm;;
                 anscheduler_free T;;
                 mret NULL) s' = Done NULL s2 ∧ bumped s s2.
Proof.
  intros Hm Hmade HN. pose proof (made_task _ _ _ _ _ _ Hmade) as HT.
  destruct Hmade as (Hg & (? & ? & ?) & _). by eapply give_up_vm.
Qed.

Lemma fail_second s s' N T tk m D :
  mem_ok s → made N T tk m s s' → (2 ≤ n)%nat → has_page (root_descriptors T) D s' →
  D ∈ N → D ≠ T → D ≠ task_vm tk → N ⊆ {[D; T; task_vm tk]} →
  ∃ s2, run n c (anidxset_free (root_descriptors T);;
                 vm ← rd T task_vm;
                 anscheduler_vm_root_free vm;;
                 anscheduler_free T;;
                 mret NULL) s' = Done NULL s2 ∧ bumped s s2.
Proof.
  intros Hm Hmade Hn HD HDN HDT HDV HN. pose proof (made_task _ _ _ _ _ _ Hmade) as HT.
  destruct Hmade as (Hg & (HTN & HVN & HTV) & _).
  destruct (give_up_page N D T tk (root_descriptors T) s s') as (s2 & Hrun2 & Hg2 & HT2 & _);
    [done..|]. rewrite Hrun2.
  eapply give_up_vm; try done; clear -HTN HVN HDT HDV HN; set_solver.
Qed.

Lemma fail_third s s' N T tk m D S :
  mem_ok s → made N T tk m s s' → (2 ≤ n)%nat →
  has_page (root_descriptors T) D s' → has_page (root_stacks T) S s' →
  D ∈ N → D ≠ T → D ≠ task_vm tk → S ∈ N → S ≠ T → S ≠ task_vm tk → D ≠ S →
  N ⊆ {[S; D; T; task_vm tk]} →
  ∃ s2, run n c (anidxset_free (root_descriptors T);;
                 anidxset_free (root_stacks T);;
                 vm ← rd T task_vm;
                 anscheduler_vm_root_free vm;;
                 anscheduler_free T;;
                 mret NULL) s' = Done NULL s2 ∧ bumped s s2.
Proof.
  intros Hm Hmade Hn HD HS HDN HDT HDV HSN HST HSV HDS HN.
  pose proof (made_task _ _ _ _ _ _ Hmade) as HT. destruct Hmade as (Hg & (HTN & HVN & HTV) & _).
  destruct (give_up_page N D T tk (root_descriptors T) s s') as (s2 & Hrun2 & Hg2 & HT2 & Hp2);
    [done..|].
  assert (has_page (root_stacks T) S s2) as HS2.
  { apply Hp2; [done| |done]. intros t [?|[= ->]]; [done|by intros ->]. }
  destruct (give_up_page (N ∖ {[D]}) S T tk (root_stacks T) s s2) as (s3 & Hrun3 & Hg3 & HT3 & _);
    [done|done|done|done|set_solver|done..|]. rewrite Hrun2, Hrun3.
  eapply give_up_vm; try done; clear -HTN HVN HDT HDV HST HSV HN; set_solver.
Qed.

(** *** The whole *)

Lemma new_page_at N a s s' :
  grown N s s' → k_nallocs s' = (a + k_nallocs s)%nat →
  new_page s' = plat_alloc (a + k_nallocs s) (N ∪ k_live s) 0x1000.
Proof. intros (_ & (_ & _ & Hl) & _) Ha. unfold new_page. by rewrite Ha, Hl. Qed.

Lemma asked_trans a b a' b' s s1 s2 : asked a b s s1 → asked a' b' s1 s2 → asked (a' + a) (b' + b) s s2.
Proof. unfold asked. lia. Qed.

Section whole.
Context (s : kst).

Let T := plat_alloc (k_nallocs s) (k_live s) sizeof_task_t.
Let V := plat_alloc (1 + k_nallocs s) ({[T]} ∪ k_live s) 0x1000.
Let D := plat_alloc (2 + k_nallocs s) ({[T; V]} ∪ k_live s) 0x1000.
Let S := plat_alloc (3 + k_nallocs s) (({[D]} ∪ {[T; V]}) ∪ k_live s) 0x1000.

Lemma task_structures_cases :
  if decide (NULL ∈ task_structures s)
  then T = NULL ∨ V = NULL ∨ T ≠ NULL ∧ V ≠ NULL ∧ (D = NULL ∨ D ≠ NULL ∧ S = NULL)
  else (T ≠ NULL ∧ V ≠ NULL ∧ D ≠ NULL ∧ S ≠ NULL) ∧ task_structures s = [T; V; D; S].
Proof using PlatformOk0.
  unfold task_structures. cbn [allocations]. fold T.
  change (plat_alloc (Datatypes.S (k_nallocs s)) ({[T]} ∪ k_live s) 0x1000) with V.
  assert ({[V]} ∪ ({[T]} ∪ k_live s) = {[T; V]} ∪ k_live s) as -> by set_solver.
  change (plat_alloc (Datatypes.S (Datatypes.S (k_nallocs s))) ({[T; V]} ∪ k_live s) 0x1000) with D.
  assert ({[D]} ∪ ({[T; V]} ∪ k_live s) = ({[D]} ∪ {[T; V]}) ∪ k_live s) as -> by set_solver.
  change (plat_alloc (Datatypes.S (Datatypes.S (Datatypes.S (k_nallocs s))))
    (({[D]} ∪ {[T; V]}) ∪ k_live s) 0x1000) with S.
  clearbody S D V T.
  destruct (decide (T = NULL)) as [->|HT]; [rewrite decide_True by (by left); auto|].
  destruct (decide (V = NULL)) as [->|HV]; [rewrite decide_True by (right; by left); auto|].
  destruct (decide (D = NULL)) as [->|HD]; [rewrite decide_True by (do 2 right; by left); auto 6|].
  destruct (decide (S = NULL)) as [->|HS]; [rewrite decide_True by (do 3 right; by left); auto 7|].
  rewrite decide_False; [done|]. by intros [?|[?|[?|[?|[]%not_elem_of_nil]%elem_of_cons]%elem_of_cons]%elem_of_cons]%elem_of_cons.
Qed.

Let gives_up : Prop := ∃ s', run n c anscheduler_task_create s = Done NULL s' ∧ bumped s s'.

(** What is left to do when the four structures are there. *)
Definition create_rest (task : Z) : prog Z :=
  ok ← _map_first_4mb task;
  if negb ok then
    anidxset_free (root_descriptors task);;
    anidxset_free (root_stacks task);;
    vm ← rd task task_vm;
    anscheduler_vm_root_free vm;;
    anscheduler_free task;;
    mret NULL
  else
  pid ← anscheduler_pidmap_alloc_pid;
  wr task (set_task_pid pid);;
  mret task.

Let tk : task_t := created V (mk_root ANIDXSET_NODE_CAPACITY D) (mk_root ANIDXSET_NODE_CAPACITY S) 0.

Lemma create_structures :
  mem_ok s → (2 ≤ n)%nat →
  if decide (NULL ∈ task_structures s) then gives_up
  else ∃ s3, run n c anscheduler_task_create s = run n c (create_rest T) s3 ∧ NoDup [T; V; D; S] ∧
    made {[T; V; D; S]} T tk ∅ s s3 ∧ has_page (root_descriptors T) D s3 ∧ has_page (root_stacks T) S s3 ∧
    asked 4 0 s s3.
Proof.
  intros Hm Hn. unfold gives_up. pose proof task_structures_cases as Hcases.
  destruct (create_start s _ anscheduler_task_create Hm eq_refl) as [Hno Hyes]. fold T in Hno, Hyes.
  change (plat_alloc (Datatypes.S (k_nallocs s)) ({[T]} ∪ k_live s) 0x1000) with V in Hno, Hyes.
  destruct (decide (T = NULL ∨ V = NULL)) as [HTV0|[HT HV]%Decidable.not_or].
  { rewrite decide_True; [by apply Hno|]. case_decide; [done|]. tauto. }
  destruct (Hyes HT HV) as (s1 & Hrun1 & Hm1 & Ha1). rewrite Hrun1. clear Hno Hyes.
  pose proof Hm1 as (Hg1 & (_ & _ & HTV) & _). change (T ≠ V) in HTV.
  destruct (made_init _ T _ _ (root_descriptors T) s s1 Hm Hm1) as (s2 & Hrun2 & Ha2 & H2); [by left|].
  rewrite (run_call _ _ _ _ _ _ _ Hrun2). rewrite (new_page_at _ _ _ _ Hg1 (proj1 Ha1)) in *.
  fold D in H2 |- *. pose proof (asked_trans _ _ _ _ _ _ _ Ha1 Ha2 : asked 3 0 s s2) as Ha2'.
  destruct (decide (D = NULL)) as [HD|HD].
  { rewrite (bool_decide_false (D ≠ NULL)) by auto. simpl negb. cbv iota.
    rewrite decide_True; [|case_decide; [done|tauto]].
    destruct H2 as (Hm2 & _). by eapply fail_first. }
  rewrite (bool_decide_true (D ≠ NULL)) by done. simpl negb. cbv iota.
  destruct H2 as (HDN & Hm2 & HD2 & _). pose proof Hm2 as (Hg2 & _).
  destruct (made_init _ T _ _ (root_stacks T) s s2 Hm Hm2) as (s3 & Hrun3 & Ha3 & H3); [by right|].
  rewrite (run_call _ _ _ _ _ _ _ Hrun3). rewrite (new_page_at _ _ _ _ Hg2 (proj1 Ha2')) in *.
  fold S in H3 |- *. pose proof (asked_trans _ _ _ _ _ _ _ Ha2' Ha3 : asked 4 0 s s3) as Ha3'.
  destruct (decide (S = NULL)) as [HS|HS].
  { rewrite (bool_decide_false (S ≠ NULL)) by auto. simpl negb. cbv iota.
    rewrite decide_True; [|case_decide; [done|tauto]].
    destruct H3 as (Hm3 & Hn3). eapply (fail_second _ _ _ _ _ _ D); try done.
    - eapply has_page_made; [exact Hm3|by left|exact HD2|set_solver|by rewrite Hn3|done].
    - set_solver.
    - set_solver.
    - change (D ≠ V). set_solver.
    - change (({[D]} ∪ {[T; V]} : gset Z) ⊆ {[D; T; V]}). clear. set_solver. }
  rewrite (bool_decide_true (S ≠ NULL)) by done. simpl negb. cbv iota.
  destruct H3 as (HSN & Hm3 & HS3 & Hn3). case_decide; [tauto|]. exists s3.
  assert (D ≠ S) as HDS by (clear -HSN; set_solver).
  assert (NoDup [T; V; D; S]) as Hnd by (rewrite !NoDup_cons; split_and!; [set_solver..|apply NoDup_nil_2]).
  replace ({[S]} ∪ ({[D]} ∪ {[T; V]})) with ({[T; V; D; S]} : gset Z) in Hm3 by set_solver.
  split; [done|]. split; [done|]. split; [done|]. split; [|done].
  destruct (four_distinct T V D S Hnd) as (_ & HDIN & _).
  eapply has_page_made; [exact Hm3|by left|exact HD2|done|by rewrite Hn3|done].
Qed.
(** C17. Creating a task is all or nothing, and which of the two is up to the platform
    alone. The task, the root of its address space and the first page of each of its two
    index sets are allocated, in this order; then the first 4 MB are mapped. When one of
    these allocations or mappings fails, the result is NULL and every allocation made on
    the way has been given back. Otherwise the kernel has a complete task at these
    addresses, with one reference, an address space with the first 4 MB mapped one to
    one, two index sets with all indexes free, and a process identifier that was free;
    and nothing that was in memory before has changed but the pool of identifiers. The
    one exception is the first task ever, whose creation sets up the pool: when the page
    for that cannot be allocated, the kernel aborts. *)
Theorem task_create_is_atomic x :
  mem_ok s → pool_ok s x → ix_ok x → ix_used x + 0x1fe < 2 ^ 64 → ppLock ∉ k_locks s →
  (2 ≤ n)%nat →
  if decide (NULL ∈ task_structures s) then gives_up
  else ∃ T V D S, task_structures s = [T; V; D; S] ∧
    if negb (low_mapped V s) then gives_up
    else if decide (ppInitialized (k_pid s) = false ∧
                    plat_alloc (4 + k_nallocs s) ({[T; V; D; S]} ∪ k_live s) 0x1000 = NULL)
    then ∃ s', run n c anscheduler_task_create s
               = Stop (s_leave (leave_abort "failed to initialize PID pool")) s'
    else ∃ s', run n c anscheduler_task_create s = Done T s' ∧ complete x s T V D S s'.
Proof.
  intros Hm Hx Hxok Hb Hlk Hn. pose proof task_structures_cases as Hcases.
  pose proof (create_structures Hm Hn) as Hst. case_decide; [done|]. destruct Hcases as [_ Hlist].
  unfold gives_up. destruct Hst as (s3 & -> & Hnd & Hm3 & HD3 & HS3 & Ha3). exists T, V, D, S. split; [done|].
  destruct (made_map _ T _ s s3 Hm3) as (m & s4 & Hrun4 & Hm4 & Hn4 & Ha4 & H4).
  change (task_vm _) with V in Hrun4, H4.
  assert (low_mapped V s3 = low_mapped V s) as Hlow by (unfold low_mapped; by rewrite (proj2 Ha3)).
  rewrite Hlow in Hrun4, H4. unfold create_rest. rewrite (run_call _ _ _ _ _ _ _ Hrun4).
  destruct (four_distinct T V D S Hnd) as (HTN & HDIN & HSIN & HDT & HDV & HST & HSV).
  assert (has_page (root_descriptors T) D s4) as HD4 by
    (eapply has_page_made; [exact Hm4|by left|exact HD3|done|by rewrite Hn4|done]).
  assert (has_page (root_stacks T) S s4) as HS4 by
    (eapply has_page_made; [exact Hm4|by right|exact HS3|done|by rewrite Hn4|done]).
  destruct (low_mapped V s); simpl negb; cbv iota.
  - pose proof (create_last T V D S x m s s4 Hm Hm4 Hnd (H4 eq_refl) HD4 HS4 Hx Hxok Hb Hlk) as Hlast.
    assert (new_page s4 = plat_alloc (4 + k_nallocs s) ({[T; V; D; S]} ∪ k_live s) 0x1000) as <-; [|done].
    apply new_page_at; [apply Hm4|]. rewrite Ha4. apply Ha3.
  - assert (D ≠ S) as HDS.
    { rewrite !NoDup_cons in Hnd. destruct Hnd as (_ & _ & HDn & _). intros HDS. apply HDn. rewrite HDS. by left. }
    eapply (fail_third _ _ _ _ _ _ D S); try done. clear. set_solver.
Qed.
End whole.

End create.

(** ** Witnesses *)

(** The address a creation yields, and what is live afterwards. *)
Definition address_and_live (r : outcome Z) : option (Z * list Z) :=
  match r with Done T s => Some (T, elements (k_live s)) | Stop _ _ => None end.

Definition creation (P : Platform) : option (Z * list Z) :=
  address_and_live (run 2 0 (anscheduler_task_create (H := P)) (demo 0 2)).

(** Nothing fails: five new pages, one of them for the pool of identifiers. When the
    fourth allocation, or the eleventh mapping, fails, no new page is left. *)
Example creation_succeeds :
  (λ o, (o.1, length o.2)) <$> creation P0 = Some (0x32000, 12%nat).
Proof. vm_compute. reflexivity. Qed.

Example creation_fails :
  creation (demo_platform (λ k, negb (k =? 3)%nat) (λ _, true)) =
    Some (NULL, elements (k_live (demo 0 2))) ∧
  creation (demo_platform (λ _, true) (λ k, negb (k =? 10)%nat)) =
    Some (NULL, elements (k_live (demo 0 2))).
Proof. split; vm_compute; reflexivity. Qed.

Lemma task_create_is_atomic_witness :
  task_structures (H := P0) (demo 0 2) = [0x32000; 0x33000; 0x34000; 0x35000] ∧
  ∃ s', run 2 0 (anscheduler_task_create (H := P0)) (demo 0 2) = Done 0x32000 s' ∧
        complete ix_init (demo 0 2) 0x32000 0x33000 0x34000 0x35000 s'.
Proof.
  assert (task_structures (H := P0) (demo 0 2) = [0x32000; 0x33000; 0x34000; 0x35000]) as Hl
    by (vm_compute; reflexivity).
  split; [exact Hl|].
  pose proof (task_create_is_atomic (H := P0) 2 0 (demo 0 2) ix_init) as Hc.
  rewrite decide_False in Hc by (rewrite Hl; by_dec).
  destruct Hc as (T & V & D & S & Hts & Hc); [apply demo_mem_ok|reflexivity|apply ix_init_ok|reflexivity|by_dec|lia|].
  rewrite Hl in Hts. injection Hts as <- <- <- <-.
  assert (low_mapped (H := P0) 0x33000 (demo 0 2) = true) as Hlow by (vm_compute; reflexivity).
  rewrite Hlow in Hc. simpl negb in Hc. cbv iota in Hc. rewrite decide_False in Hc; [exact Hc|].
  intros [_ Hp]. revert Hp. by_dec.
Defined.
