(* ===== verification/TaskStart.v ===== *)
(** * TaskStart: launching tasks

    [anscheduler_task_launch] (TaskLife.v) makes a task reachable by its identifier and
    queues its threads. *)
From S2P Require Import Prelude Types Machine Demo Idxset RunQueue PagerQueue TaskRef Loop PidMap Thread TaskLife.

(** ** Launching *)
Section launch.
Context `{Platform} (n c : nat).

Lemma pushable_step s s' th th' :
  queue_step s s' → thread_body th' = thread_body th → pushable s th → pushable s' th'.
Proof.
  intros [Heq _] Hb Hp.
  assert (thread_task th' = thread_task th) as Ht by (by apply (f_equal thread_task) in Hb).
  unfold pushable. rewrite Ht, Heq. exact Hp.
Qed.

(** The loop queues the threads of a list in order. *)
Lemma push_threads_spec tl : ∀ m s q,
  (length tl < m)%nat → queue_ok s q → sll (fld (k_threads s) thread_next) tl →
  (∀ t, t ∈ tl → t ∉ q ∧ ∃ th, k_threads s !! t = Some th ∧ pushable s th) →
  loopLock ∉ k_locks s →
  ∃ s', iterate m (λ thread s, run n c (if decide (thread ≠ NULL) then
      anscheduler_loop_push thread;;
      next ← rd thread thread_next;
      mret (inl next)
    else mret (inr ())) s) (λ b s, run n c (mret b) s) (hd0 NULL tl) s = Done () s' ∧
    queue_ok s' (q ++ tl) ∧ queue_step s s'.
Proof.
  induction tl as [|t tl IH]; intros m s q Hm Hok Hs Hin Hlk; (destruct m as [|m]; [simpl in Hm; lia|]).
  - exists s. rewrite iterate_S, decide_False by (by intros []). rewrite app_nil_r. by split.
  - destruct (sll_tail _ _ _ Hs) as (Hs' & Htt & Ht0 & Hnx).
    destruct (Hin t) as (Htq & th & Hth & Hp); [set_solver|].
    destruct (loop_push_spec n c s q t th) as (s1 & Hrun & Hok1 & Hst & _); [done..|].
    pose proof Hst as [Heq Hag].
    destruct (threads_agree_lookup _ _ _ _ Hag Hth) as (th1 & Hth1 & Hb1).
    destruct (IH m s1 (q ++ [t])) as (s2 & Hrun2 & Hok2 & Hst2).
    + simpl in Hm. lia.
    + done.
    + eapply sll_ext; [|exact Hs']. intros p _. symmetry. by apply threads_agree_fld.
    + intros p Hpt. destruct (Hin p) as (Hpq & thp & Hthp & Hpp); [set_solver|]. split; [set_solver|].
      destruct (threads_agree_lookup _ _ _ _ Hag Hthp) as (thp1 & Hthp1 & Hbp).
      exists thp1. split; [done|]. by eapply (pushable_step s s1).
    + by rewrite Heq.
    + exists s2. split_and!; [| |by etrans].
      * rewrite iterate_S. simpl hd0. rewrite decide_True by done.
        rewrite (run_call _ _ _ _ _ _ _ Hrun). steps.
        rewrite <- (fld_lookup _ thread_next _ _ Hth1).
        rewrite <- (threads_agree_fld _ _ thread_next t Hag) by done. by rewrite Hnx.
      * by rewrite <- app_assoc in Hok2.
Qed.

(** The part of [anscheduler_task_launch] under [threadsLock]. *)
Lemma launch_threads s q T tk tl (k : prog ()) :
  queue_ok s q → k_tasks s !! T = Some tk → task_isKilled tk = 0 → task_threads s T tl →
  (∀ t, t ∈ tl → t ∉ q) → (length tl < n)%nat →
  loopLock ∉ k_locks s → threadsLock T ∉ k_locks s → killLock T ∉ k_locks s →
  ∃ s', run n c (anscheduler_lock (threadsLock T);;
                 thread ← rd T task_firstThread;
                 push_threads thread;;
                 anscheduler_unlock (threadsLock T);; k) s = run n c k s' ∧
    queue_ok s' (q ++ tl) ∧ queue_step s s'.
Proof.
  intros Hq HT Hk (Hd & Hft & Hin) Htq Hn Hlo Hth Hkl.
  rewrite run_lock; [|simpl; rewrite bool_decide_eq_true; eauto|done].
  set (s1 := add_lock (threadsLock T) s). rewrite run_rd with (o := tk) by done.
  rewrite (fld_lookup _ _ _ _ HT) in Hft. rewrite Hft.
  unfold push_threads. rewrite run_bind, run_tail, run_while.
  destruct (push_threads_spec tl n s1 q) as (s2 & Hrun2 & Hq2 & [Heq2 Hag2]); [done..| | | |].
  { by eapply dll_sll. }
  { intros t Ht. split; [by apply Htq|]. destruct (Hin t Ht) as (th & Hth' & Htask).
    exists th. split; [done|]. right. rewrite Htask. exists tk.
    split; [done|]. split; [done|]. simpl. set_solver. }
  { simpl. set_solver. }
  rewrite Hrun2.
  assert (k_tasks s2 = k_tasks s ∧ k_locks s2 = {[threadsLock T]} ∪ k_locks s) as [Ht2 Hl2] by (by rewrite Heq2).
  rewrite run_unlock; [|rewrite Hl2; set_solver|simpl; rewrite bool_decide_eq_true, Ht2; eauto].
  eexists. split; [done|]. split; [exact Hq2|]. split; [|exact Hag2].
  unfold del_lock. simpl. rewrite Hl2, del_add_lock by done. rewrite Heq2. by destruct s.
Qed.

(** What launching a task changes: the table of tasks and links of tasks, the queue and
    links of threads. *)
Definition launched (s s' : kst) : Prop :=
  s' = set_k_loop (k_loop s') (set_k_threads (k_threads s')
         (set_k_pid (k_pid s') (set_k_tasks (k_tasks s') s))) ∧
  threads_agree (k_threads s) (k_threads s') ∧
  ∀ p, task_body <$> k_tasks s' !! p = task_body <$> k_tasks s !! p.

(** A reference that is taken and given back. *)
Lemma launched_intro s T tk tk2 s2 s3 :
  let s1 := set_task T (set_task_refCount (u64 (task_refCount tk + 1)) tk) s in
  k_tasks s !! T = Some tk → 0 ≤ task_refCount tk < 2 ^ 64 → table_step s1 s2 → queue_step s2 s3 →
  k_tasks s2 !! T = Some tk2 →
  launched s (set_task T (set_task_refCount (u64 (task_refCount tk2 - 1)) tk2) s3).
Proof.
  intros s1 HT Hr [Heq2 Hbody2] [Heq3 Hag3] HT2.
  pose proof (Hbody2 T) as Hb. rewrite HT2 in Hb. simpl in Hb. rewrite lookup_insert_eq in Hb.
  apply (inj Some) in Hb.
  assert (u64 (task_refCount tk2 - 1) = task_refCount tk) as ->.
  { apply (f_equal task_refCount) in Hb. simpl in Hb. rewrite Hb. unfold u64. rewrite Zminus_mod_idemp_l.
    replace (task_refCount tk + 1 - 1) with (task_refCount tk) by lia. by apply Z.mod_small. }
  split_and!; simpl.
  - unfold set_task. rewrite Heq3, Heq2. simpl. by destruct s.
  - rewrite <- Hag3, Heq2. done.
  - intros p. rewrite Heq3. simpl. rewrite lookup_insert. case_decide as Hp; [subst p|].
    + rewrite HT. change (Some (set_task_refCount (task_refCount tk) (task_body tk2)) = Some (task_body tk)).
      rewrite Hb. by destruct tk.
    + rewrite (Hbody2 p). simpl. by rewrite lookup_insert_ne.
Qed.

(** C24. Launching a task makes it known and runnable: the task is found first by its
    identifier from then on, all its threads are queued, in order, behind the threads
    that were queued before, and nothing else changes: the reference taken meanwhile is
    given back and every lock is free again. *)
Theorem task_launch_publishes_and_queues s q B T tk tl :
  let h := _hash_pid (task_pid tk) in
  queue_ok s q → table_ok s B → k_tasks s !! T = Some tk → T ≠ NULL → T ∉ B h →
  task_isKilled tk = 0 → 0 ≤ task_refCount tk < 2 ^ 64 → task_threads s T tl →
  (∀ t, t ∈ tl → t ∉ q) → (length tl < n)%nat →
  pmLock ∉ k_locks s → loopLock ∉ k_locks s → threadsLock T ∉ k_locks s → killLock T ∉ k_locks s →
  ∃ s', run n c (anscheduler_task_launch T) s = Done () s' ∧
    queue_ok s' (q ++ tl) ∧ table_ok s' (set_bucket h (T :: B h) B) ∧
    (∃ tk', find_pid s' (task_pid tk) (T :: B h) = Some (T, tk')) ∧ launched s s'.
Proof.
  intros h Hq HB HT HT0 Hbk Hk Hr (Hd & Hft & Hin) Htq Hn Hpm Hlo Hth Hkl.
  unfold anscheduler_task_launch.
  rewrite (run_call _ _ _ _ _ _ _ (reference_alive n c s T tk HT Hk Hkl)).
  set (tk1 := set_task_refCount (u64 (task_refCount tk + 1)) tk). set (s1 := set_task T tk1 s).
  assert (k_tasks s1 !! T = Some tk1) as HT1 by (simpl; by rewrite lookup_insert_eq).
  destruct (pidmap_set_spec n c s1 B T tk1) as (s2 & Hrun2 & HB2 & Hst2); try done.
  { by apply (table_ok_insert s B T tk). }
  rewrite (run_call _ _ _ _ _ _ _ Hrun2). destruct (table_step_pid _ _ _ _ Hst2 HT1) as (tk2 & HT2 & Hb2).
  assert (k_locks s2 = k_locks s ∧ k_threads s2 = k_threads s ∧ k_loop s2 = k_loop s) as (Hl2 & Ht2 & Hlp2)
    by (by destruct Hst2 as [-> _]).
  assert (task_isKilled tk2 = 0) as Hk2 by (apply (f_equal task_isKilled) in Hb2; simpl in Hb2; congruence).
  destruct (launch_threads s2 q T tk2 tl (anscheduler_task_dereference T)) as (s3 & Hrun3 & Hq3 & Hst3);
    rewrite ?Hl2; try done.
  { unfold queue_ok. by rewrite Ht2, Hlp2. }
  { split_and!; rewrite ?Ht2; try done. rewrite (fld_lookup _ _ _ _ HT2), <- Hft, (fld_lookup _ _ _ _ HT).
    by apply (f_equal task_firstThread) in Hb2. }
  rewrite Hrun3. assert (k_tasks s3 = k_tasks s2 ∧ k_pid s3 = k_pid s2 ∧ k_locks s3 = k_locks s2) as (Ht3 & Hp3 & Hl3)
    by (by destruct Hst3 as [-> _]).
  rewrite (dereference_keep n c s3 T tk2); [|by rewrite Ht3|by rewrite Hl3, Hl2|by right].
  eexists. split; [done|]. split_and!.
  - exact Hq3.
  - apply (table_ok_insert s3 _ T tk2); [|by rewrite Ht3|done..].
    unfold table_ok, bucket_ok in *. by rewrite Ht3, Hp3.
  - eexists. simpl. rewrite lookup_insert_eq. rewrite decide_True; [done|].
    by apply (f_equal task_pid) in Hb2.
  - by eapply launched_intro.
Qed.

End launch.

(** ** Witnesses *)

(** The demo task before it is launched: no thread is queued, no task registered. *)
Definition demo_unlaunched : kst :=
  set_k_loop (mk_loop 0 0 0)
    (set_k_threads (list_to_map
      [(0x1000, demo_thread 0x2000 0 0 0 0 0 0);
       (0x2000, demo_thread 0x3000 0x1000 0 0 50 1 0);
       (0x3000, demo_thread 0 0x2000 0 0 0 2 0)]) (demo 0 2)).

Lemma demo_unlaunched_table : table_ok demo_unlaunched (λ _, []).
Proof.
  split; [reflexivity|]. intros h Hh. split_and!; [|apply dll_nil|by intros p []%not_elem_of_nil].
  change (pidHashmap _) with (replicate 256 0). apply lookup_replicate_2. lia.
Qed.

Lemma task_launch_publishes_and_queues_witness :
  ∃ s', run 4 0 (anscheduler_task_launch (H := P0) 0x10000) demo_unlaunched = Done () s' ∧
    queue_ok s' [0x1000; 0x2000; 0x3000] ∧
    table_ok s' (set_bucket 5 [0x10000] (λ _, [])) ∧
    (∃ tk', find_pid s' 5 [0x10000] = Some (0x10000, tk')) ∧ launched demo_unlaunched s'.
Proof.
  apply (task_launch_publishes_and_queues (H := P0) 4 0 demo_unlaunched [] (λ _, []) 0x10000
    (demo_task 0 2) [0x1000; 0x2000; 0x3000]).
  - split_and!; [apply dll_nil|by intros p []%not_elem_of_nil|reflexivity..].
  - apply demo_unlaunched_table.
  - reflexivity.
  - done.
  - apply not_elem_of_nil.
  - reflexivity.
  - simpl; lia.
  - split_and!; [by_dll|reflexivity|]. elems; eexists; split; reflexivity.
  - by intros t _ []%not_elem_of_nil.
  - simpl; lia.
  - by_dec.
  - by_dec.
  - by_dec.
  - by_dec.
Defined.
