(* ===== verification/TaskKill.v ===== *)
(** * TaskKill: the destruction of a task (src/task.c)

    What the kill job [_free_task_method] gives back: the threads with their stacks,
    the address space, the index sets, the identifier and the task itself. *)
From S2P Require Import Prelude Types Machine Demo Idxset RunQueue PagerQueue TaskRef Loop Interrupts PidMap Thread ThreadExit SocketList DescTable Socket TaskLife.

(** ** What is freed and what stays *)

(** Nothing changes at the address [q]. *)
Definition same_at (q : Z) (s s' : kst) : Prop :=
  k_tasks s' !! q = k_tasks s !! q ∧ k_threads s' !! q = k_threads s !! q ∧
  k_sockets s' !! q = k_sockets s !! q ∧ k_descs s' !! q = k_descs s !! q ∧
  k_msgs s' !! q = k_msgs s !! q ∧ k_faults s' !! q = k_faults s !! q ∧
  k_infos s' !! q = k_infos s !! q ∧ k_nodes s' !! q = k_nodes s !! q ∧
  k_vms s' !! q = k_vms s !! q.

Lemma same_at_refl q s : same_at q s s.
Proof. done. Qed.

Lemma same_at_trans q s1 s2 s3 : same_at q s1 s2 → same_at q s2 s3 → same_at q s1 s3.
Proof. unfold same_at. intuition congruence. Qed.

Lemma same_at_free q p s : q ≠ p → same_at q s (free_step p s).
Proof. intros Hq. repeat split; by apply lookup_delete_ne. Qed.

Lemma same_at_raw q s s' : same_at q s s' → raw s q → raw s' q.
Proof.
  intros (E1 & E2 & E3 & E4 & E5 & E6 & E7 & E8 & E9). unfold raw, only_node.
  by rewrite E1, E2, E3, E4, E5, E6, E7, E8, E9.
Qed.

Lemma raw_free q s : raw (free_step q s) q.
Proof. repeat split; apply lookup_delete_eq. Qed.

Lemma raw_free_raw q p s : raw s q → raw (free_step p s) q.
Proof.
  intros Hr. destruct (decide (q = p)) as [->|]; [apply raw_free|].
  eapply same_at_raw; [by apply same_at_free|done].
Qed.

(** The address space is unmapped and freed in a critical section of its own; what is
    left of it at the end. *)
Definition vm_gone (c : nat) (root : Z) (s : kst) : kst :=
  upd_cpu c (set_cpu_locked false) (vm_root_free_step root
    (upd_cpu c (set_cpu_locked true) (vm_upd root (λ _, ∅) s))).

Lemma run_vm_root_free_async n c {A} root (k : () → prog A) s :
  is_Some (k_vms s !! root) → root ∈ k_live s → cpu_locked (k_cpus s c) = false →
  run n c (anscheduler_vm_root_free_async root ≫= k) s = run n c (k ()) (vm_gone c root s).
Proof.
  intros [m Hm] Hl Hc. unfold anscheduler_vm_root_free_async, vm_unmap_all.
  rewrite run_assoc, run_act, Hm. rewrite run_assoc, run_cpu_lock by done.
  unfold anscheduler_vm_root_free. rewrite run_assoc, run_act, decide_True by done.
  rewrite run_cpu_unlock; [done|]. simpl. by rewrite decide_True.
Qed.

Lemma vm_gone_cpus c root s c' :
  cpu_locked (k_cpus s c) = false → k_cpus (vm_gone c root s) c' = k_cpus s c'.
Proof.
  intros Hc. unfold vm_gone. simpl. case_decide as Hcc; [|done]. rewrite decide_True by done.
  rewrite Hcc. destruct (k_cpus s c). simpl in *. by rewrite Hc.
Qed.

Lemma same_at_vm_gone c q root s : q ≠ root → same_at q s (vm_gone c root s).
Proof.
  intros Hq. repeat split; simpl; rewrite lookup_delete_ne by done; try done. by rewrite lookup_alter_ne.
Qed.

Lemma raw_vm_gone c q root s : raw s q → raw (vm_gone c root s) q.
Proof.
  intros Hr. destruct (decide (q = root)) as [->|].
  - apply (raw_free root (vm_upd root (λ _, ∅) s)).
  - eapply same_at_raw; [by apply same_at_vm_gone|done].
Qed.

Section kill.
Context `{Platform, !PlatformOk _} (n c : nat) (T vm : Z) (tk : task_t).

(** The structures and pages at [ps] are freed; the task [T] has the list of threads
    from [nx] on and the page table [m']; the rest stays. *)
Record gone (ps : list Z) (nx : Z) (m' : gmap Z (Z * Z)) (s s' : kst) : Prop := {
  gn_live : k_live s' = k_live s ∖ list_to_set ps;
  gn_keep q : q ∉ ps → q ≠ T → q ≠ vm → same_at q s s';
  gn_task : k_tasks s' !! T = Some (set_task_firstThread nx tk);
  gn_vm : k_vms s' !! vm = Some m';
  gn_raw q : q ∈ ps → raw s' q;
  gn_cpus c' : k_cpus s' c' = k_cpus s c';
  gn_statics : k_locks s' = k_locks s ∧ k_pid s' = k_pid s ∧ k_loop s' = k_loop s ∧
    k_pager s' = k_pager s ∧ k_nallocs s' = k_nallocs s;
}.

Lemma gone_trans ps1 ps2 nx1 nx2 m1 m2 s1 s2 s3 :
  T ∉ ps1 → vm ∉ ps1 →
  gone ps1 nx1 m1 s1 s2 → gone ps2 nx2 m2 s2 s3 → gone (ps1 ++ ps2) nx2 m2 s1 s3.
Proof.
  intros HT Hv [L1 K1 _ _ F1 C1 S1] [L2 K2 T2 V2 F2 C2 S2]. split; try done.
  - rewrite L2, L1, list_to_set_app_L. set_solver.
  - intros q Hq ? ?. eapply same_at_trans; [apply K1|apply K2]; set_solver.
  - intros q [Hq|Hq]%elem_of_app; [|by apply F2]. destruct (decide (q ∈ ps2)) as [|Hn]; [by apply F2|].
    assert (q ≠ T ∧ q ≠ vm) as [] by (split; by intros ->).
    eapply same_at_raw; [by apply K2|by apply F1].
  - intros c'. by rewrite C2, C1.
  - intuition congruence.
Qed.

(** ** The threads *)

Definition kstack_of (m : gmap Z (Z * Z)) (i : Z) : Z :=
  frame_addr (default (0, 0) (m !! kernel_stack_page i)).1.

(** What a thread holds: the pages of its user stack that are allocated, the page of its
    kernel stack, and itself. *)
Definition thread_pages (m : gmap Z (Z * Z)) (i th : Z) : list Z :=
  stack_frames i m ++ [kstack_of m i; th].

(** A thread that can be given up. *)
Record thread_ready (s : kst) (m : gmap Z (Z * Z)) (i th : Z) : Prop := {
  tr_thread : ∃ thr, k_threads s !! th = Some thr ∧ thread_stack thr = i;
  tr_index : stack_index i;
  tr_kstack : ∃ f fl, m !! kernel_stack_page i = Some (f, fl) ∧
    test_flag fl ANSCHEDULER_PAGE_FLAG_PRESENT = true;
  tr_raw a : a ∈ stack_frames i m ++ [kstack_of m i] → raw s a;
  tr_live a : a ∈ thread_pages m i th → a ∈ k_live s;
  tr_nodup : NoDup (thread_pages m i th);
}.

(** What the page table keeps when the user stack of index [i] is given up. *)
Definition unmapped (i : Z) (m m' : gmap Z (Z * Z)) : Prop :=
  (∀ p, ¬ in_slice i 0x100 p → m' !! p = m !! p) ∧ (∀ p, is_Some (m' !! p) → is_Some (m !! p)).

Lemma released_unmapped i m m1 m' :
  retired i 0x100 m m1 → released i 0x100 m1 m' → unmapped i m m'.
Proof.
  intros Hr Hl. split; intros p.
  - intros Hp. by rewrite Hl, decide_False, Hr, decide_False by done.
  - rewrite Hl, Hr. case_decide; [|done]. destruct (m !! p); [by eexists|by intros []].
Qed.

Lemma kstack_not_in_slice i j : stack_index i → stack_index j → ¬ in_slice i 0x100 (kernel_stack_page j).
Proof.
  intros Hi Hj. unfold in_slice, upage. rewrite kernel_stack_page_eq by done.
  rewrite user_page_eq by (done || lia). unfold stack_index in *. lia.
Qed.

(** One round of the loop of [free_threads]. *)
Definition free_thread (task : Z) : prog (() + ()) :=
  first ← rd task task_firstThread;
  if decide (first = NULL) then mret (inr ()) else
  thread ← rd task task_firstThread;
  next ← rd thread thread_next;
  wr task (set_task_firstThread next);;
  anscheduler_thread_deallocate task thread;;
  anscheduler_cpu_lock;;
  stack ← anscheduler_thread_kernel_stack task thread;
  anscheduler_free stack;;
  anscheduler_free thread;;
  anscheduler_cpu_unlock;;
  mret (inl ()).

Lemma free_threads_rounds : free_threads T = while_ () (λ _, free_thread T).
Proof using Type. done. Qed.

Section round.
Context (s : kst) (m : gmap Z (Z * Z)) (i th : Z).
Context (Hready : thread_ready s m i th) (Hvm : task_vm tk = vm) (Hm : k_vms s !! vm = Some m).
Context (HT : k_tasks s !! T = Some (set_task_firstThread th tk)) (Hth0 : th ≠ NULL).
Context (Hlk : k_locks s = ∅) (Hcpu : cpu_locked (k_cpus s c) = false).
Context (Hmap : ∀ k p, is_Some (m !! p) → plat_map_ok k vm p = true).
Context (HTn : T ∉ thread_pages m i th) (Hvn : vm ∉ thread_pages m i th).

Let nx := fld (k_threads s) thread_next th.
Let tk1 := set_task_firstThread nx tk.
Let s1 := set_task T tk1 s.

(** The user stack. *)
Lemma round_deallocates :
  ∃ s2 m', run n c (anscheduler_thread_deallocate T th) s1 = Done () s2 ∧
    page_step vm m' (k_live s ∖ list_to_set (stack_frames i m))
      (k_log s ++ ev_notify_invlpg T :: (ev_free <$> stack_frames i m)) (intd_cleared th s1) s2 ∧
    unmapped i m m'.
Proof using Type*.
  destruct Hready as [(thr & Hth & Hst) Hi _ Hraw Hlive Hnd].
  destruct (deallocate_spec n c T vm tk1 i Hi s1 th thr m) as (s2 & m1 & m' & Hrun & Hs & Hr & Hl); try done.
  - split_and!; [apply lookup_insert_eq|done|simpl; rewrite Hlk; set_solver|done].
  - simpl. rewrite Hlk. set_solver.
  - by apply NoDup_app in Hnd as [? _].
  - intros a Ha. split; [apply Hlive, elem_of_app; by left|].
    destruct (Hraw a) as [(_ & Ho) Hn]; [apply elem_of_app; by left|]. split; [|done]. split; [|done].
    simpl. rewrite lookup_insert_ne; [apply Hraw, elem_of_app; by left|].
    intros ->. apply HTn, elem_of_app. by left.
  - exists s2, m'. split; [done|]. split; [done|]. by eapply released_unmapped.
Qed.

Definition round_end (s2 : kst) : kst :=
  upd_cpu c (set_cpu_locked false)
    (free_step th (free_step (kstack_of m i) (upd_cpu c (set_cpu_locked true) s2))).

Lemma round_gone s2 m' lg :
  page_step vm m' (k_live s ∖ list_to_set (stack_frames i m)) lg (intd_cleared th s1) s2 →
  gone (thread_pages m i th) nx m' s (round_end s2).
Proof using Type*.
  intros [Hs2 Hc2]. destruct Hready as [(thr & Hth & Hst) Hi _ Hraw _ _].
  assert (T ≠ kstack_of m i ∧ T ≠ th ∧ vm ≠ kstack_of m i ∧ vm ≠ th) as (HTa & HTt & Hva & Hvt).
  { unfold thread_pages in HTn, Hvn. set_solver. }
  assert (∀ q, q ≠ T → q ≠ vm → same_at q s s2) as Hsame.
  { intros q HqT Hqv. rewrite Hs2. unfold intd_cleared. case_decide;
      (repeat split; simpl; try done; by rewrite ?lookup_insert_ne by done). }
  split.
  - unfold round_end, thread_pages. simpl. rewrite Hs2. simpl. rewrite list_to_set_app_L. simpl. set_solver.
  - intros q Hq HqT Hqv. unfold thread_pages in Hq.
    assert (q ≠ kstack_of m i ∧ q ≠ th) as [Hqa Hqt] by set_solver.
    eapply same_at_trans; [by apply Hsame|]. repeat split; simpl; by rewrite !lookup_delete_ne by done.
  - simpl. rewrite !lookup_delete_ne by done. rewrite Hs2. unfold intd_cleared.
    case_decide; apply lookup_insert_eq.
  - simpl. rewrite !lookup_delete_ne by done. rewrite Hs2. apply lookup_insert_eq.
  - intros q [Hq|[->|[->|[]%not_elem_of_nil]%elem_of_cons]%elem_of_cons]%elem_of_app;
      [|apply raw_free_raw, raw_free|apply raw_free].
    do 2 apply raw_free_raw. apply (same_at_raw q s); [|apply Hraw, elem_of_app; by left].
    apply Hsame; intros ->; [apply HTn|apply Hvn]; apply elem_of_app; by left.
  - intros c'. replace (k_cpus s c') with (k_cpus s2 c')
      by (rewrite Hc2; unfold intd_cleared; by case_decide).
    apply (upd_cpu_relock c s2). rewrite Hc2. unfold intd_cleared. by case_decide.
  - unfold round_end. simpl. rewrite Hs2. unfold intd_cleared. by case_decide.
Qed.

Lemma round_spec :
  ∃ s' m', run n c (free_thread T) s = Done (inl ()) s' ∧
    gone (thread_pages m i th) nx m' s s' ∧ unmapped i m m'.
Proof using Type*.
  destruct round_deallocates as (s2 & m' & Hrun & Hst & Hun).
  exists (round_end s2), m'. split; [|split; [by eapply round_gone|done]].
  pose proof Hst as [Hs2 Hc2].
  destruct Hready as [(thr & Hth & Hsi) Hi (f & fl & Hf & Hfl) _ Hlive Hnd].
  assert (kstack_of m i = frame_addr f) as Ha by (unfold kstack_of; by rewrite Hf).
  unfold free_thread. erewrite run_rd by exact HT. simpl task_firstThread. rewrite decide_False by done.
  do 2 (erewrite run_rd by first [exact HT|exact Hth]; simpl task_firstThread).
  erewrite run_wr by exact HT. rewrite <- (fld_lookup _ thread_next _ _ Hth). fold nx.
  change (set_heap _ s) with s1.
  rewrite (run_call _ _ _ _ _ _ _ Hrun), run_cpu_lock by (rewrite Hc2; unfold intd_cleared; by case_decide).
  set (s3 := upd_cpu c (set_cpu_locked true) s2).
  assert (k_tasks s3 !! T = Some tk1 ∧ k_threads s3 !! th = Some thr ∧ k_locks s3 = ∅ ∧
    k_live s3 = k_live s ∖ list_to_set (stack_frames i m)) as (HT3 & Hth3 & Hlk3 & Hlv3).
  { unfold s3. simpl. rewrite Hs2. simpl. unfold intd_cleared.
    case_decide; simpl; by rewrite lookup_insert_eq. }
  rewrite (run_thread_kernel_stack n c s3 T th tk1 thr m' f fl _ HT3 Hth3); try done;
    [|change (task_vm tk1) with (task_vm tk); rewrite Hvm; exact (page_step_vm _ _ _ _ _ _ Hst)|rewrite Hsi, (proj1 Hun); [done|by apply kstack_not_in_slice]
     |rewrite Hlk3; set_solver].
  rewrite <- Ha. apply NoDup_app in Hnd as (_ & Hdis & [Hat _]%NoDup_cons).
  assert (∀ a, a ∈ [kstack_of m i; th] → a ∈ k_live s3) as Hl3.
  { intros a Hin. rewrite Hlv3. apply elem_of_difference. split; [apply Hlive, elem_of_app; by right|].
    rewrite elem_of_list_to_set. intros Hs. by apply (Hdis a). }
  rewrite run_free by (apply Hl3; by left).
  rewrite run_free by (apply elem_of_difference; split; [apply Hl3; by right; left|set_solver]).
  rewrite run_cpu_unlock by (simpl; by rewrite decide_True). done.
Qed.
End round.

Definition stack_of (s : kst) (th : Z) : Z := fld (k_threads s) thread_stack th.

Definition all_pages (s : kst) (m : gmap Z (Z * Z)) (tl : list Z) : list Z :=
  tl ≫= λ th, thread_pages m (stack_of s th) th.

(** The threads of the task, all of which can be given up; nothing is shared. *)
Record threads_doomed (s : kst) (m : gmap Z (Z * Z)) (tl : list Z) : Prop := {
  td_task : k_tasks s !! T = Some (set_task_firstThread (hd0 NULL tl) tk);
  td_chain : slseg (fld (k_threads s) thread_next) tl;
  td_ready th : th ∈ tl → thread_ready s m (stack_of s th) th;
  td_nodup : NoDup (T :: vm :: all_pages s m tl);
  td_vm : task_vm tk = vm ∧ k_vms s !! vm = Some m;
  td_locks : k_locks s = ∅;
  td_cpu : cpu_locked (k_cpus s c) = false;
  td_map k p : is_Some (m !! p) → plat_map_ok k vm p = true;
}.

Lemma stack_frames_unmapped i j m m' :
  stack_index i → stack_index j → i ≠ j → unmapped i m m' → stack_frames j m' = stack_frames j m.
Proof using Type.
  intros Hi Hj Hne [Hu _]. unfold stack_frames. apply bind_ext_in. intros k Hk%elem_of_seqZ.
  rewrite Hu; [done|]. unfold in_slice, upage. rewrite !user_page_eq by (done || lia). lia.
Qed.

Lemma kstack_unmapped i j m m' :
  stack_index i → stack_index j → unmapped i m m' →
  m' !! kernel_stack_page j = m !! kernel_stack_page j.
Proof using Type. intros Hi Hj [Hu _]. apply Hu. by apply kstack_not_in_slice. Qed.

(** The threads that are left after a round. *)
Section tail.
Context (s : kst) (m : gmap Z (Z * Z)) (th : Z) (tl : list Z) (s' : kst) (m' : gmap Z (Z * Z)).
Context (Hd : threads_doomed s m (th :: tl)) (Hun : unmapped (stack_of s th) m m').
Context (Hg : gone (thread_pages m (stack_of s th) th) (fld (k_threads s) thread_next th) m' s s').

Let i := stack_of s th.

Lemma tail_disjoint :
  T ∉ thread_pages m i th ++ all_pages s m tl ∧ vm ∉ thread_pages m i th ++ all_pages s m tl ∧ T ≠ vm ∧
  NoDup (all_pages s m tl) ∧ ∀ p, p ∈ all_pages s m tl → p ∉ thread_pages m i th.
Proof using Hd.
  pose proof (td_nodup _ _ _ Hd) as Hnd.
  change (all_pages s m (th :: tl)) with (thread_pages m i th ++ all_pages s m tl) in Hnd.
  apply NoDup_cons in Hnd as [HTn Hnd]. apply NoDup_cons in Hnd as [Hvn Hnd].
  apply NoDup_app in Hnd as (_ & Hdis & Hnd). apply not_elem_of_cons in HTn as [? ?].
  split_and!; try done. intros p Hp Hq. by apply (Hdis p).
Qed.

Lemma tail_keep x p : x ∈ tl → p ∈ thread_pages m (stack_of s x) x →
  p ∉ thread_pages m i th ∧ same_at p s s'.
Proof using Hd Hg.
  intros Hx Hp. destruct tail_disjoint as (HTn & Hvn & _ & _ & Hdis).
  assert (p ∈ all_pages s m tl) as Hin by (apply list_elem_of_bind; by exists x).
  split; [by apply Hdis|]. apply (gn_keep _ _ _ _ _ Hg); [by apply Hdis| |];
    intros ->; [apply HTn|apply Hvn]; apply elem_of_app; by right.
Qed.

Lemma tail_thread x : x ∈ tl → k_threads s' !! x = k_threads s !! x ∧ stack_of s' x = stack_of s x.
Proof using Hd Hg.
  intros Hx. destruct (tail_keep x x Hx) as [_ (_ & He & _)]; [apply elem_of_app; right; right; by left|].
  split; [done|]. unfold stack_of, fld. by rewrite He.
Qed.

Lemma tail_table x : x ∈ tl →
  stack_frames (stack_of s' x) m' = stack_frames (stack_of s x) m ∧
  m' !! kernel_stack_page (stack_of s' x) = m !! kernel_stack_page (stack_of s x).
Proof using Hd Hg Hun.
  intros Hx. destruct (tail_thread x Hx) as [_ ->].
  destruct (td_ready _ _ _ Hd th) as [_ Hi _ _ _ _]; [by left|].
  destruct (td_ready _ _ _ Hd x) as [_ Hix _ _ _ _]; [by right|].
  assert (i ≠ stack_of s x) as Hne.
  { intros He. destruct (tail_keep x (kstack_of m i) Hx) as [Hn _].
    - rewrite He. apply elem_of_app. right. by left.
    - apply Hn, elem_of_app. right. by left. }
  split; [by apply (stack_frames_unmapped i)|by apply (kstack_unmapped i)].
Qed.

Lemma tail_pages x : x ∈ tl → thread_pages m' (stack_of s' x) x = thread_pages m (stack_of s x) x.
Proof using Hd Hg Hun.
  intros Hx. destruct (tail_table x Hx) as [Hf Hk]. unfold thread_pages, kstack_of. by rewrite Hf, Hk.
Qed.

Lemma tail_ready x : x ∈ tl → thread_ready s' m' (stack_of s' x) x.
Proof using Hd Hg Hun.
  intros Hx. destruct (td_ready _ _ _ Hd x) as [(thr & Hx1 & Hx2) Hix (f & fl & Hf & Hfl) Hraw Hlive Hnd]; [by right|].
  destruct (tail_thread x Hx) as [Hth Hso], (tail_table x Hx) as [Hfr Hks].
  split; rewrite ?(tail_pages x Hx); try done.
  - exists thr. by rewrite Hth, Hso.
  - by rewrite Hso.
  - exists f, fl. by rewrite Hks.
  - intros a Ha. unfold kstack_of in Ha. rewrite Hfr, Hks in Ha. fold (kstack_of m (stack_of s x)) in Ha.
    eapply same_at_raw; [|by apply Hraw]. apply (tail_keep x a Hx). unfold thread_pages.
    rewrite cons_middle, app_assoc. apply elem_of_app. by left.
  - intros a Ha. rewrite (gn_live _ _ _ _ _ Hg). apply elem_of_difference. split; [by apply Hlive|].
    rewrite elem_of_list_to_set. by apply (tail_keep x a Hx).
Qed.

Lemma doomed_tail : threads_doomed s' m' tl ∧ all_pages s' m' tl = all_pages s m tl.
Proof using Hd Hg Hun.
  destruct Hd as [_ (_ & Hnx & Hch) _ _ [Hv _] Hlk Hcpu Hmap].
  destruct tail_disjoint as (HTn & Hvn & HTv & Hnd & _).
  assert (all_pages s' m' tl = all_pages s m tl) as Hall by (apply bind_ext_in; apply tail_pages).
  destruct Hg as [_ _ HT' Hv' _ C [Hl _]]. split; [split|done].
  - by rewrite HT', Hnx.
  - eapply slseg_ext; [|exact Hch]. intros x Hx. unfold fld. by rewrite (proj1 (tail_thread x Hx)).
  - apply tail_ready.
  - rewrite Hall. rewrite elem_of_app in HTn, Hvn. apply NoDup_cons. split; [intros [?|?]%elem_of_cons; tauto|].
    apply NoDup_cons. split; [tauto|done].
  - done.
  - by rewrite Hl.
  - by rewrite C.
  - intros k p Hp. by apply Hmap, Hun.
Qed.
End tail.

(** All threads and all that they hold are given back, first to last. *)
Lemma free_threads_loop tl : ∀ k s m, threads_doomed s m tl → (length tl < k)%nat →
  ∃ s' m', iterate k (λ _ s, run n c (free_thread T) s) (λ b s, run n c (mret b) s) () s = Done () s' ∧
    gone (all_pages s m tl) NULL m' s s'.
Proof using PlatformOk0.
  induction tl as [|th tl IH]; intros k s m Hd Hk; (destruct k as [|k]; [simpl in Hk; lia|]); rewrite iterate_S.
  - pose proof Hd as [HT _ _ _ [_ Hm] _ _ _]. unfold free_thread at 1. erewrite run_rd by exact HT.
    simpl task_firstThread. rewrite decide_True by done. exists s, m. split; [done|].
    split; try done; [simpl; set_solver|by intros q ?%not_elem_of_nil].
  - pose proof Hd as [HT (Hth0 & Hnx & _) Hready _ [Hv Hm] Hlk Hcpu Hmap].
    destruct (tail_disjoint s m th tl Hd) as (HTn & Hvn & _). rewrite elem_of_app in HTn, Hvn.
    destruct (round_spec s m (stack_of s th) th) as (s1 & m1 & Hrun & Hg & Hun); try done;
      [apply Hready; by left|tauto|tauto|].
    rewrite Hrun. destruct (doomed_tail s m th tl s1 m1 Hd Hun Hg) as [Hd1 Hall].
    destruct (IH k s1 m1 Hd1) as (s' & m' & Hrun' & Hg'); [simpl in Hk; lia|].
    exists s', m'. split; [done|]. rewrite Hall in Hg'. by eapply gone_trans; [tauto|tauto|..].
Qed.
End kill.
