(* ===== verification/Interface.v ===== *)
(** * Interface: the functions the kernel may call

    Every function that the headers of include/anscheduler declare for the kernel, one
    type of calls per header, with the section of code in which the header says that
    it may be called; and what the kernel threads run. Used where a statement is about
    the whole scheduler (Typed.v, Steps.v, Calm.v, Smp.v, Atomic.v, Polite.v,
    Contract.v, Deadlock.v). *)
From S2P Require Import Prelude Types Machine Demo Idxset RunQueue PagerQueue TaskRef Loop Interrupts TaskExit Paging PidMap Thread ThreadExit SocketList Socket TaskLife.

(** ** Calls *)

(** include/anscheduler/task.h *)
Inductive task_call :=
  | e_task_create | e_task_launch (task : Z) | e_task_kill (task reason : Z)
  | e_task_reference (task : Z) | e_task_dereference (task : Z) | e_task_for_pid (pid : Z)
  | e_task_exit (code : Z).

(** include/anscheduler/thread.h *)
Inductive thread_call :=
  | e_thread_create (task : Z) | e_thread_add (task thread : Z) | e_thread_poll
  | e_thread_exit | e_thread_deallocate (task thread : Z)
  | e_thread_kernel_stack (task thread : Z) | e_thread_interrupt_stack (thread : Z)
  | e_thread_user_stack (thread : Z).

(** include/anscheduler/loop.h *)
Inductive loop_call :=
  | e_loop_push_cur | e_loop_delete (thread : Z) | e_loop_push (thread : Z) | e_loop_run
  | e_loop_break_task | e_loop_resign | e_loop_save_and_resign
  | e_loop_push_kernel (arg : Z) (fn : kernel_fn) | e_loop_delete_cur_kernel
  | e_loop_switch (task thread : Z).

(** include/anscheduler/socket.h *)
Inductive socket_call :=
  | e_socket_new | e_socket_for_descriptor (desc : Z) | e_socket_next_pending
  | e_socket_reference (socket : Z) | e_socket_dereference (socket : Z)
  | e_socket_msg (socket msg : Z) | e_socket_msg_async (socket msg : Z)
  | e_socket_msg_data (data : list Z) (len : Z) | e_socket_read (socket : Z)
  | e_socket_connect (socket task : Z) | e_socket_close (socket code : Z)
  | e_socket_remote (socket : Z).

(** include/anscheduler/interrupts.h *)
Inductive interrupts_call :=
  | e_irq (irqNumber : Z) | e_intd_get | e_intd_set (thread : Z) | e_intd_cmpnull (thread : Z)
  | e_intd_read | e_intd_lock | e_intd_unlock | e_intd_waiting.

(** include/anscheduler/paging.h *)
Inductive paging_call :=
  | e_page_fault (ptr flags : Z) | e_pager_get | e_pager_set (thread : Z) | e_pager_shift
  | e_pager_peek | e_pager_lock | e_pager_unlock | e_pager_waiting.

(** A call from outside, or what [anscheduler_loop_push_kernel] starts. *)
Inductive entry :=
  | task_h (c : task_call) | thread_h (c : thread_call) | loop_h (c : loop_call)
  | socket_h (c : socket_call) | interrupts_h (c : interrupts_call) | paging_h (c : paging_call)
  | e_kernel (fn : kernel_fn) (arg : Z).
Coercion task_h : task_call >-> entry.
Coercion thread_h : thread_call >-> entry.
Coercion loop_h : loop_call >-> entry.
Coercion socket_h : socket_call >-> entry.
Coercion interrupts_h : interrupts_call >-> entry.
Coercion paging_h : paging_call >-> entry.

(** ** What a call runs *)

(** A function whose result the kernel gets. *)
Definition drop {A} (p : prog A) : prog () := _ ← p; mret ().

Section code.
Context `{Platform}.

Definition task_code (c : task_call) : prog () :=
  match c with
  | e_task_create => drop anscheduler_task_create
  | e_task_launch task => anscheduler_task_launch task
  | e_task_kill task reason => anscheduler_task_kill task reason
  | e_task_reference task => drop (anscheduler_task_reference task)
  | e_task_dereference task => anscheduler_task_dereference task
  | e_task_for_pid pid => drop (anscheduler_task_for_pid pid)
  | e_task_exit code => anscheduler_task_exit code
  end.

Definition thread_code (c : thread_call) : prog () :=
  match c with
  | e_thread_create task => drop (anscheduler_thread_create task)
  | e_thread_add task thread => anscheduler_thread_add task thread
  | e_thread_poll => drop anscheduler_thread_poll
  | e_thread_exit => anscheduler_thread_exit
  | e_thread_deallocate task thread => anscheduler_thread_deallocate task thread
  | e_thread_kernel_stack task thread => drop (anscheduler_thread_kernel_stack task thread)
  | e_thread_interrupt_stack thread => drop (anscheduler_thread_interrupt_stack thread)
  | e_thread_user_stack thread => drop (anscheduler_thread_user_stack thread)
  end.

Definition loop_code (c : loop_call) : prog () :=
  match c with
  | e_loop_push_cur => anscheduler_loop_push_cur
  | e_loop_delete thread => anscheduler_loop_delete thread
  | e_loop_push thread => anscheduler_loop_push thread
  | e_loop_run => drop anscheduler_loop_run
  | e_loop_break_task => anscheduler_loop_break_task
  | e_loop_resign => anscheduler_loop_resign
  | e_loop_save_and_resign => anscheduler_loop_save_and_resign
  | e_loop_push_kernel arg fn => anscheduler_loop_push_kernel arg fn
  | e_loop_delete_cur_kernel => anscheduler_loop_delete_cur_kernel
  | e_loop_switch task thread => anscheduler_loop_switch task thread
  end.

Definition socket_code (c : socket_call) : prog () :=
  match c with
  | e_socket_new => drop anscheduler_socket_new
  | e_socket_for_descriptor desc => drop (anscheduler_socket_for_descriptor desc)
  | e_socket_next_pending => drop anscheduler_socket_next_pending
  | e_socket_reference socket => drop (anscheduler_socket_reference socket)
  | e_socket_dereference socket => anscheduler_socket_dereference socket
  | e_socket_msg socket msg => drop (anscheduler_socket_msg socket msg)
  | e_socket_msg_async socket msg => anscheduler_socket_msg_async socket msg
  | e_socket_msg_data data len => drop (anscheduler_socket_msg_data data len)
  | e_socket_read socket => drop (anscheduler_socket_read socket)
  | e_socket_connect socket task => drop (anscheduler_socket_connect socket task)
  | e_socket_close socket code => anscheduler_socket_close socket code
  | e_socket_remote socket => drop (anscheduler_socket_remote socket)
  end.

Definition interrupts_code (c : interrupts_call) : prog () :=
  match c with
  | e_irq irqNumber => anscheduler_irq irqNumber
  | e_intd_get => drop anscheduler_intd_get
  | e_intd_set thread => anscheduler_intd_set thread
  | e_intd_cmpnull thread => anscheduler_intd_cmpnull thread
  | e_intd_read => drop anscheduler_intd_read
  | e_intd_lock => anscheduler_intd_lock
  | e_intd_unlock => anscheduler_intd_unlock
  | e_intd_waiting => drop anscheduler_intd_waiting
  end.

Definition paging_code (c : paging_call) : prog () :=
  match c with
  | e_page_fault ptr flags => drop (anscheduler_page_fault ptr flags)
  | e_pager_get => drop anscheduler_pager_get
  | e_pager_set thread => anscheduler_pager_set thread
  | e_pager_shift => anscheduler_pager_shift
  | e_pager_peek => drop anscheduler_pager_peek
  | e_pager_lock => anscheduler_pager_lock
  | e_pager_unlock => anscheduler_pager_unlock
  | e_pager_waiting => drop anscheduler_pager_waiting
  end.

Definition entry_code (e : entry) : prog () :=
  match e with
  | task_h c => task_code c
  | thread_h c => thread_code c
  | loop_h c => loop_code c
  | socket_h c => socket_code c
  | interrupts_h c => interrupts_code c
  | paging_h c => paging_code c
  | e_kernel fn arg => drop (kernel_code fn arg)
  end.

End code.

(** ** Where a call may be made

    The headers mark functions with [@critical], to be called inside a critical
    section, and [@noncritical]; [reentered] is "@critical -> @noncritical ->
    @critical": the thread may be switched away in between. Some functions have no
    mark. *)
Inductive section := critical | noncritical | reentered | unmarked.

Definition task_section (c : task_call) : section :=
  match c with
  | e_task_create => unmarked
  | e_task_launch _ | e_task_kill _ _ | e_task_reference _ | e_task_dereference _
  | e_task_for_pid _ | e_task_exit _ => critical
  end.

Definition thread_section (c : thread_call) : section :=
  match c with
  | e_thread_exit | e_thread_deallocate _ _ => noncritical
  | e_thread_create _ | e_thread_add _ _ | e_thread_poll | e_thread_kernel_stack _ _
  | e_thread_interrupt_stack _ | e_thread_user_stack _ => critical
  end.

Definition loop_section (c : loop_call) : section :=
  match c with
  | e_loop_delete _ | e_loop_push _ | e_loop_delete_cur_kernel => unmarked
  | e_loop_push_cur | e_loop_run | e_loop_break_task | e_loop_resign | e_loop_save_and_resign
  | e_loop_push_kernel _ _ | e_loop_switch _ _ => critical
  end.

Definition socket_section (c : socket_call) : section :=
  match c with
  | e_socket_msg _ _ | e_socket_connect _ _ => reentered
  | e_socket_new | e_socket_for_descriptor _ | e_socket_next_pending | e_socket_reference _
  | e_socket_dereference _ | e_socket_msg_async _ _ | e_socket_msg_data _ _ | e_socket_read _
  | e_socket_close _ _ | e_socket_remote _ => critical
  end.

Definition interrupts_section (c : interrupts_call) : section :=
  match c with
  | e_intd_lock | e_intd_unlock | e_intd_waiting => unmarked
  | e_irq _ | e_intd_get | e_intd_set _ | e_intd_cmpnull _ | e_intd_read => critical
  end.

Definition paging_section (c : paging_call) : section :=
  match c with
  | e_pager_lock | e_pager_unlock | e_pager_waiting => unmarked
  | e_page_fault _ _ | e_pager_get | e_pager_set _ | e_pager_shift | e_pager_peek => critical
  end.

(** The functions run by kernel threads are marked in src/task.c and src/socket.c. *)
Definition kernel_section (fn : kernel_fn) : section :=
  match fn with
  | fn_free_task_method | fn_socket_hangup | fn_async_msg => noncritical
  end.

Definition entry_section (e : entry) : section :=
  match e with
  | task_h c => task_section c
  | thread_h c => thread_section c
  | loop_h c => loop_section c
  | socket_h c => socket_section c
  | interrupts_h c => interrupts_section c
  | paging_h c => paging_section c
  | e_kernel fn _ => kernel_section fn
  end.

(** Does the call begin inside a critical section? Functions without a mark take locks
    or allocate, which include/anscheduler/functions.h allows there only. *)
Definition begins_inside (e : entry) : bool :=
  match entry_section e with noncritical => false | _ => true end.
