(* ===== verification/Internal.v ===== *)
(** * Internal: the functions the scheduler keeps for itself

    The functions that src/pidmap.h and src/socketlist.h declare and those that
    src/thread.c, src/task.c and src/socket.c declare at their top, with the marks of
    these declarations, as Interface.v has the functions of include/anscheduler. *)
From S2P Require Import Prelude Types Machine Idxset RunQueue TaskRef TaskExit PidMap Thread ThreadExit SocketList Socket TaskLife Interface.

(** ** Calls *)

(** src/pidmap.h *)
Inductive pidmap_call :=
  | i_pidmap_alloc_pid | i_pidmap_free_pid (pid : Z) | i_pidmap_set (task : Z)
  | i_pidmap_unset (task : Z) | i_pidmap_get (pid : Z).

(** src/socketlist.h *)
Inductive socketlist_call :=
  | i_descriptor_set (task desc : Z) | i_descriptor_delete (task desc : Z)
  | i_descriptor_find (task desc : Z) | i_task_pending (task desc : Z)
  | i_task_not_pending (task desc : Z) | i_task_pop_pending (task : Z).

(** src/thread.c *)
Inductive thread_internal :=
  | i_alloc_kernel_stack (task thread : Z) | i_map_user_stack (task thread : Z)
  | i_dealloc_kernel_stack (task thread : Z) | i_finalize_thread_exit (thread : Z).

(** src/task.c *)
Inductive task_internal :=
  | i_map_first_4mb (task : Z) | i_generate_kill_job (task : Z) | i_free_task_method (task : Z)
  | i_close_task_sockets_async (task : Z) | i_task_exit (codeVal : Z) | i_resign_continuation.

(** src/socket.c *)
Inductive socket_internal :=
  | i_create_descriptor (socket task : Z) (isConnector : bool) | i_socket_hangup (socket : Z)
  | i_push_message (dest msg : Z) | i_wakeup_endpoint (dest : Z) | i_async_msg (info : Z)
  | i_socket_free (socket : Z) | i_switch_continuation (th : Z).

Inductive internal :=
  | pidmap_i (c : pidmap_call) | socketlist_i (c : socketlist_call) | thread_i (c : thread_internal)
  | task_i (c : task_internal) | socket_i (c : socket_internal).
Coercion pidmap_i : pidmap_call >-> internal.
Coercion socketlist_i : socketlist_call >-> internal.
Coercion thread_i : thread_internal >-> internal.
Coercion task_i : task_internal >-> internal.
Coercion socket_i : socket_internal >-> internal.

(** ** What a call runs *)
Section code.
Context `{Platform}.

Definition pidmap_code (c : pidmap_call) : prog () :=
  match c with
  | i_pidmap_alloc_pid => drop anscheduler_pidmap_alloc_pid
  | i_pidmap_free_pid pid => anscheduler_pidmap_free_pid pid
  | i_pidmap_set task => anscheduler_pidmap_set task
  | i_pidmap_unset task => anscheduler_pidmap_unset task
  | i_pidmap_get pid => drop (anscheduler_pidmap_get pid)
  end.

Definition socketlist_code (c : socketlist_call) : prog () :=
  match c with
  | i_descriptor_set task desc => anscheduler_descriptor_set task desc
  | i_descriptor_delete task desc => anscheduler_descriptor_delete task desc
  | i_descriptor_find task desc => drop (anscheduler_descriptor_find task desc)
  | i_task_pending task desc => anscheduler_task_pending task desc
  | i_task_not_pending task desc => anscheduler_task_not_pending task desc
  | i_task_pop_pending task => drop (anscheduler_task_pop_pending task)
  end.

Definition thread_internal_code (c : thread_internal) : prog () :=
  match c with
  | i_alloc_kernel_stack task thread => drop (_alloc_kernel_stack task thread)
  | i_map_user_stack task thread => drop (_map_user_stack task thread)
  | i_dealloc_kernel_stack task thread => _dealloc_kernel_stack task thread
  | i_finalize_thread_exit thread => drop (_finalize_thread_exit thread)
  end.

Definition task_internal_code (c : task_internal) : prog () :=
  match c with
  | i_map_first_4mb task => drop (_map_first_4mb task)
  | i_generate_kill_job task => _generate_kill_job task
  | i_free_task_method task => drop (_free_task_method task)
  | i_close_task_sockets_async task => _close_task_sockets_async task
  | i_task_exit codeVal => drop (_task_exit codeVal)
  | i_resign_continuation => drop _resign_continuation
  end.

Definition socket_internal_code (c : socket_internal) : prog () :=
  match c with
  | i_create_descriptor socket task isConnector => drop (_create_descriptor socket task isConnector)
  | i_socket_hangup socket => drop (_socket_hangup socket)
  | i_push_message dest msg => drop (_push_message dest msg)
  | i_wakeup_endpoint dest => _wakeup_endpoint dest
  | i_async_msg info => drop (_async_msg info)
  | i_socket_free socket => _socket_free socket
  | i_switch_continuation th => drop (_switch_continuation th)
  end.

Definition internal_code (i : internal) : prog () :=
  match i with
  | pidmap_i c => pidmap_code c
  | socketlist_i c => socketlist_code c
  | thread_i c => thread_internal_code c
  | task_i c => task_internal_code c
  | socket_i c => socket_internal_code c
  end.

End code.

(** ** Where a call may be made *)

Definition pidmap_section (c : pidmap_call) : section :=
  match c with
  | i_pidmap_alloc_pid | i_pidmap_free_pid _ | i_pidmap_set _ | i_pidmap_unset _ | i_pidmap_get _ => critical
  end.

Definition socketlist_section (c : socketlist_call) : section :=
  match c with
  | i_descriptor_set _ _ | i_descriptor_delete _ _ | i_descriptor_find _ _ | i_task_pending _ _
  | i_task_not_pending _ _ | i_task_pop_pending _ => critical
  end.

Definition thread_internal_section (c : thread_internal) : section :=
  match c with
  | i_alloc_kernel_stack _ _ | i_map_user_stack _ _ | i_dealloc_kernel_stack _ _
  | i_finalize_thread_exit _ => critical
  end.

Definition task_internal_section (c : task_internal) : section :=
  match c with
  | i_free_task_method _ | i_close_task_sockets_async _ => noncritical
  | i_map_first_4mb _ | i_generate_kill_job _ | i_task_exit _ | i_resign_continuation => critical
  end.

Definition socket_internal_section (c : socket_internal) : section :=
  match c with
  | i_socket_hangup _ | i_async_msg _ | i_socket_free _ => noncritical
  | i_wakeup_endpoint _ => reentered
  | i_create_descriptor _ _ _ | i_push_message _ _ | i_switch_continuation _ => critical
  end.

Definition internal_section (i : internal) : section :=
  match i with
  | pidmap_i c => pidmap_section c
  | socketlist_i c => socketlist_section c
  | thread_i c => thread_internal_section c
  | task_i c => task_internal_section c
  | socket_i c => socket_internal_section c
  end.

Definition internal_begins_inside (i : internal) : bool :=
  match internal_section i with noncritical => false | _ => true end.
