(* ===== verification/Typed.v ===== *)
(** * Typed: memory stays well typed

    An invariant of the memory that every operation of the scheduler preserves,
    wherever it stops: a structure lies in live memory, no address holds structures
    of two types, and arrays keep their lengths. A small program logic derives it
    from the operations' text. *)
From S2P Require Import Prelude Types Machine Demo Idxset RunQueue PagerQueue TaskRef Loop Interrupts TaskExit Paging PidMap Thread ThreadExit SocketList Socket TaskLife Interface.

(** ** The invariant *)

(** The types of structures, page tables included. *)
Inductive kind := kd_task | kd_thread | kd_socket | kd_desc | kd_msg | kd_fault | kd_info
  | kd_node | kd_vm.

Definition has_kind (s : kst) (k : kind) (p : Z) : Prop :=
  match k with
  | kd_task => is_Some (k_tasks s !! p)
  | kd_thread => is_Some (k_threads s !! p)
  | kd_socket => is_Some (k_sockets s !! p)
  | kd_desc => is_Some (k_descs s !! p)
  | kd_msg => is_Some (k_msgs s !! p)
  | kd_fault => is_Some (k_faults s !! p)
  | kd_info => is_Some (k_infos s !! p)
  | kd_node => is_Some (k_nodes s !! p)
  | kd_vm => is_Some (k_vms s !! p)
  end.

(** The arrays of the structures have the lengths of their declarations. *)
Record arrays_ok (s : kst) : Prop := {
  ar_sockets p o : k_tasks s !! p = Some o → length (task_sockets o) = 16%nat;
  ar_message p o : k_msgs s !! p = Some o → length (msg_message o) = 0xfe8%nat;
  ar_indexes p o : k_nodes s !! p = Some o → length (node_indexes o) = 0x1fe%nat;
  ar_pids : length (pidHashmap (k_pid s)) = 256%nat;
}.

Record typed (s : kst) : Prop := {
  ty_null : NULL ∉ k_live s;
  ty_live k p : has_kind s k p → p ∈ k_live s;
  ty_one k k' p : has_kind s k p → has_kind s k' p → k = k';
  ty_arrays : arrays_ok s;
}.

(** Live memory that holds no structure. *)
Definition untyped (s : kst) (p : Z) : Prop := p ∈ k_live s ∧ ∀ k, ¬ has_kind s k p.

(** At most the address [x] gets a structure, of kind [kx]. *)
Lemma typed_update s s' kx x :
  typed s → k_live s' = k_live s → has_kind s kx x ∨ untyped s x →
  (∀ k p, has_kind s' k p → has_kind s k p ∨ (k = kx ∧ p = x)) → arrays_ok s' → typed s'.
Proof.
  intros [H0 Hl H1 _] Hlive Hx Hk Ha.
  assert (∀ k, has_kind s k x → k = kx) as Hu.
  { intros k Hkx. destruct Hx as [Hx|[_ Hx]]; [by eapply H1|by destruct (Hx k)]. }
  assert (x ∈ k_live s) as Hxl by (destruct Hx as [Hx|[? _]]; [by eapply Hl|done]).
  split; [by rewrite Hlive| | |done].
  - intros k p [Hp|[-> ->]]%Hk; rewrite Hlive; [by eapply Hl|done].
  - intros k k' p [Hp|[-> ->]]%Hk [Hp'|[Hk' Hx']]%Hk; subst; auto; [by eapply H1|by symmetry; auto].
Qed.

(** Nothing gets a structure. *)
Lemma typed_shrink s s' :
  typed s → NULL ∉ k_live s' → (∀ k p, has_kind s' k p → has_kind s k p ∧ p ∈ k_live s') →
  arrays_ok s' → typed s'.
Proof.
  intros [_ _ H1 _] H0 Hk Ha. split; [done| | |done].
  - intros k p Hp. by apply Hk in Hp as [_ ?].
  - intros k k' p [Hp _]%Hk [Hp' _]%Hk. by eapply H1.
Qed.

(** [Obj T]: structures of type [T] can be read, overwritten and created. *)
Class Obj (T : Type) `{HeapOf T} := {
  obj_ok : T → Prop;
  obj_read s p o : typed s → heap s !! p = Some o → obj_ok o;
  obj_write s p o o' : typed s → heap s !! p = Some o → obj_ok o' →
    typed (set_heap (<[p := o']> (heap s)) s);
  obj_create s p o : typed s → untyped s p → obj_ok o →
    typed (set_heap (<[p := o]> (heap s)) s);
}.

Ltac arrays :=
  intros; simpl in *;
  repeat match goal with H : <[_ := _]> _ !! _ = Some _ |- _ =>
    apply lookup_insert_Some in H as [[? ?]|[? ?]]; subst end; eauto.

Ltac obj_instance K :=
  intros;
  match goal with
  | Hty : typed ?s, Ho : heap ?s !! ?p = Some ?o |- typed _ =>
      apply (typed_update s _ K p); [done|done|left; by eexists| |]
  | Hty : typed ?s, Hu : untyped ?s ?p |- typed _ =>
      apply (typed_update s _ K p); [done|done|by right| |]
  end;
  [ intros [] ?; simpl; rewrite ?lookup_insert_is_Some; intuition (subst; auto)
  | match goal with Hty : typed ?s |- _ => destruct (ty_arrays s Hty); split; arrays end ].

#[export] Instance obj_task : Obj task_t.
Proof.
  refine {| obj_ok o := length (task_sockets o) = 16%nat |}.
  - intros s p o Hty. apply (ar_sockets s (ty_arrays s Hty)).
  - obj_instance kd_task.
  - obj_instance kd_task.
Defined.
#[export] Instance obj_thread : Obj thread_t.
Proof. refine {| obj_ok o := True |}; [done|obj_instance kd_thread..]. Defined.
#[export] Instance obj_socket : Obj socket_t.
Proof. refine {| obj_ok o := True |}; [done|obj_instance kd_socket..]. Defined.
#[export] Instance obj_desc : Obj socket_desc_t.
Proof. refine {| obj_ok o := True |}; [done|obj_instance kd_desc..]. Defined.
#[export] Instance obj_msg : Obj socket_msg_t.
Proof.
  refine {| obj_ok o := length (msg_message o) = 0xfe8%nat |}.
  - intros s p o Hty. apply (ar_message s (ty_arrays s Hty)).
  - obj_instance kd_msg.
  - obj_instance kd_msg.
Defined.
#[export] Instance obj_fault : Obj page_fault_t.
Proof. refine {| obj_ok o := True |}; [done|obj_instance kd_fault..]. Defined.
#[export] Instance obj_info : Obj msginfo_t.
Proof. refine {| obj_ok o := True |}; [done|obj_instance kd_info..]. Defined.
#[export] Instance obj_node : Obj anidxset_node_t.
Proof.
  refine {| obj_ok o := length (node_indexes o) = 0x1fe%nat |}.
  - intros s p o Hty. apply (ar_indexes s (ty_arrays s Hty)).
  - obj_instance kd_node.
  - obj_instance kd_node.
Defined.

(** ** A program logic

    [keeps p]: from typed memory, [p] leads to typed memory, whether it returns or
    stops, on every CPU and with every bound on loops. *)
Definition wp (n c : nat) {A} (p : prog A) (Q : A → kst → Prop) (s : kst) : Prop :=
  match run n c p s with Done a s' => Q a s' | Stop _ s' => typed s' end.

Definition keeps {A} (p : prog A) : Prop := ∀ n c s, typed s → wp n c p (λ _, typed) s.

Create HintDb keeps discriminated.

Lemma wp_bind n c {A B} (p : prog A) (f : A → prog B) Q s :
  wp n c p (λ a s', wp n c (f a) Q s') s → wp n c (p ≫= f) Q s.
Proof. unfold wp. rewrite run_bind. by destruct (run n c p s). Qed.

Lemma wp_mono n c {A} (p : prog A) (Q Q' : A → kst → Prop) s :
  wp n c p Q s → (∀ a s', Q a s' → Q' a s') → wp n c p Q' s.
Proof. unfold wp. destruct (run n c p s); auto. Qed.

Lemma wp_act n c {R} (f : nat → kst → aresult R) Q s :
  typed s → (∀ r s', f c s = a_ok r s' → Q r s') → wp n c (act f) Q s.
Proof.
  intros Hty HQ. unfold wp. rewrite run_tail. unfold act.
  rewrite (run_act n c f mret). destruct (f c s) eqn:Hf; [|done..]. rewrite run_ret. auto.
Qed.

Lemma keeps_ret {A} (a : A) : keeps (mret a).
Proof. by intros n c s Hty. Qed.

Lemma keeps_bind {A B} (p : prog A) (f : A → prog B) :
  keeps p → (∀ a, keeps (f a)) → keeps (p ≫= f).
Proof. intros Hp Hf n c s Hty. apply wp_bind. eapply wp_mono; [by apply Hp|]. intros a s' ?. by apply Hf. Qed.

Lemma keeps_act {R} (f : nat → kst → aresult R) :
  (∀ c s r s', f c s = a_ok r s' → typed s → typed s') → keeps (act f).
Proof. intros Hf n c s Hty. apply wp_act; [done|]. eauto. Qed.

Lemma keeps_leave {A} l : keeps (A := A) (Leave l).
Proof. by intros n c s Hty. Qed.

Lemma keeps_stack_run {A} (p : prog Empty_set) : keeps p → keeps (A := A) (anscheduler_cpu_stack_run p).
Proof. intros Hp. apply keeps_bind; [done|intros []]. Qed.

Lemma keeps_iterate n c {X B A} (body : X → prog (X + B)) (k : B → prog A) :
  (∀ x, keeps (body x)) → (∀ b, keeps (k b)) → ∀ m x s, typed s →
  match iterate m (λ x s, run n c (body x) s) (λ b s, run n c (k b) s) x s with
  | Done _ s' | Stop _ s' => typed s'
  end.
Proof.
  intros Hb Hk m. induction m as [|m IH]; intros x s Hty; [done|]. rewrite iterate_S.
  pose proof (Hb x n c s Hty) as Hx. unfold wp in Hx.
  destruct (run n c (body x) s) as [[x'|b] s'|w s']; [by apply IH| |done].
  pose proof (Hk b n c s' Hx) as Hkb. unfold wp in Hkb. by destruct (run n c (k b) s').
Qed.

Lemma keeps_while {X B} (x : X) (body : X → prog (X + B)) :
  (∀ x, keeps (body x)) → keeps (while_ x body).
Proof.
  intros Hb n c s Hty. unfold wp. rewrite run_tail, run_while.
  pose proof (keeps_iterate n c body mret Hb keeps_ret n x s Hty) as Hi.
  by destruct (iterate _ _ _ _ _).
Qed.

Lemma keeps_for {R} count (body : Z → prog (option R)) :
  (∀ i, keeps (body i)) → ∀ i, keeps (for_ count i body).
Proof.
  intros Hb. induction count as [|k IH]; intros i; [apply keeps_ret|].
  change (keeps (r ← body i; match r with Some _ => mret r | None => for_ k (i + 1) body end)).
  apply keeps_bind; [done|]. intros [r|]; [apply keeps_ret|apply IH].
Qed.

Lemma keeps_for_each count (body : Z → prog ()) :
  (∀ i, keeps (body i)) → ∀ i, keeps (for_each count i body).
Proof.
  intros Hb. induction count as [|k IH]; intros i; [apply keeps_ret|].
  change (keeps (body i;; for_each k (i + 1) body)). apply keeps_bind; auto.
Qed.

(** *** Accesses *)

(** The same structures, live memory and process table. *)
Lemma typed_same s s' :
  typed s → k_live s' = k_live s → (∀ k p, has_kind s' k p ↔ has_kind s k p) →
  k_tasks s' = k_tasks s → k_msgs s' = k_msgs s → k_nodes s' = k_nodes s →
  length (pidHashmap (k_pid s')) = length (pidHashmap (k_pid s)) → typed s'.
Proof.
  intros [H0 Hl H1 []] Hlive Hk Ht Hm Hn Hp. split.
  - by rewrite Hlive.
  - intros k p Hkp%Hk. rewrite Hlive. by eapply Hl.
  - intros k k' p Hkp%Hk Hkp'%Hk. by eapply H1.
  - split; rewrite ?Ht, ?Hm, ?Hn, ?Hp; done.
Qed.

Lemma typed_add_lock l s : typed s → typed (add_lock l s).
Proof. intros Hty. apply (typed_same s); try done; by intros []. Qed.
Lemma typed_del_lock l s : typed s → typed (del_lock l s).
Proof. intros Hty. apply (typed_same s); try done; by intros []. Qed.
Lemma typed_upd_cpu c g s : typed s → typed (upd_cpu c g s).
Proof. intros Hty. apply (typed_same s); try done; by intros []. Qed.
Lemma typed_log e s : typed s → typed (log_event e s).
Proof. intros Hty. apply (typed_same s); try done; by intros []. Qed.

Lemma keeps_gget {R} (f : kst → R) : keeps (gget f).
Proof. apply keeps_act. by intros c s r s' [= <- <-]. Qed.

Lemma keeps_gset g : (∀ s, typed s → typed (g s)) → keeps (gset_ g).
Proof. intros Hg. apply keeps_act. intros c s r s' [= <- <-]. apply Hg. Qed.

Lemma keeps_rd {T R} `{HeapOf T} p (f : T → R) : keeps (rd p f).
Proof. apply keeps_act. intros c s r s'. destruct (heap s !! p); by intros [= <- <-]. Qed.

Lemma keeps_wr {T} `{Obj T} p (g : T → T) : (∀ o, obj_ok o → obj_ok (g o)) → keeps (wr p g).
Proof.
  intros Hg. apply keeps_act. intros c s r s'. destruct (heap s !! p) as [o|] eqn:Ho; intros [= <- <-] Hty.
  eapply obj_write; [done|done|]. eapply Hg, obj_read; done.
Qed.

Lemma keeps_rmw {T R} `{Obj T} p (f : T → R) (g : T → T) :
  (∀ o, obj_ok o → obj_ok (g o)) → keeps (rmw p f g).
Proof.
  intros Hg. apply keeps_act. intros c s r s'. destruct (heap s !! p) as [o|] eqn:Ho; intros [= <- <-] Hty.
  eapply obj_write; [done|done|]. eapply Hg, obj_read; done.
Qed.

Lemma keeps_index l i : keeps (index l i).
Proof. apply keeps_act. intros c s r s'. destruct (l !! _); by intros [= <- <-]. Qed.

Lemma keeps_check_index i len : keeps (check_index i len).
Proof. apply keeps_act. intros c s r s'. case_decide; by intros [= <- <-]. Qed.

Lemma keeps_lock l : keeps (anscheduler_lock l).
Proof.
  apply keeps_act. intros c s r s'. destruct (lock_live s l); [|done].
  case_decide; intros [= <- <-]. apply typed_add_lock.
Qed.

Lemma keeps_unlock l : keeps (anscheduler_unlock l).
Proof. apply keeps_act. intros c s r s'. case_decide; intros [= <- <-]. apply typed_del_lock. Qed.

Lemma keeps_get_task : keeps anscheduler_cpu_get_task.
Proof. apply keeps_act. by intros c s r s' [= <- <-]. Qed.
Lemma keeps_get_thread : keeps anscheduler_cpu_get_thread.
Proof. apply keeps_act. by intros c s r s' [= <- <-]. Qed.
Lemma keeps_set_task t : keeps (anscheduler_cpu_set_task t).
Proof. apply keeps_act. intros c s r s' [= <- <-]. apply typed_upd_cpu. Qed.
Lemma keeps_set_thread t : keeps (anscheduler_cpu_set_thread t).
Proof. apply keeps_act. intros c s r s' [= <- <-]. apply typed_upd_cpu. Qed.
Lemma keeps_timer_set t : keeps (anscheduler_timer_set t).
Proof. apply keeps_act. intros c s r s' [= <- <-]. apply typed_upd_cpu. Qed.
Lemma keeps_cpu_lock : keeps anscheduler_cpu_lock.
Proof. apply keeps_act. intros c s r s'. destruct (cpu_locked _); intros [= <- <-]. apply typed_upd_cpu. Qed.
Lemma keeps_cpu_unlock : keeps anscheduler_cpu_unlock.
Proof. apply keeps_act. intros c s r s'. destruct (cpu_locked _); intros [= <- <-]. apply typed_upd_cpu. Qed.

Lemma keeps_set_state thread stack ip arg : keeps (anscheduler_set_state thread stack ip arg).
Proof. by apply keeps_wr. Qed.

Lemma keeps_save th (body : prog Empty_set) : keeps body → keeps (anscheduler_save_return_state th body).
Proof.
  intros Hb n c s Hty. unfold wp, anscheduler_save_return_state, run. fold run.
  destruct (k_threads s !! th) as [t|] eqn:Ht; [|done].
  assert (typed (set_k_threads (<[th := set_thread_state state_saved t]> (k_threads s)) s)) as Hty'
    by exact (obj_write s th t _ Hty Ht I).
  pose proof (Hb n c _ Hty') as Hw. unfold wp in Hw. by destruct (run n c body _) as [[]|].
Qed.

(** Page tables are the ninth kind. *)
Lemma typed_vm_upd root g s : typed s → typed (vm_upd root g s).
Proof.
  intros Hty. apply (typed_same s); try done. intros [] p; simpl; try done.
  apply lookup_alter_is_Some.
Qed.

Lemma typed_nmaps m s : typed s → typed (set_k_nmaps m s).
Proof. intros Hty. apply (typed_same s); try done; by intros []. Qed.

Lemma typed_free p s : typed s → typed (free_step p s).
Proof.
  intros Hty. pose proof Hty as [H0 Hl H1 []]. apply (typed_shrink s); [done| | |].
  - simpl. set_solver.
  - intros k q Hk. assert (has_kind s k q ∧ q ≠ p) as [Hkq Hne].
    { destruct k; simpl in *; by apply lookup_delete_is_Some in Hk as [? ?]. }
    split; [done|]. simpl. apply elem_of_difference. split; [by eapply Hl|].
    by rewrite elem_of_singleton.
  - split; simpl; try done; intros q o [_ Hq]%lookup_delete_Some; eauto.
Qed.

Lemma keeps_free p : keeps (anscheduler_free p).
Proof. apply keeps_act. intros c s r s'. case_decide; intros [= <- <-]. apply typed_free. Qed.

Section alloc.
Context `{Platform, !PlatformOk _}.

Lemma alloc_step_typed size s (p := plat_alloc (k_nallocs s) (k_live s) size) :
  typed s → typed (alloc_step size s) ∧ (p ≠ NULL → untyped (alloc_step size s) p) ∧
  ∀ x, untyped s x → untyped (alloc_step size s) x.
Proof.
  intros Hty. pose proof Hty as [H0 Hl H1 Ha].
  assert (∀ k q, has_kind (alloc_step size s) k q ↔ has_kind s k q) as Hk by (by intros []).
  assert (∀ q, q ∈ k_live s → q ∈ k_live (alloc_step size s)) as Hlive by apply alloc_step_live.
  assert (NULL ∉ k_live (alloc_step size s)) as Hnull.
  { simpl. case_decide as Hp; [done|]. rewrite elem_of_union, elem_of_singleton. intros [?|?]; [by apply Hp|done]. }
  split_and!.
  - split; [done| | |].
    + intros k q Hq%Hk. by eapply Hlive, Hl.
    + intros k k' q Hq%Hk Hq'%Hk. by eapply H1.
    + by destruct Ha.
  - intros Hp. split; [by apply alloc_step_new|]. intros k Hq%Hk.
    by apply (plat_alloc_fresh (k_nallocs s) (k_live s) size Hp), (Hl k).
  - intros x [Hx Hno]. split; [by apply Hlive|]. intros k Hq%Hk. by eapply Hno.
Qed.

Lemma wp_alloc n c size Q s :
  typed s →
  (∀ p s', typed s' → (p ≠ NULL → untyped s' p) → (∀ x, untyped s x → untyped s' x) → Q p s') →
  wp n c (anscheduler_alloc size) Q s.
Proof.
  intros Hty HQ. destruct (alloc_step_typed size s Hty) as (? & ? & ?).
  apply wp_act; [done|]. intros r s' [= <- <-]. by apply HQ.
Qed.

Lemma wp_zero_as n c {T} `{Obj T} p (o : T) Q s :
  typed s → untyped s p → obj_ok o → (∀ s', typed s' → Q () s') → wp n c (zero_as p o) Q s.
Proof.
  intros Hty Hu Ho HQ. apply wp_act; [done|]. intros r s'. case_decide; intros [= <- <-].
  apply HQ. by apply obj_create.
Qed.

Lemma keeps_alloc size : keeps (anscheduler_alloc size).
Proof. intros n c s Hty. by apply wp_alloc. Qed.

Lemma keeps_alloc_as {T} `{Obj T} (junk : Z → T) size :
  (∀ p, obj_ok (junk p)) → keeps (alloc_as junk size).
Proof.
  intros Hj. apply keeps_act. intros c s r s' [= <- <-] Hty.
  destruct (alloc_step_typed size s Hty) as (? & Hu & _). case_decide as Hp; [done|].
  apply obj_create; auto.
Qed.

(** An allocation that is zeroed at once. *)
Lemma keeps_alloc_zero {A T} `{Obj T} size (o : T) (k1 : prog A) (k2 : Z → prog A) :
  obj_ok o → keeps k1 → (∀ p, keeps (k2 p)) →
  keeps (p ← anscheduler_alloc size; if decide (p = NULL) then k1 else zero_as p o;; k2 p).
Proof.
  intros Ho Hk1 Hk2 n c s Hty. apply wp_bind, wp_alloc; [done|].
  intros p s' Hty' Hu _. case_decide; [by apply Hk1|].
  apply wp_bind. apply (wp_zero_as n c p o); auto. intros s2 Hty2. by apply Hk2.
Qed.

Lemma keeps_vm_root_alloc : keeps anscheduler_vm_root_alloc.
Proof.
  apply keeps_act. intros c s r s' [= <- <-] Hty.
  destruct (alloc_step_typed 0x1000 s Hty) as (Hty' & Hu & _). case_decide as Hp; [done|].
  apply (typed_update (alloc_step 0x1000 s) _ kd_vm (plat_alloc (k_nallocs s) (k_live s) 0x1000));
    [done|done|by right; apply Hu| |].
  - intros [] q; simpl; rewrite ?lookup_insert_is_Some; intuition.
  - by destruct (ty_arrays _ Hty').
Qed.

Lemma keeps_vm_map root vpage dpage flags : keeps (anscheduler_vm_map root vpage dpage flags).
Proof.
  apply keeps_act. intros c s r s'. destruct (k_vms s !! root); [|done].
  destruct (plat_map_ok _ _ _); intros [= <- <-] Hty; [by apply typed_vm_upd, typed_nmaps|by apply typed_nmaps].
Qed.

Lemma keeps_vm_unmap root vpage : keeps (anscheduler_vm_unmap root vpage).
Proof.
  apply keeps_act. intros c s r s'. destruct (k_vms s !! root); intros [= <- <-]. apply typed_vm_upd.
Qed.

Lemma keeps_vm_lookup root vpage : keeps (anscheduler_vm_lookup root vpage).
Proof. apply keeps_act. intros c s r s'. destruct (k_vms s !! root); by intros [= <- <-]. Qed.

Lemma keeps_vm_root_free root : keeps (anscheduler_vm_root_free root).
Proof.
  apply keeps_act. intros c s r s'. case_decide; intros [= <- <-] Hty. by apply typed_log, typed_free.
Qed.
End alloc.

Lemma keeps_vm_unmap_all root : keeps (vm_unmap_all root).
Proof.
  apply keeps_act. intros c s r s'. destruct (k_vms s !! root); intros [= <- <-]. apply typed_vm_upd.
Qed.
Lemma keeps_vm_root_free_async root : keeps (anscheduler_vm_root_free_async root).
Proof.
  apply keeps_bind; [apply keeps_vm_unmap_all|intros _]. apply keeps_bind; [apply keeps_cpu_lock|intros _].
  apply keeps_bind; [apply keeps_vm_root_free|intros _]. apply keeps_cpu_unlock.
Qed.
Lemma keeps_cleanup t : keeps (anscheduler_task_cleanup t).
Proof. apply keeps_gset. intros s. apply typed_log. Qed.
Lemma keeps_notify_invlpg t : keeps (anscheduler_cpu_notify_invlpg t).
Proof. apply keeps_gset. intros s. apply typed_log. Qed.
Lemma keeps_get_time : keeps anscheduler_get_time.
Proof. apply keeps_gget. Qed.
Lemma keeps_abort {A} msg : keeps (A := A) (anscheduler_abort msg).
Proof. apply keeps_leave. Qed.
Lemma keeps_thread_run {A} task thread : keeps (A := A) (anscheduler_thread_run task thread).
Proof. apply keeps_leave. Qed.

#[export] Hint Resolve keeps_ret keeps_gget keeps_rd keeps_index keeps_check_index keeps_lock
  keeps_unlock keeps_get_task keeps_get_thread keeps_set_task keeps_set_thread keeps_timer_set
  keeps_cpu_lock keeps_cpu_unlock keeps_set_state keeps_free keeps_alloc keeps_vm_root_alloc
  keeps_vm_map keeps_vm_unmap keeps_vm_lookup keeps_vm_root_free keeps_vm_root_free_async
  keeps_cleanup keeps_notify_invlpg keeps_get_time keeps_abort keeps_thread_run keeps_leave : keeps.

(** ** The operations

    [by_keeps op] follows the text of an operation down to its accesses and to calls
    of operations that are already known. *)

Ltac same_memory := intros; eapply typed_same; [eassumption|try done..]; by intros [].
Ltac obj_side :=
  intros; simpl in *; unfold nth_set; rewrite ?length_insert, ?length_inserts; done.

Ltac keeps_step :=
  match goal with
  | |- ∀ _, keeps _ => intros ?
  | |- keeps (_ ≫= _) => apply keeps_bind
  | |- keeps (while_ _ _) => apply keeps_while
  | |- keeps (for_ _ _ _) => apply keeps_for
  | |- keeps (for_each _ _ _) => apply keeps_for_each
  | |- keeps (wr _ _) => apply keeps_wr; obj_side
  | |- keeps (rmw _ _ _) => apply keeps_rmw; obj_side
  | |- keeps (alloc_as _ _) => apply keeps_alloc_as; first [done|apply plat_junk_msg_length]
  | |- keeps (gset_ _) => apply keeps_gset; same_memory
  | |- keeps (anscheduler_cpu_stack_run _) => apply keeps_stack_run
  | |- keeps (anscheduler_save_return_state _ _) => apply keeps_save
  | |- keeps (if decide _ then _ else _) => case_decide
  | |- keeps (match ?x with _ => _ end) => destruct x
  | |- keeps _ => solve [auto with keeps nocore]
  end.
Ltac keeps_steps := repeat keeps_step.
Tactic Notation "by_keeps" reference(op) := unfold op; autounfold with prog; keeps_steps.

(** What is left of an operation. *)
Ltac by_rest :=
  match goal with |- wp ?n ?c ?p _ ?s =>
    let Hk := fresh in assert (keeps p) as Hk by keeps_steps; by apply Hk
  end.

(** *** lib/anidxset *)

Lemma keeps_rd_root {R} r (f : anidxset_root_t → R) : keeps (rd_root r f).
Proof. apply keeps_act. intros c s v s'. destruct (root_at r s); by intros [= <- <-]. Qed.

Lemma typed_root_upd r v s : typed s → typed (root_upd r v s).
Proof.
  intros Hty. pose proof (ty_arrays s Hty) as Ha. pose proof Hty as [H0 Hl H1 _].
  assert (∀ f, (∀ o, length (task_sockets (f o)) = length (task_sockets o)) →
    ∀ t, typed (set_k_tasks (alter f t (k_tasks s)) s)) as Halt.
  { intros f Hf t. assert (∀ k p, has_kind (set_k_tasks (alter f t (k_tasks s)) s) k p → has_kind s k p) as Hk.
    { intros [] p; simpl; try done. apply lookup_alter_is_Some. }
    split; [done|intros k p Hp%Hk; by eapply Hl|intros k k' p Hp%Hk Hp'%Hk; by eapply H1|].
    destruct Ha as [Hs ? ? ?]. split; try done. simpl. intros p o.
    rewrite lookup_alter_Some. intros [(_ & o' & Ho & ->)|[_ Ho]]; [rewrite Hf|]; by eapply Hs. }
  destruct r; simpl; [by apply Halt|by apply Halt|]. apply (typed_same s); try done; by intros [].
Qed.

Lemma keeps_wr_root r g : keeps (wr_root r g).
Proof.
  apply keeps_act. intros c s v s'. destruct (root_at r s); intros [= <- <-]. apply typed_root_upd.
Qed.
#[export] Hint Resolve keeps_rd_root keeps_wr_root : keeps.

(** *** Memory that holds no structure yet

    [anscheduler_thread_create] takes a stack index between allocating the thread
    and zeroing it, so the index set must leave the new memory alone. *)
Definition spares (x : Z) {A} (p : prog A) : Prop :=
  ∀ n c s, typed s → untyped s x → wp n c p (λ _ s', typed s' ∧ untyped s' x) s.

Lemma spares_ret x {A} (a : A) : spares x (mret a).
Proof. by intros n c s Hty Hu. Qed.

Lemma spares_bind x {A B} (p : prog A) (f : A → prog B) :
  spares x p → (∀ a, spares x (f a)) → spares x (p ≫= f).
Proof.
  intros Hp Hf n c s Hty Hu. apply wp_bind. eapply wp_mono; [by apply Hp|]. intros a s' [? ?]. by apply Hf.
Qed.

Lemma spares_act x {R} (f : nat → kst → aresult R) :
  keeps (act f) →
  (∀ c s r s', f c s = a_ok r s' → x ∈ k_live s → x ∈ k_live s' ∧
     ∀ k, has_kind s' k x → has_kind s k x) →
  spares x (act f).
Proof.
  intros Hk Hf n c s Hty [Hx Hno]. pose proof (Hk n c s Hty) as Hw. revert Hw. unfold wp.
  rewrite run_tail. unfold act. rewrite (run_act n c f mret).
  destruct (f c s) as [r s'|l|e] eqn:Hfs; [|done..]. rewrite run_ret. intros Hty'.
  destruct (Hf c s r s' Hfs Hx) as [Hx' Hk']. split; [done|]. split; [done|]. intros k Hkx. by eapply Hno, Hk'.
Qed.

Lemma spares_for_each x count (body : Z → prog ()) :
  (∀ i, spares x (body i)) → ∀ i, spares x (for_each count i body).
Proof.
  intros Hb. induction count as [|k IH]; intros i; [apply spares_ret|].
  change (spares x (body i;; for_each k (i + 1) body)). apply spares_bind; auto.
Qed.

Lemma spares_rd x {T R} `{HeapOf T} p (f : T → R) : spares x (rd p f).
Proof.
  apply spares_act; [apply keeps_rd|]. intros c s r s'. destruct (heap s !! p); by intros [= <- <-].
Qed.
Lemma spares_index x l i : spares x (index l i).
Proof. apply spares_act; [apply keeps_index|]. intros c s r s'. destruct (l !! _); by intros [= <- <-]. Qed.
Lemma spares_check_index x i len : spares x (check_index i len).
Proof. apply spares_act; [apply keeps_check_index|]. intros c s r s'. case_decide; by intros [= <- <-]. Qed.
Lemma spares_rd_root x {R} r (f : anidxset_root_t → R) : spares x (rd_root r f).
Proof. apply spares_act; [apply keeps_rd_root|]. intros c s v s'. destruct (root_at r s); by intros [= <- <-]. Qed.

Lemma spares_wr_root x r g : spares x (wr_root r g).
Proof.
  apply spares_act; [apply keeps_wr_root|]. intros c s v s'. destruct (root_at r s); intros [= <- <-] Hx.
  split; [by destruct r|]. intros k. destruct r, k; simpl; try done; apply lookup_alter_is_Some.
Qed.

Lemma spares_wr_node x p g :
  (∀ o : anidxset_node_t, obj_ok o → obj_ok (g o)) → spares x (wr p g).
Proof.
  intros Hg. apply spares_act; [by apply keeps_wr|]. intros c s v s'.
  destruct (heap s !! p) as [o|] eqn:Ho; intros [= <- <-] Hx. split; [done|].
  intros []; simpl; try done. rewrite lookup_insert_is_Some. intros [<-|[_ ?]]; [by eexists|done].
Qed.

Lemma spares_lock x l : spares x (anscheduler_lock l).
Proof.
  apply spares_act; [apply keeps_lock|]. intros c s v s'. destruct (lock_live s l); [|done].
  case_decide; intros [= <- <-] Hx. split; [done|by intros []].
Qed.
Lemma spares_unlock x l : spares x (anscheduler_unlock l).
Proof.
  apply spares_act; [apply keeps_unlock|]. intros c s v s'. case_decide; intros [= <- <-] Hx.
  split; [done|by intros []].
Qed.

Section ops.
Context `{Platform, !PlatformOk _}.

Lemma spares_idxset_alloc x : spares x anscheduler_idxset_alloc.
Proof.
  apply spares_act; [apply keeps_alloc_as, plat_junk_node_length|]. intros c s v s' [= <- <-] Hx.
  case_decide as Hp.
  - split; [by apply alloc_step_live|by intros []].
  - split; [by apply alloc_step_live|]. intros []; simpl; try done.
    rewrite lookup_insert_is_Some. intros [He|[_ ?]]; [|done].
    destruct (plat_alloc_fresh (k_nallocs s) (k_live s) 0x1000 Hp). by rewrite He.
Qed.

Ltac spares_step :=
  match goal with
  | |- ∀ _, spares _ _ => intros ?
  | |- spares _ (_ ≫= _) => apply spares_bind
  | |- spares _ (for_each _ _ _) => apply spares_for_each
  | |- spares _ (wr _ _) => apply spares_wr_node; obj_side
  | |- spares _ (if decide _ then _ else _) => case_decide
  | |- spares _ _ => first [apply spares_ret | apply spares_rd | apply spares_index
      | apply spares_check_index | apply spares_rd_root | apply spares_wr_root
      | apply spares_idxset_alloc | apply spares_lock | apply spares_unlock ]
  end.

Lemma spares_allocate_next_page x root : spares x (_allocate_next_page root).
Proof. unfold _allocate_next_page, wr_index. repeat spares_step. Qed.

(** The page that [anidxset_get] frees is a page of indexes. *)
Lemma spares_anidxset_get x root : spares x (anidxset_get root).
Proof.
  unfold anidxset_get, rd_index. apply spares_bind; [apply spares_rd_root|]. intros node.
  intros n c s Hty Hu. apply wp_bind, wp_act; [done|]. intros count s0 Hrd.
  simpl in Hrd. destruct (k_nodes s !! node) as [nd|] eqn:Hnode; [|done]. injection Hrd as <- <-.
  assert (node ≠ x) as Hne by (intros ->; destruct Hu as [_ Hno]; apply (Hno kd_node); by eexists).
  match goal with |- wp _ _ ?p _ _ => assert (spares x p) as Hsp end; [|by apply Hsp].
  apply spares_bind; [|intros ?; repeat spares_step].
  case_decide; [|apply spares_ret]. apply spares_bind; [apply spares_rd|]. intros next.
  case_decide.
  - apply spares_bind; [apply spares_allocate_next_page|intros _; apply spares_ret].
  - apply spares_bind; [apply spares_wr_root|intros _]. apply spares_bind; [|intros _; apply spares_ret].
    apply spares_act; [apply keeps_free|]. intros c' s' v s''. case_decide; intros [= <- <-] Hx.
    split; [simpl; set_solver|]. intros []; simpl; intros [_ ?]%lookup_delete_is_Some; done.
Qed.
End ops.

(** *** The operations of each file *)
Section operations.
Context `{Platform, !PlatformOk _}.

Lemma keeps_rd_index (node i : Z) : keeps (rd_index node i).
Proof. by_keeps rd_index. Qed.
#[local] Hint Resolve keeps_rd_index : keeps.
Lemma keeps_wr_index (node i v : Z) : keeps (wr_index node i v).
Proof. by_keeps wr_index. Qed.
#[local] Hint Resolve keeps_wr_index : keeps.
Lemma keeps_idxset_free (ptr : Z) : keeps (anscheduler_idxset_free ptr).
Proof. by_keeps anscheduler_idxset_free. Qed.
#[local] Hint Resolve keeps_idxset_free : keeps.
Lemma keeps__allocate_next_page (root : root_ptr) : keeps (_allocate_next_page root).
Proof. by_keeps _allocate_next_page. Qed.
#[local] Hint Resolve keeps__allocate_next_page : keeps.
Lemma keeps_anidxset_get (root : root_ptr) : keeps (anidxset_get root).
Proof. by_keeps anidxset_get. Qed.
#[local] Hint Resolve keeps_anidxset_get : keeps.
Lemma keeps_anidxset_free (root : root_ptr) : keeps (anidxset_free root).
Proof. by_keeps anidxset_free. Qed.
#[local] Hint Resolve keeps_anidxset_free : keeps.
Lemma keeps_idxset_alloc : keeps anscheduler_idxset_alloc.
Proof. apply keeps_alloc_as, plat_junk_node_length. Qed.
#[local] Hint Resolve keeps_idxset_alloc : keeps.
Lemma keeps_anidxset_initialize (root : root_ptr) : keeps (anidxset_initialize root).
Proof. by_keeps anidxset_initialize. Qed.
#[local] Hint Resolve keeps_anidxset_initialize : keeps.
Lemma keeps_idxset_init (root : root_ptr) : keeps (anscheduler_idxset_init root).
Proof. by_keeps anscheduler_idxset_init. Qed.
#[local] Hint Resolve keeps_idxset_init : keeps.
Lemma keeps_anidxset_put (root : root_ptr) (value : Z) : keeps (anidxset_put root value).
Proof. by_keeps anidxset_put. Qed.
#[local] Hint Resolve keeps_anidxset_put : keeps.

(** *** src/loop.c: the queue *)

Lemma keeps_loop_enqueue (thread : Z) : keeps (loop_enqueue thread).
Proof. by_keeps loop_enqueue. Qed.
#[local] Hint Resolve keeps_loop_enqueue : keeps.
Lemma keeps_loop_push (thread : Z) : keeps (anscheduler_loop_push thread).
Proof. by_keeps anscheduler_loop_push. Qed.
#[local] Hint Resolve keeps_loop_push : keeps.
Lemma keeps_loop_unlink (thread : Z) : keeps (loop_unlink thread).
Proof. by_keeps loop_unlink. Qed.
#[local] Hint Resolve keeps_loop_unlink : keeps.
Lemma keeps_loop_delete (thread : Z) : keeps (anscheduler_loop_delete thread).
Proof. by_keeps anscheduler_loop_delete. Qed.
#[local] Hint Resolve keeps_loop_delete : keeps.
Lemma keeps__shift_thread : keeps _shift_thread.
Proof. by_keeps _shift_thread. Qed.
#[local] Hint Resolve keeps__shift_thread : keeps.
Lemma keeps__push_unconditional (thread : Z) : keeps (_push_unconditional thread).
Proof. by_keeps _push_unconditional. Qed.
#[local] Hint Resolve keeps__push_unconditional : keeps.
Lemma keeps_loop_push_kernel (arg : Z) (fn : kernel_fn) : keeps (anscheduler_loop_push_kernel arg fn).
Proof.
  intros n c s Hty. apply wp_bind, wp_alloc; [done|]. intros p s1 Hty1 Hu _.
  case_decide; [by_rest|]. apply wp_bind, wp_alloc; [done|]. intros q s2 Hty2 _ Hspare.
  case_decide; [by_rest|]. apply wp_bind, (wp_zero_as n c p zero_thread); [done|by auto|done|].
  intros s3 Hty3. by_rest.
Qed.
#[local] Hint Resolve keeps_loop_push_kernel : keeps.

(** *** src/paging.c: the queue of faults *)

Lemma keeps_pager_get : keeps anscheduler_pager_get.
Proof. by_keeps anscheduler_pager_get. Qed.
#[local] Hint Resolve keeps_pager_get : keeps.
Lemma keeps_pager_set (thread : Z) : keeps (anscheduler_pager_set thread).
Proof. by_keeps anscheduler_pager_set. Qed.
#[local] Hint Resolve keeps_pager_set : keeps.
Lemma keeps_pager_lock : keeps anscheduler_pager_lock.
Proof. by_keeps anscheduler_pager_lock. Qed.
#[local] Hint Resolve keeps_pager_lock : keeps.
Lemma keeps_pager_unlock : keeps anscheduler_pager_unlock.
Proof. by_keeps anscheduler_pager_unlock. Qed.
#[local] Hint Resolve keeps_pager_unlock : keeps.
Lemma keeps_pager_shift : keeps anscheduler_pager_shift.
Proof. by_keeps anscheduler_pager_shift. Qed.
#[local] Hint Resolve keeps_pager_shift : keeps.
Lemma keeps_pager_peek : keeps anscheduler_pager_peek.
Proof. by_keeps anscheduler_pager_peek. Qed.
#[local] Hint Resolve keeps_pager_peek : keeps.
Lemma keeps_pager_waiting : keeps anscheduler_pager_waiting.
Proof. by_keeps anscheduler_pager_waiting. Qed.
#[local] Hint Resolve keeps_pager_waiting : keeps.
Lemma keeps_push_fault (fault : Z) : keeps (push_fault fault).
Proof. by_keeps push_fault. Qed.
#[local] Hint Resolve keeps_push_fault : keeps.

(** *** src/task.c: references *)

Lemma keeps_task_reference (task : Z) : keeps (anscheduler_task_reference task).
Proof. by_keeps anscheduler_task_reference. Qed.
#[local] Hint Resolve keeps_task_reference : keeps.
Lemma keeps_task_kill (task reason : Z) : keeps (anscheduler_task_kill task reason).
Proof. by_keeps anscheduler_task_kill. Qed.
#[local] Hint Resolve keeps_task_kill : keeps.
Lemma keeps_delete_threads (first : Z) : keeps (delete_threads first).
Proof. by_keeps delete_threads. Qed.
#[local] Hint Resolve keeps_delete_threads : keeps.
Lemma keeps__generate_kill_job (task : Z) : keeps (_generate_kill_job task).
Proof. by_keeps _generate_kill_job. Qed.
#[local] Hint Resolve keeps__generate_kill_job : keeps.
Lemma keeps_task_dereference (task : Z) : keeps (anscheduler_task_dereference task).
Proof. by_keeps anscheduler_task_dereference. Qed.
#[local] Hint Resolve keeps_task_dereference : keeps.

(** *** src/loop.c: switching threads *)

Lemma keeps_next_thread_body (max now : Z) (st : Z * Z) : keeps (next_thread_body max now st).
Proof. by_keeps next_thread_body. Qed.
#[local] Hint Resolve keeps_next_thread_body : keeps.
Lemma keeps__next_thread : keeps _next_thread.
Proof. by_keeps _next_thread. Qed.
#[local] Hint Resolve keeps__next_thread : keeps.
Lemma keeps_loop_push_cur : keeps anscheduler_loop_push_cur.
Proof. by_keeps anscheduler_loop_push_cur. Qed.
#[local] Hint Resolve keeps_loop_push_cur : keeps.
Lemma keeps_loop_run : keeps anscheduler_loop_run.
Proof. by_keeps anscheduler_loop_run. Qed.
#[local] Hint Resolve keeps_loop_run : keeps.
Lemma keeps__run_loop_stub : keeps _run_loop_stub.
Proof. by_keeps _run_loop_stub. Qed.
#[local] Hint Resolve keeps__run_loop_stub : keeps.
Lemma keeps__resign_stub : keeps _resign_stub.
Proof. by_keeps _resign_stub. Qed.
#[local] Hint Resolve keeps__resign_stub : keeps.
Lemma keeps_loop_break_task {A} : keeps (anscheduler_loop_break_task (A := A)).
Proof. by_keeps anscheduler_loop_break_task. Qed.
#[local] Hint Resolve keeps_loop_break_task : keeps.
Lemma keeps_loop_resign {A} : keeps (anscheduler_loop_resign (A := A)).
Proof. by_keeps anscheduler_loop_resign. Qed.
#[local] Hint Resolve keeps_loop_resign : keeps.
Lemma keeps__save_resign_stub : keeps _save_resign_stub.
Proof. by_keeps _save_resign_stub. Qed.
#[local] Hint Resolve keeps__save_resign_stub : keeps.
Lemma keeps_loop_save_and_resign : keeps anscheduler_loop_save_and_resign.
Proof. by_keeps anscheduler_loop_save_and_resign. Qed.
#[local] Hint Resolve keeps_loop_save_and_resign : keeps.
Lemma keeps__delete_cur_kernel : keeps _delete_cur_kernel.
Proof. by_keeps _delete_cur_kernel. Qed.
#[local] Hint Resolve keeps__delete_cur_kernel : keeps.
Lemma keeps_loop_delete_cur_kernel {A} : keeps (anscheduler_loop_delete_cur_kernel (A := A)).
Proof. by_keeps anscheduler_loop_delete_cur_kernel. Qed.
#[local] Hint Resolve keeps_loop_delete_cur_kernel : keeps.
Lemma keeps__switch_to_thread (thread : Z) : keeps (_switch_to_thread thread).
Proof. by_keeps _switch_to_thread. Qed.
#[local] Hint Resolve keeps__switch_to_thread : keeps.
Lemma keeps_loop_switch {A} (task thread : Z) : keeps (anscheduler_loop_switch (A := A) task thread).
Proof. by_keeps anscheduler_loop_switch. Qed.
#[local] Hint Resolve keeps_loop_switch : keeps.

(** *** src/interrupts.c *)

Lemma keeps_intd_lock : keeps anscheduler_intd_lock.
Proof. by_keeps anscheduler_intd_lock. Qed.
#[local] Hint Resolve keeps_intd_lock : keeps.
Lemma keeps_intd_unlock : keeps anscheduler_intd_unlock.
Proof. by_keeps anscheduler_intd_unlock. Qed.
#[local] Hint Resolve keeps_intd_unlock : keeps.
Lemma keeps_intd_get : keeps anscheduler_intd_get.
Proof. by_keeps anscheduler_intd_get. Qed.
#[local] Hint Resolve keeps_intd_get : keeps.
Lemma keeps_intd_set (thread : Z) : keeps (anscheduler_intd_set thread).
Proof. by_keeps anscheduler_intd_set. Qed.
#[local] Hint Resolve keeps_intd_set : keeps.
Lemma keeps_intd_cmpnull (thread : Z) : keeps (anscheduler_intd_cmpnull thread).
Proof. by_keeps anscheduler_intd_cmpnull. Qed.
#[local] Hint Resolve keeps_intd_cmpnull : keeps.
Lemma keeps_intd_read : keeps anscheduler_intd_read.
Proof. by_keeps anscheduler_intd_read. Qed.
#[local] Hint Resolve keeps_intd_read : keeps.
Lemma keeps_intd_waiting : keeps anscheduler_intd_waiting.
Proof. by_keeps anscheduler_intd_waiting. Qed.
#[local] Hint Resolve keeps_intd_waiting : keeps.
Lemma keeps_shift_one (n : Z) : keeps (shift_one n).
Proof. apply keeps_act. intros c s v s'. case_decide; by intros [= <- <-]. Qed.
#[local] Hint Resolve keeps_shift_one : keeps.
Lemma keeps_or_32_irqMask (v : Z) : keeps (anscheduler_or_32_irqMask v).
Proof. by_keeps anscheduler_or_32_irqMask. Qed.
#[local] Hint Resolve keeps_or_32_irqMask : keeps.
Lemma keeps_irq (irqNumber : Z) : keeps (anscheduler_irq irqNumber).
Proof. by_keeps anscheduler_irq. Qed.
#[local] Hint Resolve keeps_irq : keeps.

(** *** src/task.c: exit *)

Lemma keeps__task_exit (codeVal : Z) : keeps (_task_exit codeVal).
Proof. by_keeps _task_exit. Qed.
#[local] Hint Resolve keeps__task_exit : keeps.
Lemma keeps_task_exit {A} (code : Z) : keeps (anscheduler_task_exit (A := A) code).
Proof. by_keeps anscheduler_task_exit. Qed.
#[local] Hint Resolve keeps_task_exit : keeps.

(** *** src/paging.c: faults *)

Lemma keeps_zero_page (p : Z) : keeps (zero_page p).
Proof. apply keeps_act. intros c s v s'. case_decide; intros [= <- <-]. apply typed_log. Qed.
#[local] Hint Resolve keeps_zero_page : keeps.
Lemma keeps__push_page_fault_cont (info : fault_info_t) : keeps (_push_page_fault_cont info).
Proof. by_keeps _push_page_fault_cont. Qed.
#[local] Hint Resolve keeps__push_page_fault_cont : keeps.
Lemma keeps__push_page_fault (info : fault_info_t) : keeps (_push_page_fault info).
Proof. by_keeps _push_page_fault. Qed.
#[local] Hint Resolve keeps__push_page_fault : keeps.
Lemma keeps_page_fault (ptr _flags : Z) : keeps (anscheduler_page_fault ptr _flags).
Proof. by_keeps anscheduler_page_fault. Qed.
#[local] Hint Resolve keeps_page_fault : keeps.

(** *** src/pidmap.c *)

Lemma keeps_get_bucket (hash : Z) : keeps (get_bucket hash).
Proof. apply keeps_act. intros c s v s'. destruct (_ !! _); by intros [= <- <-]. Qed.
#[local] Hint Resolve keeps_get_bucket : keeps.
Lemma keeps_put_bucket (hash v : Z) : keeps (put_bucket hash v).
Proof.
  apply keeps_bind; [auto with keeps nocore|intros _]. apply keeps_gset. intros s Hty.
  apply (typed_same s); try done; first [by intros []|apply length_insert].
Qed.
#[local] Hint Resolve keeps_put_bucket : keeps.
Lemma keeps_pidmap_set (task : Z) : keeps (anscheduler_pidmap_set task).
Proof. by_keeps anscheduler_pidmap_set. Qed.
#[local] Hint Resolve keeps_pidmap_set : keeps.
Lemma keeps_pidmap_unset (task : Z) : keeps (anscheduler_pidmap_unset task).
Proof. by_keeps anscheduler_pidmap_unset. Qed.
#[local] Hint Resolve keeps_pidmap_unset : keeps.
Lemma keeps_pidmap_get_body (pid task : Z) : keeps (pidmap_get_body pid task).
Proof. by_keeps pidmap_get_body. Qed.
#[local] Hint Resolve keeps_pidmap_get_body : keeps.
Lemma keeps_pidmap_get (pid : Z) : keeps (anscheduler_pidmap_get pid).
Proof. by_keeps anscheduler_pidmap_get. Qed.
#[local] Hint Resolve keeps_pidmap_get : keeps.
Lemma keeps_task_for_pid (pid : Z) : keeps (anscheduler_task_for_pid pid).
Proof. by_keeps anscheduler_task_for_pid. Qed.
#[local] Hint Resolve keeps_task_for_pid : keeps.
Lemma keeps_pidmap_alloc_pid : keeps anscheduler_pidmap_alloc_pid.
Proof. by_keeps anscheduler_pidmap_alloc_pid. Qed.
#[local] Hint Resolve keeps_pidmap_alloc_pid : keeps.
Lemma keeps_pidmap_free_pid (pid : Z) : keeps (anscheduler_pidmap_free_pid pid).
Proof. by_keeps anscheduler_pidmap_free_pid. Qed.
#[local] Hint Resolve keeps_pidmap_free_pid : keeps.

(** *** src/thread.c *)

Lemma keeps_thread_interrupt_stack (thread : Z) : keeps (anscheduler_thread_interrupt_stack thread).
Proof. by_keeps anscheduler_thread_interrupt_stack. Qed.
#[local] Hint Resolve keeps_thread_interrupt_stack : keeps.
Lemma keeps_thread_user_stack (thread : Z) : keeps (anscheduler_thread_user_stack thread).
Proof. by_keeps anscheduler_thread_user_stack. Qed.
#[local] Hint Resolve keeps_thread_user_stack : keeps.
Lemma keeps__alloc_kernel_stack (task thread : Z) : keeps (_alloc_kernel_stack task thread).
Proof. by_keeps _alloc_kernel_stack. Qed.
#[local] Hint Resolve keeps__alloc_kernel_stack : keeps.
Lemma keeps__map_user_stack (task thread : Z) : keeps (_map_user_stack task thread).
Proof. by_keeps _map_user_stack. Qed.
#[local] Hint Resolve keeps__map_user_stack : keeps.
Lemma keeps__dealloc_kernel_stack (task thread : Z) : keeps (_dealloc_kernel_stack task thread).
Proof. by_keeps _dealloc_kernel_stack. Qed.
#[local] Hint Resolve keeps__dealloc_kernel_stack : keeps.
Lemma keeps_thread_create (task : Z) : keeps (anscheduler_thread_create task).
Proof.
  intros n c s Hty. apply wp_bind, wp_alloc; [done|]. intros p s1 Hty1 Hu _.
  case_decide; [by_rest|].
  apply wp_bind. eapply wp_mono; [by apply (spares_lock p); auto|]. intros _ s2 [Hty2 Hu2].
  apply wp_bind. eapply wp_mono; [by apply (spares_anidxset_get p); auto|]. intros stack s3 [Hty3 Hu3].
  apply wp_bind. eapply wp_mono; [by apply (spares_unlock p); auto|]. intros _ s4 [Hty4 Hu4].
  case_decide; [by_rest|]. apply wp_bind, (wp_zero_as n c p zero_thread); [done|done|done|].
  intros s5 Hty5. by_rest.
Qed.
#[local] Hint Resolve keeps_thread_create : keeps.
Lemma keeps_thread_add (task thread : Z) : keeps (anscheduler_thread_add task thread).
Proof. by_keeps anscheduler_thread_add. Qed.
#[local] Hint Resolve keeps_thread_add : keeps.
Lemma keeps_thread_poll : keeps anscheduler_thread_poll.
Proof. by_keeps anscheduler_thread_poll. Qed.
#[local] Hint Resolve keeps_thread_poll : keeps.
Lemma keeps_retire_page (task page : Z) : keeps (retire_page task page).
Proof. by_keeps retire_page. Qed.
#[local] Hint Resolve keeps_retire_page : keeps.
Lemma keeps_release_page (task page : Z) : keeps (release_page task page).
Proof. by_keeps release_page. Qed.
#[local] Hint Resolve keeps_release_page : keeps.
Lemma keeps_thread_deallocate (task thread : Z) : keeps (anscheduler_thread_deallocate task thread).
Proof. by_keeps anscheduler_thread_deallocate. Qed.
#[local] Hint Resolve keeps_thread_deallocate : keeps.
Lemma keeps_thread_kernel_stack (task thread : Z) : keeps (anscheduler_thread_kernel_stack task thread).
Proof. by_keeps anscheduler_thread_kernel_stack. Qed.
#[local] Hint Resolve keeps_thread_kernel_stack : keeps.
Lemma keeps_unlink_thread (task thread : Z) : keeps (unlink_thread task thread).
Proof. by_keeps unlink_thread. Qed.
#[local] Hint Resolve keeps_unlink_thread : keeps.
Lemma keeps_release_thread (task thread : Z) : keeps (release_thread task thread).
Proof. by_keeps release_thread. Qed.
#[local] Hint Resolve keeps_release_thread : keeps.
Lemma keeps__finalize_thread_exit (thread : Z) : keeps (_finalize_thread_exit thread).
Proof. by_keeps _finalize_thread_exit. Qed.
#[local] Hint Resolve keeps__finalize_thread_exit : keeps.
Lemma keeps_thread_exit {A} : keeps (anscheduler_thread_exit (A := A)).
Proof. by_keeps anscheduler_thread_exit. Qed.
#[local] Hint Resolve keeps_thread_exit : keeps.

(** *** src/socketlist.c *)

Lemma keeps_socket_reference (socket : Z) : keeps (anscheduler_socket_reference socket).
Proof. by_keeps anscheduler_socket_reference. Qed.
#[local] Hint Resolve keeps_socket_reference : keeps.
Lemma keeps_rd_sockets (task hash : Z) : keeps (rd_sockets task hash).
Proof. by_keeps rd_sockets. Qed.
#[local] Hint Resolve keeps_rd_sockets : keeps.
Lemma keeps_wr_sockets (task hash v : Z) : keeps (wr_sockets task hash v).
Proof. by_keeps wr_sockets. Qed.
#[local] Hint Resolve keeps_wr_sockets : keeps.
Lemma keeps_descriptor_set (task desc : Z) : keeps (anscheduler_descriptor_set task desc).
Proof. by_keeps anscheduler_descriptor_set. Qed.
#[local] Hint Resolve keeps_descriptor_set : keeps.
Lemma keeps_descriptor_find_body (task desc obj : Z) : keeps (descriptor_find_body task desc obj).
Proof. by_keeps descriptor_find_body. Qed.
#[local] Hint Resolve keeps_descriptor_find_body : keeps.
Lemma keeps_descriptor_find (task desc : Z) : keeps (anscheduler_descriptor_find task desc).
Proof. by_keeps anscheduler_descriptor_find. Qed.
#[local] Hint Resolve keeps_descriptor_find : keeps.
Lemma keeps_task_pending (task desc : Z) : keeps (anscheduler_task_pending task desc).
Proof. by_keeps anscheduler_task_pending. Qed.
#[local] Hint Resolve keeps_task_pending : keeps.
Lemma keeps_unlink_pending (task desc : Z) : keeps (unlink_pending task desc).
Proof. by_keeps unlink_pending. Qed.
#[local] Hint Resolve keeps_unlink_pending : keeps.
Lemma keeps_task_not_pending (task desc : Z) : keeps (anscheduler_task_not_pending task desc).
Proof. by_keeps anscheduler_task_not_pending. Qed.
#[local] Hint Resolve keeps_task_not_pending : keeps.
Lemma keeps_pop_pending_body (task p : Z) : keeps (pop_pending_body task p).
Proof. by_keeps pop_pending_body. Qed.
#[local] Hint Resolve keeps_pop_pending_body : keeps.
Lemma keeps_task_pop_pending (task : Z) : keeps (anscheduler_task_pop_pending task).
Proof. by_keeps anscheduler_task_pop_pending. Qed.
#[local] Hint Resolve keeps_task_pop_pending : keeps.
Lemma keeps_descriptor_delete (task desc : Z) : keeps (anscheduler_descriptor_delete task desc).
Proof. by_keeps anscheduler_descriptor_delete. Qed.
#[local] Hint Resolve keeps_descriptor_delete : keeps.

(** *** src/socket.c *)

Lemma keeps_push_locked (d : side) (sock msg : Z) : keeps (push_locked d sock msg).
Proof. by_keeps push_locked. Qed.
#[local] Hint Resolve keeps_push_locked : keeps.
Lemma keeps__push_message (dest msg : Z) : keeps (_push_message dest msg).
Proof. by_keeps _push_message. Qed.
#[local] Hint Resolve keeps__push_message : keeps.
Lemma keeps_socket_read (dest : Z) : keeps (anscheduler_socket_read dest).
Proof. by_keeps anscheduler_socket_read. Qed.
#[local] Hint Resolve keeps_socket_read : keeps.
Lemma keeps_reference_other_end (socket sock : Z) : keeps (reference_other_end socket sock).
Proof. by_keeps reference_other_end. Qed.
#[local] Hint Resolve keeps_reference_other_end : keeps.
Lemma keeps_drop_link (socket sock : Z) : keeps (drop_link socket sock).
Proof. by_keeps drop_link. Qed.
#[local] Hint Resolve keeps_drop_link : keeps.
Lemma keeps_socket_close (socket code : Z) : keeps (anscheduler_socket_close socket code).
Proof. by_keeps anscheduler_socket_close. Qed.
#[local] Hint Resolve keeps_socket_close : keeps.
Lemma keeps_socket_for_descriptor (desc : Z) : keeps (anscheduler_socket_for_descriptor desc).
Proof. by_keeps anscheduler_socket_for_descriptor. Qed.
#[local] Hint Resolve keeps_socket_for_descriptor : keeps.
Lemma keeps_socket_next_pending : keeps anscheduler_socket_next_pending.
Proof. by_keeps anscheduler_socket_next_pending. Qed.
#[local] Hint Resolve keeps_socket_next_pending : keeps.
Lemma keeps_free_body (d : side) (socket : Z) (u : ()) : keeps (free_body d socket u).
Proof. by_keeps free_body. Qed.
#[local] Hint Resolve keeps_free_body : keeps.
Lemma keeps_free_messages (d : side) (socket : Z) : keeps (free_messages d socket).
Proof. by_keeps free_messages. Qed.
#[local] Hint Resolve keeps_free_messages : keeps.
Lemma keeps__socket_free (socket : Z) : keeps (_socket_free socket).
Proof. by_keeps _socket_free. Qed.
#[local] Hint Resolve keeps__socket_free : keeps.
Lemma keeps__create_descriptor (socket task : Z) (isConnector : bool) : keeps (_create_descriptor socket task isConnector).
Proof. apply keeps_alloc_zero; [done|auto with keeps nocore|intros desc; keeps_steps]. Qed.
#[local] Hint Resolve keeps__create_descriptor : keeps.
Lemma keeps_socket_new : keeps anscheduler_socket_new.
Proof. apply keeps_alloc_zero; [done|auto with keeps nocore|intros sock; keeps_steps]. Qed.
#[local] Hint Resolve keeps_socket_new : keeps.
Lemma keeps_socket_dereference (socket : Z) : keeps (anscheduler_socket_dereference socket).
Proof. by_keeps anscheduler_socket_dereference. Qed.
#[local] Hint Resolve keeps_socket_dereference : keeps.
Lemma keeps__switch_continuation (thread : Z) : keeps (_switch_continuation thread).
Proof. by_keeps _switch_continuation. Qed.
#[local] Hint Resolve keeps__switch_continuation : keeps.
Lemma keeps_wakeup_body (task thread : Z) : keeps (wakeup_body task thread).
Proof. by_keeps wakeup_body. Qed.
#[local] Hint Resolve keeps_wakeup_body : keeps.
Lemma keeps__wakeup_endpoint (dest : Z) : keeps (_wakeup_endpoint dest).
Proof. by_keeps _wakeup_endpoint. Qed.
#[local] Hint Resolve keeps__wakeup_endpoint : keeps.
Lemma keeps_socket_msg (socket msg : Z) : keeps (anscheduler_socket_msg socket msg).
Proof. by_keeps anscheduler_socket_msg. Qed.
#[local] Hint Resolve keeps_socket_msg : keeps.
Lemma keeps_socket_msg_async (socket msg : Z) : keeps (anscheduler_socket_msg_async socket msg).
Proof. by_keeps anscheduler_socket_msg_async. Qed.
#[local] Hint Resolve keeps_socket_msg_async : keeps.
Lemma keeps_socket_msg_data (data : list Z) (len : Z) : keeps (anscheduler_socket_msg_data data len).
Proof. by_keeps anscheduler_socket_msg_data. Qed.
#[local] Hint Resolve keeps_socket_msg_data : keeps.
Lemma keeps_socket_connect (socket task : Z) : keeps (anscheduler_socket_connect socket task).
Proof. by_keeps anscheduler_socket_connect. Qed.
#[local] Hint Resolve keeps_socket_connect : keeps.
Lemma keeps_socket_remote (socket : Z) : keeps (anscheduler_socket_remote socket).
Proof. by_keeps anscheduler_socket_remote. Qed.
#[local] Hint Resolve keeps_socket_remote : keeps.
Lemma keeps_free_link (socket sock : Z) (shouldFree : bool) : keeps (free_link socket sock shouldFree).
Proof. by_keeps free_link. Qed.
#[local] Hint Resolve keeps_free_link : keeps.
Lemma keeps__socket_hangup (socket : Z) : keeps (_socket_hangup socket).
Proof. by_keeps _socket_hangup. Qed.
#[local] Hint Resolve keeps__socket_hangup : keeps.
Lemma keeps__async_msg (info : Z) : keeps (_async_msg info).
Proof. by_keeps _async_msg. Qed.
#[local] Hint Resolve keeps__async_msg : keeps.

(** *** src/task.c: creation and destruction *)

Lemma keeps__map_first_4mb (task : Z) : keeps (_map_first_4mb task).
Proof. by_keeps _map_first_4mb. Qed.
#[local] Hint Resolve keeps__map_first_4mb : keeps.
Lemma keeps_task_create : keeps anscheduler_task_create.
Proof. apply keeps_alloc_zero; [done|auto with keeps nocore|intros task; keeps_steps]. Qed.
#[local] Hint Resolve keeps_task_create : keeps.
Lemma keeps_push_threads (first : Z) : keeps (push_threads first).
Proof. by_keeps push_threads. Qed.
#[local] Hint Resolve keeps_push_threads : keeps.
Lemma keeps_task_launch (task : Z) : keeps (anscheduler_task_launch task).
Proof. by_keeps anscheduler_task_launch. Qed.
#[local] Hint Resolve keeps_task_launch : keeps.
Lemma keeps__resign_continuation : keeps _resign_continuation.
Proof. by_keeps _resign_continuation. Qed.
#[local] Hint Resolve keeps__resign_continuation : keeps.
Lemma keeps_wait_socket_gone (task thread i desc : Z) : keeps (wait_socket_gone task thread i desc).
Proof. by_keeps wait_socket_gone. Qed.
#[local] Hint Resolve keeps_wait_socket_gone : keeps.
Lemma keeps_close_bucket (task thread i : Z) : keeps (close_bucket task thread i).
Proof. by_keeps close_bucket. Qed.
#[local] Hint Resolve keeps_close_bucket : keeps.
Lemma keeps__close_task_sockets_async (task : Z) : keeps (_close_task_sockets_async task).
Proof. by_keeps _close_task_sockets_async. Qed.
#[local] Hint Resolve keeps__close_task_sockets_async : keeps.
Lemma keeps_free_threads (task : Z) : keeps (free_threads task).
Proof. by_keeps free_threads. Qed.
#[local] Hint Resolve keeps_free_threads : keeps.
Lemma keeps__free_task_method (task : Z) : keeps (_free_task_method task).
Proof. by_keeps _free_task_method. Qed.
#[local] Hint Resolve keeps__free_task_method : keeps.
Lemma keeps_kernel_code (fn : kernel_fn) (arg : Z) : keeps (kernel_code fn arg).
Proof. by_keeps kernel_code. Qed.
#[local] Hint Resolve keeps_kernel_code : keeps.

(** *** The interface *)

Lemma keeps_entry e : keeps (entry_code e).
Proof. destruct e as [[]|[]|[]|[]|[]|[]|fn arg]; simpl; unfold drop; keeps_steps. Qed.

(** The memory after a call: [c] runs it until it returns or stops. *)
Definition after_call (s : kst) (call : nat * nat * entry) : kst :=
  let '(n, c, e) := call in
  match run n c (entry_code e) s with Done _ s' | Stop _ s' => s' end.

(** Memory stays well typed: whatever functions of the interface are called,
    with whatever arguments, in whatever order and on whatever CPUs, and wherever
    each call ends (it returns, gives the CPU to another thread, waits for a lock,
    aborts, or performs an access that is undefined), afterwards every structure
    lies in live memory, no address holds structures of two types, and every array
    has its declared length: freed memory is no longer a structure, and no structure
    is created on top of another. *)
Theorem memory_stays_typed calls s : typed s → typed (fold_left after_call calls s).
Proof.
  revert s. induction calls as [|[[n c] e] calls IH]; intros s Hty; [done|].
  simpl. apply IH. pose proof (keeps_entry e n c s Hty) as Hw. unfold wp in Hw.
  by destruct (run n c (entry_code e) s).
Qed.
End operations.

(** *** Witness: from boot *)

Lemma boot_empty k p : ¬ has_kind boot_kst k p.
Proof. destruct k; simpl; intros [o Ho]; by apply lookup_empty_Some in Ho. Qed.

Lemma typed_boot : typed boot_kst.
Proof.
  split.
  - by_dec.
  - intros k p Hk. by destruct (boot_empty k p).
  - intros k k' p Hk. by destruct (boot_empty k p).
  - split; [intros p o Ho; simpl in Ho; by apply lookup_empty_Some in Ho..|reflexivity].
Qed.

Definition demo_calls : list (nat * nat * entry) :=
  [(1%nat, 0%nat, task_h e_task_create); (1%nat, 1%nat, task_h e_task_create);
   (1%nat, 0%nat, socket_h (e_socket_msg_data [1; 2; 3] 3)); (1%nat, 0%nat, interrupts_h (e_irq 3))].

Lemma memory_stays_typed_witness :
  typed boot_kst ∧ typed (fold_left (after_call (H := P0)) demo_calls boot_kst).
Proof.
  split; [apply typed_boot|]. apply (memory_stays_typed (H := P0) demo_calls boot_kst typed_boot).
Defined.
