(* ===== verification/KillJob.v ===== *)
(** * KillJob: the job that destroys a task (src/task.c, [_free_task_method])

    From the table of identifiers to the memory of the kernel thread that runs the
    job: what is given back, and that nothing else is touched. *)
From S2P Require Import Prelude Types Machine Demo Idxset RunQueue TaskRef Loop PidMap Thread ThreadExit SocketList DescTable MsgQueue TaskLife TaskKill Typed.

(** ** What is given back *)

Section given.
Context (T : Z).

(** The structures at [ps] are freed; the others, the task [T] apart, stay. *)
Record given_back (ps : list Z) (s s' : kst) : Prop := {
  gb_live : k_live s' = k_live s ∖ list_to_set ps;
  gb_keep q : q ∉ ps → q ≠ T → same_at q s s';
  gb_raw q : q ∈ ps → raw s' q;
  gb_pid : k_pid s' = k_pid s;
  gb_locks : k_locks s' = k_locks s;
}.

Lemma given_refl s : given_back [] s s.
Proof. split; [set_solver|done|by intros q ?%not_elem_of_nil|done..]. Qed.

Lemma given_trans ps1 ps2 s1 s2 s3 :
  T ∉ ps1 → given_back ps1 s1 s2 → given_back ps2 s2 s3 → given_back (ps1 ++ ps2) s1 s3.
Proof.
  intros HT [L1 K1 R1 P1 O1] [L2 K2 R2 P2 O2]. split; [| | |congruence..].
  - rewrite L2, L1, list_to_set_app_L. set_solver.
  - intros q [? ?]%not_elem_of_app ?. eapply same_at_trans; [by apply K1|by apply K2].
  - intros q [Hq|Hq]%elem_of_app; [|by apply R2]. destruct (decide (q ∈ ps2)); [by apply R2|].
    eapply same_at_raw; [apply K2; [done|by intros ->]|by apply R1].
Qed.

Lemma given_free p s : given_back [p] s (free_step p s).
Proof.
  split; try done; [simpl; set_solver| |].
  - intros q Hq _. apply same_at_free. set_solver.
  - intros q ->%list_elem_of_singleton. apply raw_free.
Qed.

Lemma given_pages ps s : T ∉ ps → given_back ps s (free_pages ps s).
Proof.
  revert s. induction ps as [|p ps IH]; intros s HT; [apply given_refl|].
  change (p :: ps) with ([p] ++ ps). eapply given_trans; [set_solver|apply given_free|apply IH; set_solver].
Qed.

(** An index set whose pages are not given back. *)
Lemma idx_at_same r s s' x ps :
  root_at r s' = root_at r s → (∀ q, q ∈ ps → same_at q s s') →
  (∀ q, q ∈ ps → q ∈ k_live s → q ∈ k_live s') → idx_at r s x ps → idx_at r s' x ps.
Proof using Type.
  intros Hr Hs Hlv (cs & -> & Hr0 & Hne & Hc & Hd & Hl & Hx). exists cs. rewrite Hr. split_and!; try done.
  - eapply chunks_ok_ext; [|exact Hc]. intros q Hin. by apply Hs.
  - intros q Hin. destruct (Hl q Hin) as [? Ho]. split; [by apply Hlv|].
    destruct (Hs q Hin) as (E1 & E2 & E3 & E4 & E5 & E6 & E7 & E8 & E9). unfold only_node.
    by rewrite E1, E2, E3, E4, E5, E6, E7, E9.
Qed.

Lemma given_idx r s s' x ps ps' :
  given_back ps' s s' → root_at r s' = root_at r s → (∀ q, q ∈ ps → q ∉ ps' ∧ q ≠ T) →
  idx_at r s x ps → idx_at r s' x ps.
Proof.
  intros [L K _ _ _] Hr Hq. apply idx_at_same; [done|intros q Hin; apply K; by apply Hq|].
  intros q Hin Hl. rewrite L. apply elem_of_difference. split; [done|].
  rewrite elem_of_list_to_set. by apply Hq.
Qed.
End given.

(** The pages of an index set hold nothing but indexes. *)
Lemma idx_at_kind r s x ps q k : idx_at r s x ps → q ∈ ps → has_kind s k q → k = kd_node.
Proof.
  intros (cs & -> & _ & _ & _ & _ & Hl & _) Hq Hk.
  destruct (Hl q Hq) as [_ (E1 & E2 & E3 & E4 & E5 & E6 & E7 & E8)].
  destruct k; simpl in Hk; rewrite ?E1, ?E2, ?E3, ?E4, ?E5, ?E6, ?E7, ?E8 in Hk; by destruct Hk.
Qed.

Lemma idx_at_node r s x ps q : idx_at r s x ps → q ∈ ps → is_Some (k_nodes s !! q).
Proof. intros (cs & -> & _ & _ & Hc & _) Hq. by eapply chunks_ok_lookup. Qed.

Lemma raw_no_kind s q k : raw s q → ¬ has_kind s k q.
Proof.
  intros [(E1 & E2 & E3 & E4 & E5 & E6 & E7 & E8) E9] Hk.
  destruct k; simpl in Hk; rewrite ?E1, ?E2, ?E3, ?E4, ?E5, ?E6, ?E7, ?E8, ?E9 in Hk; by destruct Hk.
Qed.

Lemma keeps_done {A} (p : prog A) n c s a s' :
  keeps p → typed s → run n c p s = Done a s' → typed s'.
Proof. intros Hp Hty Hrun. specialize (Hp n c s Hty). unfold wp in Hp. by rewrite Hrun in Hp. Qed.

Lemma typed_mem s : typed s → mem_ok s.
Proof.
  intros Ht. split; [apply (ty_null s Ht)|..]; intros p Hp;
    [apply (ty_live s Ht kd_task)|apply (ty_live s Ht kd_thread)|apply (ty_live s Ht kd_socket)
    |apply (ty_live s Ht kd_desc)|apply (ty_live s Ht kd_msg)|apply (ty_live s Ht kd_fault)
    |apply (ty_live s Ht kd_info)|apply (ty_live s Ht kd_node)|apply (ty_live s Ht kd_vm)]; exact Hp.
Qed.

(** ** The steps of the job *)

(** Only tasks, the table of identifiers and CPUs differ. *)
Definition rest_same (s s' : kst) : Prop :=
  s' = set_k_pid (k_pid s') (set_k_tasks (k_tasks s') (set_k_cpus (k_cpus s') s)).

Lemma rest_same_fields s s' : rest_same s s' →
  k_threads s' = k_threads s ∧ k_vms s' = k_vms s ∧ k_live s' = k_live s ∧
  k_nodes s' = k_nodes s ∧ k_locks s' = k_locks s ∧ k_log s' = k_log s.
Proof. by intros ->. Qed.

Lemma rest_same_cpu s s' c g : rest_same s s' → rest_same s (upd_cpu c g s').
Proof. unfold rest_same. destruct s, s'. simpl. intros [=]. by subst. Qed.

(** A task that is in no bucket. *)
Definition unlisted (tk : task_t) : task_t := set_task_last NULL (set_task_next NULL tk).

Lemma unregister_spec n c s B T tk l1 l2 :
  let h := _hash_pid (task_pid tk) in
  table_ok s B → k_tasks s !! T = Some tk → B h = l1 ++ T :: l2 →
  k_locks s = ∅ → cpu_locked (k_cpus s c) = false →
  ∃ s', (∀ A (k : prog A),
      run n c (anscheduler_cpu_lock;; anscheduler_pidmap_unset T;; anscheduler_cpu_unlock;; k) s
      = run n c k s') ∧
    table_ok s' (set_bucket h (l1 ++ l2) B) ∧ rest_same s s' ∧
    (∀ p, task_body <$> k_tasks s' !! p = task_body <$> k_tasks s !! p) ∧
    k_tasks s' !! T = Some (unlisted tk) ∧
    k_pid s' = set_pidHashmap (pidHashmap (k_pid s')) (k_pid s) ∧
    (∀ c', k_cpus s' c' = k_cpus s c') ∧ (typed s → typed s').
Proof.
  intros h HB HT Hh Hlk Hc. set (s0 := upd_cpu c (set_cpu_locked true) s).
  destruct (pidmap_unset_spec n c s0 B T tk l1 l2) as (s1 & Hrun & HB1 & [Hs1 Hb] & HT1 & Hp); try done.
  { simpl. rewrite Hlk. set_solver. }
  assert (k_cpus s1 = k_cpus s0) as Hcpu by (by rewrite Hs1).
  exists (upd_cpu c (set_cpu_locked false) s1). split.
  - intros A k. rewrite run_cpu_lock by done. rewrite (run_call _ _ _ _ _ _ _ Hrun).
    rewrite run_cpu_unlock; [done|]. rewrite Hcpu. simpl. by rewrite decide_True.
  - split_and!; try done.
    + unfold rest_same. simpl. rewrite Hs1. by destruct s.
    + intros c'. simpl. rewrite Hcpu. exact (upd_cpu_relock c s c' Hc).
    + intros Hty. apply typed_upd_cpu. apply (keeps_done (anscheduler_pidmap_unset T) n c s0 () s1); [|by apply typed_upd_cpu|done].
      apply keeps_pidmap_unset.
Qed.

(** A task without sockets has none to close. *)
Lemma close_no_sockets `{Platform} n c s T tk :
  k_tasks s !! T = Some tk → task_sockets tk = replicate 16 NULL →
  k_locks s = ∅ → cpu_locked (k_cpus s c) = false → (0 < n)%nat →
  run n c (_close_task_sockets_async T) s
  = Done () (upd_cpu c (set_cpu_locked false) (upd_cpu c (set_cpu_locked true) s)).
Proof.
  intros HT Hs Hlk Hc Hn. unfold _close_task_sockets_async.
  rewrite run_cpu_lock, run_get_thread by done.
  set (s1 := upd_cpu c (set_cpu_locked true) s). set (th := cpu_thread _).
  destruct (run_for_each n c 0x10 (close_bucket T th) (λ _ s', s' = s1) 0 s1) as (s2 & Hrun & ->);
    [done| |].
  - intros j s' Hj ->. exists s1. split; [|done]. unfold close_bucket. rewrite run_tail, run_while.
    destruct n as [|n]; [lia|]. rewrite iterate_S. rewrite run_lock by (first [by rewrite Hlk|lock_side]).
    erewrite run_rd_sockets; [|exact HT|rewrite Hs; apply lookup_replicate; split; [done|lia]].
    rewrite decide_False by (intros []; done). rewrite run_ret_bind, run_unlock by lock_side.
    rewrite decide_True, run_ret by done. rewrite run_ret. f_equal. unfold del_lock, add_lock. simpl. rewrite del_add_lock by (rewrite Hlk; set_solver). unfold s1. by destruct s.
  - rewrite (run_call _ _ _ _ _ _ _ Hrun), run_tail, run_cpu_unlock by (simpl; by rewrite decide_True). done.
Qed.

(** The kernel thread that runs the job goes, and the CPU looks for other work. *)
Definition retired_kernel (c : nat) (th stk : Z) (s : kst) : kst :=
  free_step th (free_step stk (upd_cpu c (set_cpu_thread NULL) s)).

Lemma delete_cur_kernel_spec `{Platform} n c s th thr :
  cpu_thread (k_cpus s c) = th → cpu_task (k_cpus s c) = NULL → k_threads s !! th = Some thr →
  thread_stack thr ∈ k_live s → th ∈ k_live s → thread_stack thr ≠ th →
  run n c (A := Empty_set) anscheduler_loop_delete_cur_kernel s =
  run n c anscheduler_loop_run (retired_kernel c th (thread_stack thr) s).
Proof.
  intros Hth Htk Hthr Hs Hl Hne. unfold anscheduler_loop_delete_cur_kernel. rewrite run_stack_run.
  assert (run n c _delete_cur_kernel s = run n c anscheduler_loop_run (retired_kernel c th (thread_stack thr) s)) as ->;
    [|by destruct (run n c _ _) as [[]|]].
  unfold _delete_cur_kernel. rewrite run_get_thread, run_get_task, Hth, Htk.
  rewrite decide_False by (intros []; done). rewrite run_set_thread. erewrite run_rd by exact Hthr.
  rewrite run_free by done. rewrite run_free by (apply elem_of_difference; set_solver). done.
Qed.

(** ** The job *)

Section job.
Context `{Platform, !PlatformOk _} (n c : nat) (T vm : Z).

(** The task [T] as its kill job finds it: killed, without references and sockets.
    [m] is its page table, [tl] are its threads, [ps1] and [ps2] the pages of its index
    sets, [psp] those of the pool of identifiers. *)
Record dying (s : kst) (tk : task_t) (m : gmap Z (Z * Z)) (tl : list Z)
    (x1 x2 xp : idxset) (ps1 ps2 psp : list Z) : Prop := {
  dy_typed : typed s;
  dy_task : k_tasks s !! T = Some tk;
  dy_first : task_firstThread tk = hd0 NULL tl;
  dy_threads : threads_doomed c T vm tk s m tl;
  dy_sockets : task_sockets tk = replicate 16 NULL;
  dy_stacks : idx_at (root_stacks T) s x1 ps1;
  dy_descs : idx_at (root_descriptors T) s x2 ps2;
  dy_init : ppInitialized (k_pid s) = true;
  dy_pool : idx_at root_pidPool s xp psp;
  dy_apart : NoDup (ps1 ++ ps2 ++ psp);
}.

(** All that belongs to the task, itself apart. *)
Definition belongings (s : kst) (m : gmap Z (Z * Z)) (tl ps1 ps2 : list Z) : list Z :=
  all_pages s m tl ++ vm :: ps1 ++ ps2.

Lemma set_firstThread_id (o : task_t) : set_task_firstThread (task_firstThread o) o = o.
Proof. by destruct o. Qed.

(** Unregistering the task does not concern its threads. *)
Lemma doomed_unlisted s s' tk m tl :
  threads_doomed c T vm tk s m tl → task_firstThread tk = hd0 NULL tl → rest_same s s' →
  (∀ p, task_body <$> k_tasks s' !! p = task_body <$> k_tasks s !! p) →
  k_tasks s' !! T = Some (unlisted tk) → (∀ c', k_cpus s' c' = k_cpus s c') →
  threads_doomed c T vm (unlisted tk) s' m tl ∧ all_pages s' m tl = all_pages s m tl.
Proof.
  intros [_ Hch Hready Hnd Hvm Hlk Hcpu Hmap] Hf Hs Hb HT Hc.
  destruct (rest_same_fields _ _ Hs) as (E1 & E2 & E3 & E4 & E5 & _).
  assert (all_pages s' m tl = all_pages s m tl) as Hall by (unfold all_pages, stack_of; by rewrite E1).
  assert (∀ a, raw s a → raw s' a) as Hraw.
  { intros a [(E & Ho) Hn]. specialize (Hb a). rewrite E in Hb.
    split; [split; [by destruct (k_tasks s' !! a)|]|by rewrite E4].
    rewrite Hs. exact Ho. }
  split; [split|done]; rewrite ?Hall, ?E1, ?E2, ?E3, ?E5; try done.
  - rewrite HT, <- Hf. change (task_firstThread tk) with (task_firstThread (unlisted tk)).
    by rewrite set_firstThread_id.
  - intros th Hth. unfold stack_of. rewrite E1. destruct (Hready th Hth) as [R1 R2 R3 R4 R5 R6].
    split; rewrite ?E1, ?E3; try done. intros a Ha. by apply Hraw, R4.
  - by rewrite Hc.
Qed.

(** What the job does before it waits for sockets, of which there are none. *)
Lemma job_starts s tk m tl x1 x2 xp ps1 ps2 psp B l1 l2 :
  dying s tk m tl x1 x2 xp ps1 ps2 psp →
  let h := _hash_pid (task_pid tk) in
  table_ok s B → B h = l1 ++ T :: l2 → (0 < n)%nat →
  ∃ s', run n c (_free_task_method T) s = run n c (
      free_threads T;; anscheduler_task_cleanup T;; vm ← rd T task_vm;
      anscheduler_vm_root_free_async vm;; anscheduler_cpu_lock;;
      anidxset_free (root_stacks T);; anidxset_free (root_descriptors T);;
      pid ← rd T task_pid; anscheduler_pidmap_free_pid pid;;
      anscheduler_free T;; anscheduler_loop_delete_cur_kernel) s' ∧
    table_ok s' (set_bucket h (l1 ++ l2) B) ∧ rest_same s s' ∧
    (∀ p, task_body <$> k_tasks s' !! p = task_body <$> k_tasks s !! p) ∧
    k_pid s' = set_pidHashmap (pidHashmap (k_pid s')) (k_pid s) ∧
    (∀ c', k_cpus s' c' = k_cpus s c') ∧
    dying s' (unlisted tk) m tl x1 x2 xp ps1 ps2 psp ∧ all_pages s' m tl = all_pages s m tl.
Proof.
  intros [Hty HT Hf Hd Hso H1 H2 Hi H3 Hap] h HB Hh Hn.
  pose proof Hd as [_ _ _ _ _ Hlk Hcpu _].
  destruct (unregister_spec n c s B T tk l1 l2) as (s1 & Hrun & HB1 & Hs1 & Hb1 & HT1 & Hp1 & Hc1 & Hty1); try done.
  destruct (rest_same_fields _ _ Hs1) as (E1 & _ & E3 & E4 & E5 & _).
  assert (k_locks s1 = ∅) as Hlk1 by (by rewrite E5).
  pose proof (close_no_sockets n c s1 T _ HT1 Hso Hlk1 ltac:(by rewrite Hc1) Hn) as Hclose.
  set (s2 := upd_cpu c _ _) in Hclose.
  assert (∀ c', k_cpus s2 c' = k_cpus s c') as Hc2.
  { intros c'. unfold s2. rewrite upd_cpu_relock by (by rewrite Hc1). apply Hc1. }
  assert (rest_same s s2) as Hs2 by (by do 2 apply rest_same_cpu).
  destruct (doomed_unlisted s s2 tk m tl) as [Hd2 Hall]; try done.
  exists s2. split_and!; try done.
  - unfold _free_task_method. rewrite Hrun. by rewrite (run_call _ _ _ _ _ _ _ Hclose).
  - assert (∀ r x ps, root_at r s2 = root_at r s → idx_at r s x ps → idx_at r s2 x ps) as Hidx.
    { intros r x ps Hr (cs & -> & Hr0 & Hne & Hc & Hnd & Hl & Hx). exists cs. rewrite Hr.
      split_and!; try done; [simpl; by rewrite E4|]. intros p Hp.
      destruct (Hl p Hp) as [? [E Ho]]. split; [simpl; by rewrite E3|].
      specialize (Hb1 p). rewrite E in Hb1. split; [simpl; by destruct (k_tasks s1 !! p)|].
      rewrite Hs2. exact Ho. }
    split; try done.
    + by do 2 apply typed_upd_cpu; apply Hty1.
    + apply Hidx; [|done]. simpl. by rewrite HT, HT1.
    + apply Hidx; [|done]. simpl. by rewrite HT, HT1.
    + simpl. by rewrite Hp1.
    + apply Hidx; [|done]. simpl. by rewrite Hp1.
Qed.

(** The task, its page table, its threads and its indexes are apart. *)
Lemma index_pages_apart s tk m tl r x ps q :
  threads_doomed c T vm tk s m tl → idx_at r s x ps → q ∈ ps →
  q ≠ T ∧ q ≠ vm ∧ q ∉ all_pages s m tl.
Proof.
  intros [HT _ Hready _ [_ Hm] _ _ _] Hx Hq. split_and!.
  - intros ->. by apply (idx_at_kind r s x ps T kd_task) in Hx; [|done|by eexists].
  - intros ->. by apply (idx_at_kind r s x ps vm kd_vm) in Hx; [|done|by eexists].
  - intros (th & Hth & Hp)%list_elem_of_bind.
    destruct (Hready th Hp) as [(thr & Ht & _) _ _ Hraw _ _].
    unfold thread_pages in Hth. change [?a; ?b] with ([a] ++ [b]) in Hth. rewrite app_assoc in Hth.
    apply elem_of_app in Hth as [Ha|Hqt%list_elem_of_singleton]; [|subst q].
    + destruct (Hraw q Ha) as [_ Hn]. destruct (idx_at_node r s x ps q Hx Hq). congruence.
    + by apply (idx_at_kind r s x ps th kd_thread) in Hx; [|done|by eexists].
Qed.

Lemma length_threads s m tl : (length tl ≤ length (all_pages s m tl))%nat.
Proof.
  induction tl as [|th tl IH]; [done|].
  change (all_pages s m (th :: tl)) with (thread_pages m (stack_of s th) th ++ all_pages s m tl).
  unfold thread_pages. rewrite !length_app. simpl. lia.
Qed.

(** The threads and the address space. *)
Lemma job_frees_threads s tk m tl x1 x2 xp ps1 ps2 psp :
  dying s tk m tl x1 x2 xp ps1 ps2 psp → (length tl < n)%nat →
  ∃ s', (∀ A (k : prog A), run n c (free_threads T;; anscheduler_task_cleanup T;; vm ← rd T task_vm;
      anscheduler_vm_root_free_async vm;; k) s = run n c k s') ∧
    given_back T (all_pages s m tl ++ [vm]) s s' ∧ typed s' ∧
    k_tasks s' !! T = Some (set_task_firstThread NULL tk) ∧ ∀ c', k_cpus s' c' = k_cpus s c'.
Proof.
  intros [Hty HT Hf Hd Hso H1 H2 Hi H3 Hap] Hn.
  pose proof Hd as [_ _ _ Hnd [Hv Hm] _ Hcpu _].
  apply NoDup_cons in Hnd as [HTn [Hvn _]%NoDup_cons]. apply not_elem_of_cons in HTn as [HTv HTn].
  destruct (free_threads_loop n c T vm tk tl n s m Hd Hn) as (s1 & m1 & Hrun & [L K T1 V1 R C (S1 & S2 & _)]).
  assert (run n c (free_threads T) s = Done () s1) as Hrun1 by (by rewrite free_threads_rounds, run_tail, run_while).
  assert (typed s1) as Hty1 by (by apply (keeps_done (free_threads T) n c s () s1); [apply keeps_free_threads|..]).
  assert (vm ∈ k_live s1) as Hvl by (apply (ty_live s1 Hty1 kd_vm); by eexists).
  exists (vm_gone c vm (log_event (ev_task_cleanup T) s1)). split_and!.
  - intros A k. rewrite (run_call _ _ _ _ _ _ _ Hrun1). unfold anscheduler_task_cleanup.
    rewrite run_gset. erewrite run_rd by exact T1. simpl task_vm. rewrite Hv.
    apply run_vm_root_free_async; [exists m1; exact V1|exact Hvl|]. simpl. rewrite C. exact Hcpu.
  - split; simpl; try done.
    + rewrite L, list_to_set_app_L, difference_difference_l_L. simpl. by rewrite (right_id_L ∅ (∪) {[vm]}).
    + intros q [Hq Hqv%not_elem_of_cons]%not_elem_of_app HqT. destruct Hqv as [Hqv _].
      eapply same_at_trans; [by apply K|]. by apply (same_at_vm_gone c q vm (log_event (ev_task_cleanup T) s1)).
    + intros q [Hq| ->%list_elem_of_singleton]%elem_of_app.
      * apply raw_vm_gone. by apply R.
      * apply (raw_free vm (vm_upd vm (λ _, ∅) s1)).
  - by apply typed_upd_cpu, typed_log, typed_free, typed_upd_cpu, typed_vm_upd, typed_log.
  - simpl. by rewrite lookup_delete_ne.
  - intros c'. rewrite vm_gone_cpus; [apply C|]. simpl. rewrite C. exact Hcpu.
Qed.

Lemma free_pages_at q ps s : q ∉ ps → same_at q s (free_pages ps s).
Proof.
  revert s. induction ps as [|p ps IH]; intros s Hq; [done|]. apply not_elem_of_cons in Hq as [Hp Hq].
  eapply same_at_trans; [by apply (same_at_free q p)|by apply IH].
Qed.

Lemma typed_free_pages ps s : typed s → typed (free_pages ps s).
Proof. revert s. induction ps as [|p ps IH]; intros s Hty; [done|]. by apply IH, typed_free. Qed.

(** The index sets. *)
Lemma job_frees_sets s tk x1 x2 ps1 ps2 :
  typed s → k_tasks s !! T = Some tk → idx_at (root_stacks T) s x1 ps1 →
  idx_at (root_descriptors T) s x2 ps2 → NoDup (ps1 ++ ps2) → T ∉ ps1 → T ∉ ps2 →
  (length (ps1 ++ ps2) < n)%nat → cpu_locked (k_cpus s c) = false →
  let s' := free_pages ps2 (free_pages ps1 (upd_cpu c (set_cpu_locked true) s)) in
  (∀ A (k : Z → prog A), run n c (anscheduler_cpu_lock;; anidxset_free (root_stacks T);;
      anidxset_free (root_descriptors T);; pid ← rd T task_pid; k pid) s = run n c (k (task_pid tk)) s') ∧
  given_back T (ps1 ++ ps2) s s' ∧ typed s' ∧ k_tasks s' !! T = Some tk ∧
  k_cpus s' = k_cpus (upd_cpu c (set_cpu_locked true) s).
Proof.
  intros Hty HT H1 H2 Hnd HT1 HT2 Hn Hc s'. rewrite length_app in Hn.
  set (s0 := upd_cpu c (set_cpu_locked true) s) in *. set (s1 := free_pages ps1 s0) in *.
  apply NoDup_app in Hnd as (_ & Hdis & _).
  assert (k_tasks s1 !! T = Some tk) as HTs1 by (rewrite <- HT; by apply (free_pages_at T ps1 s0)).
  assert (idx_at (root_descriptors T) s1 x2 ps2) as H2'.
  { apply (given_idx T _ s0 s1 x2 ps2 ps1); [by apply given_pages|simpl; by rewrite HTs1, HT| |exact H2].
    intros q Hq. split; [|by intros ->]. intros Hq1. by apply (Hdis q). }
  assert (k_tasks s' !! T = Some tk) as HTs' by (rewrite <- HTs1; by apply (free_pages_at T ps2 s1)).
  split_and!; try done.
  - intros A k. rewrite run_cpu_lock by done.
    rewrite (run_call _ _ _ _ _ _ _ (free_spec n c (root_stacks T) s0 x1 ps1 H1 ltac:(lia))).
    rewrite (run_call _ _ _ _ _ _ _ (free_spec n c _ s1 x2 ps2 H2' ltac:(lia))).
    by erewrite run_rd by exact HTs'.
  - eapply given_trans; [done| |by apply given_pages].
    destruct (given_pages T ps1 s0 HT1) as [L K R P O]. by split.
  - by do 2 apply typed_free_pages; apply typed_upd_cpu.
  - unfold s', s1. by rewrite !(proj2 (free_pages_rest _ _)).
Qed.

(** All that belongs to the task. *)
Lemma job_frees s tk m tl x1 x2 xp ps1 ps2 psp :
  dying s tk m tl x1 x2 xp ps1 ps2 psp → (length (belongings s m tl ps1 ps2) < n)%nat →
  ∃ s', (∀ A (k : Z → prog A), run n c (
      free_threads T;; anscheduler_task_cleanup T;; vm ← rd T task_vm;
      anscheduler_vm_root_free_async vm;; anscheduler_cpu_lock;;
      anidxset_free (root_stacks T);; anidxset_free (root_descriptors T);;
      pid ← rd T task_pid; k pid) s = run n c (k (task_pid tk)) s') ∧
    given_back T (belongings s m tl ps1 ps2) s s' ∧ typed s' ∧
    k_tasks s' !! T = Some (set_task_firstThread NULL tk) ∧
    k_cpus s' c = set_cpu_locked true (k_cpus s c) ∧ idx_at root_pidPool s' xp psp.
Proof.
  intros Hdy Hn. pose proof Hdy as [_ HT _ Hd _ H1 H2 _ H3 Hap].
  unfold belongings in Hn. rewrite length_app in Hn. simpl in Hn.
  pose proof (length_threads s m tl) as Hlen.
  destruct (job_frees_threads s tk m tl x1 x2 xp ps1 ps2 psp Hdy) as (s1 & Hrun1 & Hg1 & Hty1 & HT1 & Hc1); [lia|].
  assert (∀ r x ps, root_at r s1 = root_at r s → idx_at r s x ps → idx_at r s1 x ps) as Hidx.
  { intros r x ps Hr Hx. eapply given_idx; [exact Hg1|done| |done]. intros q Hq.
    destruct (index_pages_apart s tk m tl r x ps q Hd Hx Hq) as (? & ? & ?). split; [|done].
    intros [?|?%list_elem_of_singleton]%elem_of_app; done. }
  rewrite app_assoc in Hap. apply NoDup_app in Hap as (Hap & Hap3 & _).
  pose proof (λ r x ps, index_pages_apart s tk m tl r x ps T Hd) as HTn.
  assert (T ∉ ps1 ∧ T ∉ ps2) as [HT1n HT2n].
  { split; intros Hq; [by destruct (HTn _ _ _ H1 Hq)|by destruct (HTn _ _ _ H2 Hq)]. }
  destruct (job_frees_sets s1 (set_task_firstThread NULL tk) x1 x2 ps1 ps2) as (Hrun2 & Hg2 & Hty2 & HT2 & Hc2); try done.
  { apply Hidx; [|done]. simpl. by rewrite HT1, HT. }
  { apply Hidx; [|done]. simpl. by rewrite HT1, HT. }
  { lia. }
  { rewrite Hc1. by destruct Hd. }
  set (s2 := free_pages ps2 _) in *. exists s2. split_and!; try done.
  - intros A k. by rewrite Hrun1, Hrun2.
  - unfold belongings. rewrite cons_middle, app_assoc. eapply given_trans; [|exact Hg1|exact Hg2].
    destruct Hd as [_ _ _ Hnd _ _ _ _]. apply NoDup_cons in Hnd as [[? ?]%not_elem_of_cons _].
    intros [?|?%list_elem_of_singleton]%elem_of_app; done.
  - rewrite Hc2. simpl. by rewrite decide_True, Hc1.
  - eapply given_idx; [exact Hg2|simpl; by rewrite (gb_pid _ _ _ _ Hg2)| |apply Hidx; [simpl; by rewrite (gb_pid _ _ _ _ Hg1)|done]].
    intros q Hq. split; [|intros ->; by destruct (HTn _ _ _ H3 Hq)].
    intros Hq'. by apply (Hap3 q).
Qed.

(** A structure stays, links of the table of identifiers apart. *)
Definition stays (q : Z) (s s' : kst) : Prop :=
  task_body <$> k_tasks s' !! q = task_body <$> k_tasks s !! q ∧
  k_threads s' !! q = k_threads s !! q ∧ k_sockets s' !! q = k_sockets s !! q ∧
  k_descs s' !! q = k_descs s !! q ∧ k_msgs s' !! q = k_msgs s !! q ∧
  k_faults s' !! q = k_faults s !! q ∧ k_infos s' !! q = k_infos s !! q ∧
  k_nodes s' !! q = k_nodes s !! q ∧ k_vms s' !! q = k_vms s !! q.

Lemma stays_same q s1 s2 s3 : stays q s1 s2 → same_at q s2 s3 → stays q s1 s3.
Proof using Type. unfold stays, same_at. intuition congruence. Qed.

Lemma stays_rest q s s' :
  rest_same s s' → (∀ p, task_body <$> k_tasks s' !! p = task_body <$> k_tasks s !! p) → stays q s s'.
Proof using Type. intros Hs Hb. split; [apply Hb|]. by rewrite Hs. Qed.

(** The state when only the task itself and its identifier are left. *)
Record stripped (s : kst) (bl : list Z) (B : Z → list Z) (xp : idxset) (psp : list Z)
    (s' : kst) : Prop := {
  sp_live : k_live s' = k_live s ∖ list_to_set bl;
  sp_keep q : q ∉ bl → q ≠ T → stays q s s';
  sp_task : is_Some (k_tasks s' !! T);
  sp_table : table_ok s' B;
  sp_typed : typed s';
  sp_cpu : k_cpus s' c = set_cpu_locked true (k_cpus s c);
  sp_locks : k_locks s' = ∅;
  sp_init : ppInitialized (k_pid s') = true;
  sp_pool : idx_at root_pidPool s' xp psp ∧ pidPool (k_pid s') = pidPool (k_pid s);
}.

Lemma belongings_no_task s tk m tl x1 x2 xp ps1 ps2 psp p :
  dying s tk m tl x1 x2 xp ps1 ps2 psp → p ∈ belongings s m tl ps1 ps2 → k_tasks s !! p = None.
Proof.
  intros [Hty _ _ Hd _ H1 H2 _ _ _] Hp. apply eq_None_not_Some. intros Hk.
  assert (∀ k, has_kind s k p → k = kd_task) as Hone by (intros k Hk'; by apply (ty_one s Hty k kd_task p)).
  unfold belongings in Hp. apply elem_of_app in Hp as [Hp|[->|[Hp|Hp]%elem_of_app]%elem_of_cons].
  - apply list_elem_of_bind in Hp as (th & Hp & Hth).
    destruct (td_ready _ _ _ _ _ _ _ Hd th Hth) as [(thr & Ht & _) _ _ Hraw _ _].
    unfold thread_pages in Hp. change [?a; ?b] with ([a] ++ [b]) in Hp. rewrite app_assoc in Hp.
    apply elem_of_app in Hp as [Ha|Hpt%list_elem_of_singleton]; [|subst p].
    + by destruct (raw_no_kind s p kd_task (Hraw p Ha)).
    + discriminate (Hone kd_thread). exact (mk_is_Some _ _ Ht).
  - destruct (td_vm _ _ _ _ _ _ _ Hd) as [_ Hm]. discriminate (Hone kd_vm). exact (mk_is_Some _ _ Hm).
  - discriminate (Hone kd_node). exact (idx_at_node _ _ _ _ _ H1 Hp).
  - discriminate (Hone kd_node). exact (idx_at_node _ _ _ _ _ H2 Hp).
Qed.

(** The task is in its bucket once, and in no other. *)
Lemma unlisted_nowhere s B tk l1 l2 h' :
  let h := _hash_pid (task_pid tk) in
  table_ok s B → k_tasks s !! T = Some tk → B h = l1 ++ T :: l2 → 0 ≤ h' < 256 →
  T ∉ set_bucket h (l1 ++ l2) B h'.
Proof using Type.
  intros h HB HT Hh Hh'. pose proof HB as [_ HB']. unfold set_bucket. case_decide as He.
  - subst h'. destruct (HB' h Hh') as (_ & Hd & _). rewrite Hh in Hd.
    pose proof (dll_NoDup _ _ _ Hd) as (_ & Ha & [Hb _]%NoDup_cons)%NoDup_app.
    intros [Hin|Hin]%elem_of_app; [|done]. apply (Ha T Hin). by left.
  - intros Hin. apply He. by eapply table_bucket.
Qed.

(** The job up to the task's identifier. *)
Lemma job_strips s tk m tl x1 x2 xp ps1 ps2 psp B l1 l2 :
  dying s tk m tl x1 x2 xp ps1 ps2 psp →
  let h := _hash_pid (task_pid tk) in
  table_ok s B → B h = l1 ++ T :: l2 → (length (belongings s m tl ps1 ps2) < n)%nat →
  ∃ s', run n c (_free_task_method T) s
      = run n c (anscheduler_pidmap_free_pid (task_pid tk);; anscheduler_free T;;
                 anscheduler_loop_delete_cur_kernel) s' ∧
    stripped s (belongings s m tl ps1 ps2) (set_bucket h (l1 ++ l2) B) xp psp s'.
Proof.
  intros Hdy h HB Hh Hn.
  destruct (job_starts s tk m tl x1 x2 xp ps1 ps2 psp B l1 l2) as
    (sA & HrunA & HBA & HsA & HbA & HpA & HcA & HdyA & Hall); try done; [lia|].
  assert (belongings sA m tl ps1 ps2 = belongings s m tl ps1 ps2) as Hbl by (unfold belongings; by rewrite Hall).
  destruct (job_frees sA _ m tl x1 x2 xp ps1 ps2 psp HdyA) as
    (s1 & Hrun1 & [L K R P O] & Hty1 & HT1 & Hc1 & Hp1); [by rewrite Hbl|].
  destruct (rest_same_fields _ _ HsA) as (_ & _ & EA & _ & ElA & _).
  exists s1. split; [by rewrite HrunA, Hrun1|]. rewrite Hbl in *. split; try done.
  - by rewrite L, EA.
  - intros q Hq HqT. eapply stays_same; [by apply stays_rest|by apply K].
  - pose proof HBA as [Hlen HBk]. split; [by rewrite P|]. intros h' Hh'.
    eapply bucket_ok_ext; [by apply HBk|by rewrite P|]. intros p Hp.
    destruct (HBk h' Hh') as (_ & _ & Hin). destruct (Hin p Hp) as (tkp & Htkp & _).
    apply K; [|intros ->; eapply unlisted_nowhere; [exact HB|apply Hdy|exact Hh|exact Hh'|exact Hp]].
    rewrite <- Hbl. intros Hpb. by rewrite (belongings_no_task _ _ _ _ _ _ _ _ _ _ p HdyA Hpb) in Htkp.
  - by rewrite Hc1, HcA.
  - rewrite O, ElA. apply Hdy.
  - rewrite P, HpA. apply Hdy.
  - split; [done|]. by rewrite P, HpA.
Qed.

(** The kernel thread [th] that runs the job on CPU [c], its stack [stk]. *)
Record job_thread (s : kst) (bl : list Z) (th stk : Z) : Prop := {
  jt_cpu : cpu_thread (k_cpus s c) = th ∧ cpu_task (k_cpus s c) = NULL;
  jt_thread : ∃ thr, k_threads s !! th = Some thr ∧ thread_stack thr = stk;
  jt_stack : raw s stk ∧ stk ∈ k_live s;
  jt_apart : th ∉ bl ∧ stk ∉ bl;
}.

Lemma stays_raw q s s' : stays q s s' → raw s q → raw s' q.
Proof using Type.
  intros (E1 & E2 & E3 & E4 & E5 & E6 & E7 & E8 & E9) [(F1 & F) Fn]. unfold raw, only_node.
  rewrite F1 in E1. rewrite E2, E3, E4, E5, E6, E7, E8, E9.
  split; [split; [by destruct (k_tasks s' !! q)|done]|done].
Qed.

Lemma pool_step_fields s s' : pool_step s s' →
  k_tasks s' = k_tasks s ∧ k_threads s' = k_threads s ∧ k_sockets s' = k_sockets s ∧
  k_descs s' = k_descs s ∧ k_msgs s' = k_msgs s ∧ k_faults s' = k_faults s ∧
  k_infos s' = k_infos s ∧ k_vms s' = k_vms s ∧ k_cpus s' = k_cpus s ∧ k_locks s' = k_locks s.
Proof using Type. intros [-> _]. done. Qed.

Lemma pool_page_in s xp psp q : idx_at root_pidPool s xp psp → pool_page s q → q ∈ psp.
Proof using Type. intros (cs & -> & Hr & _ & Hc & _) [_ Hq]. by eapply index_page_in. Qed.

(** Three structures that the pool of identifiers does not use. *)
Definition outside (s : kst) (q : Z) : Prop :=
  q ∈ k_live s ∧ (is_Some (k_tasks s !! q) ∨ is_Some (k_threads s !! q) ∨ k_nodes s !! q = None).

Lemma outside_pages s r x ps q : outside s q → idx_at r s x ps → q ∉ ps.
Proof using Type.
  intros [_ Hq] Hx Hin. destruct Hq as [Hk|[Hk|Hk]].
  - discriminate (idx_at_kind r s x ps q kd_task Hx Hin Hk).
  - discriminate (idx_at_kind r s x ps q kd_thread Hx Hin Hk).
  - destruct (idx_at_node r s x ps q Hx Hin). congruence.
Qed.

Lemma outside_step s s' xp psp q :
  idx_at root_pidPool s xp psp → pool_step s s' → outside s q → outside s' q.
Proof using Type.
  intros Hp Hst Hq. destruct (pool_step_fields _ _ Hst) as (E1 & E2 & _). destruct Hst as (_ & _ & Hf).
  destruct (Hf q) as [Hpg|[Hl Hn]]; [apply Hq| |].
  - by destruct (outside_pages s _ xp psp q Hq Hp (pool_page_in s xp psp q Hp Hpg)).
  - split; [done|]. rewrite E1, E2, Hn. apply Hq.
Qed.

(** The task and the thread that runs the job, when they are freed. *)
Lemma job_thread_stripped s s1 bl B xp psp th stk :
  typed s → is_Some (k_tasks s !! T) → stripped s bl B xp psp s1 → job_thread s bl th stk →
  NoDup [T; stk; th] ∧ (∀ q, q ∈ [T; stk; th] → outside s1 q) ∧
  (∃ thr, k_threads s1 !! th = Some thr ∧ thread_stack thr = stk) ∧ raw s1 stk.
Proof.
  intros Hty HTs [L K HT _ Hty1 _ _ _ _] [_ (thr & Hthr & Hst) [Hraw Hsl] [Hthn Hstn]].
  assert (T ≠ th) as Hne by (intros ->; by discriminate (ty_one s Hty kd_task kd_thread th HTs (mk_is_Some _ _ Hthr))).
  assert (T ≠ stk) as Hne2 by (intros ->; by destruct (raw_no_kind s stk kd_task Hraw HTs)).
  assert (stk ≠ th) as Hne3 by (intros ->; by destruct (raw_no_kind s th kd_thread Hraw (mk_is_Some _ _ Hthr))).
  assert (k_threads s1 !! th = Some thr) as Hth1 by (rewrite <- Hthr; by apply K).
  assert (raw s1 stk) as Hraw1 by (by apply (stays_raw stk s s1); [apply K|]).
  split_and!; [|intros q Hq|by exists thr|done].
  - apply NoDup_cons; split; [intros [?|[?|[]%not_elem_of_nil]%elem_of_cons]%elem_of_cons; done|].
    apply NoDup_cons; split; [by intros ?%list_elem_of_singleton|apply NoDup_singleton].
  - apply elem_of_cons in Hq as [->|Hq]; [split; [by apply (ty_live s1 Hty1 kd_task)|by left]|].
    apply elem_of_cons in Hq as [->|Hq%list_elem_of_singleton]; [|subst q].
    + split; [|right; right; apply Hraw1]. rewrite L. apply elem_of_difference.
      by rewrite elem_of_list_to_set.
    + assert (is_Some (k_threads s1 !! th)) by (by eexists).
      split; [by apply (ty_live s1 Hty1 kd_thread)|right; by left].
Qed.

(** What is left of the job when the task is stripped. *)
Lemma job_ends s s1 bl B xp psp pid th stk :
  typed s → is_Some (k_tasks s !! T) → stripped s bl B xp psp s1 → job_thread s bl th stk →
  ∃ (b : bool) s2 s3, run n c (anscheduler_pidmap_free_pid pid;; anscheduler_free T;;
                      anscheduler_loop_delete_cur_kernel) s1 = run n c anscheduler_loop_run s3 ∧
    s3 = free_pages [T; stk; th] (upd_cpu c (set_cpu_thread NULL) s2) ∧
    idx_ok root_pidPool s2 (if b then ix_put pid xp else xp) ∧ pool_step s1 s2 ∧
    (new_page s1 ≠ NULL ∨ has_room root_pidPool s1 → b = true) ∧
    (k_live s2 = k_live s1 ∨ ¬ has_room root_pidPool s1 ∧ k_live s2 = {[new_page s1]} ∪ k_live s1) ∧
    pidHashmap (k_pid s2) = pidHashmap (k_pid s1).
Proof.
  intros Hty HTs Hst1 Hj.
  destruct (job_thread_stripped s s1 bl B xp psp th stk Hty HTs Hst1 Hj) as
    ([HT12 [HT3 _]%NoDup_cons]%NoDup_cons & Hout & (thr & Hthr & Hstk) & _).
  destruct Hst1 as [_ _ _ _ Hty1 Hc Hlk Hi [Hp _]]. destruct Hj as [[Hct Hctk] _ _ _].
  destruct (free_pid_spec n c s1 xp pid) as (b & s2 & Hrun & Hok & Hps & Hb & Hlv & Hh);
    [by apply typed_mem|done|by eapply idx_at_ok|by rewrite Hlk; set_solver|].
  destruct (pool_step_fields _ _ Hps) as (_ & E2 & _ & _ & _ & _ & _ & _ & Ec & _).
  assert (∀ q, q ∈ [T; stk; th] → q ∈ k_live s2) as Hl2
    by (intros q Hq; by apply (outside_step s1 s2 xp psp q Hp Hps), Hout).
  assert (T ≠ stk ∧ T ≠ th ∧ stk ≠ th) as (HTstk & HTth & Hsth).
  { split_and!; intros ->; [apply HT12; by left|apply HT12; right; by left|apply HT3; by left]. }
  exists b, s2, (free_pages [T; stk; th] (upd_cpu c (set_cpu_thread NULL) s2)). split_and!; try done.
  rewrite (run_call _ _ _ _ _ _ _ Hrun). rewrite run_free by (apply Hl2; by left).
  assert (∀ q, q ∈ [stk; th] → q ∈ k_live (free_step T s2)) as Hl3.
  { intros q Hq. apply elem_of_difference. split; [apply Hl2; by right|].
    intros ->%elem_of_singleton. apply elem_of_cons in Hq as [?|?%list_elem_of_singleton]; done. }
  rewrite (delete_cur_kernel_spec n c (free_step T s2) th thr); rewrite ?Hstk; try done.
  - simpl. by rewrite Ec, Hc.
  - simpl. by rewrite Ec, Hc.
  - simpl. by rewrite lookup_delete_ne, E2.
  - apply Hl3. by left.
  - apply Hl3. right. by left.
Qed.

(** The memory and the table of identifiers after the last frees. *)
Lemma job_end_state s s1 s2 s3 bl B xp psp th stk x :
  typed s → is_Some (k_tasks s !! T) → stripped s bl B xp psp s1 → job_thread s bl th stk →
  (∀ h, 0 ≤ h < 256 → T ∉ B h) → pool_step s1 s2 → pidHashmap (k_pid s2) = pidHashmap (k_pid s1) →
  s3 = free_pages [T; stk; th] (upd_cpu c (set_cpu_thread NULL) s2) →
  idx_ok root_pidPool s2 x →
  k_live s3 = k_live s2 ∖ list_to_set [T; stk; th] ∧ table_ok s3 B ∧ idx_ok root_pidPool s3 x ∧
  (∀ q, q ∈ k_live s → q ∉ bl → q ∉ [T; stk; th] → q ∈ psp ∨ stays q s s3) ∧
  k_cpus s3 c = mk_cpu NULL NULL true (cpu_timer (k_cpus s c)) ∧ k_locks s3 = ∅.
Proof.
  intros Hty HTs Hst1 Hj HTB Hps Hh Hs3 Hok.
  destruct (job_thread_stripped s s1 bl B xp psp th stk Hty HTs Hst1 Hj) as
    (Hnd & Hout & (thr & Hthr & Hstk) & Hraw1).
  destruct Hst1 as [L K HT1 HB1 Hty1 Hc Hlk Hi [Hp _]]. destruct Hj as [[Hct Hctk] _ _ _].
  destruct (pool_step_fields _ _ Hps) as (E1 & E2 & E3 & E4 & E5 & E6 & E7 & E8 & Ec & El).
  assert (∀ q, q ∉ [T; stk; th] → same_at q s2 s3) as Hsame
    by (intros q Hq; rewrite Hs3; by apply (free_pages_at q _ (upd_cpu c (set_cpu_thread NULL) s2))).
  assert (k_pid s3 = k_pid s2 ∧ k_locks s3 = k_locks s2) as [Hp3 Hl3] by (by rewrite Hs3).
  split_and!.
  - rewrite Hs3. by rewrite free_pages_live.
  - pose proof HB1 as [Hlen HBk]. split; [by rewrite Hp3, Hh|]. intros h Hh256.
    eapply bucket_ok_ext; [by apply HBk|by rewrite Hp3, Hh|]. intros p Hpb.
    destruct (HBk h Hh256) as (_ & _ & Hin). destruct (Hin p Hpb) as (tkp & Htkp & _).
    rewrite <- E1. apply Hsame. intros [->|[->| ->%list_elem_of_singleton]%elem_of_cons]%elem_of_cons.
    + by apply (HTB h Hh256).
    + by destruct (raw_no_kind s1 stk kd_task Hraw1 (mk_is_Some _ _ Htkp)).
    + discriminate (ty_one s1 Hty1 kd_task kd_thread th (mk_is_Some _ _ Htkp) (mk_is_Some _ _ Hthr)).
  - destruct Hok as (cs & Hok). assert (idx_at root_pidPool s2 x cs.*1) as Hat by (by exists cs).
    apply (idx_at_ok _ _ _ cs.*1). apply (idx_at_same _ s2); [simpl; by rewrite Hp3| | |done].
    + intros q Hq. apply Hsame. intros Hq'.
      by apply (outside_pages s2 _ x _ q (outside_step s1 s2 xp psp q Hp Hps (Hout q Hq')) Hat).
    + intros q Hq Hl. rewrite Hs3, free_pages_live. apply elem_of_difference. split; [done|].
      rewrite elem_of_list_to_set. intros Hq'.
      by apply (outside_pages s2 _ x _ q (outside_step s1 s2 xp psp q Hp Hps (Hout q Hq')) Hat).
  - intros q Hq Hqb Hqn. destruct Hps as (_ & _ & Hf). destruct (Hf q) as [Hpg|[_ Hn]].
    + rewrite L. apply elem_of_difference. by rewrite elem_of_list_to_set.
    + left. by eapply pool_page_in.
    + right. eapply stays_same; [|by apply Hsame]. destruct (K q) as (F1 & F2 & F3 & F4 & F5 & F6 & F7 & F8 & F9); [done|set_solver|].
      unfold stays. by rewrite E1, E2, E3, E4, E5, E6, E7, E8, Hn.
  - rewrite Hs3. simpl. rewrite decide_True by done. rewrite Ec, Hc. destruct (k_cpus s c). simpl in *. by subst.
  - by rewrite Hl3, El.
Qed.

(** The job does not use up the room that the pool of identifiers has. *)
Lemma stripped_room s tk m tl x1 x2 xp ps1 ps2 psp B s1 :
  dying s tk m tl x1 x2 xp ps1 ps2 psp →
  stripped s (belongings s m tl ps1 ps2) B xp psp s1 → has_room root_pidPool s → has_room root_pidPool s1.
Proof.
  intros [_ _ _ Hd _ H1 H2 _ H3 Hap] [_ K _ _ _ _ _ _ [_ Hr]] (o & nd & Ho & Hn & Hlt).
  exists o, nd. split_and!; [simpl; by rewrite Hr| |done].
  pose proof H3 as (cs & Hcs & Ho' & Hne & _). rewrite Ho' in Ho. injection Ho as <-. simpl in *.
  assert (hd0 NULL cs.*1 ∈ psp) as Hin by (rewrite Hcs; destruct cs as [|[p f] cs]; [done|by left]).
  destruct (index_pages_apart s tk m tl _ _ _ _ Hd H3 Hin) as (HT & Hv & Hall).
  destruct (K (hd0 NULL cs.*1)) as (_ & _ & _ & _ & _ & _ & _ & -> & _); [|done|done].
  rewrite app_assoc in Hap. apply NoDup_app in Hap as (_ & Hdis & _). unfold belongings.
  intros [?|[?|Hp]%elem_of_cons]%elem_of_app; [done..|]. by apply (Hdis _ Hp).
Qed.
End job.

(** A page that the pool takes is none that was live. *)
Lemma stripped_fresh `{Platform, !PlatformOk _} c T s s1 s2 bl B xp psp :
  stripped c T s bl B xp psp s1 → pool_step s1 s2 → k_live s2 = {[new_page s1]} ∪ k_live s1 →
  new_page s1 ∉ k_live s1.
Proof.
  intros Hs1 (_ & Hm & _) Hl. apply plat_alloc_fresh. intros Hnull.
  apply (mem_null _ (Hm (typed_mem _ (sp_typed _ _ _ _ _ _ _ _ Hs1)))).
  rewrite Hl. apply elem_of_union. left. by apply elem_of_singleton.
Qed.

(** ** Correctness *)

(** C6. The job that destroys a killed task, once nothing refers to it and it has no
    sockets left, runs to its end: exactly what belonged to the task is freed (the
    allocated pages of its threads' user stacks, their kernel stacks, the threads, the
    address space, the pages of its two index sets and the task) and so are the thread
    that runs the job and its stack; the task's bucket of the table of identifiers
    keeps its other tasks in order; its identifier is back in the pool, which takes a
    page only when it has no room (and may lose the identifier only then); every other
    structure stays. The CPU then looks for other work, inside the critical section
    and with no lock held. *)
Theorem kill_job_destroys_task `{Platform, !PlatformOk _}
    n c T vm s tk m tl x1 x2 xp ps1 ps2 psp B l1 l2 th stk :
  let h := _hash_pid (task_pid tk) in
  let bl := belongings vm s m tl ps1 ps2 in
  dying c T vm s tk m tl x1 x2 xp ps1 ps2 psp → job_thread c s bl th stk →
  table_ok s B → B h = l1 ++ T :: l2 → (length bl < n)%nat →
  ∃ (b : bool) s' L, run n c (_free_task_method T) s = run n c anscheduler_loop_run s' ∧
    k_live s' = L ∪ k_live s ∖ list_to_set (bl ++ [T; stk; th]) ∧
    (L = ∅ ∨ ¬ has_room root_pidPool s ∧ ∃ p, L = {[p]}) ∧
    (∀ q, q ∈ k_live s → q ∉ bl → q ∉ [T; stk; th] → q ∈ psp ∨ stays q s s') ∧
    table_ok s' (set_bucket h (l1 ++ l2) B) ∧
    idx_ok root_pidPool s' (if b then ix_put (task_pid tk) xp else xp) ∧
    (has_room root_pidPool s → b = true) ∧
    k_cpus s' c = mk_cpu NULL NULL true (cpu_timer (k_cpus s c)) ∧ k_locks s' = ∅.
Proof.
  intros h bl Hdy Hj HB Hh Hn. pose proof Hdy as [Hty HT _ _ _ _ _ _ _ _].
  destruct (job_strips n c T vm s tk m tl x1 x2 xp ps1 ps2 psp B l1 l2) as (s1 & Hrun & Hs1); try done.
  pose proof (mk_is_Some _ _ HT) as HTs.
  destruct (job_ends n c T s s1 bl (set_bucket h (l1 ++ l2) B) xp psp (task_pid tk) th stk) as
    (b & s2 & s3 & Hrun2 & Hs3 & Hok & Hps & Hb & Hlv & Hpid); try done.
  destruct (job_end_state c T s s1 s2 s3 bl _ xp psp th stk (if b then ix_put (task_pid tk) xp else xp) Hty HTs Hs1 Hj) as
    (HL & HB3 & Hok3 & Hk & Hc & Hlk); [|done..|].
  { intros h' Hh'. by eapply unlisted_nowhere. }
  pose proof (stripped_room c T vm s tk m tl x1 x2 xp ps1 ps2 psp _ s1 Hdy Hs1) as Hroom.
  pose proof (sp_live _ _ _ _ _ _ _ _ Hs1) as HL1.
  fold bl in HL1. rewrite list_to_set_app_L, <- difference_difference_l_L, <- HL1.
  destruct Hlv as [Hl2|[Hnr Hl2]].
  - exists b, s3, ∅. split_and!; try done; [by rewrite Hrun|by rewrite HL, Hl2, (left_id_L ∅ (∪))|by left|auto].
  - exists b, s3, {[new_page s1]}. split_and!; try done; [by rewrite Hrun| |right; split; [intros ?; by apply Hnr, Hroom|by eexists]|auto].
    assert (∀ q, q ∈ [T; stk; th] → q ≠ new_page s1) as Hfresh.
    { intros q Hq ->. apply (stripped_fresh c T s s1 s2 bl (set_bucket h (l1 ++ l2) B) xp psp); try done.
      destruct (job_thread_stripped c T s s1 bl _ xp psp th stk Hty HTs Hs1 Hj) as (_ & Hout & _).
      by apply Hout. }
    rewrite HL, Hl2. apply set_eq. intros q. rewrite !elem_of_difference, elem_of_union, !elem_of_union.
    rewrite elem_of_difference, elem_of_list_to_set, elem_of_singleton. naive_solver.
Qed.

(** *** Witness

    Task 0x10000 shares its bucket with task 0x11000. It has the thread 0x3000 with a
    page of user stack and a kernel stack; its identifier 5 is in use. The job runs
    on CPU 0 as kernel thread 0x40000 with the stack 0x41000. *)
Definition kind_dom (s : kst) (k : kind) : gset Z :=
  match k with
  | kd_task => dom (k_tasks s) | kd_thread => dom (k_threads s) | kd_socket => dom (k_sockets s)
  | kd_desc => dom (k_descs s) | kd_msg => dom (k_msgs s) | kd_fault => dom (k_faults s)
  | kd_info => dom (k_infos s) | kd_node => dom (k_nodes s) | kd_vm => dom (k_vms s)
  end.

Definition all_kinds : list kind :=
  [kd_task; kd_thread; kd_socket; kd_desc; kd_msg; kd_fault; kd_info; kd_node; kd_vm].

#[local] Instance kind_eq_dec : EqDecision kind.
Proof. solve_decision. Defined.

Lemma has_kind_dom s k p : has_kind s k p ↔ p ∈ kind_dom s k.
Proof. destruct k; simpl; by rewrite elem_of_dom. Qed.

Lemma typed_dom s :
  NULL ∉ k_live s → Forall (λ k, kind_dom s k ⊆ k_live s) all_kinds →
  Forall (λ k, Forall (λ k', k = k' ∨ kind_dom s k ## kind_dom s k') all_kinds) all_kinds →
  map_Forall (λ _ o, length (task_sockets o) = 16%nat) (k_tasks s) →
  map_Forall (λ _ o, length (msg_message o) = 0xfe8%nat) (k_msgs s) →
  map_Forall (λ _ o, length (node_indexes o) = 0x1fe%nat) (k_nodes s) →
  length (pidHashmap (k_pid s)) = 256%nat → typed s.
Proof.
  assert (∀ k, k ∈ all_kinds) as Hall by (intros []; by_dec).
  intros H0 Hl H1 Ht Hm Hn Hp. split; [done| | |by split].
  - intros k p Hk%has_kind_dom. rewrite Forall_forall in Hl. by apply (Hl k).
  - intros k k' p Hk%has_kind_dom Hk'%has_kind_dom. rewrite Forall_forall in H1.
    specialize (H1 k (Hall k)). rewrite Forall_forall in H1.
    destruct (H1 k' (Hall k')) as [|Hd]; [done|]. by destruct (Hd p).
Qed.

Definition demo_pool : idxset := mk_idxset 0x1fe (seqZ 0 5 ++ seqZ 6 0x1f8).

Definition demo_dying_task : task_t := set_task_firstThread 0x3000 (demo_pid_task 0x11000 0 5).

Definition demo_dying : kst :=
  set_k_pid (mk_pid (<[5%nat := 0x10000]> (replicate 256 0)) (mk_root 0x1fe 0x32000) true)
    (set_k_tasks (list_to_map [(0x10000, demo_dying_task); (0x11000, demo_pid_task 0 0x10000 0x105)])
      (set_k_threads (list_to_map [(0x3000, demo_thread 0 0 0 0 0 2 0);
          (0x40000, mk_thread 0 0 0 0 0 0 0x41000 0 state_saved)])
        (set_k_nodes (list_to_map [(0x30000, demo_node); (0x31000, demo_node);
            (0x32000, mk_node 0x1fd (reverse (ix_free demo_pool) ++ [0]) 0)])
          (set_k_live (list_to_set [0x3000; 0x10000; 0x11000; 0x20000; 0x30000; 0x31000; 0x32000;
              0x40000; 0x41000; 0x50000; 0x60000])
            (set_k_cpus (λ c, mk_cpu 0 0x40000 false 0) demo_stack))))).

Lemma one_page_at r s p used free nd :
  root_at r s = Some (mk_root used p) → k_nodes s !! p = Some nd → node_holds nd free NULL →
  p ∈ k_live s → only_node s p → p ≠ NULL → idx_at r s (mk_idxset used free) [p].
Proof.
  intros Hr Hn Hh Hl Ho Hp. exists [(p, free)]. split; [done|]. split; [done|]. split; [done|].
  split; [by repeat split; eauto|]. split; [apply NoDup_singleton|].
  split; [by intros q ->%list_elem_of_singleton|]. simpl; by rewrite app_nil_r.
Qed.

Lemma demo_node_holds : node_holds demo_node (seqZ 0 0x1fe) NULL.
Proof. repeat split; vm_compute; congruence || lia. Qed.

Definition demo_belongings : list Z := [0x50000; 0x60000; 0x3000; 0x20000; 0x30000; 0x31000].

Lemma demo_belongings_eq :
  belongings (H := P0) 0x20000 demo_dying demo_stack_table [0x3000] [0x30000] [0x31000] = demo_belongings.
Proof. by vm_compute. Qed.

Lemma demo_doomed :
  threads_doomed (H := P0) 0 0x10000 0x20000 demo_dying_task demo_dying demo_stack_table [0x3000].
Proof.
  split.
  - reflexivity.
  - split; [done|]. split; [reflexivity|done].
  - intros th ->%list_elem_of_singleton. split.
    + eexists. split; reflexivity.
    + split; by_vm.
    + exists 0x60, kstack_flags. split; reflexivity.
    + replace (stack_frames _ _ ++ _) with [0x50000; 0x60000] by (by vm_compute).
      elems; by repeat split.
    + replace (thread_pages _ _ _) with [0x50000; 0x60000; 0x3000] by (by vm_compute). elems; by_dec.
    + by_dec.
  - by_dec.
  - split; reflexivity.
  - reflexivity.
  - reflexivity.
  - done.
Qed.

Lemma demo_dying_ok :
  dying (H := P0) 0 0x10000 0x20000 demo_dying demo_dying_task demo_stack_table [0x3000]
    ix_init ix_init demo_pool [0x30000] [0x31000] [0x32000].
Proof.
  split.
  - apply typed_dom; by_dec.
  - reflexivity.
  - reflexivity.
  - apply demo_doomed.
  - reflexivity.
  - eapply one_page_at; [reflexivity..|apply demo_node_holds|by_dec|by split_and!|done].
  - eapply one_page_at; [reflexivity..|apply demo_node_holds|by_dec|by split_and!|done].
  - reflexivity.
  - eapply one_page_at; [reflexivity..| |by_dec|by split_and!|done].
    repeat split; vm_compute; congruence || lia.
  - by_dec.
Qed.

Lemma demo_dying_table : table_ok demo_dying demo_buckets.
Proof.
  split; [reflexivity|]. intros h Hh. unfold demo_buckets. case_decide as Hh5.
  - subst. split; [reflexivity|]. split; [by_dll|]. elems; eexists; split; reflexivity.
  - split_and!; [|apply dll_nil|by intros p []%not_elem_of_nil].
    change (pidHashmap _) with (<[5%nat := 0x10000]> (replicate 256 0)).
    rewrite list_lookup_insert_ne by lia. apply lookup_replicate_2. lia.
Qed.

Lemma demo_job_thread : job_thread 0 demo_dying demo_belongings 0x40000 0x41000.
Proof.
  split; [split; reflexivity|eexists; split; reflexivity| |].
  - split; [by repeat split|by_dec].
  - split; by_dec.
Qed.

Lemma kill_job_destroys_task_witness :
  ∃ (b : bool) s' L,
    run 7 0 (_free_task_method (H := P0) 0x10000) demo_dying = run 7 0 (anscheduler_loop_run (H := P0)) s' ∧
    k_live s' = L ∪ k_live demo_dying ∖ list_to_set (demo_belongings ++ [0x10000; 0x41000; 0x40000]) ∧
    (L = ∅ ∨ ¬ has_room root_pidPool demo_dying ∧ ∃ p, L = {[p]}) ∧
    (∀ q, q ∈ k_live demo_dying → q ∉ demo_belongings → q ∉ [0x10000; 0x41000; 0x40000] →
       q ∈ [0x32000] ∨ stays q demo_dying s') ∧
    table_ok s' (set_bucket 5 [0x11000] demo_buckets) ∧
    idx_ok root_pidPool s' (if b then ix_put 5 demo_pool else demo_pool) ∧
    (has_room root_pidPool demo_dying → b = true) ∧
    k_cpus s' 0%nat = mk_cpu NULL NULL true 0 ∧ k_locks s' = ∅.
Proof.
  rewrite <- demo_belongings_eq.
  apply (kill_job_destroys_task (H := P0) 7 0 0x10000 0x20000 demo_dying demo_dying_task
    demo_stack_table [0x3000] ix_init ix_init demo_pool [0x30000] [0x31000] [0x32000]
    demo_buckets [] [0x11000] 0x40000 0x41000).
  - apply demo_dying_ok.
  - rewrite demo_belongings_eq. apply demo_job_thread.
  - apply demo_dying_table.
  - reflexivity.
  - rewrite demo_belongings_eq. by_vm.
Defined.
