(* ===== verification/Steps.v ===== *)
(** * Steps: programs one access at a time, and many CPUs at once

    [run] executes one CPU to the end of a call. Here a program makes one atomic
    access per step, a system has any number of CPUs whose steps interleave in every
    way, and threads that were switched away are resumed where they stopped. The two
    descriptions agree on one CPU: [run_iff_steps] and [run_stop_steps]. *)
From S2P Require Import Prelude Types Machine Demo Loop TaskLife Interface.

(** ** One step of one program *)

(** What the next step of a program is: an access was made, the function returned,
    a lock is held, the access is undefined, the thread's state is saved, or the CPU
    leaves. *)
Inductive progress (A : Type) :=
  | moved (p : prog A) (s : kst)
  | returned (a : A)
  | waiting (l : lock_id)
  | undefined (e : ub)
  | saving (th : Z) (body : prog Empty_set) (k : prog A)
  | leaving (l : leave).
Arguments moved {A} _ _.
Arguments returned {A} _.
Arguments waiting {A} _.
Arguments undefined {A} _.
Arguments saving {A} _ _ _.
Arguments leaving {A} _.

(** A loop unrolls one iteration. *)
Definition unroll {A X B} (body : X → prog (X + B)) (x : X) (k : B → prog A) : prog A :=
  body x ≫= λ y, match y with inl x' => Loop body x' k | inr b => k b end.

Definition next_step {A} (c : nat) (p : prog A) (s : kst) : progress A :=
  match p with
  | Ret a => returned a
  | Act f k =>
      match f c s with
      | a_ok r s' => moved (k r) s'
      | a_wait l => waiting l
      | a_ub e => undefined e
      end
  | Loop body x k => moved (unroll body x k) s
  | Save th body k => saving th body k
  | Leave l => leaving l
  end.

Definition pstep {A} (c : nat) (x y : prog A * kst) : Prop :=
  next_step c x.1 x.2 = moved y.1 y.2.

(** ** Systems of CPUs *)

(** A function that never returns, as the code of a CPU. *)
Definition never (p : prog Empty_set) : prog () :=
  p ≫= λ e, match (e : Empty_set) with end.

(** What a saved thread will do, and whether inside a critical section. *)
Definition resumption : Type := bool * prog ().

(** The memory, what each CPU has left to do in the scheduler ([mret ()] when it is
    outside), and what each saved thread will do; a saved state is resumed once. *)
Record sys := mk_sys {
  sy_mem : kst;
  sy_code : nat → prog ();
  sy_saved : Z → option resumption;
}.

Definition on_cpu (c : nat) (p : prog ()) (code : nat → prog ()) : nat → prog () :=
  λ c', if decide (c' = c) then p else code c'.

Definition save_at (th : Z) (k : resumption) (saved : Z → option resumption) : Z → option resumption :=
  λ th', if decide (th' = th) then Some k else saved th'.

Definition drop_at (th : Z) (saved : Z → option resumption) : Z → option resumption :=
  λ th', if decide (th' = th) then None else saved th'.

(** [*th]'s saved registers are those of code that runs [k]. *)
Definition save_thread (th : Z) (s : kst) : kst :=
  set_k_threads (alter (set_thread_state state_saved) th (k_threads s)) s.

(** CPU [c] inside or outside a critical section. *)
Definition in_section (b : bool) (c : nat) (s : kst) : kst := upd_cpu c (set_cpu_locked b) s.

(** Where code that has taken a lock can be: on a CPU, with a thread that was
    interrupted, or lost because its saved state was overwritten. *)
Inductive place := at_cpu (c : nat) | at_thread (th : Z) | nowhere.

#[export] Instance place_eq_dec : EqDecision place.
Proof. solve_decision. Defined.

Section sys.
Context `{Platform}.

(** A call from outside the scheduler. *)
Definition serve (e : entry) : prog () := entry_code e;; mret ().

(** What a thread does when a CPU runs it. The registers of a thread that has not
    been in the scheduler are the kernel's business. *)
Definition resume (st : anscheduler_state) (k : option resumption) : option resumption :=
  match st with
  | state_zero => Some (false, mret ())
  | state_entry _ fn arg => Some (false, never (kernel_code fn arg))
  | state_saved => k
  end.

(** What kind of step a CPU makes; [back]: the thread goes on where it was saved. *)
Inductive step_kind :=
  | k_access | k_save (th : Z) | k_run (th : Z) (back : bool) | k_wake | k_call (e : entry)
  | k_tick (th : Z) | k_section (b : bool) | k_time.

(** One step of CPU [c]. The kernel may enter and leave critical sections outside the
    scheduler, call the functions of the headers in the section that they ask for,
    and, outside critical sections, interrupt a thread at the end of its time slice:
    the thread is saved and the CPU resigns inside a critical section. Time passes. *)
Inductive sys_step (c : nat) : step_kind → sys → sys → Prop :=
  | sys_access S p' s' :
      next_step c (sy_code S c) (sy_mem S) = moved p' s' →
      sys_step c k_access S (mk_sys s' (on_cpu c p' (sy_code S)) (sy_saved S))
  | sys_save S th body k :
      next_step c (sy_code S c) (sy_mem S) = saving th body k →
      is_Some (k_threads (sy_mem S) !! th) →
      sys_step c (k_save th) S (mk_sys (save_thread th (sy_mem S)) (on_cpu c (never body) (sy_code S))
                      (save_at th (cpu_locked (k_cpus (sy_mem S) c), k) (sy_saved S)))
  | sys_run S task th t b p :
      next_step c (sy_code S c) (sy_mem S) = leaving (leave_run task th) →
      k_threads (sy_mem S) !! th = Some t →
      resume (thread_state t) (sy_saved S th) = Some (b, p) →
      sys_step c (k_run th (bool_decide (thread_state t = state_saved))) S
        (mk_sys (in_section b c (sy_mem S)) (on_cpu c p (sy_code S)) (drop_at th (sy_saved S)))
  | sys_wake S :
      next_step c (sy_code S c) (sy_mem S) = leaving leave_idle →
      sys_step c k_wake S (mk_sys (sy_mem S) (on_cpu c (mret ()) (sy_code S)) (sy_saved S))
  | sys_call S e :
      next_step c (sy_code S c) (sy_mem S) = returned () →
      cpu_locked (k_cpus (sy_mem S) c) = begins_inside e →
      sys_step c (k_call e) S (mk_sys (sy_mem S) (on_cpu c (serve e) (sy_code S)) (sy_saved S))
  | sys_tick S :
      let th := cpu_thread (k_cpus (sy_mem S) c) in
      cpu_locked (k_cpus (sy_mem S) c) = false →
      is_Some (k_threads (sy_mem S) !! th) →
      sys_step c (k_tick th) S (mk_sys (in_section true c (save_thread th (sy_mem S)))
                      (on_cpu c (never anscheduler_loop_resign) (sy_code S))
                      (save_at th (false, sy_code S c) (sy_saved S)))
  | sys_section S b :
      next_step c (sy_code S c) (sy_mem S) = returned () →
      sys_step c (k_section b) S (mk_sys (in_section b c (sy_mem S)) (sy_code S) (sy_saved S))
  | sys_time S now :
      sys_step c k_time S (mk_sys (set_k_clock now (sy_mem S)) (sy_code S) (sy_saved S)).

(** An execution: steps of any CPUs in any order. *)
Definition sys_steps : sys → sys → Prop := rtc (λ S S', ∃ c k, sys_step c k S S').

(** An execution all of whose states satisfy [P]. *)
Definition sys_steps_while (P : kst → Prop) : sys → sys → Prop :=
  rtc (λ S S', P (sy_mem S) ∧ P (sy_mem S') ∧ ∃ c k, sys_step c k S S').

End sys.

(** ** Lemmas: [run] and steps

    [run_iff_steps]: a program returns in [run] at some bound on its loops exactly
    when its steps return. *)

Definition out_of_fuel {A} (o : outcome A) : Prop := ∃ s, o = Stop s_fuel s.

(** More iterations do not change a result. *)
Lemma iterate_more {X B A} (body body' : X → kst → outcome (X + B))
    (k k' : B → kst → outcome A) n m :
  (∀ x s, ¬ out_of_fuel (body x s) → body' x s = body x s) →
  (∀ b s, ¬ out_of_fuel (k b s) → k' b s = k b s) → (n ≤ m)%nat →
  ∀ x s, ¬ out_of_fuel (iterate n body k x s) →
  iterate m body' k' x s = iterate n body k x s.
Proof.
  intros Hb Hk. revert m. induction n as [|n IH]; intros m Hm x s Hf.
  - destruct Hf. by exists s.
  - destruct m as [|m]; [lia|]. rewrite iterate_S in Hf. rewrite !iterate_S.
    assert (body' x s = body x s) as ->.
    { apply Hb. intros [s' Hs']. apply Hf. rewrite Hs'. by exists s'. }
    destruct (body x s) as [[x'|b] s'|w s']; [apply IH; auto with lia|by apply Hk|done].
Qed.

Lemma run_more {A} (p : prog A) c : ∀ n m s,
  (n ≤ m)%nat → ¬ out_of_fuel (run n c p s) → run m c p s = run n c p s.
Proof.
  induction p as [A a|A R f k IH|A X B body IHb x k IH|A th body IHb k _|A l];
    intros n m s Hm Hf; unfold run in *; fold @run in *; [done| | | |done].
  - destruct (f c s); auto.
  - apply iterate_more; auto.
  - destruct (k_threads s !! th) as [t|]; [|done]. rewrite (IHb n m); [done..|].
    intros [s' Hs']. apply Hf. rewrite Hs'. by exists s'.
Qed.

(** The result of a call that returns does not depend on the bound. *)
Lemma run_done_more n m c {A} (p : prog A) s a s' :
  run n c p s = Done a s' → (n ≤ m)%nat → run m c p s = Done a s'.
Proof. intros Hr Hm. rewrite <- Hr. apply run_more; [done|]. rewrite Hr. by intros [? [=]]. Qed.

Lemma run_step n c {A} (p p' : prog A) s s' a sf :
  next_step c p s = moved p' s' → run n c p' s' = Done a sf → run (S n) c p s = Done a sf.
Proof.
  intros Hn Hr. destruct p as [b|R f k|X B body x k|th body k|l]; simpl in Hn; try done.
  - destruct (f c s) as [r s1|l|e] eqn:Hf; try done. injection Hn as <- <-.
    change (match f c s with a_ok r s' => run (S n) c (k r) s' | a_wait l => Stop (s_deadlock l) s
            | a_ub e => Stop (s_ub e) s end = Done a sf).
    rewrite Hf. apply (run_done_more n); auto.
  - injection Hn as <- <-. unfold unroll in Hr. rewrite run_bind in Hr.
    change (run (S n) c (Loop body x k) s) with
      (iterate (S n) (λ x s, run (S n) c (body x) s) (λ b s, run (S n) c (k b) s) x s).
    rewrite iterate_S. destruct (run n c (body x) s) as [y s1|w s1] eqn:Hb; [|done].
    rewrite (run_done_more n (S n) c _ _ _ _ Hb) by lia. destruct y as [x'|b].
    + change (iterate n (λ x s, run n c (body x) s) (λ b s, run n c (k b) s) x' s1 = Done a sf) in Hr.
      rewrite <- Hr. apply iterate_more; [..|done|rewrite Hr; by intros [? [=]]];
        intros; apply run_more; auto.
    + apply (run_done_more n); auto.
Qed.

Lemma steps_run c {A} (x : prog A * kst) a s' :
  rtc (pstep c) x (mret a, s') → ∃ n, run n c x.1 x.2 = Done a s'.
Proof.
  intros Hsteps. remember (mret a, s') as y eqn:Hy. revert Hy.
  induction Hsteps as [x|x y z Hxy _ IH]; intros ->; [by exists 0%nat|].
  destruct (IH eq_refl) as [n Hn]. exists (S n). by eapply run_step.
Qed.

Lemma steps_unroll c {A X B} (body : X → prog (X + B)) x (k : B → prog A) s z :
  rtc (pstep c) (unroll body x k, s) z → rtc (pstep c) (Loop body x k, s) z.
Proof. intros Hz. by apply rtc_l with (unroll body x k, s). Qed.

(** A program that returns, in front of another. *)
Lemma run_steps_bind n c {A} (p : prog A) : ∀ {B} (f : A → prog B) s a s',
  run n c p s = Done a s' → rtc (pstep c) (p ≫= f, s) (f a, s').
Proof.
  induction p as [A b|A R g k IH|A X Y body IHb x k IH|A th body _ k _|A l];
    intros B f s a s' Hr.
  - by injection Hr as -> ->.
  - change (match g c s with a_ok r s' => run n c (k r) s' | a_wait l => Stop (s_deadlock l) s
            | a_ub e => Stop (s_ub e) s end = Done a s') in Hr.
    destruct (g c s) as [r s1|l|e] eqn:Hg; try done.
    apply rtc_l with (k r ≫= f, s1); [|by apply IH]. unfold pstep. simpl. by rewrite Hg.
  - change (iterate n (λ x s, run n c (body x) s) (λ b s, run n c (k b) s) x s = Done a s') in Hr.
    change (Loop body x k ≫= f) with (Loop body x (λ b, k b ≫= f)).
    revert x s Hr. generalize n at 1. intros m.
    induction m as [|m IHm]; intros x s Hr; [done|]. rewrite iterate_S in Hr.
    destruct (run n c (body x) s) as [y s1|w s1] eqn:Hb; [|done].
    apply steps_unroll. unfold unroll.
    etrans; [eapply IHb; exact Hb|]. destruct y as [x'|b]; [by apply IHm|by apply IH].
  - unfold run in Hr. fold @run in Hr. destruct (k_threads s !! th); [|done].
    by destruct (run n c body _) as [[]|].
  - done.
Qed.

Lemma run_steps n c {A} (p : prog A) : ∀ s a s',
  run n c p s = Done a s' → rtc (pstep c) (p, s) (mret a, s').
Proof.
  induction p as [A b|A R g k IH|A X Y body _ x k IH|A th body _ k _|A l]; intros s a s' Hr.
  - by injection Hr as -> ->.
  - change (match g c s with a_ok r s' => run n c (k r) s' | a_wait l => Stop (s_deadlock l) s
            | a_ub e => Stop (s_ub e) s end = Done a s') in Hr.
    destruct (g c s) as [r s1|l|e] eqn:Hg; try done.
    apply rtc_l with (k r, s1); [|by apply IH]. unfold pstep. simpl. by rewrite Hg.
  - change (iterate n (λ x s, run n c (body x) s) (λ b s, run n c (k b) s) x s = Done a s') in Hr.
    revert x s Hr. generalize n at 1. intros m.
    induction m as [|m IHm]; intros x s Hr; [done|]. rewrite iterate_S in Hr.
    destruct (run n c (body x) s) as [y s1|w s1] eqn:Hb; [|done].
    apply steps_unroll. unfold unroll.
    etrans; [apply (run_steps_bind n c (body x) _ s y s1 Hb)|]. destruct y as [x'|b]; [by apply IHm|by apply IH].
  - unfold run in Hr. fold @run in Hr. destruct (k_threads s !! th); [|done].
    by destruct (run n c body _) as [[]|].
  - done.
Qed.

Lemma run_iff_steps c {A} (p : prog A) s a s' :
  (∃ n, run n c p s = Done a s') ↔ rtc (pstep c) (p, s) (mret a, s').
Proof. split; [intros [n Hn]; by eapply run_steps|apply steps_run]. Qed.

(** *** A run that stops *)

(** One step of the code of a CPU, or the switch to what runs after a save. *)
Inductive alone (c : nat) : prog () * kst → prog () * kst → Prop :=
  | alone_access p s p' s' : next_step c p s = moved p' s' → alone c (p, s) (p', s')
  | alone_save p s th body k :
      next_step c p s = saving th body k → is_Some (k_threads s !! th) →
      alone c (p, s) (never body, save_thread th s).

(** The CPU can make no step of its own, because of [w]. *)
Definition stuck (c : nat) (w : stop) (p : prog ()) (s : kst) : Prop :=
  match next_step c p s with
  | leaving l => w = s_leave l
  | waiting l => w = s_deadlock l
  | undefined e => w = s_ub e
  | saving th _ _ => k_threads s !! th = None ∧ w = s_ub (bad_pointer th)
  | _ => False
  end.

Lemma pstep_alone c (x y : prog () * kst) : rtc (pstep c) x y → rtc (alone c) x y.
Proof.
  intros Hr. induction Hr as [x|[p s] [p' s'] z Hxy _ IH]; [done|].
  eapply rtc_l; [|done]. by apply alone_access.
Qed.

Lemma save_thread_insert th t s :
  k_threads s !! th = Some t →
  save_thread th s = set_k_threads (<[th := set_thread_state state_saved t]> (k_threads s)) s.
Proof.
  intros Ht. unfold save_thread. f_equal. apply map_eq. intros p.
  destruct (decide (p = th)) as [->|Hne].
  - by rewrite lookup_alter_eq, lookup_insert_eq, Ht.
  - by rewrite lookup_alter_ne, lookup_insert_ne.
Qed.

Lemma run_stops_bind n c {A} (p : prog A) : ∀ (f : A → prog ()) s w s',
  run n c p s = Stop w s' → w ≠ s_fuel →
  ∃ p', rtc (alone c) (p ≫= f, s) (p', s') ∧ stuck c w p' s'.
Proof.
  induction p as [A b|A R g k IH|A X Y body IHb x k IH|A th body IHb k _|A l];
    intros f s w s' Hr Hw.
  - done.
  - change (match g c s with a_ok r s' => run n c (k r) s' | a_wait l => Stop (s_deadlock l) s
            | a_ub e => Stop (s_ub e) s end = Stop w s') in Hr.
    assert (next_step c (Act g k ≫= f) s = match g c s with a_ok r s' => moved (k r ≫= f) s'
      | a_wait l => waiting l | a_ub e => undefined e end) as Hn by done.
    destruct (g c s) as [r s1|l|e] eqn:Hg.
    + destruct (IH r f s1 w s' Hr Hw) as (p' & Hsteps & Hp'). exists p'. split; [|done].
      eapply rtc_l; [|done]. by apply alone_access.
    + injection Hr as <- <-. exists (Act g k ≫= f). split; [done|]. unfold stuck. by rewrite Hn.
    + injection Hr as <- <-. exists (Act g k ≫= f). split; [done|]. unfold stuck. by rewrite Hn.
  - change (iterate n (λ x s, run n c (body x) s) (λ b s, run n c (k b) s) x s = Stop w s') in Hr.
    change (Loop body x k ≫= f) with (Loop body x (λ b, k b ≫= f)).
    revert x s Hr. generalize n at 1. intros m.
    induction m as [|m IHm]; intros x s Hr; [by injection Hr as <- <-|]. rewrite iterate_S in Hr.
    assert (∀ z p', rtc (alone c) (unroll body x (λ b, k b ≫= f), s) z ∧ stuck c w p' s' →
      rtc (alone c) (Loop body x (λ b, k b ≫= f), s) z ∧ stuck c w p' s') as Hunroll.
    { intros z p' [Hz ?]. split; [|done]. eapply rtc_l; [by apply alone_access|done]. }
    destruct (run n c (body x) s) as [y s1|w1 s1] eqn:Hb.
    + assert (∃ p', rtc (alone c) (match y with inl x' => Loop body x' (λ b, k b ≫= f)
        | inr b => k b ≫= f end, s1) (p', s') ∧ stuck c w p' s') as (p' & Hsteps & Hp').
      { destruct y as [x'|b]; [by apply IHm|by apply IH]. }
      exists p'. apply Hunroll. split; [|done]. etrans; [|exact Hsteps].
      apply pstep_alone, (run_steps_bind n c (body x) (λ y, match y with
        inl x' => Loop body x' (λ b, k b ≫= f) | inr b => k b ≫= f end) s y s1 Hb).
    + injection Hr as -> ->.
      destruct (IHb x (λ y, match y with inl x' => Loop body x' (λ b, k b ≫= f)
        | inr b => k b ≫= f end) s w s' Hb Hw) as (p' & Hsteps & Hp').
      exists p'. by apply Hunroll.
  - change (Save th body k ≫= f) with (Save th body (k ≫= f)).
    unfold run in Hr. fold @run in Hr. destruct (k_threads s !! th) as [t|] eqn:Ht.
    + rewrite <- (save_thread_insert th t s Ht) in Hr.
      destruct (run n c body (save_thread th s)) as [[]|w1 s1] eqn:Hb. injection Hr as -> ->.
      destruct (IHb (λ e, match e with end) _ w s' Hb Hw) as (p' & Hsteps & Hp').
      exists p'. split; [|done]. eapply rtc_l; [|exact Hsteps]. by eapply alone_save.
    + injection Hr as <- <-. exists (Save th body (k ≫= f)). split; [done|]. by split.
  - injection Hr as <- <-. by exists (Leave l).
Qed.

(** What one CPU does alone, it can do in a system. *)
Lemma alone_sys `{Platform} c code saved p s p' s' :
  rtc (alone c) (p, s) (p', s') →
  code c = p →
  ∃ code' saved', sys_steps (mk_sys s code saved) (mk_sys s' code' saved') ∧ code' c = p' ∧
    ∀ c', c' ≠ c → code' c' = code c'.
Proof.
  intros Hr. remember (p, s) as x eqn:Hx. remember (p', s') as y eqn:Hy.
  revert p s Hx code saved. induction Hr as [x|x z y Hxz _ IH]; intros p s -> code saved Hc.
  - injection Hy as <- <-. exists code, saved. by split.
  - assert (∃ p1 s1 saved1, z = (p1, s1) ∧ ∃ kd, sys_step c kd (mk_sys s code saved)
      (mk_sys s1 (on_cpu c p1 code) saved1)) as (p1 & s1 & saved1 & -> & kd & Hstep).
    { inversion Hxz; subst p z.
      - eexists _, _, saved. split; [done|]. eexists. by apply (sys_access c (mk_sys s code saved)).
      - eexists _, _, (save_at th (cpu_locked (k_cpus s c), k) saved). split; [done|].
        eexists. by apply (sys_save c (mk_sys s code saved)). }
    assert (on_cpu c p1 code c = p1) as Hon by (unfold on_cpu; by rewrite decide_True).
    destruct (IH Hy p1 s1 eq_refl (on_cpu c p1 code) saved1 Hon) as (code' & saved' & Hsteps & Hc' & Ho).
    exists code', saved'. split; [|split; [done|]].
    + eapply rtc_l; [by exists c, kd|done].
    + intros c' Hne. rewrite Ho by done. unfold on_cpu. by rewrite decide_False.
Qed.

(** What [run] says of a call holds of the same call made step by step in a system
    of CPUs: on a CPU that is outside the scheduler, and in the section that the header
    asks for, the call of [e] takes the memory [s] to the memory where [run] returns,
    and the CPU is outside again; or it gets to the memory where [run] stops, and what
    the CPU has to do next is what [run] stopped for: leaving for another thread, a
    lock that is held, an undefined access. The other CPUs are where they were. *)
Theorem call_in_system `{Platform} n c e s code saved :
  code c = mret () → cpu_locked (k_cpus s c) = begins_inside e →
  match run n c (entry_code e) s with
  | Done _ s' => ∃ code' saved', sys_steps (mk_sys s code saved) (mk_sys s' code' saved') ∧
      ∀ c', code' c' = code c'
  | Stop s_fuel _ => True
  | Stop w s' => ∃ code' saved', sys_steps (mk_sys s code saved) (mk_sys s' code' saved') ∧
      stuck c w (code' c) s' ∧ ∀ c', c' ≠ c → code' c' = code c'
  end.
Proof.
  intros Hc Hin.
  assert (sys_step c (k_call e) (mk_sys s code saved) (mk_sys s (on_cpu c (serve e) code) saved)) as Hcall.
  { apply (sys_call c (mk_sys s code saved)); [simpl; by rewrite Hc|done]. }
  assert (on_cpu c (serve e) code c = serve e) as Hon by (unfold on_cpu; by rewrite decide_True).
  assert (∀ p' s', rtc (alone c) (serve e, s) (p', s') → ∃ code' saved',
    sys_steps (mk_sys s code saved) (mk_sys s' code' saved') ∧ code' c = p' ∧
    ∀ c', c' ≠ c → code' c' = code c') as Hsys.
  { intros p' s' Hr.
    destruct (alone_sys c _ saved _ _ _ _ Hr Hon) as (code' & saved' & Hsteps & Hc' & Ho).
    exists code', saved'. split; [by eapply rtc_l; [exists c, (k_call e)|]|]. split; [done|].
    intros c' Hne. rewrite Ho by done. unfold on_cpu. by rewrite decide_False. }
  destruct (run n c (entry_code e) s) as [[] s'|w s'] eqn:Hr.
  - destruct (Hsys (mret ()) s') as (code' & saved' & Hsteps & Hc' & Ho).
    { apply pstep_alone, (run_steps_bind n c (entry_code e) (λ _, mret ()) s () s' Hr). }
    exists code', saved'. split; [done|]. intros c'.
    destruct (decide (c' = c)) as [->|]; [by rewrite Hc, Hc'|by apply Ho].
  - assert (w ≠ s_fuel → ∃ code' saved', sys_steps (mk_sys s code saved) (mk_sys s' code' saved') ∧
      stuck c w (code' c) s' ∧ ∀ c', c' ≠ c → code' c' = code c') as Hstop.
    { intros Hw. destruct (run_stops_bind n c _ (λ _, mret ()) _ _ _ Hr Hw) as (p' & Hsteps & Hp').
      destruct (Hsys p' s' Hsteps) as (code' & saved' & Hsteps' & Hc' & Ho).
      exists code', saved'. by rewrite Hc'. }
    by destruct w; first [done|apply Hstop].
Qed.

(** Task 0x10000 is referenced on CPU 0; CPU 1 cannot kill it when its [killLock] is
    held. *)
Definition demo_held : kst := set_k_locks {[killLock 0x10000]} (demo 0 2).

Lemma call_in_system_witness :
  (∃ s' code' saved', run 5 0 (entry_code (H := P0) (e_task_reference 0x10000)) (demo 0 2) = Done () s' ∧
     sys_steps (H := P0) (mk_sys (demo 0 2) (λ _, mret ()) (λ _, None)) (mk_sys s' code' saved')) ∧
  ∃ s' code' saved',
    sys_steps (H := P0) (mk_sys demo_held (λ _, mret ()) (λ _, None)) (mk_sys s' code' saved') ∧
    stuck 1 (s_deadlock (killLock 0x10000)) (code' 1%nat) s'.
Proof.
  split.
  - pose proof (call_in_system (H := P0) 5 0 (e_task_reference 0x10000) (demo 0 2) (λ _, mret ())
      (λ _, None) eq_refl eq_refl) as Hs.
    destruct (run 5 0 _ (demo 0 2)) as [[] s'|w s'] eqn:Hr; [|vm_compute in Hr; discriminate].
    destruct Hs as (code' & saved' & Hsteps & _). by exists s', code', saved'.
  - pose proof (call_in_system (H := P0) 5 1 (e_task_kill 0x10000 2) demo_held (λ _, mret ())
      (λ _, None) eq_refl eq_refl) as Hs.
    destruct (run 5 1 _ _) as [[] s'|w s'] eqn:Hr; [vm_compute in Hr; discriminate|].
    assert (w = s_deadlock (killLock 0x10000)) as -> by (vm_compute in Hr; by injection Hr as <-).
    destruct Hs as (code' & saved' & Hsteps & Hst & _). by exists s', code', saved'.
Defined.
