(* ===== verification/Guard.v ===== *)
(** * Guard: data that every CPU accesses under its lock only

    Tasks and socket descriptors each have a reference count, a flag that ends it
    ([isKilled], [isClosed]) and the reason ([killReason], [closeCode]), protected by
    a lock of their own ([killLock], [closeLock]). A program is [calm] when, whatever
    other CPUs do between its accesses, it changes these fields only while it holds
    the lock, and by the time it gives the lock up it has performed one event of the
    specification below, or none. *)
From S2P Require Import Prelude Types Machine.

(** ** Specification: a reference count that can be closed *)

Record counter := mk_counter { ct_count : Z; ct_over : bool; ct_reason : Z }.

Inductive event_of_counter := granted | dropped | ended (reason : Z).

(** No reference is granted and no reason is recorded once the count is closed. *)
Definition apply_event (x : counter) (e : event_of_counter) : option counter :=
  match e with
  | granted => if ct_over x then None
               else Some (mk_counter (u64 (ct_count x + 1)) false (ct_reason x))
  | dropped => Some (mk_counter (u64 (ct_count x - 1)) (ct_over x) (ct_reason x))
  | ended r => if ct_over x then None else Some (mk_counter (ct_count x) true r)
  end.

(** ** The counters of the program *)

Inductive subject := su_task (task : Z) | su_desc (desc : Z).

Definition su_addr (u : subject) : Z := match u with su_task p | su_desc p => p end.

Definition task_counter (o : task_t) : counter :=
  mk_counter (task_refCount o) (bool_decide (task_isKilled o ≠ 0)) (task_killReason o).
Definition desc_counter (o : socket_desc_t) : counter :=
  mk_counter (desc_refCount o) (bool_decide (desc_isClosed o ≠ 0)) (desc_closeCode o).

Definition counter_of (u : subject) (s : kst) : option counter :=
  match u with
  | su_task p => task_counter <$> k_tasks s !! p
  | su_desc p => desc_counter <$> k_descs s !! p
  end.

Definition guard_lock (u : subject) : lock_id :=
  match u with su_task p => killLock p | su_desc p => closeLock p end.

(** The structure has not been freed. *)
Definition subject_live (u : subject) (s : kst) : Prop :=
  su_addr u ∈ k_live s ∧ is_Some (counter_of u s).

(** ** Calm programs *)

(** Whether the code at hand holds the lock, and if so the counter when it took it
    and now. *)
Definition mode : Type := option (counter * counter).

Section conf.
Context (u : subject).

Definition mode_in (m : mode) (s : kst) : Prop :=
  match m with
  | None => True
  | Some (_, v) => counter_of u s = Some v ∧ guard_lock u ∈ k_locks s
  end.

(** At most one event. *)
Definition one_event (v v' : counter) : Prop :=
  v' = v ∨ ∃ e, apply_event v e = Some v'.

(** Under the lock, a counter that is closed changes by one drop at most. *)
Definition inner_step (v0 v v' : counter) : Prop :=
  ct_over v0 = true → v' = v ∨ (v = v0 ∧ apply_event v0 dropped = Some v').

(** What an access from memory [s] to [s'] does to the mode. *)
Definition mode_step (m : mode) (s s' : kst) (m' : mode) : Prop :=
  match m, m' with
  | None, None => counter_of u s' = counter_of u s ∧ (guard_lock u ∈ k_locks s' ↔ guard_lock u ∈ k_locks s)
  | None, Some (v0, v) => guard_lock u ∉ k_locks s ∧ guard_lock u ∈ k_locks s' ∧
      counter_of u s = Some v0 ∧ counter_of u s' = Some v ∧ v = v0
  | Some (v0, v), Some (v0', v') => v0' = v0 ∧ guard_lock u ∈ k_locks s' ∧
      counter_of u s' = Some v' ∧ inner_step v0 v v'
  | Some (v0, v), None => guard_lock u ∉ k_locks s' ∧ counter_of u s' = Some v ∧ one_event v0 v
  end.

(** [conf m p Q]: in mode [m], [p] follows the discipline, and it returns with a
    result and mode that satisfy [Q]. A thread never gives the CPU away by itself
    while it holds the lock. *)
Fixpoint conf {A} (m : mode) (p : prog A) (Q : A → mode → Prop) {struct p} : Prop :=
  match p with
  | Ret a => Q a m
  | Act f k => ∀ c s r s', subject_live u s → mode_in m s → f c s = a_ok r s' →
      subject_live u s' → ∃ m', mode_step m s s' m' ∧ conf m' (k r) Q
  | Loop body x k => ∃ I : _ → mode → Prop, I x m ∧
      ∀ x m, I x m → conf m (body x)
        (λ y m', match y with inl x' => I x' m' | inr b => conf m' (k b) Q end)
  | Save _ body k => m = None ∧ conf None body (λ _ _, True) ∧ conf None k Q
  | Leave _ => m = None
  end.

Definition calm {A} (p : prog A) : Prop := conf None p (λ _ m, m = None).

(** ** Lemmas: composition *)

Lemma conf_mono {A} (p : prog A) : ∀ m (Q Q' : A → mode → Prop),
  conf m p Q → (∀ a m, Q a m → Q' a m) → conf m p Q'.
Proof.
  induction p as [A a|A R f k IH|A X B body IHb x k IH|A th body IHb k IH|A l];
    intros m Q Q' Hp HQ; simpl in *; [auto| | | |done].
  - intros c s r s' Hl Hm Hf Hl'. destruct (Hp c s r s' Hl Hm Hf Hl') as (m' & ? & ?).
    exists m'. eauto.
  - destruct Hp as (I & HI & Hb). exists I. split; [done|]. intros x' m' Hx'.
    eapply IHb; [by apply Hb|]. intros [x2|b] m2; eauto.
  - naive_solver.
Qed.

Lemma conf_bind {A B} (p : prog A) : ∀ (f : A → prog B) m Q,
  conf m p (λ a m', conf m' (f a) Q) → conf m (p ≫= f) Q.
Proof.
  induction p as [A a|A R g k IH|A X Y body IHb x k IH|A th body IHb k IH|A l];
    intros f m Q Hp; [done| | | |done].
  - intros c s r s' Hl Hm Hf Hl'. destruct (Hp c s r s' Hl Hm Hf Hl') as (m' & ? & ?).
    exists m'. split; [done|]. by apply IH.
  - destruct Hp as (I & HI & Hb). exists I. split; [done|]. intros x' m' Hx'.
    eapply conf_mono; [by apply Hb|]. intros [x2|b] m2; [done|]. apply IH.
  - destruct Hp as (? & ? & ?). split; [done|]. split; [done|]. by apply IH.
Qed.

Lemma conf_act {R} m (f : nat → kst → aresult R) (Q : R → mode → Prop) :
  (∀ c s r s', subject_live u s → mode_in m s → f c s = a_ok r s' → subject_live u s' →
     ∃ m', mode_step m s s' m' ∧ Q r m') →
  conf m (act f) Q.
Proof. done. Qed.

Lemma calm_ret {A} (a : A) : calm (mret a).
Proof. done. Qed.

Lemma calm_bind {A B} (p : prog A) (f : A → prog B) :
  calm p → (∀ a, calm (f a)) → calm (p ≫= f).
Proof. intros Hp Hf. apply conf_bind. eapply conf_mono; [exact Hp|]. intros a m ->. apply Hf. Qed.

Lemma calm_act {R} (f : nat → kst → aresult R) :
  (∀ c s r s', subject_live u s → f c s = a_ok r s' → subject_live u s' →
     counter_of u s' = counter_of u s ∧ (guard_lock u ∈ k_locks s' ↔ guard_lock u ∈ k_locks s)) →
  calm (act f).
Proof. intros Hf. apply conf_act. intros c s r s' Hl _ Hfs Hl'. exists None. split; [|done]. by eapply Hf. Qed.

Lemma calm_leave {A} l : calm (A := A) (Leave l).
Proof. done. Qed.

Lemma calm_while {X B} (x : X) (body : X → prog (X + B)) :
  (∀ x, calm (body x)) → calm (while_ x body).
Proof.
  intros Hb. exists (λ _ m, m = None). split; [done|]. intros x' m ->.
  eapply conf_mono; [apply Hb|]. by intros [?|?] m ->.
Qed.

Lemma calm_for {R} count (body : Z → prog (option R)) :
  (∀ i, calm (body i)) → ∀ i, calm (for_ count i body).
Proof.
  intros Hb. induction count as [|k IH]; intros i; [apply calm_ret|].
  change (calm (r ← body i; match r with Some _ => mret r | None => for_ k (i + 1) body end)).
  apply calm_bind; [done|]. intros [r|]; [apply calm_ret|apply IH].
Qed.

Lemma calm_for_each count (body : Z → prog ()) :
  (∀ i, calm (body i)) → ∀ i, calm (for_each count i body).
Proof.
  intros Hb. induction count as [|k IH]; intros i; [apply calm_ret|].
  change (calm (body i;; for_each k (i + 1) body)). apply calm_bind; auto.
Qed.

Lemma calm_stack_run {A} (p : prog Empty_set) : calm p → calm (A := A) (anscheduler_cpu_stack_run p).
Proof. intros Hp. apply calm_bind; [done|intros []]. Qed.

Lemma calm_save th (body : prog Empty_set) : calm body → calm (anscheduler_save_return_state th body).
Proof. intros Hb. split; [done|]. split; [|done]. by eapply conf_mono. Qed.
End conf.

(** ** Lemmas: accesses *)

(** Code that leaves the counters and their locks alone. *)
Lemma calm_gget u {R} (f : kst → R) : calm u (gget f).
Proof. apply calm_act. by intros c s r s' _ [= <- <-]. Qed.

Lemma calm_gset u g :
  (∀ s, counter_of u (g s) = counter_of u s) → (∀ s, k_locks (g s) = k_locks s) → calm u (gset_ g).
Proof. intros Hg Hl. apply calm_act. intros c s r s' _ [= <- <-] _. by rewrite Hg, Hl. Qed.

Lemma calm_rd u {T R} `{HeapOf T} p (f : T → R) : calm u (rd p f).
Proof. apply calm_act. intros c s r s' _. destruct (heap s !! p); by intros [= <- <-]. Qed.

(** A heap whose structures hold no counter. *)
Class NoCounter (T : Type) `{HeapOf T} :=
  no_counter u h s : counter_of u (set_heap h s) = counter_of u s ∧ k_locks (set_heap h s) = k_locks s.

#[export] Instance no_counter_thread : NoCounter thread_t.
Proof. by intros []. Qed.
#[export] Instance no_counter_socket : NoCounter socket_t.
Proof. by intros []. Qed.
#[export] Instance no_counter_msg : NoCounter socket_msg_t.
Proof. by intros []. Qed.
#[export] Instance no_counter_fault : NoCounter page_fault_t.
Proof. by intros []. Qed.
#[export] Instance no_counter_info : NoCounter msginfo_t.
Proof. by intros []. Qed.
#[export] Instance no_counter_node : NoCounter anidxset_node_t.
Proof. by intros []. Qed.

Lemma calm_wr u {T} `{NoCounter T} p (g : T → T) : calm u (wr p g).
Proof.
  apply calm_act. intros c s r s' _. destruct (heap s !! p); intros [= <- <-] _.
  by destruct (no_counter u (<[p := g t]> (heap s)) s) as [-> ->].
Qed.

Lemma calm_rmw u {T R} `{NoCounter T} p (f : T → R) (g : T → T) : calm u (rmw p f g).
Proof.
  apply calm_act. intros c s r s' _. destruct (heap s !! p); intros [= <- <-] _.
  by destruct (no_counter u (<[p := g t]> (heap s)) s) as [-> ->].
Qed.

Lemma counter_insert_task u p o s :
  (∀ o', k_tasks s !! p = Some o' → task_counter o = task_counter o') → is_Some (k_tasks s !! p) ∨ p ≠ su_addr u →
  counter_of u (set_k_tasks (<[p := o]> (k_tasks s)) s) = counter_of u s.
Proof.
  intros Ho Hp. destruct u as [t|d]; simpl in *; [|done]. destruct (decide (t = p)) as [->|Hne].
  - destruct Hp as [[o' Ho']|]; [|done]. rewrite lookup_insert_eq, Ho'. simpl. by rewrite (Ho o').
  - by rewrite lookup_insert_ne.
Qed.

Lemma counter_insert_desc u p o s :
  (∀ o', k_descs s !! p = Some o' → desc_counter o = desc_counter o') → is_Some (k_descs s !! p) ∨ p ≠ su_addr u →
  counter_of u (set_k_descs (<[p := o]> (k_descs s)) s) = counter_of u s.
Proof.
  intros Ho Hp. destruct u as [t|d]; simpl in *; [done|]. destruct (decide (d = p)) as [->|Hne].
  - destruct Hp as [[o' Ho']|]; [|done]. rewrite lookup_insert_eq, Ho'. simpl. by rewrite (Ho o').
  - by rewrite lookup_insert_ne.
Qed.

(** Fields other than the counter's. *)
Lemma calm_wr_task u p g : (∀ o, task_counter (g o) = task_counter o) → calm u (wr p g).
Proof.
  intros Hg. apply calm_act. intros c s r s' _. destruct (heap s !! p) as [o|] eqn:Ho; intros [= <- <-] _.
  split; [|done]. apply counter_insert_task; [|by left]. intros o' Ho'.
  simpl in Ho. rewrite Hg. congruence.
Qed.

Lemma calm_wr_desc u p g : (∀ o, desc_counter (g o) = desc_counter o) → calm u (wr p g).
Proof.
  intros Hg. apply calm_act. intros c s r s' _. destruct (heap s !! p) as [o|] eqn:Ho; intros [= <- <-] _.
  split; [|done]. apply counter_insert_desc; [|by left]. intros o' Ho'.
  simpl in Ho. rewrite Hg. congruence.
Qed.

(** Structures that are new. *)
Lemma calm_zero_as u {T} `{NoCounter T} p (o : T) : calm u (zero_as p o).
Proof.
  apply calm_act. intros c s r s' _. case_decide; intros [= <- <-] _.
  by destruct (no_counter u (<[p := o]> (heap s)) s) as [-> ->].
Qed.

Lemma calm_new_task u p (o : task_t) (g : task_t → task_t) :
  p ≠ su_addr u → calm u (zero_as p o) ∧ calm u (wr p g).
Proof.
  intros Hp. destruct u as [t|d]; split; apply calm_act; intros c s r s' _.
  - case_decide; intros [= <- <-] _. split; [|done]. simpl in *. by rewrite lookup_insert_ne.
  - destruct (heap s !! p); intros [= <- <-] _. split; [|done]. simpl in *. by rewrite lookup_insert_ne.
  - by case_decide; intros [= <- <-] _.
  - by destruct (heap s !! p); intros [= <- <-] _.
Qed.

Lemma calm_new_desc u p (o : socket_desc_t) (g : socket_desc_t → socket_desc_t) :
  p ≠ su_addr u → calm u (zero_as p o) ∧ calm u (wr p g).
Proof.
  intros Hp. destruct u as [t|d]; split; apply calm_act; intros c s r s' _.
  - by case_decide; intros [= <- <-] _.
  - by destruct (heap s !! p); intros [= <- <-] _.
  - case_decide; intros [= <- <-] _. split; [|done]. simpl in *. by rewrite lookup_insert_ne.
  - destruct (heap s !! p); intros [= <- <-] _. split; [|done]. simpl in *. by rewrite lookup_insert_ne.
Qed.

Lemma calm_index u l i : calm u (index l i).
Proof. apply calm_act. intros c s r s' _. destruct (l !! _); by intros [= <- <-]. Qed.
Lemma calm_check_index u i len : calm u (check_index i len).
Proof. apply calm_act. intros c s r s' _. case_decide; by intros [= <- <-]. Qed.

(** Locks of other things. *)
Definition other_lock (l : lock_id) : Prop :=
  match l with killLock _ | closeLock _ => False | _ => True end.

Lemma other_lock_ne u l : other_lock l → guard_lock u ≠ l.
Proof. by destruct u, l. Qed.

Lemma add_lock_quiet u l s :
  guard_lock u ≠ l → counter_of u (add_lock l s) = counter_of u s ∧
  (guard_lock u ∈ k_locks (add_lock l s) ↔ guard_lock u ∈ k_locks s).
Proof. intros Hl. split; [by destruct u|]. simpl. set_solver. Qed.

Lemma del_lock_quiet u l s :
  guard_lock u ≠ l → counter_of u (del_lock l s) = counter_of u s ∧
  (guard_lock u ∈ k_locks (del_lock l s) ↔ guard_lock u ∈ k_locks s).
Proof. intros Hl. split; [by destruct u|]. simpl. set_solver. Qed.

Lemma calm_lock u l : guard_lock u ≠ l → calm u (anscheduler_lock l).
Proof.
  intros Hl. apply calm_act. intros c s r s' _. destruct (lock_live s l); [|done].
  case_decide; intros [= <- <-] _. by apply add_lock_quiet.
Qed.
Lemma calm_unlock u l : guard_lock u ≠ l → calm u (anscheduler_unlock l).
Proof.
  intros Hl. apply calm_act. intros c s r s' _. case_decide; intros [= <- <-] _. by apply del_lock_quiet.
Qed.
Lemma calm_other_lock u l : other_lock l → calm u (anscheduler_lock l).
Proof. intros Hl. by apply calm_lock, other_lock_ne. Qed.
Lemma calm_other_unlock u l : other_lock l → calm u (anscheduler_unlock l).
Proof. intros Hl. by apply calm_unlock, other_lock_ne. Qed.

Lemma calm_upd_cpu u (f : nat → kst → cpu_info → cpu_info) :
  calm u (act (λ c s, a_ok () (upd_cpu c (f c s) s))).
Proof. apply calm_act. intros c s r s' _ [= <- <-] _. by destruct u. Qed.

Lemma calm_get_task u : calm u anscheduler_cpu_get_task.
Proof. apply calm_act. by intros c s r s' _ [= <- <-]. Qed.
Lemma calm_get_thread u : calm u anscheduler_cpu_get_thread.
Proof. apply calm_act. by intros c s r s' _ [= <- <-]. Qed.
Lemma calm_set_task u t : calm u (anscheduler_cpu_set_task t).
Proof. apply (calm_upd_cpu u (λ _ _, set_cpu_task t)). Qed.
Lemma calm_set_thread u t : calm u (anscheduler_cpu_set_thread t).
Proof. apply (calm_upd_cpu u (λ _ _, set_cpu_thread t)). Qed.
Lemma calm_timer_set u t : calm u (anscheduler_timer_set t).
Proof. apply (calm_upd_cpu u (λ _ _, set_cpu_timer (u32 t))). Qed.
Lemma calm_cpu_lock u : calm u anscheduler_cpu_lock.
Proof. apply calm_act. intros c s r s' _. destruct (cpu_locked _); intros [= <- <-] _. by destruct u. Qed.
Lemma calm_cpu_unlock u : calm u anscheduler_cpu_unlock.
Proof. apply calm_act. intros c s r s' _. destruct (cpu_locked _); intros [= <- <-] _. by destruct u. Qed.
Lemma calm_set_state u thread stack ip arg : calm u (anscheduler_set_state thread stack ip arg).
Proof. apply calm_wr, _. Qed.

(** Freeing: it cannot be the structure itself, which stays. *)
Lemma free_step_quiet u p s :
  subject_live u (free_step p s) →
  counter_of u (free_step p s) = counter_of u s.
Proof.
  intros [Hl _]. assert (su_addr u ≠ p) as Hp by (simpl in Hl; set_solver).
  by destruct u as [t|d]; simpl in *; rewrite lookup_delete_ne by done.
Qed.

Lemma calm_free u p : calm u (anscheduler_free p).
Proof.
  apply calm_act. intros c s r s' _. case_decide; intros [= <- <-] Hl.
  split; [by apply free_step_quiet|done].
Qed.
Lemma calm_vm_root_free u root : calm u (anscheduler_vm_root_free root).
Proof.
  apply calm_act. intros c s r s' _. case_decide; intros [= <- <-] Hl.
  assert (subject_live u (free_step root s)) as Hl' by (by destruct u).
  split; [|done]. transitivity (counter_of u (free_step root s)); [by destruct u|by apply free_step_quiet].
Qed.

Lemma calm_vm_upd u root g s :
  counter_of u (vm_upd root g s) = counter_of u s ∧ k_locks (vm_upd root g s) = k_locks s.
Proof. by destruct u. Qed.

Lemma calm_vm_unmap u root vpage : calm u (anscheduler_vm_unmap root vpage).
Proof.
  apply calm_act. intros c s r s' _. destruct (k_vms s !! root); intros [= <- <-] _. by destruct u.
Qed.
Lemma calm_vm_lookup u root vpage : calm u (anscheduler_vm_lookup root vpage).
Proof. apply calm_act. intros c s r s' _. destruct (k_vms s !! root); by intros [= <- <-]. Qed.
Lemma calm_vm_root_free_async u root : calm u (anscheduler_vm_root_free_async root).
Proof.
  apply calm_bind; [|intros _; apply calm_bind; [apply calm_cpu_lock|intros _; apply calm_bind;
    [apply calm_vm_root_free|intros _; apply calm_cpu_unlock]]].
  apply calm_act. intros c s r s' _. destruct (k_vms s !! root); intros [= <- <-] _. by destruct u.
Qed.
Lemma calm_cleanup u t : calm u (anscheduler_task_cleanup t).
Proof. apply calm_gset; by destruct u. Qed.
Lemma calm_notify_invlpg u t : calm u (anscheduler_cpu_notify_invlpg t).
Proof. apply calm_gset; by destruct u. Qed.
Lemma calm_get_time u : calm u anscheduler_get_time.
Proof. apply calm_gget. Qed.
Lemma calm_abort u {A} msg : calm (A := A) u (anscheduler_abort msg).
Proof. apply calm_leave. Qed.
Lemma calm_thread_run u {A} task thread : calm (A := A) u (anscheduler_thread_run task thread).
Proof. apply calm_leave. Qed.

Section alloc.
Context `{Platform}.

Lemma calm_vm_map u root vpage dpage flags : calm u (anscheduler_vm_map root vpage dpage flags).
Proof.
  apply calm_act. intros c s r s' _. destruct (k_vms s !! root); [|done].
  destruct (plat_map_ok _ _ _); intros [= <- <-] _; by destruct u.
Qed.

Lemma alloc_step_quiet u size s :
  counter_of u (alloc_step size s) = counter_of u s ∧ k_locks (alloc_step size s) = k_locks s.
Proof. by destruct u. Qed.

Lemma calm_alloc u size : calm u (anscheduler_alloc size).
Proof. apply calm_act. intros c s r s' _ [= <- <-] _. by destruct u. Qed.

Lemma calm_alloc_as u {T} `{NoCounter T} (junk : Z → T) size : calm u (alloc_as junk size).
Proof.
  apply calm_act. intros c s r s' _ [= <- <-] _. case_decide; [by destruct u|].
  match goal with |- context [set_heap ?h ?s'] => destruct (no_counter u h s') as [-> ->] end. by destruct u.
Qed.

Lemma calm_vm_root_alloc u : calm u anscheduler_vm_root_alloc.
Proof. apply calm_act. intros c s r s' _ [= <- <-] _. case_decide; by destruct u. Qed.

Lemma calm_second_length u : calm u anscheduler_second_length.
Proof. done. Qed.

(** New memory is not the structure's. *)
Lemma calm_alloc_new u `{!PlatformOk _} {A} size (k : Z → prog A) :
  (∀ p, p = NULL ∨ p ≠ su_addr u → calm u (k p)) → calm u (anscheduler_alloc size ≫= k).
Proof.
  intros Hk c s r s' [Hl _] _ [= <- <-] _. exists None. split; [by destruct u|]. apply Hk.
  destruct (decide (plat_alloc (k_nallocs s) (k_live s) size = NULL)) as [|Hp]; [by left|right].
  intros Heq. apply (plat_alloc_fresh (k_nallocs s) (k_live s) size Hp). by rewrite Heq.
Qed.
End alloc.

(** ** Lemmas: critical sections *)

(** Taking a lock: another one, or the guarded structure's. *)
Lemma conf_lock u l {B} (k : () → prog B) :
  (guard_lock u ≠ l → calm u (k ())) →
  (guard_lock u = l → ∀ v, conf u (Some (v, v)) (k ()) (λ _ m, m = None)) →
  calm u (anscheduler_lock l ≫= k).
Proof.
  intros Hne Heq c s r s' [_ [v Hv]] _ Hf _. simpl in Hf.
  destruct (lock_live s l); [|done]. case_decide as Hl; [done|]. injection Hf as <- <-.
  destruct (decide (guard_lock u = l)) as [Hu|Hu].
  - exists (Some (v, v)). split; [|by apply Heq]. subst l.
    split; [done|]. split; [simpl; set_solver|]. split; [done|]. by destruct u.
  - exists None. split; [by apply add_lock_quiet|by apply Hne].
Qed.

(** Giving it up, after at most one event. *)
Lemma conf_unlock u v0 v l {B} (k : () → prog B) :
  l = guard_lock u → one_event v0 v → calm u (k ()) →
  conf u (Some (v0, v)) (anscheduler_unlock l ≫= k) (λ _ m, m = None).
Proof.
  intros -> He Hk c s r s' _ [Hv _] Hf _. simpl in Hf. case_decide; [|done]. injection Hf as <- <-.
  exists None. split; [|done]. split; [simpl; set_solver|].
  split; [by destruct u|done].
Qed.

(** Reading and writing the structure under its lock. *)
Lemma conf_rd_task t v0 v {R B} (f : task_t → R) (k : R → prog B) Q :
  (∀ o, task_counter o = v → conf (su_task t) (Some (v0, v)) (k (f o)) Q) →
  conf (su_task t) (Some (v0, v)) (rd t f ≫= k) Q.
Proof.
  intros Hk c s r s' _ [Hv Hl] Hf _. simpl in Hf, Hv.
  destruct (k_tasks s !! t) as [o|] eqn:Ho; [|done]. injection Hf as <- <-. injection Hv as Hv.
  exists (Some (v0, v)). split; [|by apply Hk]. split; [done|]. split; [done|]. split; [|by left].
  simpl. rewrite Ho. simpl. by rewrite Hv.
Qed.

Lemma conf_wr_task t v0 v v' {B} (g : task_t → task_t) (k : () → prog B) Q :
  inner_step v0 v v' → (∀ o, task_counter o = v → task_counter (g o) = v') →
  conf (su_task t) (Some (v0, v')) (k ()) Q →
  conf (su_task t) (Some (v0, v)) (wr t g ≫= k) Q.
Proof.
  intros Hi Hg Hk c s r s' _ [Hv Hl] Hf _. simpl in Hf, Hv.
  destruct (k_tasks s !! t) as [o|] eqn:Ho; [|done]. injection Hf as <- <-. injection Hv as Hv.
  exists (Some (v0, v')). split; [|done]. split; [done|]. split; [done|]. split; [|done].
  simpl. rewrite lookup_insert_eq. simpl. by rewrite (Hg o).
Qed.

Lemma conf_rd_desc d v0 v {R B} (f : socket_desc_t → R) (k : R → prog B) Q :
  (∀ o, desc_counter o = v → conf (su_desc d) (Some (v0, v)) (k (f o)) Q) →
  conf (su_desc d) (Some (v0, v)) (rd d f ≫= k) Q.
Proof.
  intros Hk c s r s' _ [Hv Hl] Hf _. simpl in Hf, Hv.
  destruct (k_descs s !! d) as [o|] eqn:Ho; [|done]. injection Hf as <- <-. injection Hv as Hv.
  exists (Some (v0, v)). split; [|by apply Hk]. split; [done|]. split; [done|]. split; [|by left].
  simpl. rewrite Ho. simpl. by rewrite Hv.
Qed.

Lemma conf_wr_desc d v0 v v' {B} (g : socket_desc_t → socket_desc_t) (k : () → prog B) Q :
  inner_step v0 v v' → (∀ o, desc_counter o = v → desc_counter (g o) = v') →
  conf (su_desc d) (Some (v0, v')) (k ()) Q →
  conf (su_desc d) (Some (v0, v)) (wr d g ≫= k) Q.
Proof.
  intros Hi Hg Hk c s r s' _ [Hv Hl] Hf _. simpl in Hf, Hv.
  destruct (k_descs s !! d) as [o|] eqn:Ho; [|done]. injection Hf as <- <-. injection Hv as Hv.
  exists (Some (v0, v')). split; [|done]. split; [done|]. split; [done|]. split; [|done].
  simpl. rewrite lookup_insert_eq. simpl. by rewrite (Hg o).
Qed.

(** The events. *)
Lemma one_granted v : ct_over v = false →
  one_event v (mk_counter (u64 (ct_count v + 1)) (ct_over v) (ct_reason v)).
Proof. intros Hv. right. exists granted. simpl. by rewrite Hv. Qed.
Lemma one_dropped v : one_event v (mk_counter (u64 (ct_count v - 1)) (ct_over v) (ct_reason v)).
Proof. right. by exists dropped. Qed.
Lemma one_ended v r : ct_over v = false → one_event v (mk_counter (ct_count v) true r).
Proof. intros Hv. right. exists (ended r). simpl. by rewrite Hv. Qed.

Lemma task_open o v : task_counter o = v → task_isKilled o = 0 → ct_over v = false.
Proof. intros <- Hk. simpl. by rewrite Hk. Qed.
Lemma desc_open o v : desc_counter o = v → desc_isClosed o = 0 → ct_over v = false.
Proof. intros <- Hk. simpl. by rewrite Hk. Qed.

Lemma inner_open v0 v v' : ct_over v0 = false → inner_step v0 v v'.
Proof. intros Ho Hc. congruence. Qed.
Lemma inner_same v0 v : inner_step v0 v v.
Proof. by left. Qed.
Lemma inner_drop v : inner_step v v (mk_counter (u64 (ct_count v - 1)) (ct_over v) (ct_reason v)).
Proof. by right. Qed.

(** The structure of another lock. *)
Lemma calm_wr_other_task u p (g : task_t → task_t) : guard_lock u ≠ killLock p → calm u (wr p g).
Proof.
  intros Hu. destruct u as [t|d].
  - apply (calm_new_task (su_task t) p zero_task). intros ->. by apply Hu.
  - apply calm_act. intros c s r s' _. by destruct (heap s !! p); intros [= <- <-] _.
Qed.

Lemma calm_wr_other_desc u p (g : socket_desc_t → socket_desc_t) : guard_lock u ≠ closeLock p → calm u (wr p g).
Proof.
  intros Hu. destruct u as [t|d].
  - apply calm_act. intros c s r s' _. by destruct (heap s !! p); intros [= <- <-] _.
  - apply (calm_new_desc (su_desc d) p zero_desc). intros ->. by apply Hu.
Qed.

(** A final access, given a continuation. *)
Lemma conf_tail u m {A} (p : prog A) Q : conf u m (p ≫= mret) Q → conf u m p Q.
Proof.
  revert m Q. induction p as [A a|A R f k IH|A X B body IHb x k IH|A th body IHb k IH|A l];
    intros m Q Hp; [done| | | |done].
  - intros c s r s' Hl Hm Hf Hl'. destruct (Hp c s r s' Hl Hm Hf Hl') as (m' & ? & ?).
    exists m'. split; [done|]. by apply IH.
  - destruct Hp as (I & HI & Hb). exists I. split; [done|]. intros x' m' Hx'.
    eapply conf_mono; [by apply Hb|]. intros [x2|b] m2; [done|]. apply IH.
  - destruct Hp as (? & ? & ?). split; [done|]. split; [done|]. by apply IH.
Qed.

Create HintDb calm discriminated.

#[export] Hint Resolve calm_ret calm_gget calm_rd calm_index calm_check_index calm_get_task
  calm_get_thread calm_set_task calm_set_thread calm_timer_set calm_cpu_lock calm_cpu_unlock
  calm_set_state calm_free calm_alloc calm_vm_root_alloc calm_vm_map calm_vm_unmap calm_vm_lookup
  calm_vm_root_free calm_vm_root_free_async calm_cleanup calm_notify_invlpg calm_get_time
  calm_second_length calm_abort calm_thread_run calm_leave : calm.

(** [by_calm op] follows the text of an operation down to its accesses and to calls of
    operations that are already known. *)
Ltac calm_step :=
  match goal with
  | |- ∀ _, calm _ _ => intros ?
  | |- calm _ (_ ≫= _) => apply calm_bind
  | |- calm _ (while_ _ _) => apply calm_while
  | |- calm _ (for_ _ _ _) => apply calm_for
  | |- calm _ (for_each _ _ _) => apply calm_for_each
  | |- calm _ (wr _ _) =>
      first [apply calm_wr, _ | by apply calm_wr_task | by apply calm_wr_desc
            | by apply calm_wr_other_task | by apply calm_wr_other_desc
            | by apply (calm_new_task _ _ zero_task) | by apply (calm_new_desc _ _ zero_desc)]
  | |- calm _ (rmw _ _ _) => apply calm_rmw, _
  | |- calm _ (zero_as _ _) =>
      first [apply calm_zero_as, _ | by apply (calm_new_task _ _ _ id) | by apply (calm_new_desc _ _ _ id)]
  | |- calm _ (alloc_as _ _) => apply calm_alloc_as, _
  | |- calm ?u (gset_ _) => apply calm_gset; by destruct u
  | |- calm _ (anscheduler_lock _) => first [apply calm_other_lock; solve [done | auto with calm nocore] | by apply calm_lock]
  | |- calm _ (anscheduler_unlock _) => first [apply calm_other_unlock; solve [done | auto with calm nocore] | by apply calm_unlock]
  | |- calm _ (anscheduler_cpu_stack_run _) => apply calm_stack_run
  | |- calm _ (anscheduler_save_return_state _ _) => apply calm_save
  | |- calm _ (if decide _ then _ else _) => case_decide
  | |- calm _ (match ?x with _ => _ end) => destruct x
  | |- calm _ _ => solve [auto with calm nocore]
  end.
Ltac calm_steps := repeat calm_step.
Tactic Notation "by_calm" reference(op) := unfold op; autounfold with prog; calm_steps.
