(* ===== verification/Calm.v ===== *)
(** * Calm: the whole scheduler follows the discipline of Guard.v

    Every function of the scheduler, and the code of its kernel threads, changes the
    reference counts of tasks and descriptors under their locks only, one event at a
    time: [calm_serve] and [calm_kernel_code]. *)
From S2P Require Import Prelude Types Machine Idxset RunQueue PagerQueue TaskRef Loop Interrupts TaskExit Paging PidMap Thread ThreadExit SocketList Socket TaskLife Interface Guard.

(** ** Index sets *)

Lemma calm_rd_root u {R} r (f : anidxset_root_t → R) : calm u (rd_root r f).
Proof. apply calm_act. intros c s v s' _. destruct (root_at r s); by intros [= <- <-]. Qed.

Lemma root_upd_quiet u r v s :
  counter_of u (root_upd r v s) = counter_of u s ∧ k_locks (root_upd r v s) = k_locks s.
Proof.
  destruct u as [t|d], r as [t'|t'|]; simpl; try done; split; try done;
    (destruct (decide (t = t')) as [->|]; [rewrite lookup_alter_eq|by rewrite lookup_alter_ne]);
    by destruct (k_tasks s !! t').
Qed.

Lemma calm_wr_root u r g : calm u (wr_root r g).
Proof.
  apply calm_act. intros c s v s' _. destruct (root_at r s); intros [= <- <-] _.
  by destruct (root_upd_quiet u r (g a) s) as [-> ->].
Qed.
#[export] Hint Resolve calm_rd_root calm_wr_root : calm.

Lemma other_side_lock d sock : other_lock (side_lock d sock).
Proof. by destruct d. Qed.
#[export] Hint Resolve other_side_lock : calm.

(** ** The operations of each file *)
Section operations.
Context `{Platform, !PlatformOk _}.

Lemma calm_rd_index u (node i : Z) : calm u (rd_index node i).
Proof. by_calm rd_index. Qed.
#[local] Hint Resolve calm_rd_index : calm.
Lemma calm_wr_index u (node i v : Z) : calm u (wr_index node i v).
Proof. by_calm wr_index. Qed.
#[local] Hint Resolve calm_wr_index : calm.
Lemma calm_idxset_free u (ptr : Z) : calm u (anscheduler_idxset_free ptr).
Proof. by_calm anscheduler_idxset_free. Qed.
#[local] Hint Resolve calm_idxset_free : calm.
Lemma calm__allocate_next_page u (root : root_ptr) : calm u (_allocate_next_page root).
Proof. by_calm _allocate_next_page. Qed.
#[local] Hint Resolve calm__allocate_next_page : calm.
Lemma calm_anidxset_get u (root : root_ptr) : calm u (anidxset_get root).
Proof. by_calm anidxset_get. Qed.
#[local] Hint Resolve calm_anidxset_get : calm.
Lemma calm_anidxset_free u (root : root_ptr) : calm u (anidxset_free root).
Proof. by_calm anidxset_free. Qed.
#[local] Hint Resolve calm_anidxset_free : calm.
Lemma calm_idxset_alloc u : calm u anscheduler_idxset_alloc.
Proof. apply calm_alloc_as, _. Qed.
#[local] Hint Resolve calm_idxset_alloc : calm.
Lemma calm_anidxset_initialize u (root : root_ptr) : calm u (anidxset_initialize root).
Proof. by_calm anidxset_initialize. Qed.
#[local] Hint Resolve calm_anidxset_initialize : calm.
Lemma calm_idxset_init u (root : root_ptr) : calm u (anscheduler_idxset_init root).
Proof. by_calm anscheduler_idxset_init. Qed.
#[local] Hint Resolve calm_idxset_init : calm.
Lemma calm_anidxset_put u (root : root_ptr) (value : Z) : calm u (anidxset_put root value).
Proof. by_calm anidxset_put. Qed.
#[local] Hint Resolve calm_anidxset_put : calm.

(** *** src/loop.c: the queue *)
Lemma calm_loop_enqueue u (thread : Z) : calm u (loop_enqueue thread).
Proof. by_calm loop_enqueue. Qed.
#[local] Hint Resolve calm_loop_enqueue : calm.
Lemma calm_loop_push u (thread : Z) : calm u (anscheduler_loop_push thread).
Proof.
  apply calm_bind; [apply calm_rd|intros task]. case_decide; [|calm_steps].
  apply conf_lock; [intros; calm_steps|]. intros Hu v. destruct u as [t|d]; [simpl in Hu; injection Hu as ->|done].
  apply conf_rd_task. intros o Ho. case_decide.
  - apply conf_tail. by apply conf_unlock; [|left|].
  - apply conf_unlock; [done|by left|calm_steps].
Qed.
#[local] Hint Resolve calm_loop_push : calm.
Lemma calm_loop_unlink u (thread : Z) : calm u (loop_unlink thread).
Proof. by_calm loop_unlink. Qed.
#[local] Hint Resolve calm_loop_unlink : calm.
Lemma calm_loop_delete u (thread : Z) : calm u (anscheduler_loop_delete thread).
Proof. by_calm anscheduler_loop_delete. Qed.
#[local] Hint Resolve calm_loop_delete : calm.
Lemma calm__shift_thread u : calm u _shift_thread.
Proof. by_calm _shift_thread. Qed.
#[local] Hint Resolve calm__shift_thread : calm.
Lemma calm__push_unconditional u (thread : Z) : calm u (_push_unconditional thread).
Proof. by_calm _push_unconditional. Qed.
#[local] Hint Resolve calm__push_unconditional : calm.
Lemma calm_loop_push_kernel u (arg : Z) (fn : kernel_fn) : calm u (anscheduler_loop_push_kernel arg fn).
Proof. by_calm anscheduler_loop_push_kernel. Qed.
#[local] Hint Resolve calm_loop_push_kernel : calm.

(** *** src/paging.c: the queue of faults *)
Lemma calm_pager_get u : calm u anscheduler_pager_get.
Proof. by_calm anscheduler_pager_get. Qed.
#[local] Hint Resolve calm_pager_get : calm.
Lemma calm_pager_set u (thread : Z) : calm u (anscheduler_pager_set thread).
Proof. by_calm anscheduler_pager_set. Qed.
#[local] Hint Resolve calm_pager_set : calm.
Lemma calm_pager_lock u : calm u anscheduler_pager_lock.
Proof. by_calm anscheduler_pager_lock. Qed.
#[local] Hint Resolve calm_pager_lock : calm.
Lemma calm_pager_unlock u : calm u anscheduler_pager_unlock.
Proof. by_calm anscheduler_pager_unlock. Qed.
#[local] Hint Resolve calm_pager_unlock : calm.
Lemma calm_pager_shift u : calm u anscheduler_pager_shift.
Proof. by_calm anscheduler_pager_shift. Qed.
#[local] Hint Resolve calm_pager_shift : calm.
Lemma calm_pager_peek u : calm u anscheduler_pager_peek.
Proof. by_calm anscheduler_pager_peek. Qed.
#[local] Hint Resolve calm_pager_peek : calm.
Lemma calm_pager_waiting u : calm u anscheduler_pager_waiting.
Proof. by_calm anscheduler_pager_waiting. Qed.
#[local] Hint Resolve calm_pager_waiting : calm.
Lemma calm_push_fault u (fault : Z) : calm u (push_fault fault).
Proof. by_calm push_fault. Qed.
#[local] Hint Resolve calm_push_fault : calm.

(** *** src/task.c: references *)
Lemma calm_task_reference u (task : Z) : calm u (anscheduler_task_reference task).
Proof.
  apply conf_lock; [intros; calm_steps|]. intros Hu v. destruct u as [t|d]; [simpl in Hu; injection Hu as ->|done].
  apply conf_rd_task. intros o Ho. case_decide as Hk; [by apply conf_unlock; [|left|]|].
  apply conf_rd_task. intros o2 Ho2. replace (task_refCount o2) with (ct_count v) by (by rewrite <- Ho2).
  apply (conf_wr_task _ _ v (mk_counter (u64 (ct_count v + 1)) (ct_over v) (ct_reason v))).
  { by apply inner_open, (task_open o). }
  { by intros o3 <-. }
  apply conf_unlock; [done| |done]. by apply one_granted, (task_open o).
Qed.
#[local] Hint Resolve calm_task_reference : calm.
Lemma calm_task_kill u (task reason : Z) : calm u (anscheduler_task_kill task reason).
Proof.
  unfold anscheduler_task_kill. autounfold with prog. apply calm_bind; [calm_steps|intros pager].
  apply calm_bind; [calm_steps|intros is_pager]. case_match; [calm_steps|].
  apply conf_lock; [intros; calm_steps|]. intros Hu v. destruct u as [t|d]; [simpl in Hu; injection Hu as ->|done].
  apply conf_rd_task. intros o Ho. case_decide as Hk.
  { apply conf_tail. by apply conf_unlock; [|left|]. }
  apply (conf_wr_task _ _ v (mk_counter (ct_count v) true (ct_reason v)));
    [by apply inner_open, (task_open o)|by intros o2 <-|].
  apply (conf_wr_task _ _ _ (mk_counter (ct_count v) true reason)).
  { by apply inner_open, (task_open o). }
  { intros o2 [= Hc Hk' _]. unfold task_counter. simpl. by rewrite Hc, Hk'. }
  apply conf_tail, conf_unlock; [done| |done]. by apply one_ended, (task_open o).
Qed.
#[local] Hint Resolve calm_task_kill : calm.
Lemma calm_delete_threads u (first : Z) : calm u (delete_threads first).
Proof. by_calm delete_threads. Qed.
#[local] Hint Resolve calm_delete_threads : calm.
Lemma calm__generate_kill_job u (task : Z) : calm u (_generate_kill_job task).
Proof. by_calm _generate_kill_job. Qed.
#[local] Hint Resolve calm__generate_kill_job : calm.
Lemma calm_task_dereference u (task : Z) : calm u (anscheduler_task_dereference task).
Proof.
  apply conf_lock; [intros; calm_steps|]. intros Hu v. destruct u as [t|d]; [simpl in Hu; injection Hu as ->|done].
  apply conf_rd_task. intros o Ho. replace (task_refCount o) with (ct_count v) by (by rewrite <- Ho).
  apply (conf_wr_task _ _ v (mk_counter (u64 (ct_count v - 1)) (ct_over v) (ct_reason v))).
  { apply inner_drop. }
  { by intros o2 <-. }
  case_decide; [|apply conf_tail, conf_unlock; [done|apply one_dropped|done]].
  apply conf_rd_task. intros o2 _. case_decide.
  - apply conf_unlock; [done|apply one_dropped|calm_steps].
  - apply conf_tail, conf_unlock; [done|apply one_dropped|done].
Qed.
#[local] Hint Resolve calm_task_dereference : calm.

(** *** src/loop.c: switching threads *)
Lemma calm_next_thread_body u (max now : Z) (st : Z * Z) : calm u (next_thread_body max now st).
Proof. by_calm next_thread_body. Qed.
#[local] Hint Resolve calm_next_thread_body : calm.
Lemma calm__next_thread u : calm u _next_thread.
Proof. by_calm _next_thread. Qed.
#[local] Hint Resolve calm__next_thread : calm.
Lemma calm_loop_push_cur u : calm u anscheduler_loop_push_cur.
Proof. by_calm anscheduler_loop_push_cur. Qed.
#[local] Hint Resolve calm_loop_push_cur : calm.
Lemma calm_loop_run u : calm u anscheduler_loop_run.
Proof. by_calm anscheduler_loop_run. Qed.
#[local] Hint Resolve calm_loop_run : calm.
Lemma calm__run_loop_stub u : calm u _run_loop_stub.
Proof. by_calm _run_loop_stub. Qed.
#[local] Hint Resolve calm__run_loop_stub : calm.
Lemma calm__resign_stub u : calm u _resign_stub.
Proof. by_calm _resign_stub. Qed.
#[local] Hint Resolve calm__resign_stub : calm.
Lemma calm_loop_break_task u {A} : calm u (anscheduler_loop_break_task (A := A)).
Proof. by_calm anscheduler_loop_break_task. Qed.
#[local] Hint Resolve calm_loop_break_task : calm.
Lemma calm_loop_resign u {A} : calm u (anscheduler_loop_resign (A := A)).
Proof. by_calm anscheduler_loop_resign. Qed.
#[local] Hint Resolve calm_loop_resign : calm.
Lemma calm__save_resign_stub u : calm u _save_resign_stub.
Proof. by_calm _save_resign_stub. Qed.
#[local] Hint Resolve calm__save_resign_stub : calm.
Lemma calm_loop_save_and_resign u : calm u anscheduler_loop_save_and_resign.
Proof. by_calm anscheduler_loop_save_and_resign. Qed.
#[local] Hint Resolve calm_loop_save_and_resign : calm.
Lemma calm__delete_cur_kernel u : calm u _delete_cur_kernel.
Proof. by_calm _delete_cur_kernel. Qed.
#[local] Hint Resolve calm__delete_cur_kernel : calm.
Lemma calm_loop_delete_cur_kernel u {A} : calm u (anscheduler_loop_delete_cur_kernel (A := A)).
Proof. by_calm anscheduler_loop_delete_cur_kernel. Qed.
#[local] Hint Resolve calm_loop_delete_cur_kernel : calm.
Lemma calm__switch_to_thread u (thread : Z) : calm u (_switch_to_thread thread).
Proof. by_calm _switch_to_thread. Qed.
#[local] Hint Resolve calm__switch_to_thread : calm.
Lemma calm_loop_switch u {A} (task thread : Z) : calm u (anscheduler_loop_switch (A := A) task thread).
Proof. by_calm anscheduler_loop_switch. Qed.
#[local] Hint Resolve calm_loop_switch : calm.

(** *** src/interrupts.c *)
Lemma calm_intd_lock u : calm u anscheduler_intd_lock.
Proof. by_calm anscheduler_intd_lock. Qed.
#[local] Hint Resolve calm_intd_lock : calm.
Lemma calm_intd_unlock u : calm u anscheduler_intd_unlock.
Proof. by_calm anscheduler_intd_unlock. Qed.
#[local] Hint Resolve calm_intd_unlock : calm.
Lemma calm_intd_get u : calm u anscheduler_intd_get.
Proof. by_calm anscheduler_intd_get. Qed.
#[local] Hint Resolve calm_intd_get : calm.
Lemma calm_intd_set u (thread : Z) : calm u (anscheduler_intd_set thread).
Proof. by_calm anscheduler_intd_set. Qed.
#[local] Hint Resolve calm_intd_set : calm.
Lemma calm_intd_cmpnull u (thread : Z) : calm u (anscheduler_intd_cmpnull thread).
Proof. by_calm anscheduler_intd_cmpnull. Qed.
#[local] Hint Resolve calm_intd_cmpnull : calm.
Lemma calm_intd_read u : calm u anscheduler_intd_read.
Proof. by_calm anscheduler_intd_read. Qed.
#[local] Hint Resolve calm_intd_read : calm.
Lemma calm_intd_waiting u : calm u anscheduler_intd_waiting.
Proof. by_calm anscheduler_intd_waiting. Qed.
#[local] Hint Resolve calm_intd_waiting : calm.
Lemma calm_shift_one u (n : Z) : calm u (shift_one n).
Proof. apply calm_act. intros c s v s' _. case_decide; by intros [= <- <-]. Qed.
#[local] Hint Resolve calm_shift_one : calm.
Lemma calm_or_32_irqMask u (v : Z) : calm u (anscheduler_or_32_irqMask v).
Proof. by_calm anscheduler_or_32_irqMask. Qed.
#[local] Hint Resolve calm_or_32_irqMask : calm.
Lemma calm_irq u (irqNumber : Z) : calm u (anscheduler_irq irqNumber).
Proof. by_calm anscheduler_irq. Qed.
#[local] Hint Resolve calm_irq : calm.

(** *** src/task.c: exit *)
Lemma calm__task_exit u (codeVal : Z) : calm u (_task_exit codeVal).
Proof. by_calm _task_exit. Qed.
#[local] Hint Resolve calm__task_exit : calm.
Lemma calm_task_exit u {A} (code : Z) : calm u (anscheduler_task_exit (A := A) code).
Proof. by_calm anscheduler_task_exit. Qed.
#[local] Hint Resolve calm_task_exit : calm.

(** *** src/paging.c: faults *)
Lemma calm_zero_page u (p : Z) : calm u (zero_page p).
Proof. apply calm_act. intros c s v s' _. case_decide; intros [= <- <-] _. by destruct u. Qed.
#[local] Hint Resolve calm_zero_page : calm.
Lemma calm__push_page_fault_cont u (info : fault_info_t) : calm u (_push_page_fault_cont info).
Proof. by_calm _push_page_fault_cont. Qed.
#[local] Hint Resolve calm__push_page_fault_cont : calm.
Lemma calm__push_page_fault u (info : fault_info_t) : calm u (_push_page_fault info).
Proof. by_calm _push_page_fault. Qed.
#[local] Hint Resolve calm__push_page_fault : calm.
Lemma calm_page_fault u (ptr _flags : Z) : calm u (anscheduler_page_fault ptr _flags).
Proof. by_calm anscheduler_page_fault. Qed.
#[local] Hint Resolve calm_page_fault : calm.

(** *** src/pidmap.c *)
Lemma calm_get_bucket u (hash : Z) : calm u (get_bucket hash).
Proof. apply calm_act. intros c s v s' _. destruct (_ !! _); by intros [= <- <-]. Qed.
#[local] Hint Resolve calm_get_bucket : calm.
Lemma calm_put_bucket u (hash v : Z) : calm u (put_bucket hash v).
Proof. by_calm put_bucket. Qed.
#[local] Hint Resolve calm_put_bucket : calm.
Lemma calm_pidmap_set u (task : Z) : calm u (anscheduler_pidmap_set task).
Proof. by_calm anscheduler_pidmap_set. Qed.
#[local] Hint Resolve calm_pidmap_set : calm.
Lemma calm_pidmap_unset u (task : Z) : calm u (anscheduler_pidmap_unset task).
Proof. by_calm anscheduler_pidmap_unset. Qed.
#[local] Hint Resolve calm_pidmap_unset : calm.
Lemma calm_pidmap_get_body u (pid task : Z) : calm u (pidmap_get_body pid task).
Proof. by_calm pidmap_get_body. Qed.
#[local] Hint Resolve calm_pidmap_get_body : calm.
Lemma calm_pidmap_get u (pid : Z) : calm u (anscheduler_pidmap_get pid).
Proof. by_calm anscheduler_pidmap_get. Qed.
#[local] Hint Resolve calm_pidmap_get : calm.
Lemma calm_task_for_pid u (pid : Z) : calm u (anscheduler_task_for_pid pid).
Proof. by_calm anscheduler_task_for_pid. Qed.
#[local] Hint Resolve calm_task_for_pid : calm.
Lemma calm_pidmap_alloc_pid u : calm u anscheduler_pidmap_alloc_pid.
Proof. by_calm anscheduler_pidmap_alloc_pid. Qed.
#[local] Hint Resolve calm_pidmap_alloc_pid : calm.
Lemma calm_pidmap_free_pid u (pid : Z) : calm u (anscheduler_pidmap_free_pid pid).
Proof. by_calm anscheduler_pidmap_free_pid. Qed.
#[local] Hint Resolve calm_pidmap_free_pid : calm.

(** *** src/thread.c *)
Lemma calm_thread_interrupt_stack u (thread : Z) : calm u (anscheduler_thread_interrupt_stack thread).
Proof. by_calm anscheduler_thread_interrupt_stack. Qed.
#[local] Hint Resolve calm_thread_interrupt_stack : calm.
Lemma calm_thread_user_stack u (thread : Z) : calm u (anscheduler_thread_user_stack thread).
Proof. by_calm anscheduler_thread_user_stack. Qed.
#[local] Hint Resolve calm_thread_user_stack : calm.
Lemma calm__alloc_kernel_stack u (task thread : Z) : calm u (_alloc_kernel_stack task thread).
Proof. by_calm _alloc_kernel_stack. Qed.
#[local] Hint Resolve calm__alloc_kernel_stack : calm.
Lemma calm__map_user_stack u (task thread : Z) : calm u (_map_user_stack task thread).
Proof. by_calm _map_user_stack. Qed.
#[local] Hint Resolve calm__map_user_stack : calm.
Lemma calm__dealloc_kernel_stack u (task thread : Z) : calm u (_dealloc_kernel_stack task thread).
Proof. by_calm _dealloc_kernel_stack. Qed.
#[local] Hint Resolve calm__dealloc_kernel_stack : calm.
Lemma calm_thread_create u (task : Z) : calm u (anscheduler_thread_create task).
Proof. by_calm anscheduler_thread_create. Qed.
#[local] Hint Resolve calm_thread_create : calm.
Lemma calm_thread_add u (task thread : Z) : calm u (anscheduler_thread_add task thread).
Proof. by_calm anscheduler_thread_add. Qed.
#[local] Hint Resolve calm_thread_add : calm.
Lemma calm_thread_poll u : calm u anscheduler_thread_poll.
Proof. by_calm anscheduler_thread_poll. Qed.
#[local] Hint Resolve calm_thread_poll : calm.
Lemma calm_retire_page u (task page : Z) : calm u (retire_page task page).
Proof. by_calm retire_page. Qed.
#[local] Hint Resolve calm_retire_page : calm.
Lemma calm_release_page u (task page : Z) : calm u (release_page task page).
Proof. by_calm release_page. Qed.
#[local] Hint Resolve calm_release_page : calm.
Lemma calm_thread_deallocate u (task thread : Z) : calm u (anscheduler_thread_deallocate task thread).
Proof. by_calm anscheduler_thread_deallocate. Qed.
#[local] Hint Resolve calm_thread_deallocate : calm.
Lemma calm_thread_kernel_stack u (task thread : Z) : calm u (anscheduler_thread_kernel_stack task thread).
Proof. by_calm anscheduler_thread_kernel_stack. Qed.
#[local] Hint Resolve calm_thread_kernel_stack : calm.
Lemma calm_unlink_thread u (task thread : Z) : calm u (unlink_thread task thread).
Proof. by_calm unlink_thread. Qed.
#[local] Hint Resolve calm_unlink_thread : calm.
Lemma calm_release_thread u (task thread : Z) : calm u (release_thread task thread).
Proof. by_calm release_thread. Qed.
#[local] Hint Resolve calm_release_thread : calm.
Lemma calm__finalize_thread_exit u (thread : Z) : calm u (_finalize_thread_exit thread).
Proof. by_calm _finalize_thread_exit. Qed.
#[local] Hint Resolve calm__finalize_thread_exit : calm.
Lemma calm_thread_exit u {A} : calm u (anscheduler_thread_exit (A := A)).
Proof. by_calm anscheduler_thread_exit. Qed.
#[local] Hint Resolve calm_thread_exit : calm.

(** *** src/socketlist.c *)
Lemma calm_socket_reference u (socket : Z) : calm u (anscheduler_socket_reference socket).
Proof.
  apply conf_lock; [intros; calm_steps|]. intros Hu v. destruct u as [t|d]; [done|simpl in Hu; injection Hu as ->].
  apply conf_rd_desc. intros o Ho. case_decide as Hk; [by apply conf_unlock; [|left|]|].
  apply conf_rd_desc. intros o2 Ho2. replace (desc_refCount o2) with (ct_count v) by (by rewrite <- Ho2).
  apply (conf_wr_desc _ _ v (mk_counter (u64 (ct_count v + 1)) (ct_over v) (ct_reason v))).
  { by apply inner_open, (desc_open o). }
  { by intros o3 <-. }
  apply conf_unlock; [done| |done]. by apply one_granted, (desc_open o).
Qed.
#[local] Hint Resolve calm_socket_reference : calm.
Lemma calm_rd_sockets u (task hash : Z) : calm u (rd_sockets task hash).
Proof. by_calm rd_sockets. Qed.
#[local] Hint Resolve calm_rd_sockets : calm.
Lemma calm_wr_sockets u (task hash v : Z) : calm u (wr_sockets task hash v).
Proof. by_calm wr_sockets. Qed.
#[local] Hint Resolve calm_wr_sockets : calm.
Lemma calm_descriptor_set u (task desc : Z) : calm u (anscheduler_descriptor_set task desc).
Proof. by_calm anscheduler_descriptor_set. Qed.
#[local] Hint Resolve calm_descriptor_set : calm.
Lemma calm_descriptor_find_body u (task desc obj : Z) : calm u (descriptor_find_body task desc obj).
Proof. by_calm descriptor_find_body. Qed.
#[local] Hint Resolve calm_descriptor_find_body : calm.
Lemma calm_descriptor_find u (task desc : Z) : calm u (anscheduler_descriptor_find task desc).
Proof. by_calm anscheduler_descriptor_find. Qed.
#[local] Hint Resolve calm_descriptor_find : calm.
Lemma calm_task_pending u (task desc : Z) : calm u (anscheduler_task_pending task desc).
Proof. by_calm anscheduler_task_pending. Qed.
#[local] Hint Resolve calm_task_pending : calm.
Lemma calm_unlink_pending u (task desc : Z) : calm u (unlink_pending task desc).
Proof. by_calm unlink_pending. Qed.
#[local] Hint Resolve calm_unlink_pending : calm.
Lemma calm_task_not_pending u (task desc : Z) : calm u (anscheduler_task_not_pending task desc).
Proof. by_calm anscheduler_task_not_pending. Qed.
#[local] Hint Resolve calm_task_not_pending : calm.
Lemma calm_pop_pending_body u (task p : Z) : calm u (pop_pending_body task p).
Proof. by_calm pop_pending_body. Qed.
#[local] Hint Resolve calm_pop_pending_body : calm.
Lemma calm_task_pop_pending u (task : Z) : calm u (anscheduler_task_pop_pending task).
Proof. by_calm anscheduler_task_pop_pending. Qed.
#[local] Hint Resolve calm_task_pop_pending : calm.
Lemma calm_descriptor_delete u (task desc : Z) : calm u (anscheduler_descriptor_delete task desc).
Proof. by_calm anscheduler_descriptor_delete. Qed.
#[local] Hint Resolve calm_descriptor_delete : calm.

(** *** src/socket.c *)
Lemma calm_push_locked u (d : side) (sock msg : Z) : calm u (push_locked d sock msg).
Proof. by_calm push_locked. Qed.
#[local] Hint Resolve calm_push_locked : calm.
Lemma calm__push_message u (dest msg : Z) : calm u (_push_message dest msg).
Proof. by_calm _push_message. Qed.
#[local] Hint Resolve calm__push_message : calm.
Lemma calm_socket_read u (dest : Z) : calm u (anscheduler_socket_read dest).
Proof. by_calm anscheduler_socket_read. Qed.
#[local] Hint Resolve calm_socket_read : calm.
Lemma calm_reference_other_end u (socket sock : Z) : calm u (reference_other_end socket sock).
Proof. by_calm reference_other_end. Qed.
#[local] Hint Resolve calm_reference_other_end : calm.
Lemma calm_drop_link u (socket sock : Z) : calm u (drop_link socket sock).
Proof. by_calm drop_link. Qed.
#[local] Hint Resolve calm_drop_link : calm.
Lemma calm_socket_close u (socket code : Z) : calm u (anscheduler_socket_close socket code).
Proof.
  apply conf_lock; [intros; calm_steps|]. intros Hu v. destruct u as [t|d]; [done|simpl in Hu; injection Hu as ->].
  apply conf_rd_desc. intros o Ho. apply conf_bind. case_decide as Hc.
  - apply conf_tail. apply (conf_wr_desc _ _ v (mk_counter (ct_count v) (ct_over v) code));
      [by apply inner_open, (desc_open o)|by intros o2 <-|].
    apply (conf_wr_desc _ _ _ (mk_counter (ct_count v) true code)).
    { by apply inner_open, (desc_open o). }
    { intros o2 [= Hc' _ Hr]. unfold desc_counter. simpl. by rewrite Hc', Hr. }
    apply conf_tail, conf_unlock; [done| |done]. by apply one_ended, (desc_open o).
  - apply (conf_wr_desc _ _ v v).
    { apply inner_same. }
    { intros o2 Ho2. rewrite <- Ho in Ho2. rewrite <- Ho. injection Ho2 as H1 H2 H3.
      unfold desc_counter. simpl. rewrite H1, H3. f_equal. by rewrite !bool_decide_eq_true_2 by done. }
    apply conf_tail, conf_unlock; [done|by left|done].
Qed.
#[local] Hint Resolve calm_socket_close : calm.
Lemma calm_socket_for_descriptor u (desc : Z) : calm u (anscheduler_socket_for_descriptor desc).
Proof. by_calm anscheduler_socket_for_descriptor. Qed.
#[local] Hint Resolve calm_socket_for_descriptor : calm.
Lemma calm_socket_next_pending u : calm u anscheduler_socket_next_pending.
Proof. by_calm anscheduler_socket_next_pending. Qed.
#[local] Hint Resolve calm_socket_next_pending : calm.
Lemma calm_free_body u (d : side) (socket : Z) (x : ()) : calm u (free_body d socket x).
Proof. by_calm free_body. Qed.
#[local] Hint Resolve calm_free_body : calm.
Lemma calm_free_messages u (d : side) (socket : Z) : calm u (free_messages d socket).
Proof. by_calm free_messages. Qed.
#[local] Hint Resolve calm_free_messages : calm.
Lemma calm__socket_free u (socket : Z) : calm u (_socket_free socket).
Proof. by_calm _socket_free. Qed.
#[local] Hint Resolve calm__socket_free : calm.
Lemma calm__create_descriptor u (socket task : Z) (isConnector : bool) : calm u (_create_descriptor socket task isConnector).
Proof. apply (calm_alloc_new u). intros desc Hd. case_decide; [calm_steps|]. destruct Hd; [done|]. calm_steps. Qed.
#[local] Hint Resolve calm__create_descriptor : calm.
Lemma calm_socket_new u : calm u anscheduler_socket_new.
Proof. by_calm anscheduler_socket_new. Qed.
#[local] Hint Resolve calm_socket_new : calm.
Lemma calm_socket_dereference u (socket : Z) : calm u (anscheduler_socket_dereference socket).
Proof.
  apply conf_lock; [intros; calm_steps|]. intros Hu v. destruct u as [t|d]; [done|simpl in Hu; injection Hu as ->].
  apply conf_rd_desc. intros o _. apply conf_rd_desc. intros o2 _.
  case_decide; [apply conf_tail; by apply conf_unlock; [|left|]|].
  apply conf_rd_desc. intros o3 Ho3. replace (desc_refCount o3) with (ct_count v) by (by rewrite <- Ho3).
  apply (conf_wr_desc _ _ v (mk_counter (u64 (ct_count v - 1)) (ct_over v) (ct_reason v))).
  { apply inner_drop. }
  { by intros o4 <-. }
  apply conf_rd_desc. intros o4 _. case_decide.
  - apply conf_unlock; [done|apply one_dropped|calm_steps].
  - apply conf_tail, conf_unlock; [done|apply one_dropped|done].
Qed.
#[local] Hint Resolve calm_socket_dereference : calm.
Lemma calm__switch_continuation u (thread : Z) : calm u (_switch_continuation thread).
Proof. by_calm _switch_continuation. Qed.
#[local] Hint Resolve calm__switch_continuation : calm.
Lemma calm_wakeup_body u (task thread : Z) : calm u (wakeup_body task thread).
Proof. by_calm wakeup_body. Qed.
#[local] Hint Resolve calm_wakeup_body : calm.
Lemma calm__wakeup_endpoint u (dest : Z) : calm u (_wakeup_endpoint dest).
Proof. by_calm _wakeup_endpoint. Qed.
#[local] Hint Resolve calm__wakeup_endpoint : calm.
Lemma calm_socket_msg u (socket msg : Z) : calm u (anscheduler_socket_msg socket msg).
Proof. by_calm anscheduler_socket_msg. Qed.
#[local] Hint Resolve calm_socket_msg : calm.
Lemma calm_socket_msg_async u (socket msg : Z) : calm u (anscheduler_socket_msg_async socket msg).
Proof. by_calm anscheduler_socket_msg_async. Qed.
#[local] Hint Resolve calm_socket_msg_async : calm.
Lemma calm_socket_msg_data u (data : list Z) (len : Z) : calm u (anscheduler_socket_msg_data data len).
Proof. by_calm anscheduler_socket_msg_data. Qed.
#[local] Hint Resolve calm_socket_msg_data : calm.
Lemma calm_socket_connect u (socket task : Z) : calm u (anscheduler_socket_connect socket task).
Proof. by_calm anscheduler_socket_connect. Qed.
#[local] Hint Resolve calm_socket_connect : calm.
Lemma calm_socket_remote u (socket : Z) : calm u (anscheduler_socket_remote socket).
Proof. by_calm anscheduler_socket_remote. Qed.
#[local] Hint Resolve calm_socket_remote : calm.
Lemma calm_free_link u (socket sock : Z) (shouldFree : bool) : calm u (free_link socket sock shouldFree).
Proof. by_calm free_link. Qed.
#[local] Hint Resolve calm_free_link : calm.
Lemma calm__socket_hangup u (socket : Z) : calm u (_socket_hangup socket).
Proof. by_calm _socket_hangup. Qed.
#[local] Hint Resolve calm__socket_hangup : calm.
Lemma calm__async_msg u (info : Z) : calm u (_async_msg info).
Proof. by_calm _async_msg. Qed.
#[local] Hint Resolve calm__async_msg : calm.

(** *** src/task.c: creation and destruction *)
Lemma calm__map_first_4mb u (task : Z) : calm u (_map_first_4mb task).
Proof. by_calm _map_first_4mb. Qed.
#[local] Hint Resolve calm__map_first_4mb : calm.
Lemma calm_task_create u : calm u anscheduler_task_create.
Proof. apply (calm_alloc_new u). intros task Ht. case_decide; [calm_steps|]. destruct Ht; [done|]. calm_steps. Qed.
#[local] Hint Resolve calm_task_create : calm.
Lemma calm_push_threads u (first : Z) : calm u (push_threads first).
Proof. by_calm push_threads. Qed.
#[local] Hint Resolve calm_push_threads : calm.
Lemma calm_task_launch u (task : Z) : calm u (anscheduler_task_launch task).
Proof. by_calm anscheduler_task_launch. Qed.
#[local] Hint Resolve calm_task_launch : calm.
Lemma calm__resign_continuation u : calm u _resign_continuation.
Proof. by_calm _resign_continuation. Qed.
#[local] Hint Resolve calm__resign_continuation : calm.
Lemma calm_wait_socket_gone u (task thread i desc : Z) : calm u (wait_socket_gone task thread i desc).
Proof. by_calm wait_socket_gone. Qed.
#[local] Hint Resolve calm_wait_socket_gone : calm.
Lemma calm_close_bucket u (task thread i : Z) : calm u (close_bucket task thread i).
Proof. by_calm close_bucket. Qed.
#[local] Hint Resolve calm_close_bucket : calm.
Lemma calm__close_task_sockets_async u (task : Z) : calm u (_close_task_sockets_async task).
Proof. by_calm _close_task_sockets_async. Qed.
#[local] Hint Resolve calm__close_task_sockets_async : calm.
Lemma calm_free_threads u (task : Z) : calm u (free_threads task).
Proof. by_calm free_threads. Qed.
#[local] Hint Resolve calm_free_threads : calm.
Lemma calm__free_task_method u (task : Z) : calm u (_free_task_method task).
Proof. by_calm _free_task_method. Qed.
#[local] Hint Resolve calm__free_task_method : calm.
Lemma calm_kernel_code u (fn : kernel_fn) (arg : Z) : calm u (kernel_code fn arg).
Proof. by_calm kernel_code. Qed.
#[local] Hint Resolve calm_kernel_code : calm.

(** *** The interface *)

Lemma calm_entry u e : calm u (entry_code e).
Proof. destruct e as [[]|[]|[]|[]|[]|[]|fn arg]; simpl; unfold drop; calm_steps. Qed.

End operations.
