(* ===== verification/Smp.v ===== *)
(** * Smp: reference counts under every interleaving

    Any number of CPUs run any functions of the scheduler, their accesses interleave in
    every way, threads are switched, interrupted and resumed (Steps.v). Because the
    code follows the discipline of Guard.v (Calm.v), at most one CPU is ever between the
    accesses of an operation on the reference count of a task or a descriptor, the one
    that holds its lock, and it has changed the count by one event at most: the
    invariant [sys_ok], from which Atomic.v concludes what whole calls do. *)
From S2P Require Import Prelude Types Machine Demo TaskRef Loop Socket TaskLife Interface Steps Guard Calm.

(** ** Who holds the lock *)

(** The holder, with the counter when it took the lock and now. *)
Definition holder : Type := option (place * counter * counter).

Definition mode_at (h : holder) (pl : place) : mode :=
  match h with
  | Some (pl', v0, v) => if decide (pl' = pl) then Some (v0, v) else None
  | None => None
  end.

Definition returns_calm {A} (_ : A) (m : mode) : Prop := m = None.

Record sys_ok (u : subject) (h : holder) (S : sys) : Prop := {
  ok_live : subject_live u (sy_mem S);
  ok_code c : conf u (mode_at h (at_cpu c)) (sy_code S c) returns_calm;
  ok_saved th b k : sy_saved S th = Some (b, k) → conf u (mode_at h (at_thread th)) k returns_calm;
  ok_hold :
    match h with
    | Some (_, _, v) => counter_of u (sy_mem S) = Some v ∧ guard_lock u ∈ k_locks (sy_mem S)
    | None => guard_lock u ∉ k_locks (sy_mem S)
    end;
}.

(** ** Lemmas: one step *)

Lemma conf_next u c m {A} (p p' : prog A) s s' Q :
  conf u m p Q → next_step c p s = moved p' s' → subject_live u s → mode_in u m s →
  subject_live u s' → ∃ m', mode_step u m s s' m' ∧ conf u m' p' Q.
Proof.
  intros Hp Hn Hl Hm Hl'. destruct p as [a|R f k|X B body x k|th body k|l]; simpl in Hn; try done.
  - destruct (f c s) as [r s1|l|e] eqn:Hf; try done. injection Hn as <- <-. by apply (Hp c s).
  - injection Hn as <- <-. exists m. split.
    { destruct m as [[v0 v]|]; [|done]. destruct Hm. split; [done|]. split; [done|]. split; [done|by left]. }
    destruct Hp as (I & HI & Hb). apply conf_bind. eapply conf_mono; [by apply Hb|].
    intros [x'|b] m' Hy; [|done]. by exists I.
Qed.

Lemma mode_at_in u h S pl : sys_ok u h S → mode_in u (mode_at h pl) (sy_mem S).
Proof.
  intros [_ _ _ Hh]. destruct h as [[[pl' v0] v]|]; simpl; [|done]. by case_decide.
Qed.

Lemma conf_never u (p : prog Empty_set) Q : conf u None p (λ _ _, True) → conf u None (never p) Q.
Proof. intros Hp. apply conf_bind. eapply conf_mono; [exact Hp|]. by intros []. Qed.

(** The code and saved states of other CPUs and threads do not notice that the
    holder moves. *)
Definition relocate (f : place → place) (h : holder) : holder :=
  match h with Some (pl, v0, v) => Some (f pl, v0, v) | None => None end.

Lemma mode_relocate f h pl pl' :
  (∀ q, f q = pl ↔ q = pl') → mode_at (relocate f h) pl = mode_at h pl'.
Proof.
  intros Hf. destruct h as [[[q v0] v]|]; [|done]. simpl.
  destruct (decide (q = pl')) as [Hq|Hq]; [rewrite decide_True|rewrite decide_False]; rewrite ?Hf; done.
Qed.

(** The holder is not at [pl]. *)
Lemma mode_at_none f h pl : (∀ q, f q = pl → mode_at h q = None) → mode_at (relocate f h) pl = None.
Proof.
  intros Hf. destruct h as [[[q v0] v]|]; [|done]. simpl. case_decide as Hq; [|done].
  specialize (Hf q Hq). simpl in Hf. by rewrite decide_True in Hf.
Qed.

Lemma save_thread_quiet u th s :
  counter_of u (save_thread th s) = counter_of u s ∧ k_locks (save_thread th s) = k_locks s ∧
  (subject_live u s → subject_live u (save_thread th s)).
Proof. by destruct u. Qed.

Lemma in_section_quiet u b c s :
  counter_of u (in_section b c s) = counter_of u s ∧ k_locks (in_section b c s) = k_locks s ∧
  (subject_live u s → subject_live u (in_section b c s)).
Proof. by destruct u. Qed.

Lemma relocate_hold u f h s s' :
  counter_of u s' = counter_of u s → k_locks s' = k_locks s →
  match h with Some (_, _, v) => counter_of u s = Some v ∧ guard_lock u ∈ k_locks s
  | None => guard_lock u ∉ k_locks s end →
  match relocate f h with Some (_, _, v) => counter_of u s' = Some v ∧ guard_lock u ∈ k_locks s'
  | None => guard_lock u ∉ k_locks s' end.
Proof. intros -> ->. by destruct h as [[[q v0] v]|]. Qed.

(** *** How the holder moves *)

(** The holder at CPU [c] in mode [m]. *)
Definition held_at (c : nat) (m : mode) : holder :=
  match m with Some (v0, v) => Some (at_cpu c, v0, v) | None => None end.

(** A step of CPU [c] that leaves the counter alone; the holder may move, but not to or
    from another CPU. *)
Definition quiet_move (u : subject) (c : nat) (kd : step_kind) (h h' : holder) (s s' : kst) : Prop :=
  counter_of u s' = counter_of u s ∧ (kd = k_access → h' = h) ∧
  ∃ f, h' = relocate f h ∧ ∀ c', c' ≠ c → ∀ q, f q = at_cpu c' ↔ q = at_cpu c'.

(** An access of CPU [c] as the holder, or by which it becomes the holder. *)
Definition own_move (u : subject) (c : nat) (kd : step_kind) (h h' : holder) (s s' : kst) : Prop :=
  kd = k_access ∧ ∃ m m', h = held_at c m ∧ h' = held_at c m' ∧ mode_step u m s s' m'.

Definition holder_move u c kd h h' s s' : Prop :=
  quiet_move u c kd h h' s s' ∨ own_move u c kd h h' s s'.

Lemma quiet_move_other u c kd h h' s s' c' :
  quiet_move u c kd h h' s s' → c' ≠ c → mode_at h' (at_cpu c') = mode_at h (at_cpu c').
Proof. intros (_ & _ & f & -> & Hf) Hc. apply mode_relocate. by apply Hf. Qed.

Lemma sys_ok_move u c kd f h S S' :
  sys_ok u h S → subject_live u (sy_mem S') →
  (∀ c', c' ≠ c → ∀ q, f q = at_cpu c' ↔ q = at_cpu c') → kd ≠ k_access →
  counter_of u (sy_mem S') = counter_of u (sy_mem S) → k_locks (sy_mem S') = k_locks (sy_mem S) →
  (∀ c, conf u (mode_at (relocate f h) (at_cpu c)) (sy_code S' c) returns_calm) →
  (∀ th b k, sy_saved S' th = Some (b, k) → conf u (mode_at (relocate f h) (at_thread th)) k returns_calm) →
  ∃ h', sys_ok u h' S' ∧ quiet_move u c kd h h' (sy_mem S) (sy_mem S').
Proof.
  intros [_ _ _ Hh] Hl Hf Hkd Hc Hk Hcode Hsaved. exists (relocate f h). split.
  - split; [done..|]. by apply (relocate_hold u f h (sy_mem S)).
  - split; [done|]. split; [done|]. by exists f.
Qed.

(** An access by the holder or by anybody else. *)
Lemma sys_ok_access u h S c p' s' :
  sys_ok u h S → next_step c (sy_code S c) (sy_mem S) = moved p' s' → subject_live u s' →
  let S' := mk_sys s' (on_cpu c p' (sy_code S)) (sy_saved S) in
  ∃ h', sys_ok u h' S' ∧ holder_move u c k_access h h' (sy_mem S) s'.
Proof.
  intros Hok Hn Hl'. pose proof Hok as [Hl Hcode Hsaved Hh].
  destruct (conf_next u c _ _ _ _ _ _ (Hcode c) Hn Hl (mode_at_in u h S _ Hok) Hl') as (m' & Hm & Hp').
  assert (∀ h', mode_at h' (at_cpu c) = m' →
    (∀ pl, pl ≠ at_cpu c → mode_at h' pl = mode_at h pl) →
    match h' with Some (_, _, v) => counter_of u s' = Some v ∧ guard_lock u ∈ k_locks s'
      | None => guard_lock u ∉ k_locks s' end →
    sys_ok u h' (mk_sys s' (on_cpu c p' (sy_code S)) (sy_saved S))) as Hnew.
  { intros h' Hc Ho Hh'. split; [done| | |done].
    - intros c'. unfold on_cpu. simpl. case_decide as Hcc; [by rewrite Hcc, Hc|].
      rewrite Ho by congruence. apply Hcode.
    - intros th b k Hk. rewrite Ho by done. by eapply Hsaved. }
  assert (∀ v0 v, mode_at (Some (at_cpu c, v0, v)) (at_cpu c) = Some (v0, v)) as Hself.
  { intros v0 v. simpl. by rewrite decide_True. }
  assert (∀ v0 v pl, pl ≠ at_cpu c → mode_at (Some (at_cpu c, v0, v)) pl = None) as Hother.
  { intros v0 v pl Hpl. simpl. by rewrite decide_False. }
  destruct (mode_at h (at_cpu c)) as [[v0 v]|] eqn:Hmode.
  - (* the holder *)
    assert (h = Some (at_cpu c, v0, v)) as ->.
    { destruct h as [[[q a] b]|]; simpl in Hmode; [|done]. case_decide; naive_solver. }
    exists (held_at c m'). split; [|right; split; [done|by exists (Some (v0, v)), m']].
    apply Hnew.
    + destruct m' as [[v0' v']|]; [apply Hself|done].
    + intros pl Hpl. rewrite (Hother v0 v pl Hpl). destruct m' as [[v0' v']|]; [by apply Hother|done].
    + destruct m' as [[v0' v']|]; simpl in Hm; [by destruct Hm as (_ & ? & ? & _)|by destruct Hm].
  - destruct m' as [[v0' v']|].
    + pose proof Hm as (Hnl & Hlk & Hv0 & Hv' & ->).
      assert (h = None) as -> by (destruct h as [[[q a] b]|]; [by destruct Hh|done]).
      exists (Some (at_cpu c, v0', v0')). split; [|right; split; [done|by exists None, (Some (v0', v0'))]].
      apply Hnew; [done| |done]. intros pl Hpl. by rewrite Hother.
    + destruct Hm as (Hv & Hlk). exists h. split.
      * apply Hnew; [done..|]. destruct h as [[[q a] b]|]; [by rewrite Hv, Hlk|by rewrite Hlk].
      * left. split; [done|]. split; [done|]. exists id. split; [by destruct h as [[[q a] b]|]|done].
Qed.

(** Saving a thread's state: what the place of the holder becomes when the state that
    [th] had is lost, and when CPU [c]'s code becomes that state. *)
Definition lose (th : Z) (q : place) : place := if decide (q = at_thread th) then nowhere else q.
Definition put_away (c : nat) (th : Z) (q : place) : place :=
  if decide (q = at_cpu c) then at_thread th else lose th q.
Definition take_back (c : nat) (th : Z) (q : place) : place :=
  if decide (q = at_thread th) then at_cpu c else q.

Ltac place_cases :=
  unfold put_away, take_back, lose; intros; repeat case_decide; subst; naive_solver.

(** *** The other steps *)
Section steps.
Context `{Platform, !PlatformOk _} (u : subject) (h : holder) (S : sys) (c : nat).
Context (Hok : sys_ok u h S).

Definition unchanged (S' : sys) : Prop := ∀ kd, kd ≠ k_access →
  ∃ h', sys_ok u h' S' ∧ quiet_move u c kd h h' (sy_mem S) (sy_mem S').

Lemma sys_ok_save th b body k :
  next_step c (sy_code S c) (sy_mem S) = saving th body k →
  unchanged (mk_sys (save_thread th (sy_mem S)) (on_cpu c (never body) (sy_code S))
               (save_at th (b, k) (sy_saved S))).
Proof.
  intros Hn. destruct Hok as [Hl Hcode Hsaved Hh]. pose proof (Hcode c) as Hc.
  destruct (sy_code S c) as [a|R f k'|X B bd x k'|th' body' k'|l]; try done.
  { simpl in Hn. by destruct (f c (sy_mem S)). }
  injection Hn as -> -> ->. destruct Hc as (Hm & Hbody & Hk).
  destruct (save_thread_quiet u th (sy_mem S)) as (Hcn & Hlk & Hl').
  intros kd Hkd. apply (sys_ok_move u c kd (lose th)); [done|by apply Hl'|place_cases|done..| |]; simpl.
  - intros c'. rewrite (mode_relocate _ _ _ (at_cpu c')) by place_cases. unfold on_cpu.
    case_decide as Hcc; [|apply Hcode]. rewrite Hcc, Hm. by apply conf_never.
  - intros th' b' k'. unfold save_at. case_decide as Htt.
    + intros [= <- <-]. rewrite mode_at_none; [done|]. subst. place_cases.
    + intros Hk'. rewrite (mode_relocate _ _ _ (at_thread th')) by place_cases. by eapply Hsaved.
Qed.

(** The code of a CPU at its end, or about to leave. *)
Lemma code_over :
  next_step c (sy_code S c) (sy_mem S) = returned () ∨
  (∃ l, next_step c (sy_code S c) (sy_mem S) = leaving l) → mode_at h (at_cpu c) = None.
Proof.
  destruct Hok as [_ Hcode _ _]. specialize (Hcode c). intros Hn.
  destruct (sy_code S c) as [a|R f k'|X B bd x k'|th' body' k'|l]; [done| | | |done].
  - simpl in Hn. destruct (f c (sy_mem S)); naive_solver.
  - naive_solver.
  - naive_solver.
Qed.

(** It goes on with calm code. *)
Lemma sys_ok_outside p :
  mode_at h (at_cpu c) = None → calm u p →
  unchanged (mk_sys (sy_mem S) (on_cpu c p (sy_code S)) (sy_saved S)).
Proof.
  intros Hm Hp. destruct Hok as [Hl Hcode Hsaved Hh].
  intros kd Hkd. apply (sys_ok_move u c kd id); [done..| |]; simpl.
  - intros c'. rewrite (mode_relocate _ _ _ (at_cpu c')) by done. unfold on_cpu.
    case_decide as Hcc; [|apply Hcode]. by rewrite Hcc, Hm.
  - intros th b k Hk. rewrite (mode_relocate _ _ _ (at_thread th)) by done. by eapply Hsaved.
Qed.

Lemma sys_ok_run th t b p :
  mode_at h (at_cpu c) = None → resume (thread_state t) (sy_saved S th) = Some (b, p) →
  unchanged (mk_sys (in_section b c (sy_mem S)) (on_cpu c p (sy_code S)) (drop_at th (sy_saved S))).
Proof.
  intros Hm Hr. destruct Hok as [Hl Hcode Hsaved Hh].
  assert (∀ f, (∀ q c', f q = at_cpu c' → c' ≠ c → q = at_cpu c') →
    (∀ q th', f q = at_thread th' → th' ≠ th → q = at_thread th') →
    (∀ c', c' ≠ c → f (at_cpu c') = at_cpu c') → (∀ th', th' ≠ th → f (at_thread th') = at_thread th') →
    conf u (mode_at (relocate f h) (at_cpu c)) p returns_calm →
    unchanged (mk_sys (in_section b c (sy_mem S)) (on_cpu c p (sy_code S)) (drop_at th (sy_saved S)))) as Hmove.
  { intros f Hc Ht Hc' Ht' Hp. destruct (in_section_quiet u b c (sy_mem S)) as (Hcn & Hlk & Hl').
    intros kd Hkd. apply (sys_ok_move u c kd f); [done|by apply Hl'| |done..| |]; simpl.
    - intros c' Hne q. split; [by intros ?%Hc|intros ->; auto].
    - intros c'. unfold on_cpu. case_decide as Hcc; [by rewrite Hcc|].
      rewrite (mode_relocate _ _ _ (at_cpu c')); [apply Hcode|]. intros q. split; [by intros ?%Hc|intros ->; auto].
    - intros th' b' k. unfold drop_at. case_decide as Htt; [done|]. intros Hk.
      rewrite (mode_relocate _ _ _ (at_thread th')); [by eapply Hsaved|].
      intros q. split; [by intros ?%Ht|intros ->; auto]. }
  assert (∀ q, q = at_cpu c → mode_at h q = None) as Hq by (by intros q ->).
  destruct (thread_state t) as [|stack fn arg|]; simpl in Hr.
  - injection Hr as <- <-. apply (Hmove (lose th)); try place_cases. rewrite mode_at_none; [done|place_cases].
  - injection Hr as <- <-. apply (Hmove (lose th)); try place_cases. rewrite mode_at_none; [|place_cases].
    apply conf_never. eapply conf_mono; [apply calm_kernel_code|done].
  - apply (Hmove (take_back c th)); try place_cases.
    destruct h as [[[q a] a2]|]; simpl in *; [|by apply (Hsaved th b)].
    pose proof (Hsaved th b p Hr) as Hp. simpl in Hp. unfold take_back.
    destruct (decide (q = at_thread th)) as [->|]; [by rewrite decide_True|].
    destruct (decide (q = at_cpu c)); done.
Qed.

Lemma sys_ok_tick th :
  unchanged (mk_sys (in_section true c (save_thread th (sy_mem S)))
               (on_cpu c (never anscheduler_loop_resign) (sy_code S))
               (save_at th (false, sy_code S c) (sy_saved S))).
Proof.
  destruct Hok as [Hl Hcode Hsaved Hh].
  destruct (save_thread_quiet u th (sy_mem S)) as (Hcn & Hlk & Hl').
  destruct (in_section_quiet u true c (save_thread th (sy_mem S))) as (Hcn2 & Hlk2 & Hl2).
  intros kd Hkd. apply (sys_ok_move u c kd (put_away c th)); [done|by apply Hl2, Hl'|place_cases|done..| |]; simpl.
  - intros c'. unfold on_cpu. case_decide as Hcc.
    + rewrite mode_at_none; [|place_cases]. apply conf_never.
      eapply conf_mono; [apply calm_loop_resign|done].
    + rewrite (mode_relocate _ _ _ (at_cpu c')) by place_cases. apply Hcode.
  - intros th' b' k'. unfold save_at. case_decide as Htt.
    + intros [= <- <-]. rewrite (mode_relocate _ _ _ (at_cpu c)) by (subst; place_cases). apply Hcode.
    + intros Hk'. rewrite (mode_relocate _ _ _ (at_thread th')) by place_cases. by eapply Hsaved.
Qed.

(** Only the memory changes, and nothing that matters here. *)
Lemma sys_ok_mem s' :
  (subject_live u (sy_mem S) → subject_live u s') →
  counter_of u s' = counter_of u (sy_mem S) → k_locks s' = k_locks (sy_mem S) →
  unchanged (mk_sys s' (sy_code S) (sy_saved S)).
Proof.
  intros Hl Hc Hk kd Hkd. destruct Hok as [Hlive Hcode Hsaved Hh].
  apply (sys_ok_move u c kd id); [done|by apply Hl|done..| |]; simpl.
  - intros c'. rewrite (mode_relocate _ _ _ (at_cpu c')) by done. apply Hcode.
  - intros th b k Hk'. rewrite (mode_relocate _ _ _ (at_thread th)) by done. by eapply Hsaved.
Qed.

End steps.

Lemma sys_ok_step `{Platform, !PlatformOk _} u h c kd S S' :
  sys_ok u h S → sys_step c kd S S' → subject_live u (sy_mem S') →
  ∃ h', sys_ok u h' S' ∧ holder_move u c kd h h' (sy_mem S) (sy_mem S').
Proof.
  intros Hok Hstep Hl'.
  assert (∀ S1, unchanged u h S c S1 → kd ≠ k_access →
    ∃ h', sys_ok u h' S1 ∧ holder_move u c kd h h' (sy_mem S) (sy_mem S1)) as Hmove.
  { intros S1 Hu Hkd. destruct (Hu kd Hkd) as (h' & ? & ?). exists h'. split; [done|by left]. }
  pose proof (code_over u h S c Hok) as Hover.
  destruct Hstep as [S p' s' Hn|S th body k Hn Hth|S task th t b p Hn Ht Hr|S Hn|S e Hn Hin|S th Hlk Hth|S b Hn|S now].
  - by eapply sys_ok_access.
  - apply Hmove; [by eapply sys_ok_save|done].
  - apply Hmove; [|done]. eapply sys_ok_run; [done| |done]. apply Hover. eauto.
  - apply Hmove; [|done]. apply sys_ok_outside; [done| |done]. apply Hover. eauto.
  - apply Hmove; [|done]. apply sys_ok_outside; [done|by apply Hover; left|]. apply calm_bind; [apply calm_entry|done].
  - apply Hmove; [|done]. by apply sys_ok_tick.
  - apply Hmove; [|done]. apply sys_ok_mem; [done|by destruct u..].
  - apply Hmove; [|done]. apply sys_ok_mem; [done|by destruct u..].
Qed.

(** ** Executions *)

(** No CPU is in the scheduler, and no thread was interrupted in it. *)
Record all_outside (S : sys) : Prop := {
  out_code c : sy_code S c = mret ();
  out_saved th b k : sy_saved S th = Some (b, k) → k = mret ();
}.

Lemma sys_ok_outside_all u S :
  all_outside S → subject_live u (sy_mem S) → guard_lock u ∉ k_locks (sy_mem S) → sys_ok u None S.
Proof.
  intros [Hc Hs] Hl Hn. split; [done| | |done].
  - intros c. by rewrite Hc.
  - by intros th b k ->%Hs.
Qed.

Section executions.
Context `{Platform, !PlatformOk _} (u : subject).

Lemma sys_ok_steps S S' :
  sys_steps_while (subject_live u) S S' → ∀ h, sys_ok u h S → ∃ h', sys_ok u h' S'.
Proof.
  intros Hsteps. induction Hsteps as [S|S S1 S' (_ & Hl1 & c & kd & Hstep) _ IH]; intros h Hok; [by exists h|].
  destruct (sys_ok_step u h c kd S S1 Hok Hstep Hl1) as (h1 & Hok1 & _). by apply (IH h1).
Qed.
End executions.

(** ** Concrete executions *)

#[export] Instance subject_live_dec u s : Decision (subject_live u s).
Proof. unfold subject_live. apply _. Defined.

Section drive.
Context `{Platform} (u : subject).

(** One access of CPU [c]; outside it calls [e], after entering or leaving a critical
    section when the call asks for it. *)
Definition sys_go (c : nat) (e : entry) (S : sys) : option (step_kind * sys) :=
  match next_step c (sy_code S c) (sy_mem S) with
  | moved p' s' => Some (k_access, mk_sys s' (on_cpu c p' (sy_code S)) (sy_saved S))
  | returned _ =>
      if decide (cpu_locked (k_cpus (sy_mem S) c) = begins_inside e)
      then Some (k_call e, mk_sys (sy_mem S) (on_cpu c (serve e) (sy_code S)) (sy_saved S))
      else Some (k_section (begins_inside e),
                 mk_sys (in_section (begins_inside e) c (sy_mem S)) (sy_code S) (sy_saved S))
  | _ => None
  end.

Fixpoint drive (sched : list (nat * entry)) (S : sys) : option sys :=
  match sched with
  | [] => Some S
  | (c, e) :: sched =>
      match sys_go c e S with
      | Some (_, S1) =>
          if decide (subject_live u (sy_mem S) ∧ subject_live u (sy_mem S1)) then drive sched S1 else None
      | None => None
      end
  end.

Lemma sys_go_step c e S kd S' : sys_go c e S = Some (kd, S') → sys_step c kd S S'.
Proof.
  unfold sys_go. destruct (next_step c (sy_code S c) (sy_mem S)) eqn:Hn; try done.
  - intros [= <- <-]. by apply sys_access.
  - destruct a. case_decide; intros [= <- <-]; [by apply sys_call|by apply sys_section].
Qed.

Lemma drive_steps sched : ∀ S S', drive sched S = Some S' → sys_steps_while (subject_live u) S S'.
Proof.
  induction sched as [|[c e] sched IH]; intros S S' Hd; simpl in Hd; [by injection Hd as <-; apply rtc_refl|].
  destruct (sys_go c e S) as [[kd S1]|] eqn:Hgo; [|done]. case_decide as Hl; [|done].
  eapply rtc_l; [|by apply IH]. destruct Hl. split; [done|]. split; [done|]. exists c, kd. by eapply sys_go_step.
Qed.

(** The end of a schedule that can be driven to a state with property [P]. *)
Lemma drive_reaches sched S (P : sys → bool) :
  match drive sched S with Some S' => P S' | None => false end = true →
  ∃ S', sys_steps_while (subject_live u) S S' ∧ P S' = true.
Proof.
  destruct (drive sched S) as [S'|] eqn:Hd; [|done]. intros HP. exists S'. split; [|done].
  by eapply drive_steps.
Qed.
End drive.

(** All CPUs are outside. *)
Definition demo_sys (s : kst) : sys := mk_sys s (λ _, mret ()) (λ _, None).

Lemma demo_sys_outside s : all_outside (demo_sys s).
Proof. by split. Qed.

Definition lock_is_free (u : subject) (S : sys) : bool :=
  bool_decide (guard_lock u ∉ k_locks (sy_mem S)).
