(* ===== verification/Atomic.v ===== *)
(** * Atomic: a call on a reference count is one event

    A call that takes a reference, gives one up, or ends the count of a task or a
    descriptor is cut into single accesses, between which the other CPUs do what they
    like (Steps.v). Here such a call is followed from its first access to its last: all
    it does to the count it does under the lock, where nobody else can touch the count
    (Smp.v), and what it does there is the event that its result tells of. *)
From S2P Require Import Prelude Types Machine Demo Idxset RunQueue TaskRef Loop PidMap SocketList Socket TaskLife Interface Steps Guard Calm Smp.

(** ** A call among the steps of a system *)

(** One step: of the CPU at hand or of another one, with the memory before and after. *)
Record access := mk_access { ac_own : bool; ac_before : kst; ac_after : kst }.

(** The calls, and what each does to the count when its result is [a]. *)
Inductive counter_call := cc_reference | cc_dereference | cc_end (reason : Z).

Definition cc_event (u : subject) (op : counter_call) (a : bool) (v0 v : counter) : Prop :=
  match op with
  | cc_reference =>
      if a then apply_event v0 granted = Some v else ct_over v0 = true ∧ v = v0
  | cc_dereference =>
      match u with
      | su_task _ => apply_event v0 dropped = Some v
      | su_desc _ => if decide (ct_over v0 = true ∧ ct_count v0 = 0) then v = v0
                     else apply_event v0 dropped = Some v
      end
  | cc_end r => if ct_over v0 then v = v0 else apply_event v0 (ended r) = Some v
  end.

Definition cc_code `{Platform} (u : subject) (op : counter_call) : prog bool :=
  match u, op with
  | su_task p, cc_reference => anscheduler_task_reference p
  | su_task p, cc_dereference => anscheduler_task_dereference p;; mret true
  | su_task p, cc_end r => anscheduler_task_kill p r;; mret true
  | su_desc p, cc_reference => anscheduler_socket_reference p
  | su_desc p, cc_dereference => anscheduler_socket_dereference p;; mret true
  | su_desc p, cc_end r => anscheduler_socket_close p r;; mret true
  end.

(** While the call runs the structure is not freed; [anscheduler_task_kill] spares the
    task of the pager, so for it the pager is a thread [pager] of another task. *)
Definition steady (u : subject) (op : counter_call) (pager : Z) (s : kst) : Prop :=
  subject_live u s ∧
  match u, op with
  | su_task p, cc_end _ => pagerThread (k_pager s) = pager ∧
      ∀ t, k_threads s !! pager = Some t → thread_task t ≠ p
  | _, _ => True
  end.

Section trace.
Context `{Platform} (P : kst → Prop) (c : nat).

(** [call_trace p S log a S']: from [S] on CPU [c] executes the call [p], access by
    access, while other CPUs make any steps in between; it returns [a], in [S']. *)
Inductive call_trace {A} : prog A → sys → list access → A → sys → Prop :=
  | ct_return a S : call_trace (mret a) S [] a S
  | ct_own p p' S S1 log a S' :
      sys_step c k_access S S1 → next_step c p (sy_mem S) = moved p' (sy_mem S1) →
      P (sy_mem S) → P (sy_mem S1) → call_trace p' S1 log a S' →
      call_trace p S (mk_access true (sy_mem S) (sy_mem S1) :: log) a S'
  | ct_other c' kd p S S1 log a S' :
      c' ≠ c → sys_step c' kd S S1 → P (sy_mem S) → P (sy_mem S1) → call_trace p S1 log a S' →
      call_trace p S (mk_access false (sy_mem S) (sy_mem S1) :: log) a S'.
End trace.

Section atomic.
Context (u : subject).

(** The steps of the call itself ([own]), or of the others, leave the counter alone. *)
Definition quiet (own : bool) (log : list access) : Prop :=
  ∀ x, x ∈ log → ac_own x = own → counter_of u (ac_after x) = counter_of u (ac_before x).

Definition ends_at (log : list access) (v : counter) : Prop :=
  ∃ x, last log = Some x ∧ counter_of u (ac_after x) = Some v.

Definition starts_at (log : list access) (v : counter) : Prop :=
  ∃ x, head log = Some x ∧ counter_of u (ac_before x) = Some v.

(** The call changes the counter in one stretch [mid] of its steps only, in which the
    others do not, so that the whole stretch is one event [ev]. *)
Definition atomically (ev : counter → counter → Prop) (log : list access) : Prop :=
  ∃ pre mid post v0 v, log = pre ++ mid ++ post ∧ quiet true pre ∧ quiet true post ∧
    quiet false mid ∧ starts_at mid v0 ∧ ends_at mid v ∧ ev v0 v.

(** ** Code that performs one event

    [once ph p Q]: code that has yet to take the lock, holds it, or has given it up,
    takes it once, and returns with a result, a counter before and one after that
    satisfy [Q], whatever the others do while the lock is free. *)
Inductive phase := before | inside (v0 v : counter) | after (v0 v : counter).

Definition phase_in (ph : phase) (s : kst) : Prop :=
  match ph with inside _ v => counter_of u s = Some v ∧ guard_lock u ∈ k_locks s | _ => True end.

Definition phase_step (ph : phase) (s s' : kst) (ph' : phase) : Prop :=
  match ph, ph' with
  | before, before => counter_of u s' = counter_of u s
  | before, inside v0 v => guard_lock u ∉ k_locks s ∧ guard_lock u ∈ k_locks s' ∧
      counter_of u s = Some v0 ∧ v = v0
  | inside v0 _, inside v0' v' => v0' = v0 ∧ guard_lock u ∈ k_locks s' ∧ counter_of u s' = Some v'
  | inside v0 _, after v0' v' => v0' = v0 ∧ counter_of u s' = Some v'
  | after v0 v, after v0' v' => v0' = v0 ∧ v' = v ∧ counter_of u s' = counter_of u s
  | _, _ => False
  end.

Section once.
Context (P : kst → Prop) (HP : ∀ s, P s → subject_live u s).

(** Code that leaves the counter alone, whatever the others do. *)
Fixpoint still {A} (p : prog A) : Prop :=
  match p with
  | Ret _ | Leave _ | Save _ _ _ => True
  | Act f k => ∀ c s r s', P s → f c s = a_ok r s' → P s' →
      counter_of u s' = counter_of u s ∧ still (k r)
  | Loop body x k => (∀ x, still (body x)) ∧ ∀ b, still (k b)
  end.

Fixpoint once {A} (ph : phase) (p : prog A) (Q : A → counter → counter → Prop) : Prop :=
  match p with
  | Ret a => match ph with after v0 v => Q a v0 v | _ => False end
  | Act f k => ∀ c s r s', P s → phase_in ph s → f c s = a_ok r s' → P s' →
      ∃ ph', phase_step ph s s' ph' ∧ once ph' (k r) Q
  | Loop body x k =>
      match ph with after _ _ => (∀ x, still (body x)) ∧ ∀ b, once ph (k b) Q | _ => False end
  | Save _ _ _ | Leave _ => True
  end.

(** *** Lemmas *)

Lemma still_bind {A B} (p : prog A) (f : A → prog B) :
  still p → (∀ a, still (f a)) → still (p ≫= f).
Proof using Type.
  clear HP. intros Hp Hf. induction p as [A a|A R g k IH|A X Y body IHb x k IH|A th body IHb k IH|A l];
    simpl in *; [apply Hf| | |done..].
  - intros c s r s' Hs Hg Hs'. destruct (Hp c s r s' Hs Hg Hs') as [? ?]. split; [done|]. by apply IH.
  - destruct Hp as [Hb Hk]. split; [done|]. intros b. by apply IH.
Qed.

Lemma once_still {A B} v0 v (p : prog A) (f : A → prog B) Q :
  still p → (∀ a, once (after v0 v) (f a) Q) → once (after v0 v) (p ≫= f) Q.
Proof using Type.
  clear HP. intros Hp Hf. induction p as [A a|A R g k IH|A X Y body IHb x k IH|A th body IHb k IH|A l];
    simpl in *; [apply Hf| | |done..].
  - intros c s r s' Hs _ Hg Hs'. destruct (Hp c s r s' Hs Hg Hs') as [? ?].
    exists (after v0 v). split; [done|]. by apply IH.
  - destruct Hp as [Hb Hk]. split; [done|]. intros b. by apply IH.
Qed.

(** One access of calm code. *)
Lemma still_calm {R} (f : nat → kst → aresult R) : calm u (act f) → still (act f).
Proof.
  intros Hf c s r s' Hs Hfs Hs'. destruct (Hf c s r s' (HP s Hs) I Hfs (HP s' Hs')) as (m' & Hm & ->).
  by destruct Hm.
Qed.

Lemma still_lock l : still (anscheduler_lock l).
Proof using Type.
  clear HP. intros c s r s' _. simpl. destruct (lock_live s l); [|done]. case_decide; intros [= <- <-] _.
  split; [by destruct u|done].
Qed.
Lemma still_unlock l : still (anscheduler_unlock l).
Proof using Type. clear HP. intros c s r s' _. simpl. case_decide; intros [= <- <-] _. split; [by destruct u|done]. Qed.

Lemma still_while {X B} (x : X) (body : X → prog (X + B)) : (∀ x, still (body x)) → still (while_ x body).
Proof using Type. clear HP. intros Hb. split; [done|]. by intros b. Qed.

Lemma once_tail {A} v0 v (p : prog ()) (a : A) (Q : A → counter → counter → Prop) :
  still p → Q a v0 v → once (after v0 v) (p;; mret a) Q.
Proof using Type. clear HP. intros Hp HQ. by apply once_still. Qed.

(** The critical section. *)
Lemma once_lock {B} (k : () → prog B) Q :
  (∀ v, once (inside v v) (k ()) Q) → once before (anscheduler_lock (guard_lock u) ≫= k) Q.
Proof.
  intros Hk c s r s' Hs _ Hf _. simpl in Hf. destruct (HP s Hs) as [_ [v Hv]].
  destruct (lock_live s _); [|done]. case_decide as Hl; [done|]. injection Hf as <- <-.
  exists (inside v v). split; [|by apply Hk]. split; [done|]. split; [simpl; set_solver|done].
Qed.

Lemma once_unlock {B} v0 v (k : () → prog B) Q :
  once (after v0 v) (k ()) Q → once (inside v0 v) (anscheduler_unlock (guard_lock u) ≫= k) Q.
Proof using Type.
  clear HP. intros Hk c s r s' _ [Hv _] Hf _. simpl in Hf. case_decide; [|done]. injection Hf as <- <-.
  exists (after v0 v). split; [|done]. split; [done|]. by destruct u.
Qed.

(** An access before the critical section. *)
Lemma once_early {R B} (f : nat → kst → aresult R) (k : R → prog B) Q :
  (∀ c s r s', P s → f c s = a_ok r s' → P s' → counter_of u s' = counter_of u s ∧ once before (k r) Q) →
  once before (act f ≫= k) Q.
Proof using Type. clear HP. intros Hk c s r s' Hs _ Hf Hs'. destruct (Hk c s r s' Hs Hf Hs'). by exists before. Qed.
End once.
End atomic.

Section fields.
Context (P : kst → Prop).

Lemma once_rd_task t v0 v {R B} (f : task_t → R) (k : R → prog B) Q :
  (∀ o, task_counter o = v → once (su_task t) P (inside v0 v) (k (f o)) Q) →
  once (su_task t) P (inside v0 v) (rd t f ≫= k) Q.
Proof.
  intros Hk c s r s' _ [Hv Hl] Hf _. simpl in Hf, Hv.
  destruct (k_tasks s !! t) as [o|] eqn:Ho; [|done]. injection Hf as <- <-. injection Hv as Hv.
  exists (inside v0 v). split; [|by apply Hk]. split; [done|]. split; [done|]. simpl. rewrite Ho. simpl. by rewrite Hv.
Qed.

Lemma once_wr_task t v0 v v' {B} (g : task_t → task_t) (k : () → prog B) Q :
  (∀ o, task_counter o = v → task_counter (g o) = v') → once (su_task t) P (inside v0 v') (k ()) Q →
  once (su_task t) P (inside v0 v) (wr t g ≫= k) Q.
Proof.
  intros Hg Hk c s r s' _ [Hv Hl] Hf _. simpl in Hf, Hv.
  destruct (k_tasks s !! t) as [o|] eqn:Ho; [|done]. injection Hf as <- <-. injection Hv as Hv.
  exists (inside v0 v'). split; [|done]. split; [done|]. split; [done|].
  simpl. rewrite lookup_insert_eq. simpl. by rewrite (Hg o).
Qed.

Lemma once_rd_desc d v0 v {R B} (f : socket_desc_t → R) (k : R → prog B) Q :
  (∀ o, desc_counter o = v → once (su_desc d) P (inside v0 v) (k (f o)) Q) →
  once (su_desc d) P (inside v0 v) (rd d f ≫= k) Q.
Proof.
  intros Hk c s r s' _ [Hv Hl] Hf _. simpl in Hf, Hv.
  destruct (k_descs s !! d) as [o|] eqn:Ho; [|done]. injection Hf as <- <-. injection Hv as Hv.
  exists (inside v0 v). split; [|by apply Hk]. split; [done|]. split; [done|]. simpl. rewrite Ho. simpl. by rewrite Hv.
Qed.

Lemma once_wr_desc d v0 v v' {B} (g : socket_desc_t → socket_desc_t) (k : () → prog B) Q :
  (∀ o, desc_counter o = v → desc_counter (g o) = v') → once (su_desc d) P (inside v0 v') (k ()) Q →
  once (su_desc d) P (inside v0 v) (wr d g ≫= k) Q.
Proof.
  intros Hg Hk c s r s' _ [Hv Hl] Hf _. simpl in Hf, Hv.
  destruct (k_descs s !! d) as [o|] eqn:Ho; [|done]. injection Hf as <- <-. injection Hv as Hv.
  exists (inside v0 v'). split; [|done]. split; [done|]. split; [done|].
  simpl. rewrite lookup_insert_eq. simpl. by rewrite (Hg o).
Qed.
End fields.

(** *** Code after the critical section *)

Create HintDb still discriminated.

Ltac still_leaf HP :=
  first [apply still_lock | apply still_unlock
        | match goal with |- still ?u _ ?p =>
            let Hc := fresh in assert (calm u p) as Hc by (calm_step); exact (still_calm _ _ HP _ Hc) end].
Ltac still_step HP :=
  match goal with
  | |- ∀ _, still _ _ _ => intros ?
  | |- still _ _ (_ ≫= _) => apply still_bind
  | |- still _ _ (while_ _ _) => apply still_while
  | |- still _ _ (mret _) => exact I
  | |- still _ _ (anscheduler_abort _) => exact I
  | |- still _ _ (if decide _ then _ else _) => case_decide
  | |- still _ _ (match ?x with _ => _ end) => destruct x
  | |- still _ _ _ => first [solve [auto with still nocore] | still_leaf HP]
  end.
Tactic Notation "by_still" reference(op) := unfold op; autounfold with prog;
  match goal with HP : ∀ s, _ s → subject_live _ s |- _ => repeat still_step HP end.

Section tails.
Context `{Platform, !PlatformOk _} (u : subject) (P : kst → Prop) (HP : ∀ s, P s → subject_live u s).

Lemma still_loop_enqueue thread : still u P (loop_enqueue thread).
Proof. by_still loop_enqueue. Qed.
#[local] Hint Resolve still_loop_enqueue : still.
Lemma still_loop_push thread : still u P (anscheduler_loop_push thread).
Proof. by_still anscheduler_loop_push. Qed.
#[local] Hint Resolve still_loop_push : still.
Lemma still_loop_push_kernel arg fn : still u P (anscheduler_loop_push_kernel arg fn).
Proof. by_still anscheduler_loop_push_kernel. Qed.
#[local] Hint Resolve still_loop_push_kernel : still.
Lemma still_loop_unlink thread : still u P (loop_unlink thread).
Proof. by_still loop_unlink. Qed.
#[local] Hint Resolve still_loop_unlink : still.
Lemma still_loop_delete thread : still u P (anscheduler_loop_delete thread).
Proof. by_still anscheduler_loop_delete. Qed.
#[local] Hint Resolve still_loop_delete : still.
Lemma still_delete_threads first : still u P (delete_threads first).
Proof. by_still delete_threads. Qed.
#[local] Hint Resolve still_delete_threads : still.
Lemma still_generate_kill_job task : still u P (_generate_kill_job task).
Proof. by_still _generate_kill_job. Qed.

Lemma still_rd_index node i : still u P (rd_index node i).
Proof. by_still rd_index. Qed.
Lemma still_wr_index node i v : still u P (wr_index node i v).
Proof. by_still wr_index. Qed.
#[local] Hint Resolve still_rd_index still_wr_index : still.
Lemma still_idxset_alloc : still u P anscheduler_idxset_alloc.
Proof. apply (still_calm _ _ HP), calm_idxset_alloc. Qed.
#[local] Hint Resolve still_idxset_alloc : still.
Lemma still_anidxset_put root value : still u P (anidxset_put root value).
Proof. by_still anidxset_put. Qed.
#[local] Hint Resolve still_anidxset_put : still.
Lemma still_rd_sockets task hash : still u P (rd_sockets task hash).
Proof. by_still rd_sockets. Qed.
Lemma still_wr_sockets task hash v : still u P (wr_sockets task hash v).
Proof. by_still wr_sockets. Qed.
#[local] Hint Resolve still_rd_sockets still_wr_sockets : still.
Lemma still_unlink_pending task desc : still u P (unlink_pending task desc).
Proof. by_still unlink_pending. Qed.
#[local] Hint Resolve still_unlink_pending : still.
Lemma still_task_not_pending task desc : still u P (anscheduler_task_not_pending task desc).
Proof. by_still anscheduler_task_not_pending. Qed.
Lemma still_descriptor_delete task desc : still u P (anscheduler_descriptor_delete task desc).
Proof. by_still anscheduler_descriptor_delete. Qed.
End tails.

(** ** A call in a system *)
Section call.
Context `{Platform, !PlatformOk _} (u : subject) (P : kst → Prop) (HP : ∀ s, P s → subject_live u s).
Context (c : nat) {A : Type} (Q : A → counter → counter → Prop).

Lemma once_next ph (p p' : prog A) s s' :
  once u P ph p Q → P s → phase_in u ph s → next_step c p s = moved p' s' → P s' →
  ∃ ph', phase_step u ph s s' ph' ∧ once u P ph' p' Q.
Proof using Type.
  intros Hp Hs Hin Hn Hs'. destruct p as [a|R f k|X B body x k|th body k|l]; simpl in Hn; try done.
  - destruct (f c s) as [r s1|l|e] eqn:Hf; try done. injection Hn as <- <-. by apply (Hp c s).
  - injection Hn as <- <-. destruct ph as [|v0 v|v0 v]; [done..|]. exists (after v0 v).
    split; [done|]. destruct Hp as [Hb Hk]. apply once_still; [apply Hb|]. by intros [x'|b].
Qed.

Lemma quiet_own log s s' :
  quiet u true log → counter_of u s' = counter_of u s → quiet u true (mk_access true s s' :: log).
Proof. intros Hq Hc x [->|Hx]%elem_of_cons; auto. Qed.

Lemma quiet_skip b log s s' : quiet u b log → quiet u b (mk_access (negb b) s s' :: log).
Proof. intros Hq x [->|Hx]%elem_of_cons; [by destruct b|auto]. Qed.

Lemma ends_at_cons x mid v : ends_at u mid v → ends_at u (x :: mid) v.
Proof. intros (y & Hy & Hv). exists y. split; [|done]. by destruct mid. Qed.

Lemma after_trace p S log a S' v0 v :
  call_trace P c p S log a S' → once u P (after v0 v) p Q → quiet u true log ∧ Q a v0 v.
Proof using Type.
  intros Ht. induction Ht as [a S|p p' S S1 log a S' Hs Hn HS HS1 _ IH|c' kd p S S1 log a S' Hc Hs HS HS1 _ IH]; intros Hp.
  - split; [|done]. intros x Hx. by apply elem_of_nil in Hx.
  - destruct (once_next (after v0 v) p p' _ _ Hp HS I Hn HS1) as ([| |v0' v'] & Hph & Hp'); [done..|].
    destruct Hph as (-> & -> & Hc). destruct (IH Hp'). split; [by apply quiet_own|done].
  - destruct (IH Hp). split; [by apply (quiet_skip true)|done].
Qed.

(** Where the call holds the lock. *)
Lemma mode_at_cpu h v0 v : mode_at h (at_cpu c) = Some (v0, v) → h = Some (at_cpu c, v0, v).
Proof. destruct h as [[[q a] b]|]; simpl; [|done]. case_decide; naive_solver. Qed.

Lemma inside_trace p S log a S' h w0 v0 v :
  call_trace P c p S log a S' → once u P (inside v0 v) p Q → sys_ok u h S →
  h = Some (at_cpu c, w0, v) →
  ∃ mid post v', log = mid ++ post ∧ quiet u true post ∧ quiet u false mid ∧ ends_at u mid v' ∧ Q a v0 v'.
Proof using HP PlatformOk0.
  intros Ht. revert h w0 v.
  induction Ht as [a S|p p' S S1 log a S' Hs Hn HS HS1 Ht IH|c' kd p S S1 log a S' Hc Hs HS HS1 _ IH];
    intros h w0 v Hp Hok ->; [done| |].
  - destruct (sys_ok_step u _ c k_access S S1 Hok Hs (HP _ HS1)) as (h' & Hok' & Hm).
    destruct (once_next (inside v0 v) p p' _ _ Hp HS (ok_hold _ _ _ Hok) Hn HS1) as ([|v1 v'|v1 v'] & Hph & Hp'); [done| |].
    + destruct Hph as (-> & Hl & Hv').
      assert (∃ w1, h' = Some (at_cpu c, w1, v')) as (w1 & Hh').
      { destruct Hm as [(Hc & Hh & _)|(_ & m & m' & Hh & Hh' & Hm)].
        - exists w0. rewrite Hh by done. pose proof (ok_hold _ _ _ Hok) as [Hv _].
          assert (v' = v) by congruence. by subst.
        - destruct m as [[a0 b0]|]; [|done]. simpl in Hh. injection Hh as <- <-.
          destruct m' as [[a1 b1]|]; simpl in Hm; [|by destruct Hm].
          destruct Hm as (_ & _ & Hb & _). exists a1. rewrite Hh'. simpl. congruence. }
      destruct (IH h' w1 v' Hp' Hok' Hh') as (mid & post & v2 & -> & H1 & H2 & H3 & H4).
      exists (mk_access true (sy_mem S) (sy_mem S1) :: mid), post, v2.
      split_and!; [done|done|by apply (quiet_skip false)|by apply ends_at_cons|done].
    + destruct Hph as (-> & Hv'). destruct (after_trace _ _ _ _ _ _ _ Ht Hp') as [Hq HQ].
      exists [mk_access true (sy_mem S) (sy_mem S1)], log, v'. split_and!; try done.
      * intros x ->%list_elem_of_singleton. done.
      * eexists. by split.
  - destruct (sys_ok_step u _ c' kd S S1 Hok Hs (HP _ HS1)) as (h' & Hok' & Hm).
    destruct Hm as [Hm|(_ & m & m' & Hh & _)]; [|by destruct m as [[]|]; naive_solver].
    pose proof (quiet_move_other _ _ _ _ _ _ _ c Hm ltac:(done)) as Hmode.
    change (mode_at (Some (at_cpu c, w0, v)) (at_cpu c))
      with (if decide (at_cpu c = at_cpu c) then Some (w0, v) else None) in Hmode.
    rewrite decide_True in Hmode by done. apply mode_at_cpu in Hmode.
    destruct (IH h' w0 v Hp Hok' Hmode) as (mid & post & v2 & -> & H1 & H2 & H3 & H4).
    exists (mk_access false (sy_mem S) (sy_mem S1) :: mid), post, v2.
    split_and!; [done|done| |by apply ends_at_cons|done].
    intros x [->|Hx]%elem_of_cons; [intros _; apply Hm|auto].
Qed.

Lemma before_trace p S log a S' h :
  call_trace P c p S log a S' → once u P before p Q → sys_ok u h S → atomically u (Q a) log.
Proof using HP PlatformOk0.
  intros Ht. revert h.
  induction Ht as [a S|p p' S S1 log a S' Hs Hn HS HS1 Ht IH|c' kd p S S1 log a S' Hc Hs HS HS1 _ IH];
    intros h Hp Hok; [done| |].
  - destruct (sys_ok_step u _ c k_access S S1 Hok Hs (HP _ HS1)) as (h' & Hok' & Hm).
    destruct (once_next before p p' _ _ Hp HS I Hn HS1) as ([|v0 v|v0 v] & Hph & Hp'); [| |done].
    + destruct (IH h' Hp' Hok') as (pre & mid & post & v0 & v & -> & Hq & ?).
      exists (mk_access true (sy_mem S) (sy_mem S1) :: pre), mid, post, v0, v.
      split_and!; try tauto. by apply quiet_own.
    + destruct Hph as (Hnl & Hl & Hv0 & ->).
      assert (h' = Some (at_cpu c, v0, v0)) as Hh'.
      { pose proof (ok_hold _ _ _ Hok) as Hh. destruct h as [[[? ?] ?]|]; [by destruct Hh|].
        pose proof (ok_hold _ _ _ Hok') as Hh'.
        destruct Hm as [(_ & Heq & _)|(_ & m & m' & Hm1 & -> & Hm)]; [by rewrite Heq in Hh'|].
        destruct m as [[]|]; [done|]. destruct m' as [[a1 b1]|]; [|done].
        destruct Hm as (_ & _ & Hv & _ & ->). simpl. congruence. }
      destruct (inside_trace _ _ _ _ _ _ _ _ _ Ht Hp' Hok' Hh') as (mid & post & v' & -> & H1 & H2 & H3 & H4).
      exists [], (mk_access true (sy_mem S) (sy_mem S1) :: mid), post, v0, v'.
      split_and!; try done; [|by apply (quiet_skip false)|by eexists|by apply ends_at_cons].
      intros x Hx. by apply elem_of_nil in Hx.
  - destruct (sys_ok_step u _ c' kd S S1 Hok Hs (HP _ HS1)) as (h' & Hok' & _).
    destruct (IH h' Hp Hok') as (pre & mid & post & v0 & v & -> & Hq & ?).
    exists (mk_access false (sy_mem S) (sy_mem S1) :: pre), mid, post, v0, v.
    split_and!; try tauto. by apply (quiet_skip true).
Qed.
End call.

(** ** The calls *)
Section calls.
Context `{Platform, !PlatformOk _} (pager : Z).

Lemma steady_live u op s : steady u op pager s → subject_live u s.
Proof using Type. by intros [? _]. Qed.

Lemma once_lock_of u P {B} l (k : () → prog B) Q :
  (∀ s, P s → subject_live u s) → l = guard_lock u → (∀ v, once u P (inside v v) (k ()) Q) →
  once u P before (anscheduler_lock l ≫= k) Q.
Proof using Type. intros HP ->. by apply once_lock. Qed.

Lemma once_unlock_of u P {B} l v0 v (k : () → prog B) Q :
  l = guard_lock u → once u P (after v0 v) (k ()) Q →
  once u P (inside v0 v) (anscheduler_unlock l ≫= k) Q.
Proof using Type. intros ->. by apply once_unlock. Qed.

Lemma counter_eta v : mk_counter (ct_count v) (ct_over v) (ct_reason v) = v.
Proof using Type. by destruct v. Qed.

Lemma once_task_reference t P :
  (∀ s, P s → subject_live (su_task t) s) →
  once (su_task t) P before (anscheduler_task_reference t) (cc_event (su_task t) cc_reference).
Proof using Type.
  intros HP. apply once_lock_of; [done..|]. intros v. apply once_rd_task. intros o Ho. case_decide as Hk.
  - apply once_unlock_of; [done|]. split; [|done]. rewrite <- Ho. simpl. by apply bool_decide_eq_true_2.
  - apply once_rd_task. intros o2 Ho2. replace (task_refCount o2) with (ct_count v) by (by rewrite <- Ho2).
    apply (once_wr_task _ _ _ _ (mk_counter (u64 (ct_count v + 1)) (ct_over v) (ct_reason v))); [by intros o3 <-|].
    apply once_unlock_of; [done|]. unfold cc_event, apply_event.
    simpl. by rewrite (task_open o v Ho Hk).
Qed.

Lemma once_desc_reference d P :
  (∀ s, P s → subject_live (su_desc d) s) →
  once (su_desc d) P before (anscheduler_socket_reference d) (cc_event (su_desc d) cc_reference).
Proof using Type.
  intros HP. apply once_lock_of; [done..|]. intros v. apply once_rd_desc. intros o Ho. case_decide as Hk.
  - apply once_unlock_of; [done|]. split; [|done]. rewrite <- Ho. simpl. by apply bool_decide_eq_true_2.
  - apply once_rd_desc. intros o2 Ho2. replace (desc_refCount o2) with (ct_count v) by (by rewrite <- Ho2).
    apply (once_wr_desc _ _ _ _ (mk_counter (u64 (ct_count v + 1)) (ct_over v) (ct_reason v))); [by intros o3 <-|].
    apply once_unlock_of; [done|]. unfold cc_event, apply_event.
    simpl. by rewrite (desc_open o v Ho Hk).
Qed.

Lemma once_task_dereference t P :
  (∀ s, P s → subject_live (su_task t) s) →
  once (su_task t) P before (anscheduler_task_dereference t;; mret true) (cc_event (su_task t) cc_dereference).
Proof using PlatformOk0.
  intros HP. apply once_lock_of; [done..|]. intros v. apply once_rd_task. intros o Ho.
  replace (task_refCount o) with (ct_count v) by (by rewrite <- Ho).
  apply (once_wr_task _ _ _ _ (mk_counter (u64 (ct_count v - 1)) (ct_over v) (ct_reason v))); [by intros o2 <-|].
  case_decide; [|by apply once_unlock_of].
  apply once_rd_task. intros o2 _. case_decide; [|by apply once_unlock_of].
  apply once_unlock_of; [done|]. by apply once_tail; [apply still_generate_kill_job|].
Qed.

Lemma once_desc_dereference d P :
  (∀ s, P s → subject_live (su_desc d) s) →
  once (su_desc d) P before (anscheduler_socket_dereference d;; mret true) (cc_event (su_desc d) cc_dereference).
Proof using PlatformOk0.
  intros HP. apply once_lock_of; [done..|]. intros v. apply once_rd_desc. intros o Ho.
  apply once_rd_desc. intros o2 Ho2.
  assert ((desc_isClosed o ≠ 0 ∧ desc_refCount o2 = 0) ↔ (ct_over v = true ∧ ct_count v = 0)) as Hspent.
  { rewrite <- Ho at 1. rewrite <- Ho2. simpl. by rewrite bool_decide_eq_true. }
  unfold cc_event. case_decide as Hs.
  { apply once_unlock_of; [done|]. simpl. by rewrite decide_True by (by apply Hspent). }
  apply once_rd_desc. intros o3 Ho3. replace (desc_refCount o3) with (ct_count v) by (by rewrite <- Ho3).
  apply (once_wr_desc _ _ _ _ (mk_counter (u64 (ct_count v - 1)) (ct_over v) (ct_reason v))); [by intros o4 <-|].
  set (v1 := mk_counter _ _ _).
  assert (if decide (ct_over v = true ∧ ct_count v = 0) then v1 = v else apply_event v dropped = Some v1) as Hev.
  { by rewrite decide_False by (by intros ?%Hspent). }
  apply once_rd_desc. intros o4 _.
  destruct (decide (u64 (ct_count v - 1) = 0 ∧ desc_isClosed o4 ≠ 0));
    [|apply once_unlock_of; [done|apply Hev]].
  apply once_unlock_of; [done|]. apply once_still; [|intros _; apply Hev].
  apply still_bind; [still_leaf HP|intros task]. apply still_bind; [by apply still_task_not_pending|intros _].
  apply still_bind; [still_leaf HP|intros task']. apply still_bind; [by apply still_descriptor_delete|intros _].
  by apply still_loop_push_kernel.
Qed.

Lemma once_task_kill t r P :
  (∀ s, P s → subject_live (su_task t) s) →
  (∀ s, P s → pagerThread (k_pager s) = pager ∧ ∀ th, k_threads s !! pager = Some th → thread_task th ≠ t) →
  once (su_task t) P before (anscheduler_task_kill t r;; mret true) (cc_event (su_task t) (cc_end r)).
Proof using Type.
  intros HP Hpg. apply once_early. intros c s p s' Hs [= <- <-] _. split; [done|].
  destruct (Hpg s Hs) as [-> _].
  assert (once (su_task t) P before (anscheduler_lock (killLock t);;
    killed ← rd t task_isKilled;
    (if decide (killed ≠ 0) then anscheduler_unlock (killLock t) else
     wr t (set_task_isKilled 1);; wr t (set_task_killReason r);; anscheduler_unlock (killLock t));;
    mret true) (cc_event (su_task t) (cc_end r))) as Hrest.
  { apply once_lock_of; [done..|]. intros v. apply once_rd_task. intros o Ho. unfold cc_event. case_decide as Hk.
    - apply once_unlock_of; [done|]. simpl.
      replace (ct_over v) with true; [done|]. rewrite <- Ho. simpl. by rewrite bool_decide_eq_true_2.
    - apply (once_wr_task _ _ _ _ (mk_counter (ct_count v) true (ct_reason v))); [by intros o2 <-|].
      apply (once_wr_task _ _ _ _ (mk_counter (ct_count v) true r)).
      { intros o2 [= Hc Hk' _]. unfold task_counter. simpl. by rewrite Hc, Hk'. }
      apply once_unlock_of; [done|]. simpl. by rewrite (task_open o v Ho Hk). }
  simpl. case_decide; [|done].
  apply once_early. intros c2 s2 p2 s2' Hs2 [= <- <-] _. split; [done|]. destruct (Hpg s2 Hs2) as [-> Hth].
  apply once_early. intros c3 s3 p3 s3' Hs3 Hf _. simpl in Hf.
  destruct (k_threads s3 !! pager) as [th|] eqn:Ht; [|done]. injection Hf as <- <-. split; [done|].
  destruct (Hpg s3 Hs3) as [_ Hne]. specialize (Hne th Ht).
  simpl. rewrite bool_decide_eq_false_2 by done. exact Hrest.
Qed.

Lemma once_socket_close d r P :
  (∀ s, P s → subject_live (su_desc d) s) →
  once (su_desc d) P before (anscheduler_socket_close d r;; mret true) (cc_event (su_desc d) (cc_end r)).
Proof using Type.
  intros HP. apply once_lock_of; [done..|]. intros v. apply once_rd_desc. intros o Ho. unfold cc_event. case_decide as Hk.
  - apply (once_wr_desc _ _ _ _ (mk_counter (ct_count v) (ct_over v) r)); [by intros o2 <-|].
    apply (once_wr_desc _ _ _ _ (mk_counter (ct_count v) true r)).
    { intros o2 [= Hc _ Hr]. unfold desc_counter. simpl. by rewrite Hc, Hr. }
    apply once_unlock_of; [done|]. simpl. by rewrite (desc_open o v Ho Hk).
  - assert (ct_over v = true) as Hov by (rewrite <- Ho; simpl; by rewrite bool_decide_eq_true_2).
    apply (once_wr_desc _ _ _ _ v).
    { intros o2 Ho2. destruct v as [vc vo vr]. injection Ho2 as H1 H2 H3. simpl in Hov. subst vo.
      unfold desc_counter. simpl. by rewrite H1, H3. }
    apply once_unlock_of; [done|]. simpl. by rewrite Hov.
Qed.

Lemma once_code u op : once u (steady u op pager) before (cc_code u op) (cc_event u op).
Proof using PlatformOk0.
  pose proof (steady_live u op) as HP. destruct u as [t|d], op as [| |r].
  - by apply once_task_reference.
  - by apply once_task_dereference.
  - apply once_task_kill; [done|]. by intros s [_ ?].
  - by apply once_desc_reference.
  - by apply once_desc_dereference.
  - by apply once_socket_close.
Qed.
End calls.

(** ** Correctness *)
Section theorems.
Context `{Platform, !PlatformOk _} (u : subject).

(** The count is closed for good, and so is that of the CPU that holds the lock. *)
Definition ended_at (r : Z) (h : holder) (S : sys) : Prop :=
  (∃ v, counter_of u (sy_mem S) = Some v ∧ ct_over v = true ∧ ct_reason v = r) ∧
  match h with Some (_, w0, _) => ct_over w0 = true | None => True end.

Lemma ended_step r h c kd S S1 :
  sys_ok u h S → ended_at r h S → sys_step c kd S S1 → subject_live u (sy_mem S1) →
  (∃ h1, sys_ok u h1 S1 ∧ ended_at r h1 S1) ∧
  ∀ v, counter_of u (sy_mem S) = Some v → counter_of u (sy_mem S1) = Some v ∨
    kd = k_access ∧ guard_lock u ∈ k_locks (sy_mem S) ∧ counter_of u (sy_mem S1) = apply_event v dropped.
Proof.
  intros Hok ((v & Hv & Ho & Hr) & Hw) Hs Hl.
  destruct (sys_ok_step u h c kd S S1 Hok Hs Hl) as (h1 & Hok1 & Hm).
  destruct Hm as [(Hc & _ & f & -> & _)|(-> & m & m' & -> & -> & Hm)].
  { split; [|intros v' <-; by left]. eexists. split; [exact Hok1|].
    split; [exists v; by rewrite Hc|]. by destruct h as [[[q a] b]|]. }
  destruct m as [[w0 w]|], m' as [[w1 w']|]; simpl in Hm, Hw.
  - destruct Hm as (-> & _ & Hv1 & Hi). destruct (ok_hold _ _ _ Hok) as [Hv' Hlk]. simpl in Hv', Hlk.
    assert (w = v) as -> by congruence. destruct (Hi Hw) as [->|[-> Hd]].
    + split; [|intros v' Hv''; left; congruence]. eexists. split; [exact Hok1|]. split; [by exists v|done].
    + split; [|intros v' Hv''; right; assert (v' = w0) as -> by congruence; by rewrite Hd].
      eexists. split; [exact Hok1|]. injection Hd as Hd. split; [|done]. exists w'. subst w'. by split_and!.
  - destruct Hm as (_ & Hv1 & _). destruct (ok_hold _ _ _ Hok) as [Hv' _]. simpl in Hv'.
    assert (w = v) as -> by congruence. split; [|intros v' Hv''; left; congruence].
    eexists. split; [exact Hok1|]. split; [by exists v|done].
  - destruct Hm as (_ & _ & Hw1 & Hv1 & ->). assert (w1 = v) as -> by congruence.
    split; [|intros v' Hv''; left; congruence]. eexists. split; [exact Hok1|]. split; [by exists v|done].
  - destruct Hm as (Hc & _). split; [|intros v' <-; by left]. eexists. split; [exact Hok1|].
    split; [exists v; by rewrite Hc|done].
Qed.

Lemma ended_steps r S S' :
  sys_steps_while (subject_live u) S S' → ∀ h, sys_ok u h S → ended_at r h S →
  ∃ h', sys_ok u h' S' ∧ ended_at r h' S'.
Proof.
  intros Hsteps. induction Hsteps as [S|S S1 S' (_ & Hl1 & c & kd & Hstep) _ IH]; intros h Hok He; [by exists h|].
  destruct (ended_step r h c kd S S1 Hok He Hstep Hl1) as [(h1 & ? & ?) _]. by apply (IH h1).
Qed.

(** The memories of a trace are those of an execution. *)
Lemma trace_reaches op pager c {A} (p : prog A) S log a S' x :
  call_trace (steady u op pager) c p S log a S' → x ∈ log →
  ∃ S1, sys_steps_while (subject_live u) S S1 ∧ sy_mem S1 = ac_before x.
Proof.
  intros Ht. induction Ht as [a S|p p' S S1 log a S' Hs Hn [HS _] [HS1 _] _ IH|c' kd p S S1 log a S' Hc Hs [HS _] [HS1 _] _ IH].
  - intros Hx. by apply elem_of_nil in Hx.
  - intros [->|Hx]%elem_of_cons; [by exists S|]. destruct (IH Hx) as (S2 & ? & ?). exists S2.
    split; [|done]. eapply rtc_l; [|done]. split; [done|]. split; [done|]. by exists c, k_access.
  - intros [->|Hx]%elem_of_cons; [by exists S|]. destruct (IH Hx) as (S2 & ? & ?). exists S2.
    split; [|done]. eapply rtc_l; [|done]. split; [done|]. split; [done|]. by exists c', kd.
Qed.

Lemma call_atomic S0 S op pager c log a S' :
  all_outside S0 → guard_lock u ∉ k_locks (sy_mem S0) → subject_live u (sy_mem S0) →
  sys_steps_while (subject_live u) S0 S →
  call_trace (steady u op pager) c (cc_code u op) S log a S' → atomically u (cc_event u op a) log.
Proof.
  intros Ho Hn Hl Hsteps Ht.
  destruct (sys_ok_steps u S0 S Hsteps None) as (h & Hok); [by apply sys_ok_outside_all|].
  eapply before_trace; [|exact Ht|apply once_code|exact Hok]. by intros s [? _].
Qed.

(** C1. Reference counts are atomic on every number of CPUs. Take any execution from a
    state in which no CPU is in the scheduler, and in it a call, on any CPU, that asks
    for a reference to a task or a descriptor, gives one up, or kills or closes it, while
    other CPUs run whatever functions they like between its accesses, for as long as the
    structure is not freed. Then the call changes the reference count, the flag that
    ends it and its reason within one stretch of the execution only, in which no other
    CPU changes them, and the stretch as a whole does exactly what the result says: a
    reference that is granted adds 1 (modulo 2^64) to a count that is not closed, one
    that is refused finds it closed and changes nothing; giving up a reference takes 1
    away (nothing, if a descriptor is closed and its count is 0); a kill or a close
    closes an open count with its reason, and leaves a closed one as it is. *)
Theorem reference_counts_are_atomic S0 S op pager c log a S' :
  all_outside S0 → guard_lock u ∉ k_locks (sy_mem S0) → subject_live u (sy_mem S0) →
  sys_steps_while (subject_live u) S0 S →
  call_trace (steady u op pager) c (cc_code u op) S log a S' →
  atomically u (cc_event u op a) log.
Proof. apply call_atomic. Qed.

(** C15. The end is final on every number of CPUs: once a task is killed, or a descriptor
    closed, then in every state that any execution reaches until it is freed, it is
    still ended and the reason is the first one; the next step of any CPU leaves the
    count as it is, or takes 1 away by an access under the lock; and no call that asks
    for a reference from there is granted one, whatever the other CPUs do meanwhile. *)
Theorem end_is_final_on_all_cpus S0 v0 S :
  all_outside S0 → guard_lock u ∉ k_locks (sy_mem S0) → counter_of u (sy_mem S0) = Some v0 →
  subject_live u (sy_mem S0) → ct_over v0 = true → sys_steps_while (subject_live u) S0 S →
  (∃ v, counter_of u (sy_mem S) = Some v ∧ ct_over v = true ∧ ct_reason v = ct_reason v0 ∧
    ∀ c kd S1, sys_step c kd S S1 → subject_live u (sy_mem S1) →
      counter_of u (sy_mem S1) = Some v ∨
      kd = k_access ∧ guard_lock u ∈ k_locks (sy_mem S) ∧
        counter_of u (sy_mem S1) = apply_event v dropped) ∧
  ∀ c log a S', call_trace (steady u cc_reference NULL) c (cc_code u cc_reference) S log a S' → a = false.
Proof.
  intros Ho Hn Hv0 Hl Hover Hsteps.
  assert (sys_ok u None S0) as Hok0 by (by apply sys_ok_outside_all).
  assert (ended_at (ct_reason v0) None S0) as He0 by (split; [by exists v0|done]).
  destruct (ended_steps _ _ _ Hsteps None Hok0 He0) as (h & Hok & He). split.
  - pose proof He as ((v & Hv & Hov & Hr) & _). exists v. split_and!; [done..|].
    intros c kd S1 Hs Hl1. by apply (ended_step _ _ _ _ _ _ Hok He Hs Hl1).
  - intros c log [] S' Ht; [exfalso|done].
    pose proof (call_atomic _ _ _ _ _ _ _ _ Ho Hn Hl Hsteps Ht) as
      (pre & mid & post & w0 & w & -> & _ & _ & _ & (x & Hx & Hw) & _ & Hev).
    destruct (trace_reaches _ _ _ _ _ _ _ _ x Ht) as (S1 & Hsteps1 & Hmem).
    { apply head_Some_elem_of in Hx. set_solver. }
    destruct (ended_steps _ _ _ Hsteps1 h Hok He) as (h1 & _ & (v & Hv & Hov & _) & _).
    rewrite Hmem in Hv. assert (w0 = v) as -> by congruence. simpl in Hev. by rewrite Hov in Hev.
Qed.
End theorems.

(** ** Witnesses *)

Section drive_call.
Context `{Platform} (u : subject) (c : nat) {B : Type} (f : bool → prog B) (g : B → prog ()).

(** CPU [c] is in the call [p] of a function; [sched] says which CPU makes the next
    access. *)
Fixpoint drive_call (p : prog bool) (sched : list (nat * entry)) (S : sys) : option (list access * bool * sys) :=
  match p, sched with
  | Ret a, _ => Some ([], a, S)
  | Act _ _, (c', e) :: sched =>
      '(own, p1, S1) ←
        (if decide (c' = c) then
           match next_step c p (sy_mem S) with
           | moved p' s' => Some (true, p', mk_sys s' (on_cpu c ((p' ≫= f) ≫= g) (sy_code S)) (sy_saved S))
           | _ => None
           end
         else '(_, S1) ← sys_go c' e S; Some (false, p, S1));
      if decide (subject_live u (sy_mem S) ∧ subject_live u (sy_mem S1)) then
        '(log, a, S') ← drive_call p1 sched S1;
        Some (mk_access own (sy_mem S) (sy_mem S1) :: log, a, S')
      else None
  | _, _ => None
  end.

Lemma sys_go_code c' e S kd S1 : sys_go c' e S = Some (kd, S1) → c' ≠ c → sy_code S1 c = sy_code S c.
Proof.
  unfold sys_go. destruct (next_step c' _ _) as [| | | | |]; try done.
  - intros [= <- <-] Hc. simpl. unfold on_cpu. by rewrite decide_False.
  - destruct a. case_decide; intros [= <- <-] Hc; simpl; [|done]. unfold on_cpu. by rewrite decide_False.
Qed.

Lemma drive_call_trace pager sched : ∀ p S log a S',
  sy_code S c = (p ≫= f) ≫= g → drive_call p sched S = Some (log, a, S') →
  call_trace (steady u cc_reference pager) c p S log a S'.
Proof.
  assert (∀ s, subject_live u s → steady u cc_reference pager s) as HP by (intros s Hs; split; [done|by destruct u]).
  induction sched as [|[c' e] sched IH]; intros p S log a S' Hcode Hd.
  { destruct p; try done. injection Hd as <- <- <-. apply ct_return. }
  destruct p as [a'|R h kk|X Y body x kk|th body kk|l]; try done.
  { injection Hd as <- <- <-. apply ct_return. }
  cbn [drive_call] in Hd. case_decide as Hc.
  - subst c'. destruct (next_step c (Act h kk) (sy_mem S)) as [p' s'| | | | |] eqn:Hn; try done.
    cbv beta iota delta [mbind option_bind] in Hd. case_decide as Hl; [|done]. destruct Hl as [Hl Hl1].
    destruct (drive_call p' sched _) as [[[log1 a1] S2]|] eqn:Hd1; [|done]. injection Hd as <- <- <-.
    apply (ct_own (steady u cc_reference pager) c (Act h kk) p' S
      (mk_sys s' (on_cpu c ((p' ≫= f) ≫= g) (sy_code S)) (sy_saved S)) log1 a1 S2); [|done|auto..|].
    + apply sys_access. rewrite Hcode. simpl in Hn |- *. destruct (h c (sy_mem S)); [|done..]. by injection Hn as <- <-.
    + apply IH; [|done]. simpl. unfold on_cpu. by rewrite decide_True.
  - destruct (sys_go c' e S) as [[kd S1]|] eqn:Hgo; [|done].
    cbv beta iota delta [mbind option_bind] in Hd. case_decide as Hl; [|done].
    destruct Hl as [Hl Hl1].
    destruct (drive_call (Act h kk) sched S1) as [[[log1 a1] S2]|] eqn:Hd1; [|done]. injection Hd as <- <- <-.
    apply (ct_other (steady u cc_reference pager) c c' kd (Act h kk) S S1 log1 a1 S2); auto.
    + by eapply sys_go_step.
    + apply IH; [|done]. by rewrite (sys_go_code _ _ _ _ _ Hgo).
Qed.
End drive_call.

(** Does the call return [b], after steps of others? *)
Definition returns_after_others (b : bool) (r : option (list access * bool * sys)) : bool :=
  match r with
  | Some (log, a, _) => bool_decide (a = b) && existsb (λ x, negb (ac_own x)) log
  | None => false
  end.

(** CPU [c] calls [e]. *)
Definition calling `{Platform} (u : subject) (c : nat) (e : entry) (S0 : sys) : option sys :=
  match sys_go c e S0 with
  | Some (k_call _, S1) =>
      if decide (subject_live u (sy_mem S0) ∧ subject_live u (sy_mem S1)) then Some S1 else None
  | _ => None
  end.

Lemma calling_step `{Platform} u c e S0 S1 :
  calling u c e S0 = Some S1 → sys_steps_while (subject_live u) S0 S1 ∧ sy_code S1 c = serve e.
Proof.
  unfold calling. destruct (sys_go c e S0) as [[kd S2]|] eqn:Hgo; [|done].
  pose proof (sys_go_step _ _ _ _ _ Hgo) as Hs. destruct kd; try done. case_decide as Hl; [|done].
  intros [= <-]. destruct Hl. split; [apply rtc_once; split_and!; [done..|by exists c, (k_call e0)]|].
  unfold sys_go in Hgo. destruct (next_step c (sy_code S0 c) (sy_mem S0)) as [|[]| | | |]; try done.
  case_decide; [|done]. injection Hgo as _ <-. simpl. unfold on_cpu. by rewrite decide_True.
Qed.

Lemma drive_call_returns `{Platform} u c e pager b {B} (f : bool → prog B) (g : B → prog ()) p S0 sched0 sched :
  serve e = (p ≫= f) ≫= g →
  match drive u sched0 S0 ≫= calling u c e with
  | Some S1 => returns_after_others b (drive_call u c f g p sched S1)
  | None => false
  end = true →
  ∃ S log S', sys_steps_while (subject_live u) S0 S ∧
    call_trace (steady u cc_reference pager) c p S log b S' ∧ existsb (λ x, negb (ac_own x)) log = true.
Proof.
  intros Hcode Hd. destruct (drive u sched0 S0) as [S1|] eqn:Hs; [|done].
  cbv beta iota delta [mbind option_bind] in Hd.
  destruct (calling u c e S1) as [S2|] eqn:Hcall; [|done]. apply calling_step in Hcall as [Hcall Hc].
  destruct (drive_call u c f g p sched S2) as [[[log a] S']|] eqn:Hdc; [|done].
  simpl in Hd. apply andb_true_iff in Hd as [->%bool_decide_eq_true Hx].
  exists S2, log, S'. split; [|split; [|done]].
  - etrans; [by eapply drive_steps|done].
  - eapply drive_call_trace; [|exact Hdc]. by rewrite Hc.
Qed.

(** CPU 0 asks for a reference to task 0x10000 while CPU 1 kills it: the accesses of the
    call alternate with the other CPU's. *)
Definition ref_entry : nat * entry := (0%nat, task_h (e_task_reference 0x10000)).
Definition kill_entry : nat * entry := (1%nat, task_h (e_task_kill 0x10000 2)).
Definition ref_start : list (nat * entry) := [kill_entry].
Definition ref_race : list (nat * entry) :=
  [ref_entry; kill_entry; ref_entry; ref_entry; ref_entry; ref_entry].

Lemma reference_counts_are_atomic_witness :
  ∃ S log S', call_trace (H := P0) (steady (su_task 0x10000) cc_reference NULL) 0
      (anscheduler_task_reference 0x10000) S log true S' ∧
    existsb (λ x, negb (ac_own x)) log = true ∧
    atomically (su_task 0x10000) (λ v0 v, apply_event v0 granted = Some v) log.
Proof.
  destruct (drive_call_returns (H := P0) (su_task 0x10000) 0 (e_task_reference 0x10000) NULL true (λ _, mret ()) (λ _, mret ())
    (anscheduler_task_reference 0x10000) (demo_sys (demo 0 2)) ref_start ref_race)
    as (S & log & S' & Hsteps & Ht & Hx).
  - reflexivity.
  - by vm_compute.
  - exists S, log, S'. split; [exact Ht|]. split; [exact Hx|].
    apply (reference_counts_are_atomic (H := P0) (su_task 0x10000) (demo_sys (demo 0 2)) S cc_reference
      NULL 0 log true S').
    + apply demo_sys_outside.
    + by_dec.
    + by_dec.
    + exact Hsteps.
    + exact Ht.
Defined.

(** CPU 1 gives up a reference to a killed task while CPU 0 asks for one. *)
Definition drop_entry : nat * entry := (1%nat, task_h (e_task_dereference 0x10000)).
Definition late_start : list (nat * entry) := [drop_entry; drop_entry; drop_entry].
Definition late_reference : list (nat * entry) :=
  [drop_entry; drop_entry; ref_entry; ref_entry; ref_entry].

Lemma end_is_final_on_all_cpus_witness :
  ∃ S v log S', counter_of (su_task 0x10000) (sy_mem S) = Some v ∧ ct_over v = true ∧ ct_reason v = 0 ∧
    call_trace (H := P0) (steady (su_task 0x10000) cc_reference NULL) 0
      (anscheduler_task_reference 0x10000) S log false S' ∧
    ∀ S2, ¬ call_trace (H := P0) (steady (su_task 0x10000) cc_reference NULL) 0
      (anscheduler_task_reference 0x10000) S log true S2.
Proof.
  destruct (drive_call_returns (H := P0) (su_task 0x10000) 0 (e_task_reference 0x10000) NULL false (λ _, mret ()) (λ _, mret ())
    (anscheduler_task_reference 0x10000) (demo_sys (demo 1 2)) late_start late_reference)
    as (S & log & S' & Hsteps & Ht & Hx).
  - reflexivity.
  - by vm_compute.
  - destruct (end_is_final_on_all_cpus (H := P0) (su_task 0x10000) (demo_sys (demo 1 2))
      (mk_counter 2 true 0) S) as [(v & Hv & Ho & Hr & _) Href].
    + apply demo_sys_outside.
    + by_dec.
    + reflexivity.
    + by_dec.
    + done.
    + exact Hsteps.
    + exists S, v, log, S'. split_and!; try done. intros S2 Ht2. by specialize (Href 0%nat log true S2 Ht2).
Defined.
