(* ===== verification/Order.v ===== *)
(** * Order: locks are taken in one order, inside critical sections

    Locks have ranks, and code that holds locks waits only for locks of higher rank.
    Locks are taken and held inside critical sections only. [climb H p Q]: code that
    is outside a critical section ([H] is [None]), or inside one with the locks [L]
    ([H] is [Some L]), keeps to this in [p], gives locks up in the reverse of the order
    it took them, never enters a critical section twice or leaves one that it is not
    in, gives the CPU to another thread only inside a critical section and without
    locks (or with one of [Strays]), and changes a static variable of the program only while it holds the lock
    that guards it. *)
From S2P Require Import Prelude Types Machine.

(** ** Ranks *)

(** The last locks taken: [killLock], [closeLock] and [descriptorsLock], under which
    nothing is locked. Before them the queue and the two notification locks, under
    which a task is referenced; before them everything else. *)
Definition rank (l : lock_id) : nat :=
  match l with
  | killLock _ | closeLock _ | descriptorsLock _ => 2
  | loopLock | intdLock | pagerLock => 1
  | _ => 0
  end.

(** All locks held have a rank below [n]. *)
Definition below (n : nat) (L : list lock_id) : Prop := Forall (λ l, (rank l < n)%nat) L.

(** Outside critical sections, or inside one with these locks, the last one taken
    first. *)
Definition held : Type := option (list lock_id).

Definition inside (H : held) : bool := bool_decide (is_Some H).

(** Other CPUs' critical sections are as before, and [c]'s is [b]. *)
Definition sections (c : nat) (b : bool) (s s' : kst) : Prop :=
  cpu_locked (k_cpus s' c) = b ∧ ∀ c', c' ≠ c → cpu_locked (k_cpus s' c') = cpu_locked (k_cpus s c').

(** The static variables of src/ that a lock guards are as before. *)
Definition guarded_same (l : lock_id) (s s' : kst) : Prop :=
  match l with
  | loopLock => k_loop s' = k_loop s
  | pmLock => pidHashmap (k_pid s') = pidHashmap (k_pid s)
  | ppLock => pidPool (k_pid s') = pidPool (k_pid s) ∧ ppInitialized (k_pid s') = ppInitialized (k_pid s)
  | pagerLock => firstFault (k_pager s') = firstFault (k_pager s) ∧ lastFault (k_pager s') = lastFault (k_pager s)
  | intdLock => k_intd s' = k_intd s
  | _ => True
  end.

(** Only variables that the locks [L] guard have changed. *)
Definition statics_kept (L : list lock_id) (s s' : kst) : Prop := ∀ l, l ∈ L ∨ guarded_same l s s'.

(** What an access of CPU [c] does to its critical section, to the locks its code
    holds and to static variables. Outside, code takes no lock, allocates nothing and
    leaves the CPU's context and timer and all static variables alone. *)
Inductive lock_move (c : nat) (s s' : kst) : held → held → Prop :=
  | move_outside :
      k_locks s' = k_locks s → k_cpus s' = k_cpus s → k_nallocs s' = k_nallocs s →
      statics_kept [] s s' → lock_move c s s' None None
  | move_none L :
      k_locks s' = k_locks s → sections c true s s' → statics_kept L s s' →
      lock_move c s s' (Some L) (Some L)
  | move_take L l :
      l ∉ k_locks s → k_locks s' = {[l]} ∪ k_locks s → sections c true s s' →
      statics_kept [] s s' → lock_move c s s' (Some L) (Some (l :: L))
  | move_give L l :
      k_locks s' = k_locks s ∖ {[l]} → sections c true s s' → statics_kept [] s s' →
      lock_move c s s' (Some (l :: L)) (Some L)
  | move_enter :
      k_locks s' = k_locks s → sections c true s s' → statics_kept [] s s' →
      lock_move c s s' None (Some [])
  | move_leave :
      k_locks s' = k_locks s → sections c false s s' → statics_kept [] s s' →
      lock_move c s s' (Some []) None.

(** Which locks code may hold when it saves its state. [_free_task_method] saves its
    state with the lock on the sockets of its task held; everything else keeps to the
    discipline when there are none. *)
Class Strays := stray : lock_id → Prop.

Section discipline.
Context {ST : Strays}.

Definition saved_with (H : held) : Prop := H = Some [] ∨ ∃ l, stray l ∧ H = Some [l].

Fixpoint climb {A} (H : held) (p : prog A) (Q : A → held → Prop) {struct p} : Prop :=
  match p with
  | Ret a => Q a H
  | Act f k => ∀ c s, cpu_locked (k_cpus s c) = inside H →
      match f c s with
      | a_ok r s' => ∃ H', lock_move c s s' H H' ∧ climb H' (k r) Q
      | a_wait l => ∃ L, H = Some L ∧ below (rank l) L ∧ l ∈ k_locks s
      | a_ub e => e ≠ bad_critical
      end
  | Loop body x k => ∃ I : _ → held → Prop, I x H ∧
      ∀ x H, I x H → climb H (body x)
        (λ y H', match y with inl x' => I x' H' | inr b => climb H' (k b) Q end)
  | Save _ body k => saved_with H ∧ climb (Some []) body (λ _ _, True) ∧ climb (Some []) k Q
  | Leave (leave_run _ _) => H = Some []
  | Leave leave_idle => H = None
  | Leave (leave_abort _) => True
  end.

Definition same {A} (H : held) (_ : A) (H' : held) : Prop := H' = H.

(** Code that may be called with locks of rank below [n] held, and holds the same
    ones when it returns. *)
Definition polite (n : nat) {A} (p : prog A) : Prop := ∀ L, below n L → climb (Some L) p (same (Some L)).

(** Code that must be called without locks. *)
Definition tidy {A} (p : prog A) : Prop := climb (Some []) p (same (Some [])).

(** Code that must be called outside critical sections. *)
Definition loose {A} (p : prog A) : Prop := climb None p (same None).

(** ** Lemmas *)

Lemma below_mono n m L : below n L → (n ≤ m)%nat → below m L.
Proof. intros Hb Hm. eapply Forall_impl; [exact Hb|]. simpl. lia. Qed.

Lemma climb_mono {A} (p : prog A) : ∀ H (Q Q' : A → held → Prop),
  climb H p Q → (∀ a H, Q a H → Q' a H) → climb H p Q'.
Proof.
  induction p as [A a|A R f k IH|A X B body IHb x k IH|A th body IHb k IH|A l];
    intros H Q Q' Hp HQ; simpl in *; [auto| | | |by destruct l].
  - intros c s Hc. specialize (Hp c s Hc). destruct (f c s); [|done..].
    destruct Hp as (H' & ? & ?). exists H'. eauto.
  - destruct Hp as (I & HI & Hb). exists I. split; [done|]. intros x' H' Hx'.
    eapply IHb; [by apply Hb|]. intros [x2|b] H2; eauto.
  - naive_solver.
Qed.

Lemma climb_bind {A B} (p : prog A) : ∀ (f : A → prog B) H Q,
  climb H p (λ a H', climb H' (f a) Q) → climb H (p ≫= f) Q.
Proof.
  induction p as [A a|A R g k IH|A X Y body IHb x k IH|A th body IHb k IH|A l];
    intros f H Q Hp; [done| | | |by destruct l].
  - intros c s Hc. specialize (Hp c s Hc). simpl in *. destruct (g c s); [|done..].
    destruct Hp as (H' & ? & ?). exists H'. split; [done|]. by apply IH.
  - destruct Hp as (I & HI & Hb). exists I. split; [done|]. intros x' H' Hx'.
    eapply climb_mono; [by apply Hb|]. intros [x2|b] H2; [done|]. apply IH.
  - destruct Hp as (? & ? & ?). split; [done|]. split; [done|]. by apply IH.
Qed.

(** Code that ends with the locks it began with, followed by other code. *)
Lemma climb_seq {A B} (p : prog A) (f : A → prog B) H Q :
  climb H p (same H) → (∀ a, climb H (f a) Q) → climb H (p ≫= f) Q.
Proof. intros Hp Hf. apply climb_bind. eapply climb_mono; [exact Hp|]. by intros a H' ->. Qed.

Lemma statics_same L s s' : (∀ l, guarded_same l s s') → statics_kept L s s'.
Proof. intros Hs l. by right. Qed.

Lemma sections_same c b s s' :
  cpu_locked (k_cpus s c) = b → (∀ c', cpu_locked (k_cpus s' c') = cpu_locked (k_cpus s c')) →
  sections c b s s'.
Proof. intros <- Hs. by split. Qed.

Lemma sections_upd c b s : sections c b s (upd_cpu c (set_cpu_locked b) s).
Proof. split; simpl; [by rewrite decide_True|]. intros c' Hc. by rewrite decide_False. Qed.

(** A last access, given a continuation. *)
Lemma climb_end {A} (p : prog A) : ∀ H Q, climb H (p ≫= mret) Q → climb H p Q.
Proof.
  induction p as [A a|A R f k IH|A X B body IHb x k IH|A th body IHb k IH|A l];
    intros H Q Hp; [done| | | |by destruct l].
  - intros c s Hc. specialize (Hp c s Hc). simpl in *. destruct (f c s); [|done..].
    destruct Hp as (H' & ? & ?). exists H'. split; [done|]. by apply IH.
  - destruct Hp as (I & HI & Hb). exists I. split; [done|]. intros x' H' Hx'.
    eapply climb_mono; [by apply Hb|]. intros [x2|b] H2; [done|]. apply IH.
  - destruct Hp as (? & ? & ?). split; [done|]. split; [done|]. by apply IH.
Qed.

Lemma climb_lock l {B} (k : () → prog B) L Q :
  below (rank l) L → climb (Some (l :: L)) (k ()) Q → climb (Some L) (anscheduler_lock l ≫= k) Q.
Proof.
  intros Hb Hk c s Hc. simpl. destruct (lock_live s l); [|done]. case_decide; [by exists L|].
  exists (Some (l :: L)). split; [|done].
  apply move_take; [done|done|by apply sections_same|by apply statics_same; intros []].
Qed.

Lemma climb_unlock l {B} (k : () → prog B) L Q :
  climb (Some L) (k ()) Q → climb (Some (l :: L)) (anscheduler_unlock l ≫= k) Q.
Proof.
  intros Hk c s Hc. simpl. case_decide; [|done]. exists (Some L). split; [|done].
  apply move_give; [done|by apply sections_same|by apply statics_same; intros []].
Qed.

Lemma climb_unlock_end l L (Q : () → held → Prop) :
  Q () (Some L) → climb (Some (l :: L)) (anscheduler_unlock l) Q.
Proof. intros HQ. apply climb_end. by apply climb_unlock. Qed.

(** Entering and leaving a critical section. *)
Lemma climb_enter {B} (k : () → prog B) Q :
  climb (Some []) (k ()) Q → climb None (anscheduler_cpu_lock ≫= k) Q.
Proof.
  intros Hk c s Hc. simpl. change (inside None) with false in Hc. rewrite Hc.
  exists (Some []). split; [|done].
  apply move_enter; [done|apply sections_upd|by apply statics_same; intros []].
Qed.

Lemma climb_leave {B} (k : () → prog B) Q :
  climb None (k ()) Q → climb (Some []) (anscheduler_cpu_unlock ≫= k) Q.
Proof.
  intros Hk c s Hc. simpl. change (inside (Some [])) with true in Hc. rewrite Hc.
  exists None. split; [|done].
  apply move_leave; [done|apply sections_upd|by apply statics_same; intros []].
Qed.

Lemma climb_enter_end (Q : () → held → Prop) : Q () (Some []) → climb None anscheduler_cpu_lock Q.
Proof. intros HQ. apply climb_end. by apply climb_enter. Qed.
Lemma climb_leave_end (Q : () → held → Prop) : Q () None → climb (Some []) anscheduler_cpu_unlock Q.
Proof. intros HQ. apply climb_end. by apply climb_leave. Qed.

Lemma climb_ret {A} (a : A) H : climb H (mret a) (same H).
Proof. done. Qed.

Lemma climb_while {X B} (x : X) (body : X → prog (X + B)) H :
  (∀ x, climb H (body x) (same H)) → climb H (while_ x body) (same H).
Proof.
  intros Hb. exists (λ _ H', H' = H). split; [done|]. intros x' H' ->.
  eapply climb_mono; [apply Hb|]. by intros [?|?] H' ->.
Qed.

(** A loop that gives up a lock when it ends. *)
Lemma climb_while_end {X B} (x : X) (body : X → prog (X + B)) H H0 :
  (∀ x, climb H (body x) (λ y H', match y with inl _ => H' = H | inr _ => H' = H0 end)) →
  climb H (while_ x body) (same H0).
Proof. intros Hb. exists (λ _ H', H' = H). split; [done|]. by intros x' H' ->. Qed.

Lemma climb_for {R} count (body : Z → prog (option R)) H :
  (∀ i, climb H (body i) (same H)) → ∀ i, climb H (for_ count i body) (same H).
Proof.
  intros Hb. induction count as [|k IH]; intros i; [apply climb_ret|].
  change (climb H (r ← body i; match r with Some _ => mret r | None => for_ k (i + 1) body end) (same H)).
  apply climb_seq; [done|]. intros [r|]; [apply climb_ret|apply IH].
Qed.

Lemma climb_for_each count (body : Z → prog ()) H :
  (∀ i, climb H (body i) (same H)) → ∀ i, climb H (for_each count i body) (same H).
Proof.
  intros Hb. induction count as [|k IH]; intros i; [apply climb_ret|].
  change (climb H (body i;; for_each k (i + 1) body) (same H)). by apply climb_seq.
Qed.

Lemma climb_stack_run {A} (p : prog Empty_set) Q :
  tidy p → climb (A := A) (Some []) (anscheduler_cpu_stack_run p) Q.
Proof. intros Hp. apply climb_seq; [done|intros []]. Qed.

Lemma climb_save th (body : prog Empty_set) :
  tidy body → climb (Some []) (anscheduler_save_return_state th body) (same (Some [])).
Proof. intros Hb. split; [by left|]. split; [|done]. by eapply climb_mono. Qed.

(** A function that does not return ends as one likes. *)
Lemma climb_no_return H (p : prog Empty_set) Q : climb H p (same H) → climb H p Q.
Proof. intros Hp. eapply climb_mono; [exact Hp|]. by intros []. Qed.

Lemma climb_abort {A} msg H Q : climb (A := A) H (anscheduler_abort msg) Q.
Proof. done. Qed.
Lemma climb_thread_run {A} task thread Q : climb (A := A) (Some []) (anscheduler_thread_run task thread) Q.
Proof. done. Qed.
Lemma climb_idle {A} Q : climb (A := A) None (Leave leave_idle) Q.
Proof. done. Qed.

(** *** Accesses that take no lock

    [Anywhere]: accesses that may be made outside critical sections too. [Inside]:
    those that functions.h allows inside only. *)

Class Anywhere {A} (p : prog A) : Prop := anywhere H : climb H p (same H).

Class Inside {A} (p : prog A) : Prop := stays_inside L : climb (Some L) p (same (Some L)).

#[export] Instance anywhere_inside {A} (p : prog A) : Anywhere p → Inside p.
Proof. intros Hp L. apply Hp. Qed.

Lemma inside_act {R} (f : nat → kst → aresult R) :
  (∀ c s, match f c s with
    | a_ok _ s' => k_locks s' = k_locks s ∧ (∀ l, guarded_same l s s') ∧
        ∀ c', cpu_locked (k_cpus s' c') = cpu_locked (k_cpus s c')
    | a_wait _ => False | a_ub e => e ≠ bad_critical end) →
  Inside (act f).
Proof.
  intros Hf L c s Hc. specialize (Hf c s). simpl. destruct (f c s); [|done..].
  destruct Hf as (Hl & Hu & Hcp). exists (Some L). split; [|done].
  apply move_none; [done|by apply sections_same|by apply statics_same].
Qed.

Lemma anywhere_act {R} (f : nat → kst → aresult R) :
  (∀ c s, match f c s with
    | a_ok _ s' => k_locks s' = k_locks s ∧ k_cpus s' = k_cpus s ∧ k_nallocs s' = k_nallocs s ∧
        ∀ l, guarded_same l s s'
    | a_wait _ => False | a_ub e => e ≠ bad_critical end) →
  Anywhere (act f).
Proof.
  intros Hf [L|].
  - apply inside_act. intros c s. specialize (Hf c s). destruct (f c s); [|done..].
    destruct Hf as (? & -> & _ & ?). by split.
  - intros c s Hc. specialize (Hf c s). simpl. destruct (f c s); [|done..].
    destruct Hf as (? & ? & ? & ?). exists None. split; [|done].
    apply move_outside; [done..|by apply statics_same].
Qed.

End discipline.
#[export] Hint Mode Anywhere - + ! : typeclass_instances.
#[export] Hint Mode Inside - + ! : typeclass_instances.

(** The heaps hold no locks, no CPU's context and no static variables. *)
Class Heap (T : Type) `{HeapOf T} := heap_apart h s :
  k_locks (set_heap h s) = k_locks s ∧ k_cpus (set_heap h s) = k_cpus s ∧
  k_nallocs (set_heap h s) = k_nallocs s ∧ ∀ l, guarded_same l s (set_heap h s).
Ltac apart := intros h s; split_and!; [done..|by intros []].
#[export] Instance apart_task : Heap task_t. Proof. apart. Qed.
#[export] Instance apart_thread : Heap thread_t. Proof. apart. Qed.
#[export] Instance apart_socket : Heap socket_t. Proof. apart. Qed.
#[export] Instance apart_desc : Heap socket_desc_t. Proof. apart. Qed.
#[export] Instance apart_msg : Heap socket_msg_t. Proof. apart. Qed.
#[export] Instance apart_fault : Heap page_fault_t. Proof. apart. Qed.
#[export] Instance apart_info : Heap msginfo_t. Proof. apart. Qed.
#[export] Instance apart_node : Heap anidxset_node_t. Proof. apart. Qed.

Ltac anywhere := intros; apply anywhere_act; intros c s; simpl;
  repeat case_match; simplify_eq;
  first [done | by apply heap_apart | split_and!; [done..|by intros []]].
Ltac stays_inside := intros; apply inside_act; intros c s; simpl;
  repeat case_match; simplify_eq; try done;
  try (split; [done|]; split; [by intros []|]; intros; simpl; try done; by case_decide; subst).

Section accesses.
Context {ST : Strays}.

#[export] Instance anywhere_gget {R} (f : kst → R) : Anywhere (gget f). Proof. anywhere. Qed.
#[export] Instance anywhere_rd {T R} `{HeapOf T} p (f : T → R) : Anywhere (rd p f). Proof. anywhere. Qed.
#[export] Instance anywhere_wr {T} `{Heap T} p (g : T → T) : Anywhere (wr p g). Proof. anywhere. Qed.
#[export] Instance anywhere_rmw {T R} `{Heap T} p (f : T → R) (g : T → T) : Anywhere (rmw p f g).
Proof. anywhere. Qed.
#[export] Instance anywhere_zero_as {T} `{Heap T} p (o : T) : Anywhere (zero_as p o). Proof. anywhere. Qed.
#[export] Instance anywhere_index l i : Anywhere (index l i). Proof. anywhere. Qed.
#[export] Instance anywhere_check_index i len : Anywhere (check_index i len). Proof. anywhere. Qed.
#[export] Instance anywhere_set_state th stack ip arg : Anywhere (anscheduler_set_state th stack ip arg).
Proof. anywhere. Qed.
#[export] Instance anywhere_vm_unmap_all root : Anywhere (vm_unmap_all root). Proof. anywhere. Qed.
#[export] Instance anywhere_cleanup t : Anywhere (anscheduler_task_cleanup t). Proof. anywhere. Qed.
#[export] Instance anywhere_get_time : Anywhere anscheduler_get_time. Proof. anywhere. Qed.
#[export] Instance anywhere_ret {A} (a : A) : Anywhere (mret a). Proof. intros H. done. Qed.

#[export] Instance inside_get_task : Inside anscheduler_cpu_get_task. Proof. stays_inside. Qed.
#[export] Instance inside_get_thread : Inside anscheduler_cpu_get_thread. Proof. stays_inside. Qed.
#[export] Instance inside_set_task t : Inside (anscheduler_cpu_set_task t). Proof. stays_inside. Qed.
#[export] Instance inside_set_thread t : Inside (anscheduler_cpu_set_thread t). Proof. stays_inside. Qed.
#[export] Instance inside_timer_set t : Inside (anscheduler_timer_set t). Proof. stays_inside. Qed.
#[export] Instance inside_free p : Inside (anscheduler_free p). Proof. stays_inside. Qed.
#[export] Instance inside_vm_unmap root vpage : Inside (anscheduler_vm_unmap root vpage). Proof. stays_inside. Qed.
#[export] Instance inside_vm_lookup root vpage : Inside (anscheduler_vm_lookup root vpage). Proof. stays_inside. Qed.
#[export] Instance inside_vm_root_free root : Inside (anscheduler_vm_root_free root). Proof. stays_inside. Qed.
#[export] Instance inside_notify t : Inside (anscheduler_cpu_notify_invlpg t). Proof. stays_inside. Qed.

Lemma anywhere_gset g :
  (∀ s, k_locks (g s) = k_locks s ∧ k_cpus (g s) = k_cpus s ∧ k_nallocs (g s) = k_nallocs s) →
  (∀ l s, guarded_same l s (g s)) → Anywhere (gset_ g).
Proof. intros Hg Hu. apply anywhere_act. intros c s. destruct (Hg s) as (? & ? & ?). by split_and!. Qed.

(** *** Accesses to static variables

    [Guarded p C]: accesses that may be made inside critical sections under locks that
    satisfy [C]. *)

Class Guarded {A} (p : prog A) (C : list lock_id → Prop) : Prop :=
  guarded L : C L → climb (Some L) p (same (Some L)).

(** Locks that include [l]. *)
Definition with_lock (l : lock_id) (L : list lock_id) : Prop := l ∈ L.

Lemma guarded_act {R} C (f : nat → kst → aresult R) :
  (∀ L c s, C L → match f c s with
    | a_ok _ s' => k_locks s' = k_locks s ∧ k_cpus s' = k_cpus s ∧ statics_kept L s s'
    | a_wait _ => False | a_ub e => e ≠ bad_critical end) →
  Guarded (act f) C.
Proof.
  intros Hf L HL c s Hc. specialize (Hf L c s HL). simpl. destruct (f c s); [|done..].
  destruct Hf as (Hl & Hcp & Hs). exists (Some L). split; [|done].
  apply move_none; [done| |done]. apply sections_same; [done|by rewrite Hcp].
Qed.

Lemma climb_gset L g :
  (∀ s, k_locks (g s) = k_locks s ∧ k_cpus (g s) = k_cpus s) → (∀ s, statics_kept L s (g s)) →
  climb (Some L) (gset_ g) (same (Some L)).
Proof.
  intros Hg Hs. apply (guarded_act (λ L', L' = L)); [|done]. intros L' c s ->.
  destruct (Hg s). by split_and!.
Qed.

Section alloc.
Context `{Platform}.
#[export] Instance inside_alloc size : Inside (anscheduler_alloc size). Proof. stays_inside. Qed.
#[export] Instance inside_alloc_as {T} `{Heap T} (junk : Z → T) size : Inside (alloc_as junk size).
Proof.
  apply inside_act. intros c s. simpl. case_decide; [split; [done|split; [by intros []|done]]|].
  destruct (heap_apart (<[plat_alloc (k_nallocs s) (k_live s) size := junk (plat_alloc (k_nallocs s) (k_live s) size)]>
    (heap (alloc_step size s))) (alloc_step size s)) as (-> & -> & _ & Hu). split; [done|]. split; [|done].
  intros l. specialize (Hu l). by destruct l.
Qed.
#[export] Instance inside_vm_root_alloc : Inside anscheduler_vm_root_alloc. Proof. stays_inside. Qed.
#[export] Instance inside_vm_map root vpage dpage flags : Inside (anscheduler_vm_map root vpage dpage flags).
Proof. stays_inside. Qed.
#[export] Instance anywhere_second_length : Anywhere anscheduler_second_length. Proof. intros H'. done. Qed.
End alloc.

(** A counted loop that gives up a lock when it leaves early. *)
Lemma climb_for_end {R} count (body : Z → prog (option R)) H H0 (Q : option R → held → Prop) :
  (∀ i, climb H (body i) (λ r H', match r with None => H' = H | Some _ => H' = H0 end)) →
  (∀ r H', match r with None => H' = H | Some _ => H' = H0 end → Q r H') →
  ∀ i, climb H (for_ count i body) Q.
Proof.
  intros Hb HQ. induction count as [|k IH]; intros i; [by apply HQ|].
  change (climb H (r ← body i; match r with Some _ => mret r | None => for_ k (i + 1) body end) Q).
  apply climb_bind. eapply climb_mono; [apply Hb|]. intros [r|] H' ->; [by apply HQ|apply IH].
Qed.

End accesses.
#[export] Hint Mode Guarded - + ! - : typeclass_instances.

(** ** Automation

    [by_inside], [by_polite], [by_tidy] and [by_loose] follow the text of an operation
    with the list of locks held, down to its accesses and to calls of known
    operations. *)

Create HintDb order discriminated.

Lemma polite_call {ST : Strays} n {A} (p : prog A) L : polite n p → below n L → climb (Some L) p (same (Some L)).
Proof. auto. Qed.

Ltac order_side :=
  unfold below;
  repeat first [apply Forall_nil_2 | apply Forall_cons_2; [simpl; lia|]];
  try (eapply below_mono; [eassumption|simpl; lia]).

(** Membership of a lock in the list of locks held. *)
Ltac is_held := unfold with_lock; solve [repeat first
  [ assumption | apply list_elem_of_here | apply list_elem_of_further ]].

Ltac statics_side :=
  let s := fresh "s" in let l := fresh "l" in
  intros s l; destruct l; first [by right | left; is_held].

Ltac order_step :=
  match goal with
  | |- ∀ _, _ => intros ?
  | |- climb (Some _) (anscheduler_lock _ ≫= _) _ => apply climb_lock; [solve [order_side]|]
  | |- climb (Some (_ :: _)) (anscheduler_unlock _ ≫= _) _ => apply climb_unlock
  | |- climb (Some (_ :: _)) (anscheduler_unlock _) _ => apply climb_unlock_end
  | |- climb None (anscheduler_cpu_lock ≫= _) _ => apply climb_enter
  | |- climb None anscheduler_cpu_lock _ => apply climb_enter_end
  | |- climb (Some []) (anscheduler_cpu_unlock ≫= _) _ => apply climb_leave
  | |- climb (Some []) anscheduler_cpu_unlock _ => apply climb_leave_end
  | |- climb _ ((_ ≫= _) ≫= _) _ => apply climb_seq
  | |- climb _ (_ ≫= _) _ => apply climb_seq
  | |- climb _ (mret _) _ => reflexivity
  | |- climb _ (anscheduler_abort _) _ => apply climb_abort
  | |- climb _ (while_ _ _) (same _) => apply climb_while
  | |- climb _ (for_ _ _ _) (same _) => apply climb_for
  | |- climb _ (for_each _ _ _) (same _) => apply climb_for_each
  | |- climb (Some []) (anscheduler_cpu_stack_run _) _ => apply climb_stack_run
  | |- climb (Some []) (anscheduler_save_return_state _ _) _ => apply climb_save
  | |- climb (Some []) (anscheduler_thread_run _ _) _ => apply climb_thread_run
  | |- climb None (Leave _) _ => reflexivity
  | |- @climb _ Empty_set (Some []) _ (same None) => apply climb_no_return
  | |- climb (Some _) (gset_ _) (same _) => apply climb_gset; [by intros|statics_side]
  | |- climb None (gset_ _) (same _) => apply anywhere_gset; [by intros|by intros []]
  | |- climb _ (if decide _ then _ else _) _ => case_decide
  | |- climb _ (match ?x with _ => _ end) _ => destruct x
  | |- same _ _ _ => reflexivity
  | |- @eq held _ _ => reflexivity
  | |- tidy _ => solve [auto with order nocore]
  | |- climb (Some []) ?p (same (Some [])) => change (tidy p); solve [auto with order nocore]
  | |- climb None ?p (same None) =>
      first [ solve [apply anywhere] | change (loose p); solve [auto with order nocore] ]
  | |- climb (Some _) ?p (same (Some _)) =>
      first [ solve [apply stays_inside]
            | let Hg := constr:(_ : Guarded p _) in apply Hg; solve [is_held | eauto with order nocore]
            | eapply polite_call; [solve [eauto with order nocore]|solve [order_side]]
            | solve [auto with order nocore] ]
  end.
Ltac order_steps := repeat order_step.

Tactic Notation "by_inside" reference(op) := intros ?; unfold op; autounfold with prog; order_steps.
Tactic Notation "by_guarded" reference(op) :=
  intros ? ?; unfold op; autounfold with prog; order_steps.
Tactic Notation "by_polite" reference(op) := intros ? ?; unfold op; autounfold with prog; order_steps.
Tactic Notation "by_tidy" reference(op) := unfold tidy, op; autounfold with prog; order_steps.
Tactic Notation "by_loose" reference(op) := unfold loose, op; autounfold with prog; order_steps.
