(* ===== verification/Polite.v ===== *)
(** * Polite: the whole scheduler keeps to the order of locks of Order.v

    Every function of the scheduler takes locks in the order of their ranks and holds
    none when it returns or gives the CPU to another thread, with the exceptions that
    the headers document ([anscheduler_pager_lock] and so on) and [saved_with]. *)
From S2P Require Import Prelude Types Machine Idxset RunQueue PagerQueue TaskRef Loop Interrupts TaskExit Paging PidMap Thread ThreadExit SocketList Socket TaskLife Interface Internal Order.

#[export] Instance anywhere_rd_root {ST : Strays} {R} r (f : anidxset_root_t → R) : Anywhere (rd_root r f).
Proof. anywhere. Qed.
(** The lock of the pool of identifiers, if this is the set at hand. *)
Definition pool_held (r : root_ptr) (L : list lock_id) : Prop := r = root_pidPool → ppLock ∈ L.

#[export] Instance guarded_wr_root {ST : Strays} r g : Guarded (wr_root r g) (pool_held r).
Proof.
  apply guarded_act. intros L c s HL. simpl. destruct (root_at r s); [|done].
  destruct r; (split; [done|split; [done|]]); intros l; destruct l;
    first [by right | left; by apply HL].
Qed.

Lemma pool_held_stacks t L : pool_held (root_stacks t) L.
Proof. by intros [=]. Qed.
Lemma pool_held_descriptors t L : pool_held (root_descriptors t) L.
Proof. by intros [=]. Qed.
#[local] Hint Resolve pool_held_stacks pool_held_descriptors : order.
#[local] Hint Extern 1 (pool_held root_pidPool _) => intros _; is_held : order.

Lemma rank_side_lock d sock : rank (side_lock d sock) = 0%nat.
Proof. by destruct d. Qed.

(** ** The operations of each file *)
Section operations.
Context `{PL : Platform} {ST : Strays}.

#[export] Instance order_rd_index (node i : Z) : Inside (rd_index node i).
Proof. by_inside rd_index. Qed.
#[export] Instance order_wr_index (node i v : Z) : Inside (wr_index node i v).
Proof. by_inside wr_index. Qed.
#[export] Instance order_idxset_free (ptr : Z) : Inside (anscheduler_idxset_free ptr).
Proof. by_inside anscheduler_idxset_free. Qed.
#[export] Instance order__allocate_next_page (root : root_ptr) : Guarded (_allocate_next_page root) (pool_held root).
Proof. by_guarded _allocate_next_page. Qed.
#[export] Instance order_anidxset_get (root : root_ptr) : Guarded (anidxset_get root) (pool_held root).
Proof. by_guarded anidxset_get. Qed.
#[export] Instance order_anidxset_free (root : root_ptr) : Inside (anidxset_free root).
Proof. by_inside anidxset_free. Qed.
#[export] Instance order_idxset_alloc : Inside anscheduler_idxset_alloc.
Proof. apply inside_alloc_as. Qed.
#[export] Instance order_anidxset_initialize (root : root_ptr) : Guarded (anidxset_initialize root) (pool_held root).
Proof. by_guarded anidxset_initialize. Qed.
#[export] Instance order_idxset_init (root : root_ptr) : Guarded (anscheduler_idxset_init root) (pool_held root).
Proof. by_guarded anscheduler_idxset_init. Qed.
#[export] Instance order_anidxset_put (root : root_ptr) (value : Z) : Guarded (anidxset_put root value) (pool_held root).
Proof. by_guarded anidxset_put. Qed.

(** *** src/loop.c: the queue *)
Lemma order_loop_enqueue (thread : Z) : polite 1 (loop_enqueue thread).
Proof. by_polite loop_enqueue. Qed.
#[local] Hint Resolve order_loop_enqueue : order.
Lemma order_loop_push (thread : Z) : polite 1 (anscheduler_loop_push thread).
Proof. by_polite anscheduler_loop_push. Qed.
#[local] Hint Resolve order_loop_push : order.
Lemma order_loop_unlink (thread : Z) Hs : climb (Some (loopLock :: Hs)) (loop_unlink thread) (same (Some Hs)).
Proof. unfold loop_unlink; autounfold with prog; order_steps. Qed.
#[local] Hint Resolve order_loop_unlink : order.
Lemma order_loop_delete (thread : Z) : polite 1 (anscheduler_loop_delete thread).
Proof. by_polite anscheduler_loop_delete. Qed.
#[local] Hint Resolve order_loop_delete : order.
#[export] Instance order__shift_thread : Guarded _shift_thread (with_lock loopLock).
Proof. by_guarded _shift_thread. Qed.
#[export] Instance order__push_unconditional (thread : Z) : Guarded (_push_unconditional thread) (with_lock loopLock).
Proof. by_guarded _push_unconditional. Qed.
Lemma order_loop_push_kernel (arg : Z) (fn : kernel_fn) : polite 1 (anscheduler_loop_push_kernel arg fn).
Proof. by_polite anscheduler_loop_push_kernel. Qed.
#[local] Hint Resolve order_loop_push_kernel : order.

(** *** src/paging.c: the queue of faults *)
#[export] Instance order_pager_get : Inside anscheduler_pager_get.
Proof. by_inside anscheduler_pager_get. Qed.
#[export] Instance order_pager_set (thread : Z) : Inside (anscheduler_pager_set thread).
Proof. by_inside anscheduler_pager_set. Qed.
Lemma order_pager_shift : polite 1 anscheduler_pager_shift.
Proof. by_polite anscheduler_pager_shift. Qed.
#[local] Hint Resolve order_pager_shift : order.
Lemma order_pager_peek : polite 1 anscheduler_pager_peek.
Proof. by_polite anscheduler_pager_peek. Qed.
#[local] Hint Resolve order_pager_peek : order.
#[export] Instance order_pager_waiting : Inside anscheduler_pager_waiting.
Proof. by_inside anscheduler_pager_waiting. Qed.
Lemma order_push_fault (fault : Z) : polite 1 (push_fault fault).
Proof. by_polite push_fault. Qed.
#[local] Hint Resolve order_push_fault : order.

(** *** src/task.c: references *)
Lemma order_task_reference (task : Z) : polite 2 (anscheduler_task_reference task).
Proof. by_polite anscheduler_task_reference. Qed.
#[local] Hint Resolve order_task_reference : order.
Lemma order_task_kill (task reason : Z) : polite 2 (anscheduler_task_kill task reason).
Proof. by_polite anscheduler_task_kill. Qed.
#[local] Hint Resolve order_task_kill : order.
Lemma order_delete_threads (first : Z) : polite 1 (delete_threads first).
Proof. by_polite delete_threads. Qed.
#[local] Hint Resolve order_delete_threads : order.
Lemma order__generate_kill_job (task : Z) : polite 1 (_generate_kill_job task).
Proof. by_polite _generate_kill_job. Qed.
#[local] Hint Resolve order__generate_kill_job : order.
Lemma order_task_dereference (task : Z) : polite 1 (anscheduler_task_dereference task).
Proof. by_polite anscheduler_task_dereference. Qed.
#[local] Hint Resolve order_task_dereference : order.

(** *** src/loop.c: switching threads *)
Lemma order_next_thread_body (max now : Z) (st : Z * Z) : climb (Some [loopLock]) (next_thread_body max now st)
  (λ y H, match y with inl _ => H = Some [loopLock] | inr _ => H = Some [] end).
Proof. unfold next_thread_body; autounfold with prog; order_steps. Qed.
#[local] Hint Resolve order_next_thread_body : order.
Lemma order__next_thread : tidy _next_thread.
Proof.
  unfold tidy, _next_thread; autounfold with prog; order_steps.
  apply climb_while_end. intros st. apply order_next_thread_body.
Qed.
#[local] Hint Resolve order__next_thread : order.
Lemma order_loop_push_cur : polite 1 anscheduler_loop_push_cur.
Proof. by_polite anscheduler_loop_push_cur. Qed.
#[local] Hint Resolve order_loop_push_cur : order.
Lemma order_loop_run : tidy anscheduler_loop_run.
Proof. by_tidy anscheduler_loop_run. Qed.
#[local] Hint Resolve order_loop_run : order.
Lemma order__run_loop_stub : tidy _run_loop_stub.
Proof. by_tidy _run_loop_stub. Qed.
#[local] Hint Resolve order__run_loop_stub : order.
Lemma order__resign_stub : tidy _resign_stub.
Proof. by_tidy _resign_stub. Qed.
#[local] Hint Resolve order__resign_stub : order.
Lemma order_loop_break_task {A} : tidy (anscheduler_loop_break_task (A := A)).
Proof. by_tidy anscheduler_loop_break_task. Qed.
#[local] Hint Resolve order_loop_break_task : order.
Lemma order_loop_resign {A} : tidy (anscheduler_loop_resign (A := A)).
Proof. by_tidy anscheduler_loop_resign. Qed.
#[local] Hint Resolve order_loop_resign : order.
Lemma order__save_resign_stub : tidy _save_resign_stub.
Proof. by_tidy _save_resign_stub. Qed.
#[local] Hint Resolve order__save_resign_stub : order.
Lemma order_loop_save_and_resign : tidy anscheduler_loop_save_and_resign.
Proof. by_tidy anscheduler_loop_save_and_resign. Qed.
#[local] Hint Resolve order_loop_save_and_resign : order.
Lemma order__delete_cur_kernel : tidy _delete_cur_kernel.
Proof. by_tidy _delete_cur_kernel. Qed.
#[local] Hint Resolve order__delete_cur_kernel : order.
Lemma order_loop_delete_cur_kernel {A} : tidy (anscheduler_loop_delete_cur_kernel (A := A)).
Proof. by_tidy anscheduler_loop_delete_cur_kernel. Qed.
#[local] Hint Resolve order_loop_delete_cur_kernel : order.
Lemma order__switch_to_thread (thread : Z) : tidy (_switch_to_thread thread).
Proof. by_tidy _switch_to_thread. Qed.
#[local] Hint Resolve order__switch_to_thread : order.
Lemma order_loop_switch {A} (task thread : Z) : tidy (anscheduler_loop_switch (A := A) task thread).
Proof. by_tidy anscheduler_loop_switch. Qed.
#[local] Hint Resolve order_loop_switch : order.

(** *** src/interrupts.c *)
Lemma order_intd_get : polite 1 anscheduler_intd_get.
Proof. by_polite anscheduler_intd_get. Qed.
#[local] Hint Resolve order_intd_get : order.
Lemma order_intd_set (thread : Z) : polite 1 (anscheduler_intd_set thread).
Proof. by_polite anscheduler_intd_set. Qed.
#[local] Hint Resolve order_intd_set : order.
Lemma order_intd_cmpnull (thread : Z) : polite 1 (anscheduler_intd_cmpnull thread).
Proof. by_polite anscheduler_intd_cmpnull. Qed.
#[local] Hint Resolve order_intd_cmpnull : order.
Lemma order_intd_read : polite 1 anscheduler_intd_read.
Proof. by_polite anscheduler_intd_read. Qed.
#[local] Hint Resolve order_intd_read : order.
#[export] Instance order_intd_waiting : Inside anscheduler_intd_waiting.
Proof. by_inside anscheduler_intd_waiting. Qed.
#[export] Instance order_shift_one (n : Z) : Inside (shift_one n).
Proof. apply anywhere_inside. anywhere. Qed.
#[export] Instance order_or_32_irqMask (v : Z) : Guarded (anscheduler_or_32_irqMask v) (with_lock intdLock).
Proof. by_guarded anscheduler_or_32_irqMask. Qed.
Lemma order_irq (irqNumber : Z) : tidy (anscheduler_irq irqNumber).
Proof. by_tidy anscheduler_irq. Qed.
#[local] Hint Resolve order_irq : order.

(** *** src/task.c: exit *)
Lemma order__task_exit (codeVal : Z) : tidy (_task_exit codeVal).
Proof. by_tidy _task_exit. Qed.
#[local] Hint Resolve order__task_exit : order.
Lemma order_task_exit {A} (code : Z) : tidy (anscheduler_task_exit (A := A) code).
Proof. by_tidy anscheduler_task_exit. Qed.
#[local] Hint Resolve order_task_exit : order.

(** *** src/paging.c: faults *)
#[export] Instance order_zero_page (p : Z) : Inside (zero_page p).
Proof. apply anywhere_inside. anywhere. Qed.
Lemma order__push_page_fault_cont (info : fault_info_t) : tidy (_push_page_fault_cont info).
Proof. by_tidy _push_page_fault_cont. Qed.
#[local] Hint Resolve order__push_page_fault_cont : order.
Lemma order__push_page_fault (info : fault_info_t) : tidy (_push_page_fault info).
Proof. by_tidy _push_page_fault. Qed.
#[local] Hint Resolve order__push_page_fault : order.
Lemma order_page_fault (ptr _flags : Z) : tidy (anscheduler_page_fault ptr _flags).
Proof. by_tidy anscheduler_page_fault. Qed.
#[local] Hint Resolve order_page_fault : order.

(** *** src/pidmap.c *)
#[export] Instance order_get_bucket (hash : Z) : Inside (get_bucket hash).
Proof. apply anywhere_inside. anywhere. Qed.
#[export] Instance order_put_bucket (hash v : Z) : Guarded (put_bucket hash v) (with_lock pmLock).
Proof. by_guarded put_bucket. Qed.
Lemma order_pidmap_set (task : Z) : tidy (anscheduler_pidmap_set task).
Proof. by_tidy anscheduler_pidmap_set. Qed.
#[local] Hint Resolve order_pidmap_set : order.
Lemma order_pidmap_unset (task : Z) : tidy (anscheduler_pidmap_unset task).
Proof. by_tidy anscheduler_pidmap_unset. Qed.
#[local] Hint Resolve order_pidmap_unset : order.
Lemma order_pidmap_get_body (pid task : Z) : climb (Some [pmLock]) (pidmap_get_body pid task)
  (λ y H, match y with inl _ => H = Some [pmLock] | inr _ => H = Some [] end).
Proof. unfold pidmap_get_body; order_steps. Qed.
#[local] Hint Resolve order_pidmap_get_body : order.
Lemma order_pidmap_get (pid : Z) : tidy (anscheduler_pidmap_get pid).
Proof.
  unfold tidy, anscheduler_pidmap_get; order_steps.
  apply climb_while_end. intros t. apply order_pidmap_get_body.
Qed.
#[local] Hint Resolve order_pidmap_get : order.
Lemma order_task_for_pid (pid : Z) : tidy (anscheduler_task_for_pid pid).
Proof. by_tidy anscheduler_task_for_pid. Qed.
#[local] Hint Resolve order_task_for_pid : order.
Lemma order_pidmap_alloc_pid : tidy anscheduler_pidmap_alloc_pid.
Proof. by_tidy anscheduler_pidmap_alloc_pid. Qed.
#[local] Hint Resolve order_pidmap_alloc_pid : order.
Lemma order_pidmap_free_pid (pid : Z) : tidy (anscheduler_pidmap_free_pid pid).
Proof. by_tidy anscheduler_pidmap_free_pid. Qed.
#[local] Hint Resolve order_pidmap_free_pid : order.

(** *** src/thread.c *)
#[export] Instance order_thread_interrupt_stack (thread : Z) : Inside (anscheduler_thread_interrupt_stack thread).
Proof. by_inside anscheduler_thread_interrupt_stack. Qed.
#[export] Instance order_thread_user_stack (thread : Z) : Inside (anscheduler_thread_user_stack thread).
Proof. by_inside anscheduler_thread_user_stack. Qed.
Lemma order__alloc_kernel_stack (task thread : Z) : tidy (_alloc_kernel_stack task thread).
Proof. by_tidy _alloc_kernel_stack. Qed.
#[local] Hint Resolve order__alloc_kernel_stack : order.
Lemma order__map_user_stack (task thread : Z) : tidy (_map_user_stack task thread).
Proof.
  apply climb_seq; [order_steps|intros stack]. apply climb_lock; [order_side|]. apply climb_bind.
  apply (climb_for_end _ _ (Some [vmLock task]) (Some [])).
  - intros i. order_steps.
  - intros [b|] H Hr; subst; order_steps.
Qed.
#[local] Hint Resolve order__map_user_stack : order.
Lemma order__dealloc_kernel_stack (task thread : Z) : tidy (_dealloc_kernel_stack task thread).
Proof. by_tidy _dealloc_kernel_stack. Qed.
#[local] Hint Resolve order__dealloc_kernel_stack : order.
Lemma order_thread_create (task : Z) : tidy (anscheduler_thread_create task).
Proof. by_tidy anscheduler_thread_create. Qed.
#[local] Hint Resolve order_thread_create : order.
Lemma order_thread_add (task thread : Z) : tidy (anscheduler_thread_add task thread).
Proof. by_tidy anscheduler_thread_add. Qed.
#[local] Hint Resolve order_thread_add : order.
Lemma order_thread_poll : tidy anscheduler_thread_poll.
Proof. by_tidy anscheduler_thread_poll. Qed.
#[local] Hint Resolve order_thread_poll : order.
Lemma order_retire_page (task page : Z) : loose (retire_page task page).
Proof. by_loose retire_page. Qed.
#[local] Hint Resolve order_retire_page : order.
Lemma order_release_page (task page : Z) : loose (release_page task page).
Proof. by_loose release_page. Qed.
#[local] Hint Resolve order_release_page : order.
Lemma order_thread_deallocate (task thread : Z) : loose (anscheduler_thread_deallocate task thread).
Proof. by_loose anscheduler_thread_deallocate. Qed.
#[local] Hint Resolve order_thread_deallocate : order.
Lemma order_thread_kernel_stack (task thread : Z) : tidy (anscheduler_thread_kernel_stack task thread).
Proof. by_tidy anscheduler_thread_kernel_stack. Qed.
#[local] Hint Resolve order_thread_kernel_stack : order.
Lemma order_unlink_thread (task thread : Z) : tidy (unlink_thread task thread).
Proof. by_tidy unlink_thread. Qed.
#[local] Hint Resolve order_unlink_thread : order.
Lemma order_release_thread (task thread : Z) : tidy (release_thread task thread).
Proof. by_tidy release_thread. Qed.
#[local] Hint Resolve order_release_thread : order.
Lemma order__finalize_thread_exit (thread : Z) : tidy (_finalize_thread_exit thread).
Proof. by_tidy _finalize_thread_exit. Qed.
#[local] Hint Resolve order__finalize_thread_exit : order.
Lemma order_thread_exit {A} : loose (anscheduler_thread_exit (A := A)).
Proof. by_loose anscheduler_thread_exit. Qed.
#[local] Hint Resolve order_thread_exit : order.

(** *** src/socketlist.c *)
Lemma order_socket_reference (socket : Z) : polite 2 (anscheduler_socket_reference socket).
Proof. by_polite anscheduler_socket_reference. Qed.
#[local] Hint Resolve order_socket_reference : order.
#[export] Instance order_rd_sockets (task hash : Z) : Inside (rd_sockets task hash).
Proof. by_inside rd_sockets. Qed.
#[export] Instance order_wr_sockets (task hash v : Z) : Inside (wr_sockets task hash v).
Proof. by_inside wr_sockets. Qed.
Lemma order_descriptor_set (task desc : Z) : tidy (anscheduler_descriptor_set task desc).
Proof. by_tidy anscheduler_descriptor_set. Qed.
#[local] Hint Resolve order_descriptor_set : order.
Lemma order_descriptor_find_body (task desc obj : Z) : climb (Some [socketsLock task]) (descriptor_find_body task desc obj)
  (λ y H, match y with inl _ => H = Some [socketsLock task] | inr _ => H = Some [] end).
Proof. unfold descriptor_find_body; order_steps. Qed.
#[local] Hint Resolve order_descriptor_find_body : order.
Lemma order_descriptor_find (task desc : Z) : tidy (anscheduler_descriptor_find task desc).
Proof.
  unfold tidy, anscheduler_descriptor_find; order_steps.
  apply climb_while_end. intros obj. apply order_descriptor_find_body.
Qed.
#[local] Hint Resolve order_descriptor_find : order.
Lemma order_task_pending (task desc : Z) : tidy (anscheduler_task_pending task desc).
Proof. by_tidy anscheduler_task_pending. Qed.
#[local] Hint Resolve order_task_pending : order.
Lemma order_unlink_pending (task desc : Z) : climb (Some [pendingLock task]) (unlink_pending task desc) (same (Some [])).
Proof. unfold unlink_pending; order_steps. Qed.
#[local] Hint Resolve order_unlink_pending : order.
Lemma order_task_not_pending (task desc : Z) : tidy (anscheduler_task_not_pending task desc).
Proof. by_tidy anscheduler_task_not_pending. Qed.
#[local] Hint Resolve order_task_not_pending : order.
Lemma order_pop_pending_body (task p : Z) : climb (Some [pendingLock task]) (pop_pending_body task p)
  (λ y H, match y with inl _ => H = Some [pendingLock task] | inr _ => H = Some [] end).
Proof. unfold pop_pending_body; order_steps. Qed.
#[local] Hint Resolve order_pop_pending_body : order.
Lemma order_task_pop_pending (task : Z) : tidy (anscheduler_task_pop_pending task).
Proof.
  unfold tidy, anscheduler_task_pop_pending; order_steps.
  apply climb_while_end. intros p. apply order_pop_pending_body.
Qed.
#[local] Hint Resolve order_task_pop_pending : order.
Lemma order_descriptor_delete (task desc : Z) : tidy (anscheduler_descriptor_delete task desc).
Proof. by_tidy anscheduler_descriptor_delete. Qed.
#[local] Hint Resolve order_descriptor_delete : order.

(** *** src/socket.c *)
#[export] Instance order_push_locked (d : side) (sock msg : Z) : Inside (push_locked d sock msg).
Proof. by_inside push_locked. Qed.
Lemma order__push_message (dest msg : Z) : tidy (_push_message dest msg).
Proof. by_tidy _push_message. Qed.
#[local] Hint Resolve order__push_message : order.
Lemma order_socket_read (dest : Z) : tidy (anscheduler_socket_read dest).
Proof. by_tidy anscheduler_socket_read. Qed.
#[local] Hint Resolve order_socket_read : order.
Lemma order_reference_other_end (socket sock : Z) : polite 2 (reference_other_end socket sock).
Proof. by_polite reference_other_end. Qed.
#[local] Hint Resolve order_reference_other_end : order.
#[export] Instance order_drop_link (socket sock : Z) : Inside (drop_link socket sock).
Proof. by_inside drop_link. Qed.
Lemma order_socket_close (socket code : Z) : polite 2 (anscheduler_socket_close socket code).
Proof. by_polite anscheduler_socket_close. Qed.
#[local] Hint Resolve order_socket_close : order.
Lemma order_socket_for_descriptor (desc : Z) : tidy (anscheduler_socket_for_descriptor desc).
Proof. by_tidy anscheduler_socket_for_descriptor. Qed.
#[local] Hint Resolve order_socket_for_descriptor : order.
Lemma order_socket_next_pending : tidy anscheduler_socket_next_pending.
Proof. by_tidy anscheduler_socket_next_pending. Qed.
#[local] Hint Resolve order_socket_next_pending : order.
Lemma order_free_body (d : side) (socket : Z) (x : ()) : loose (free_body d socket x).
Proof. by_loose free_body. Qed.
#[local] Hint Resolve order_free_body : order.
Lemma order_free_messages (d : side) (socket : Z) : loose (free_messages d socket).
Proof. by_loose free_messages. Qed.
#[local] Hint Resolve order_free_messages : order.
Lemma order__socket_free (socket : Z) : loose (_socket_free socket).
Proof. by_loose _socket_free. Qed.
#[local] Hint Resolve order__socket_free : order.
Lemma order__create_descriptor (socket task : Z) (isConnector : bool) : tidy (_create_descriptor socket task isConnector).
Proof. by_tidy _create_descriptor. Qed.
#[local] Hint Resolve order__create_descriptor : order.
Lemma order_socket_new : tidy anscheduler_socket_new.
Proof. by_tidy anscheduler_socket_new. Qed.
#[local] Hint Resolve order_socket_new : order.
Lemma order_socket_dereference (socket : Z) : tidy (anscheduler_socket_dereference socket).
Proof. by_tidy anscheduler_socket_dereference. Qed.
#[local] Hint Resolve order_socket_dereference : order.
Lemma order__switch_continuation (thread : Z) : tidy (_switch_continuation thread).
Proof. by_tidy _switch_continuation. Qed.
#[local] Hint Resolve order__switch_continuation : order.
Lemma order_wakeup_body (task thread : Z) : climb (Some [threadsLock task]) (wakeup_body task thread)
  (λ y H, match y with inr true => H = Some [] | _ => H = Some [threadsLock task] end).
Proof. unfold wakeup_body; order_steps. Qed.
#[local] Hint Resolve order_wakeup_body : order.
Lemma order__wakeup_endpoint (dest : Z) : tidy (_wakeup_endpoint dest).
Proof.
  apply climb_seq; [order_steps|intros task]. apply climb_seq; [order_steps|intros []]; cbn [negb]; [|order_steps].
  apply climb_seq; [order_steps|intros task']. apply climb_seq; [order_steps|intros _].
  apply climb_seq; [order_steps|intros _]. apply climb_lock; [order_side|].
  apply climb_seq; [order_steps|intros first]. apply climb_bind.
  exists (λ _ H, H = Some [threadsLock task']). split; [done|]. intros th H ->.
  eapply climb_mono; [apply order_wakeup_body|]. intros [th'|[]] H' ->; [done..|].
  change (climb (Some [threadsLock task']) (anscheduler_unlock (threadsLock task');;
    task ← rd dest desc_task; anscheduler_task_dereference task) (same (Some []))). order_steps.
Qed.
#[local] Hint Resolve order__wakeup_endpoint : order.
Lemma order_socket_msg (socket msg : Z) : tidy (anscheduler_socket_msg socket msg).
Proof. by_tidy anscheduler_socket_msg. Qed.
#[local] Hint Resolve order_socket_msg : order.
Lemma order_socket_msg_async (socket msg : Z) : tidy (anscheduler_socket_msg_async socket msg).
Proof. by_tidy anscheduler_socket_msg_async. Qed.
#[local] Hint Resolve order_socket_msg_async : order.
#[export] Instance order_socket_msg_data (data : list Z) (len : Z) : Inside (anscheduler_socket_msg_data data len).
Proof. by_inside anscheduler_socket_msg_data. Qed.
Lemma order_socket_connect (socket task : Z) : tidy (anscheduler_socket_connect socket task).
Proof. by_tidy anscheduler_socket_connect. Qed.
#[local] Hint Resolve order_socket_connect : order.
Lemma order_socket_remote (socket : Z) : tidy (anscheduler_socket_remote socket).
Proof. by_tidy anscheduler_socket_remote. Qed.
#[local] Hint Resolve order_socket_remote : order.
Lemma order_free_link (socket sock : Z) (shouldFree : bool) : tidy (free_link socket sock shouldFree).
Proof. by_tidy free_link. Qed.
#[local] Hint Resolve order_free_link : order.
Lemma order__socket_hangup (socket : Z) : loose (_socket_hangup socket).
Proof. by_loose _socket_hangup. Qed.
#[local] Hint Resolve order__socket_hangup : order.
Lemma order__async_msg (info : Z) : loose (_async_msg info).
Proof. by_loose _async_msg. Qed.
#[local] Hint Resolve order__async_msg : order.

(** *** src/task.c: creation and destruction *)
#[export] Instance order__map_first_4mb (task : Z) : Inside (_map_first_4mb task).
Proof. by_inside _map_first_4mb. Qed.
Lemma order_task_create : tidy anscheduler_task_create.
Proof. by_tidy anscheduler_task_create. Qed.
#[local] Hint Resolve order_task_create : order.
Lemma order_push_threads (first : Z) : polite 1 (push_threads first).
Proof. by_polite push_threads. Qed.
#[local] Hint Resolve order_push_threads : order.
Lemma order_task_launch (task : Z) : tidy (anscheduler_task_launch task).
Proof. by_tidy anscheduler_task_launch. Qed.
#[local] Hint Resolve order_task_launch : order.
Lemma order__resign_continuation : tidy _resign_continuation.
Proof. by_tidy _resign_continuation. Qed.
#[local] Hint Resolve order__resign_continuation : order.
Lemma order_wait_socket_gone (task thread i desc : Z) :
  stray (socketsLock task) → tidy (wait_socket_gone task thread i desc).
Proof.
  intros Hs. apply climb_while. intros _. apply climb_lock; [order_side|].
  apply climb_seq; [order_steps|intros head]. case_decide; [order_steps|].
  split; [right; by exists (socketsLock task)|]. split; [|done].
  eapply climb_mono; [apply order__resign_continuation|done].
Qed.
#[local] Hint Resolve order_wait_socket_gone : order.
Lemma order_close_bucket (task thread i : Z) :
  stray (socketsLock task) → tidy (close_bucket task thread i).
Proof. intros Hs. by_tidy close_bucket. Qed.
#[local] Hint Resolve order_close_bucket : order.
Lemma order__close_task_sockets_async (task : Z) :
  stray (socketsLock task) → loose (_close_task_sockets_async task).
Proof. intros Hs. by_loose _close_task_sockets_async. Qed.
#[local] Hint Resolve order__close_task_sockets_async : order.
Lemma order_free_threads (task : Z) : loose (free_threads task).
Proof. by_loose free_threads. Qed.
#[local] Hint Resolve order_free_threads : order.
Lemma order_vm_root_free_async (root : Z) : loose (anscheduler_vm_root_free_async root).
Proof. by_loose anscheduler_vm_root_free_async. Qed.
#[local] Hint Resolve order_vm_root_free_async : order.
Lemma order__free_task_method (task : Z) :
  stray (socketsLock task) → loose (_free_task_method task).
Proof. intros Hs. by_loose _free_task_method. Qed.
#[local] Hint Resolve order__free_task_method : order.
Lemma order_kernel_code (fn : kernel_fn) (arg : Z) :
  (fn = fn_free_task_method → stray (socketsLock arg)) → loose (kernel_code fn arg).
Proof. intros Hs. destruct fn; try specialize (Hs eq_refl); by_loose kernel_code. Qed.
#[local] Hint Resolve order_kernel_code : order.

(** *** The interface *)

(** The lock functions of the headers, by which the kernel itself holds a lock from
    one call to another. *)
Definition plain_call (e : entry) : Prop :=
  match e with
  | interrupts_h (e_intd_lock | e_intd_unlock) | paging_h (e_pager_lock | e_pager_unlock) => False
  | _ => True
  end.

(** Inside or outside a critical section, without locks. *)
Definition bare (b : bool) : held := if b then Some [] else None.

Lemma order_entry e :
  (∀ task, e = e_kernel fn_free_task_method task → stray (socketsLock task)) →
  plain_call e → climb (bare (begins_inside e)) (entry_code e) (same (bare (begins_inside e))).
Proof.
  intros Hs Hp.
  assert (∀ fn arg, e = e_kernel fn arg → fn = fn_free_task_method → stray (socketsLock arg)) as Hk.
  { intros fn arg -> ->. by apply Hs. }
  destruct e as [[]|[]|[]|[]|[]|[]|[] arg]; try destruct Hp; try pose proof (Hk _ _ eq_refl);
    cbn [entry_code task_code thread_code loop_code socket_code interrupts_code paging_code
         begins_inside entry_section task_section thread_section loop_section socket_section
         interrupts_section paging_section kernel_section bare];
    unfold drop; autounfold with prog; order_steps.
Qed.

(** *** The functions inside *)

Lemma order_internal i :
  (∀ task, i = task_i (i_free_task_method task) ∨ i = task_i (i_close_task_sockets_async task) →
     stray (socketsLock task)) →
  climb (bare (internal_begins_inside i)) (internal_code i) (same (bare (internal_begins_inside i))).
Proof.
  destruct i as [[]|[]|[]|[]|[]]; intros Hs;
    try (assert (stray (socketsLock task)) by (apply Hs; auto; fail));
    cbn [internal_code pidmap_code socketlist_code thread_internal_code task_internal_code
         socket_internal_code internal_begins_inside internal_section pidmap_section
         socketlist_section thread_internal_section task_internal_section
         socket_internal_section bare];
    unfold drop; order_steps.
Qed.

End operations.
