(* ===== verification/Contract.v ===== *)
(** * Contract: critical sections and locks, call by call

    What the headers promise of every function ([entry_section] in Interface.v), from
    the discipline of Order.v: a call that begins in the section that its header asks
    for ends in it, gives back every lock that it took, and never waits for itself. *)
From S2P Require Import Prelude Types Machine Demo TaskRef Loop TaskLife Interface Internal Order Polite.

(** ** Lemmas: a run of disciplined code *)

(** The memory in which CPU [c]'s code holds [H] and others hold the locks [B]. *)
Record holds (c : nat) (B : gset lock_id) (H : held) (s : kst) : Prop := {
  holds_section : cpu_locked (k_cpus s c) = inside H;
  holds_nodup : NoDup (default [] H);
  holds_locks : k_locks s = B ∪ list_to_set (default [] H);
  holds_others : B ## list_to_set (default [] H);
}.

Lemma holds_move c B H H' s s' : holds c B H s → lock_move c s s' H H' → holds c B H' s'.
Proof.
  intros [Hc Hnd Hl Hd] Hm.
  destruct Hm as [Heq Hcp _|L Heq Hs|L l Hn Heq Hs|L l Heq Hs|Heq Hs|Heq Hs];
    (split; [try apply Hs| | |]); simpl in *; try done; rewrite ?Heq, ?Hcp; try done.
  - constructor; [|done]. rewrite <- (elem_of_list_to_set (C := gset lock_id)). set_solver.
  - set_solver.
  - set_solver.
  - by apply NoDup_cons in Hnd as [_ ?].
  - apply NoDup_cons in Hnd as [Hl' _]. rewrite <- (elem_of_list_to_set (C := gset lock_id)) in Hl'.
    rewrite Hl. set_solver.
  - set_solver.
Qed.

(** Other CPUs' critical sections are not touched. *)
Definition others_same (c : nat) (s s' : kst) : Prop :=
  ∀ c', c' ≠ c → cpu_locked (k_cpus s' c') = cpu_locked (k_cpus s c').

Lemma others_same_move c s s' H H' : lock_move c s s' H H' → others_same c s s'.
Proof. by intros [? Hcp ?|? ? [_ ?]|? ? ? ? [_ ?]|? ? ? [_ ?]|? [_ ?]|? [_ ?]] c' Hc; rewrite ?Hcp; auto. Qed.

Lemma others_same_trans c s1 s2 s3 : others_same c s1 s2 → others_same c s2 s3 → others_same c s1 s3.
Proof. intros H12 H23 c' Hc. by rewrite H23, H12. Qed.

Section strays.
Context {ST : Strays}.

(** The locks of others, and a lock that a thread was saved with. *)
Definition left_locks (B B' : gset lock_id) : Prop :=
  B ⊆ B' ∧ ∀ l, l ∈ B' → l ∈ B ∨ stray l.

(** How a run that does not return may end. *)
Definition stops_well (c : nat) (B : gset lock_id) (w : stop) (s' : kst) : Prop :=
  match w with
  | s_leave (leave_run _ _) => cpu_locked (k_cpus s' c) = true ∧ left_locks B (k_locks s')
  | s_leave leave_idle => cpu_locked (k_cpus s' c) = false ∧ left_locks B (k_locks s')
  | s_deadlock l =>
      cpu_locked (k_cpus s' c) = true ∧ l ∈ k_locks s' ∧ (l ∈ B ∨ stray l)
  | s_ub e => e ≠ bad_critical
  | s_leave (leave_abort _) | s_fuel => True
  end.

Lemma stops_well_weaken c B B' w s' : left_locks B B' → stops_well c B' w s' → stops_well c B w s'.
Proof.
  intros [Hsub Hl] Hw. destruct w as [[]|l|e|]; simpl in *; try done.
  - destruct Hw as (? & Hs & Hw). split; [done|]. split; [by etrans|]. intros l [?|?]%Hw; auto.
  - destruct Hw as (? & Hs & Hw). split; [done|]. split; [by etrans|]. intros l [?|?]%Hw; auto.
  - destruct Hw as (? & ? & [?|?]); auto.
Qed.

Section runs.
Context (n c : nat).

(** The end of a run that began at [s]. *)
Definition ends_well {A} (B : gset lock_id) (Q : A → held → Prop) (s : kst) (o : outcome A) : Prop :=
  match o with
  | Done a s' => (∃ H', Q a H' ∧ holds c B H' s') ∧ others_same c s s'
  | Stop w s' => stops_well c B w s' ∧ others_same c s s'
  end.

Lemma ends_well_trans {A} B (Q : A → held → Prop) s s1 o :
  others_same c s s1 → ends_well B Q s1 o → ends_well B Q s o.
Proof. destruct o; intros H1 [? ?]; (split; [done|by eapply others_same_trans]). Qed.

Lemma climb_iterate {X Y A} (body : X → prog (X + Y)) (k : Y → prog A) B Q (I : X → held → Prop) :
  (∀ x H Q s, climb H (body x) Q → holds c B H s → ends_well B Q s (run n c (body x) s)) →
  (∀ b H Q s, climb H (k b) Q → holds c B H s → ends_well B Q s (run n c (k b) s)) →
  (∀ x H, I x H → climb H (body x)
     (λ y H', match y with inl x' => I x' H' | inr b => climb H' (k b) Q end)) →
  ∀ m x H s, I x H → holds c B H s →
  ends_well B Q s (iterate m (λ x s, run n c (body x) s) (λ b s, run n c (k b) s) x s).
Proof.
  intros Hbody Hk HI m. induction m as [|m IH]; intros x H s Hx Hs; [by split|].
  rewrite iterate_S. specialize (Hbody x H _ s (HI x H Hx) Hs).
  unfold ends_well in Hbody. destruct (run n c (body x) s) as [y s1|w s1]; [|done]. destruct Hbody as [(H1 & Hy & Hs1) Ho].
  apply (ends_well_trans B Q s s1); [done|]. destruct y as [x'|b]; [by eapply IH|by eapply Hk].
Qed.

Lemma climb_run {A} (p : prog A) : ∀ B H Q s,
  climb H p Q → holds c B H s → ends_well B Q s (run n c p s).
Proof.
  induction p as [A a|A R f k IH|A X Y body IHb x k IH|A th body IHb k _|A l];
    intros B H Q s Hp Hs.
  - split; [by exists H|done].
  - specialize (Hp c s (holds_section _ _ _ _ Hs)). unfold run; fold @run.
    destruct (f c s) as [r s1|l|e]; [| |by split].
    + destruct Hp as (H1 & Hm & Hk). specialize (IH r B H1 Q s1 Hk (holds_move _ _ _ _ _ _ Hs Hm)).
      eapply ends_well_trans; [by eapply others_same_move|done].
    + destruct Hp as (L & -> & Hb & Hl). split; [|done]. destruct Hs as [Hc _ Heq _]. split; [done|].
      split; [done|]. left. rewrite Heq in Hl. apply elem_of_union in Hl as [Hl|Hl]; [done|].
      apply elem_of_list_to_set in Hl. unfold below in Hb. rewrite Forall_forall in Hb. specialize (Hb l Hl). lia.
  - destruct Hp as (I & Hx & HI). change (run n c (Loop body x k) s) with
      (iterate n (λ x s, run n c (body x) s) (λ b s, run n c (k b) s) x s).
    by apply (climb_iterate body k B Q I (λ x, IHb x B) (λ b, IH b B) HI n x H s).
  - destruct Hp as (Hw & Hbody & _). unfold run; fold @run.
    destruct (k_threads s !! th) as [t|]; [|by split].
    set (s1 := set_k_threads _ s). destruct Hs as [Hc Hnd Heq Hd].
    assert (inside H = true) as Hin by (by destruct Hw as [->|(l & _ & ->)]).
    assert (holds c (k_locks s) (Some []) s1) as Hs1.
    { split; [by etrans|constructor|simpl; set_solver|simpl; set_solver]. }
    specialize (IHb (k_locks s) (Some []) _ s1 Hbody Hs1).
    destruct (run n c body s1) as [[]|w s2]. destruct IHb as [Hst Ho]. split; [|done].
    eapply stops_well_weaken; [|exact Hst]. rewrite Heq.
    split; [set_solver|]. intros l. destruct Hw as [->|(l' & Hl' & ->)]; simpl; [set_solver|].
    rewrite !elem_of_union, elem_of_singleton. intros [?|[->|?]]; [by left|by right|set_solver].
  - split; [|done]. destruct Hs as [Hc _ Heq _].
    destruct l as [task thread| |msg]; simpl in *; try done; subst H; simpl in *;
      (split; [done|]); split; set_solver.
Qed.
End runs.

(** Disciplined code that begins and ends inside a critical section, or outside, and
    without locks. *)
Lemma climb_bare n c b (p : prog ()) s :
  climb (bare b) p (same (bare b)) → cpu_locked (k_cpus s c) = b →
  match run n c p s with
  | Done _ s' => cpu_locked (k_cpus s' c) = b ∧ k_locks s' = k_locks s ∧ others_same c s s'
  | Stop w s' => stops_well c (k_locks s) w s' ∧ others_same c s s'
  end.
Proof.
  intros Hp Hc.
  assert (holds c (k_locks s) (bare b) s) as Hs.
  { split; [rewrite Hc; by destruct b| | |]; destruct b; simpl; first [constructor | set_solver]. }
  pose proof (climb_run n c _ _ _ _ s Hp Hs) as Hr. destruct (run n c p s) as [a s'|w s']; [|done].
  destruct Hr as ((H' & -> & [Hc' _ Hl _]) & Ho). split_and!; [| |done].
  - rewrite Hc'. by destruct b.
  - rewrite Hl. destruct b; simpl; set_solver.
Qed.

End strays.

(** *** The lock functions of the headers

    By these the kernel itself takes a lock in one call and gives it up in another. *)

#[export] Instance plain_call_dec e : Decision (plain_call e).
Proof. destruct e as [[]|[]|[]|[]|[]|[]|]; simpl; apply _. Defined.

(** The locks after a call that returns. *)
Definition locks_after (e : entry) (L : gset lock_id) : gset lock_id :=
  match e with
  | interrupts_h e_intd_lock => {[intdLock]} ∪ L
  | interrupts_h e_intd_unlock => L ∖ {[intdLock]}
  | paging_h e_pager_lock => {[pagerLock]} ∪ L
  | paging_h e_pager_unlock => L ∖ {[pagerLock]}
  | _ => L
  end.

Lemma locks_after_plain e L : plain_call e → locks_after e L = L.
Proof. by destruct e as [[]|[]|[]|[]|[]|[]|]. Qed.

Lemma run_lock_contract {ST : Strays} n c l s :
  lock_live s l = true → cpu_locked (k_cpus s c) = true →
  match run n c (anscheduler_lock l) s with
  | Done _ s' => cpu_locked (k_cpus s' c) = true ∧ k_locks s' = {[l]} ∪ k_locks s ∧ others_same c s s'
  | Stop w s' => stops_well c (k_locks s) w s' ∧ others_same c s s'
  end.
Proof.
  intros Hl Hc. change (run n c (anscheduler_lock l) s) with
    (match (if lock_live s l then if decide (l ∈ k_locks s) then a_wait l else a_ok () (add_lock l s)
            else a_ub (bad_pointer (lock_addr l))) with
     | a_ok r s' => Done r s' | a_wait l => Stop (s_deadlock l) s | a_ub e => Stop (s_ub e) s end).
  rewrite Hl.
  case_decide; split; try done. split; [done|]. split; [done|by left].
Qed.

Lemma run_unlock_contract {ST : Strays} n c l s :
  cpu_locked (k_cpus s c) = true →
  match run n c (anscheduler_unlock l) s with
  | Done _ s' => cpu_locked (k_cpus s' c) = true ∧ k_locks s' = k_locks s ∖ {[l]} ∧ others_same c s s'
  | Stop w s' => stops_well c (k_locks s) w s' ∧ others_same c s s'
  end.
Proof.
  intros Hc. change (run n c (anscheduler_unlock l) s) with
    (match (if decide (l ∈ k_locks s ∧ lock_live s l) then a_ok () (del_lock l s)
            else a_ub (bad_unlock l)) with
     | a_ok r s' => Done r s' | a_wait l => Stop (s_deadlock l) s | a_ub e => Stop (s_ub e) s end).
  by case_decide.
Qed.

(** *** Locks that are never given up *)

(** The job that destroys a task may be saved with the lock on the task's sockets, which
    is then never free again; no other function leaves a lock. *)
Definition entry_strays (e : entry) : Strays := λ l,
  ∃ task, e = e_kernel fn_free_task_method task ∧ l = socketsLock task.
Definition internal_strays (i : internal) : Strays := λ l,
  ∃ task, (i = task_i (i_free_task_method task) ∨ i = task_i (i_close_task_sockets_async task)) ∧
    l = socketsLock task.

(** ** Correctness *)

(** C7. The contract of the headers: a call of any function of the scheduler that begins
    in the section that its header asks for ([begins_inside]) never enters a critical
    section twice or leaves one that it is not in; if it returns, it is in the section
    in which it began, and the locks that are held are those that were held before, but
    for the one lock that the locking and unlocking functions of the headers are for;
    if the CPU goes on with a thread it is inside a critical section, and outside if it
    idles, in both cases with the locks held that were held before; a call waits inside
    critical sections only, and only for locks that were held when it began. The one
    exception is the job that destroys a task: it may leave, or wait for, the
    [socketsLock] of that task. Other CPUs' critical sections are not touched. *)
Theorem calls_keep_critical_sections `{Platform} n c e s :
  cpu_locked (k_cpus s c) = begins_inside e →
  match run n c (entry_code e) s with
  | Done _ s' => cpu_locked (k_cpus s' c) = begins_inside e ∧
      k_locks s' = locks_after e (k_locks s) ∧ others_same c s s'
  | Stop w s' => stops_well (ST := entry_strays e) c (k_locks s) w s' ∧ others_same c s s'
  end.
Proof.
  intros Hc. destruct (decide (plain_call e)) as [Hp|Hp].
  - rewrite locks_after_plain by done. apply climb_bare; [|done].
    apply order_entry; [|done]. intros task He. by exists task.
  - destruct e as [[]|[]|[]|[]|[]|[]|]; try by destruct (Hp I).
    + by apply run_lock_contract.
    + by apply run_unlock_contract.
    + by apply run_lock_contract.
    + by apply run_unlock_contract.
Qed.

(** C8. The same holds inside the scheduler: each of its internal functions with a mark
    of its own, called in the section that the mark of its declaration asks for, returns
    in that section with the locks held that were held before, or leaves for another
    thread, idles or waits as [stops_well] says: with the locks that were held before,
    and for a lock that was. Only [_free_task_method] and [_close_task_sockets_async] may
    leave, or wait for, the [socketsLock] of their task. Other CPUs' sections are not
    touched. *)
Theorem internal_calls_keep_critical_sections `{Platform} n c i s :
  cpu_locked (k_cpus s c) = internal_begins_inside i →
  match run n c (internal_code i) s with
  | Done _ s' =>
      cpu_locked (k_cpus s' c) = internal_begins_inside i ∧ k_locks s' = k_locks s ∧ others_same c s s'
  | Stop w s' => stops_well (ST := internal_strays i) c (k_locks s) w s' ∧ others_same c s s'
  end.
Proof. apply climb_bare, order_internal. intros task Hi. by exists task. Qed.

(** Resigning with two ready threads: the CPU runs the next one. *)
Lemma calls_keep_critical_sections_witness :
  ∃ s' task th, run 9 0 (entry_code (H := P0) e_loop_resign) (demo 0 2)
    = Stop (s_leave (leave_run task th)) s' ∧
    cpu_locked (k_cpus s' 0%nat) = true ∧ k_locks s' = ∅.
Proof.
  pose proof (calls_keep_critical_sections (H := P0) 9 0 e_loop_resign (demo 0 2) eq_refl) as Hs.
  destruct (run 9 0 _ (demo 0 2)) as [a s'|w s'] eqn:Hr; [vm_compute in Hr; discriminate|].
  assert (∃ task th, w = s_leave (leave_run task th)) as (task & th & ->).
  { vm_compute in Hr. injection Hr as <- _. do 2 eexists. reflexivity. }
  destruct Hs as ((Hc & _ & Hl) & _). exists s', task, th. split; [done|]. split; [done|].
  apply (anti_symm (⊆)); [|set_solver]. intros l [?|(task' & [=] & _)]%Hl; done.
Defined.

(** Looking a task up. *)
Lemma internal_calls_keep_critical_sections_witness :
  ∃ s', run 2 0 (internal_code (H := P0) (i_pidmap_get 5)) (demo 0 2) = Done () s' ∧
    cpu_locked (k_cpus s' 0%nat) = true ∧ k_locks s' = ∅.
Proof.
  pose proof (internal_calls_keep_critical_sections (H := P0) 2 0 (i_pidmap_get 5) (demo 0 2) eq_refl) as Hs.
  destruct (run 2 0 _ (demo 0 2)) as [[] s'|w s'] eqn:Hr; [|vm_compute in Hr; discriminate].
  destruct Hs as (Hc & Hl & _). by exists s'.
Defined.
