(* ===== verification/Deadlock.v ===== *)
(** * Deadlock: no cycle of CPUs that wait for each other's locks

    Because every function takes locks in one order and inside critical sections only
    (Order.v, Polite.v), in a system of CPUs (Steps.v) the holders of locks never wait
    for each other in a circle, and a thread that is switched away or interrupted has
    no lock. *)
From S2P Require Import Prelude Types Machine Demo TaskRef Loop TaskLife Interface Steps Order Polite Smp.

(** ** Who has taken which lock *)

Definition owners : Type := place → gset lock_id.

Definition no_owners : owners := λ _, ∅.

(** The locks each place owns after a step: an access gives the CPU the locks that it
    takes, and a lock that is released is nobody's; an interrupted thread keeps the
    locks of the code that it was running; those of code whose state is lost, and
    those held when a thread saves its state for good, are nowhere. *)
Definition own_step (c : nat) (kd : step_kind) (s s' : kst) (o : owners) : owners := λ pl,
  match kd with
  | k_access =>
      if decide (pl = at_cpu c) then (o pl ∪ (k_locks s' ∖ k_locks s)) ∩ k_locks s'
      else o pl ∩ k_locks s'
  | k_save th =>
      if decide (pl = nowhere) then o pl ∪ o (at_cpu c) ∪ o (at_thread th)
      else if decide (pl = at_cpu c ∨ pl = at_thread th) then ∅ else o pl
  | k_run th back =>
      if decide (pl = nowhere) then if back then o pl else o pl ∪ o (at_thread th)
      else if decide (pl = at_cpu c) then if back then o (at_thread th) else ∅
      else if decide (pl = at_thread th) then ∅ else o pl
  | k_tick th =>
      if decide (pl = nowhere) then o pl ∪ o (at_thread th)
      else if decide (pl = at_thread th) then o (at_cpu c)
      else if decide (pl = at_cpu c) then ∅ else o pl
  | k_wake | k_call _ | k_section _ | k_time => o pl
  end.

(** The kernel does not hold the locks of the headers from one call to another. *)
Definition plain_step (kd : step_kind) : Prop :=
  match kd with k_call e => plain_call e | _ => True end.

(** Any CPU may run the job that destroys a task, and be saved with its lock. *)
#[export] Instance sockets_stray : Strays := λ l, ∃ task, l = socketsLock task.

Section deadlock.
Context `{PL : Platform}.

(** Executions, with the owners of the locks. *)
Definition own_steps : sys * owners → sys * owners → Prop :=
  rtc (λ x y, ∃ c kd, sys_step c kd x.1 y.1 ∧ plain_step kd ∧
                y.2 = own_step c kd (sy_mem x.1) (sy_mem y.1) x.2).

Definition waits_for (S : sys) (c : nat) (l : lock_id) : Prop :=
  next_step c (sy_code S c) (sy_mem S) = waiting l.

(** ** The invariant *)

(** Code that ends without locks, inside or outside a critical section. *)
Definition ends {A} (_ : A) (H : held) : Prop := ∃ b, H = bare b.

(** The locks of a place in the order they were taken, last first. *)
Definition locks_in (H : held) : list lock_id := default [] H.

Definition on (c : nat) (H : held) (Hs : nat → held) : nat → held :=
  λ c', if decide (c' = c) then H else Hs c'.

(** [Hs c]: the critical section of CPU [c] and its locks. *)
Record own_ok (Hs : nat → held) (S : sys) (o : owners) : Prop := {
  own_set c : o (at_cpu c) = list_to_set (locks_in (Hs c));
  own_threads th : o (at_thread th) = ∅;
  own_lost l : l ∈ o nowhere → ∃ task, l = socketsLock task;
  own_nodup c : NoDup (locks_in (Hs c));
  own_section c : cpu_locked (k_cpus (sy_mem S) c) = inside (Hs c);
  own_code c : climb (Hs c) (sy_code S c) ends;
  own_saved th b k : sy_saved S th = Some (b, k) → climb (bare b) k ends;
  own_held pl : o pl ⊆ k_locks (sy_mem S);
  own_all l : l ∈ k_locks (sy_mem S) → ∃ pl, l ∈ o pl;
  own_disjoint pl pl' : pl ≠ pl' → o pl ## o pl';
}.

(** ** Lemmas *)

Lemma inside_bare b : inside (bare b) = b.
Proof. by destruct b. Qed.

Lemma climb_next c H {A} (p p' : prog A) s s' Q :
  climb H p Q → cpu_locked (k_cpus s c) = inside H → next_step c p s = moved p' s' →
  (∃ H', lock_move c s s' H H' ∧ climb H' p' Q) ∨ (s' = s ∧ climb H p' Q).
Proof.
  intros Hp Hc Hn. destruct p as [a|R f k|X B body x k|th body k|l]; simpl in Hn; try done.
  - specialize (Hp c s Hc). destruct (f c s) as [r s1|l|e]; try done. injection Hn as <- <-. by left.
  - injection Hn as <- <-. right. split; [done|].
    destruct Hp as (I & HI & Hb). apply climb_bind. eapply climb_mono; [by apply Hb|].
    intros [x'|b] H' Hy; [|done]. by exists I.
Qed.

Lemma climb_never H (p : prog Empty_set) Q : climb H p (λ _ _, True) → climb H (never p) Q.
Proof. intros Hp. apply climb_bind. eapply climb_mono; [exact Hp|]. by intros []. Qed.

Lemma climb_never_same H (p : prog Empty_set) Q : climb H p (same H) → climb H (never p) Q.
Proof. intros Hp. apply climb_never. by eapply climb_mono. Qed.

(** Only locks of lower rank are held by a CPU that waits, and the lock is held. *)
Lemma waits_rank Hs S o c l :
  own_ok Hs S o → waits_for S c l →
  l ∈ k_locks (sy_mem S) ∧ ∀ l', l' ∈ o (at_cpu c) → (rank l' < rank l)%nat.
Proof.
  intros Hok Hw. pose proof (own_code _ _ _ Hok c) as Hc. pose proof (own_section _ _ _ Hok c) as Hsec.
  unfold waits_for in Hw. rewrite (own_set _ _ _ Hok).
  destruct (sy_code S c) as [a|R f k|X B body x k|th body k|lv]; simpl in Hw; try done.
  specialize (Hc c (sy_mem S) Hsec). destruct (f c (sy_mem S)) as [|l2|]; try done. injection Hw as ->.
  destruct Hc as (L & -> & Hb & Hl). split; [done|]. intros l' Hl'.
  apply elem_of_list_to_set in Hl'. unfold below in Hb. rewrite Forall_forall in Hb. by apply Hb.
Qed.

(** A CPU that returns, saves or leaves. *)
Lemma code_leaves Hs S o c :
  own_ok Hs S o →
  match next_step c (sy_code S c) (sy_mem S) with
  | returned _ => ∃ b, Hs c = bare b
  | saving th body k => saved_with (Hs c) ∧ climb (Some []) body (λ _ _, True) ∧ climb (Some []) k ends
  | leaving (leave_run _ _) => Hs c = Some []
  | leaving leave_idle => Hs c = None
  | undefined e => e ≠ bad_critical
  | _ => True
  end.
Proof.
  intros Hok. pose proof (own_code _ _ _ Hok c) as Hc. pose proof (own_section _ _ _ Hok c) as Hsec.
  destruct (sy_code S c) as [a|R f k|X B body x k|th body k|lv]; simpl next_step; [done| |done|done|by destruct lv].
  specialize (Hc c (sy_mem S) Hsec). by destruct (f c (sy_mem S)).
Qed.

(** The sets of an access. *)
Lemma own_access_sets c s s' H H' (o : owners) :
  lock_move c s s' H H' → NoDup (locks_in H) → o (at_cpu c) = list_to_set (locks_in H) →
  (∀ pl, o pl ⊆ k_locks s) → (∀ pl pl', pl ≠ pl' → o pl ## o pl') →
  NoDup (locks_in H') ∧
  (o (at_cpu c) ∪ (k_locks s' ∖ k_locks s)) ∩ k_locks s' = list_to_set (locks_in H') ∧
  ∀ pl, pl ≠ at_cpu c → o pl ∩ k_locks s' = o pl ∧ o pl ## list_to_set (locks_in H').
Proof.
  intros Hmove Hnd Hset Hheld Hdis. pose proof (Hheld (at_cpu c)) as Hhc.
  assert (∀ pl, pl ≠ at_cpu c → o pl ⊆ k_locks s ∧ o pl ## o (at_cpu c)) as Ho.
  { intros pl Hpl. split; [apply Hheld|by apply Hdis]. }
  destruct Hmove as [Heq _ _|L Heq _|L l Hl Heq _|L l Heq _|Heq _|Heq _];
    rewrite Heq; simpl in *.
  1, 2, 5, 6: split; [done|]; split; [set_solver|]; intros pl Hpl; specialize (Ho pl Hpl); set_solver.
  - split; [constructor; [|done]|].
    { intros Hin. apply Hl, Hhc. rewrite Hset. by apply elem_of_list_to_set. }
    simpl. split; [set_solver|]. intros pl Hpl. specialize (Ho pl Hpl). set_solver.
  - apply NoDup_cons in Hnd as [Hlh Hnd]. simpl in Hset.
    assert (l ∉ (list_to_set L : gset lock_id)) as Hlh' by by rewrite elem_of_list_to_set.
    split; [done|]. split; [set_solver|]. intros pl Hpl. specialize (Ho pl Hpl). set_solver.
Qed.

(** What is held stays owned. *)
Lemma own_access_all c s s' H H' (o : owners) l :
  lock_move c s s' H H' → (∀ l, l ∈ k_locks s → ∃ pl, l ∈ o pl) → l ∈ k_locks s' →
  ∃ pl, l ∈ own_step c k_access s s' o pl.
Proof.
  intros Hmove Hall Hl. destruct (decide (l ∈ k_locks s)) as [Hls|Hls].
  - destruct (Hall l Hls) as [pl Hpl]. exists pl. simpl. case_decide; set_solver.
  - exists (at_cpu c). simpl. rewrite decide_True by done. set_solver.
Qed.

Lemma move_sections c s s' H H' :
  lock_move c s s' H H' → cpu_locked (k_cpus s c) = inside H → sections c (inside H') s s'.
Proof.
  intros Hmove Hc. destruct Hmove as [_ Hcp _|L _ Hs|L l _ _ Hs|L l _ Hs|_ Hs|_ Hs]; try done.
  split; rewrite ?Hcp; done.
Qed.

Lemma on_eq c H Hs : on c H Hs c = H.
Proof. unfold on. by rewrite decide_True. Qed.
Lemma on_ne c c' H Hs : c' ≠ c → on c H Hs c' = Hs c'.
Proof. intros Hc. unfold on. by rewrite decide_False. Qed.
Ltac cpus c' :=
  match goal with
  | |- context [on ?c ?H ?Hs c'] =>
      destruct (decide (c' = c)) as [->|]; [rewrite on_eq|rewrite on_ne by done]
  end.

Lemma on_cpu_eq c p code : on_cpu c p code c = p.
Proof. unfold on_cpu. by rewrite decide_True. Qed.
Lemma on_cpu_ne c p code c' : c' ≠ c → on_cpu c p code c' = code c'.
Proof. intros Hc. unfold on_cpu. by rewrite decide_False. Qed.

Section own.
Context (Hs : nat → held) (S : sys) (o : owners) (c : nat).
Context (Hok : own_ok Hs S o).

(** An access. *)
Lemma own_ok_access p' s' :
  next_step c (sy_code S c) (sy_mem S) = moved p' s' →
  ∃ Hs', own_ok Hs' (mk_sys s' (on_cpu c p' (sy_code S)) (sy_saved S))
    (own_step c k_access (sy_mem S) s' o).
Proof.
  intros Hn. pose proof Hok as [Hset Hthr Hlost Hnd Hsec Hcode Hsaved Hheld Hall Hdis].
  destruct (climb_next c _ _ _ _ _ _ (Hcode c) (Hsec c) Hn) as [(H' & Hmove & Hp')|[-> Hp']].
  2: { assert (∀ pl, own_step c k_access (sy_mem S) (sy_mem S) o pl = o pl) as Ho.
    { intros pl. simpl. pose proof (Hheld pl). case_decide; set_solver. }
    exists Hs. split; try done; intros; rewrite ?Ho in *; auto.
    - simpl. unfold on_cpu. case_decide as Hcc; [by rewrite Hcc|apply Hcode].
    - destruct (Hall l) as [pl Hpl]; [done|]. exists pl. by rewrite Ho. }
  destruct (own_access_sets c _ _ _ _ o Hmove) as (Hnd' & Hset' & Ho); [by eauto..|].
  pose proof (move_sections _ _ _ _ _ Hmove (Hsec c)) as [Hs1 Hs2].
  exists (on c H' Hs). split; simpl sy_mem.
  - intros c'. simpl. cpus c'; [by rewrite decide_True|].
    rewrite decide_False by congruence. rewrite <- Hset. apply Ho. congruence.
  - intros th. simpl. rewrite Hthr. set_solver.
  - intros l. simpl. intros [Hl _]%elem_of_intersection. by apply Hlost.
  - intros c'. by cpus c'.
  - intros c'. cpus c'; [done|]. by rewrite Hs2.
  - intros c'. simpl. cpus c'; [by rewrite on_cpu_eq|by rewrite on_cpu_ne].
  - done.
  - intros pl. simpl. case_decide; apply intersection_subseteq_r.
  - intros l Hl. by eapply own_access_all.
  - intros pl pl' Hne. specialize (Hdis pl pl' Hne). simpl.
    case_decide as H1; case_decide as H2; [congruence| | |set_solver].
    + rewrite H1, Hset'. destruct (Ho pl') as [-> Hd]; [done|]. set_solver.
    + rewrite H2, Hset'. destruct (Ho pl) as [-> Hd]; [done|]. set_solver.
Qed.

(** A thread is saved: a lock that its CPU holds is lost. *)
Lemma own_ok_save th b body k :
  b = cpu_locked (k_cpus (sy_mem S) c) →
  next_step c (sy_code S c) (sy_mem S) = saving th body k →
  ∃ Hs', own_ok Hs' (mk_sys (save_thread th (sy_mem S)) (on_cpu c (never body) (sy_code S))
    (save_at th (b, k) (sy_saved S))) (own_step c (k_save th) (sy_mem S) (save_thread th (sy_mem S)) o).
Proof.
  intros -> Hn. pose proof (code_leaves Hs S o c Hok) as Hc. rewrite Hn in Hc.
  destruct Hc as (Hw & Hbody & Hk). pose proof Hok as [Hset Hthr Hlost Hnd Hsec Hcode Hsaved Hheld Hall Hdis].
  assert (inside (Hs c) = true) as Hin by (by destruct Hw as [->|(l & _ & ->)]).
  exists (on c (Some []) Hs). split; simpl sy_mem.
  - intros c'. simpl. cpus c'; [rewrite decide_True by auto; done|].
    rewrite decide_False by naive_solver. apply Hset.
  - intros th'. simpl. case_decide; [done|apply Hthr].
  - intros l. simpl. rewrite (Hset c), Hthr. destruct Hw as [->|(l' & [task ->] & ->)]; simpl; set_solver.
  - intros c'. cpus c'; [constructor|done].
  - intros c'. cpus c'; [|apply Hsec].
    change (cpu_locked (k_cpus (sy_mem S) c) = true). by rewrite Hsec.
  - intros c'. simpl. cpus c'; [rewrite on_cpu_eq; by apply climb_never|by rewrite on_cpu_ne].
  - intros th' b k'. simpl. unfold save_at. case_decide; [|apply Hsaved].
    intros [= <- <-]. by rewrite Hsec, Hin.
  - intros pl. simpl. pose proof (Hheld nowhere). pose proof (Hheld (at_cpu c)). pose proof (Hheld (at_thread th)).
    pose proof (Hheld pl). repeat case_decide; set_solver.
  - intros l Hl. destruct (Hall l Hl) as [pl Hpl]. destruct (decide (pl = at_cpu c ∨ pl = at_thread th)) as [Hp|Hp].
    + exists nowhere. simpl. destruct Hp as [->| ->]; set_solver.
    + exists pl. simpl. rewrite (decide_False (P := _ ∨ _)) by done. case_decide; set_solver.
  - set (o' := own_step _ _ _ _ _).
    assert (∀ q, q ≠ nowhere → o' nowhere ## o' q) as Hnow.
    { intros q Hq. unfold o'. simpl. rewrite (decide_False (P := q = nowhere)) by done.
      case_decide as Hc; [apply disjoint_empty_r|].
      pose proof (Hdis nowhere q). pose proof (Hdis (at_cpu c) q). pose proof (Hdis (at_thread th) q).
      set_solver by naive_solver. }
    intros pl pl' Hne. destruct (decide (pl = nowhere)) as [->|Hn1]; [by apply Hnow|].
    destruct (decide (pl' = nowhere)) as [->|Hn2]; [symmetry; by apply Hnow|].
    specialize (Hdis pl pl' Hne). unfold o'. simpl. repeat case_decide; set_solver.
Qed.

(** The CPU has no lock and goes on with other code; the owners stay. *)
Lemma own_ok_switch H' m' code' saved' o' :
  locks_in (Hs c) = [] → locks_in H' = [] → (∀ pl, o' pl = o pl) →
  k_locks m' = k_locks (sy_mem S) → sections c (inside H') (sy_mem S) m' →
  climb H' (code' c) ends → (∀ c', c' ≠ c → code' c' = sy_code S c') →
  (∀ th b k, saved' th = Some (b, k) → climb (bare b) k ends) →
  own_ok (on c H' Hs) (mk_sys m' code' saved') o'.
Proof.
  intros Hl0 Hl1 Ho Hlk [Hs1 Hs2] Hp Hp' Hsv. pose proof Hok as [Hset Hthr Hlost Hnd Hsec Hcode Hsaved Hheld Hall Hdis].
  split; simpl sy_mem; intros; rewrite ?Ho, ?Hlk in *; auto.
  - cpus c0; [by rewrite Hset, Hl0, Hl1|done].
  - cpus c0; [rewrite Hl1; constructor|done].
  - cpus c0; [done|by rewrite Hs2].
  - simpl. cpus c0; [done|by rewrite Hp'].
  - eauto.
  - destruct (Hall l) as [pl Hpl]; [done|]. exists pl. by rewrite Ho.
Qed.

(** Steps that switch between code without locks. *)
Lemma own_step_quiet kd s s' :
  o (at_cpu c) = ∅ → match kd with k_access | k_save _ => False | _ => True end →
  ∀ pl, own_step c kd s s' o pl = o pl.
Proof.
  intros Hc Hkd pl. pose proof (own_threads _ _ _ Hok) as Hthr.
  destruct kd as [|th|th [|]| |e|th|b|]; simpl; try done; repeat case_decide; subst;
    rewrite ?Hthr, ?Hc; set_solver.
Qed.

Lemma no_locks : locks_in (Hs c) = [] → o (at_cpu c) = ∅.
Proof. intros Hl. by rewrite (own_set _ _ _ Hok), Hl. Qed.
End own.

Lemma resume_climb Hs S o th t b p :
  own_ok Hs S o → resume (thread_state t) (sy_saved S th) = Some (b, p) → climb (bare b) p ends.
Proof.
  intros Hok Hr. destruct (thread_state t); simpl in Hr.
  - injection Hr as <- <-. by exists false.
  - injection Hr as <- <-. apply climb_never_same, order_kernel_code. intros _. by eexists.
  - by eapply own_saved.
Qed.

Lemma own_ok_step Hs S o c kd S' :
  own_ok Hs S o → sys_step c kd S S' → plain_step kd →
  ∃ Hs', own_ok Hs' S' (own_step c kd (sy_mem S) (sy_mem S') o).
Proof.
  intros Hok Hstep Hplain. pose proof (code_leaves Hs S o c Hok) as Hc.
  pose proof (own_section _ _ _ Hok c) as Hsec. pose proof (own_saved _ _ _ Hok) as Hsv.
  destruct Hstep as [S p' s' Hn|S th body k Hn Hth|S task th t b p Hn Ht Hr|S Hn|S e Hn Hin|S th Hlk Hth|S b Hn|S now];
    try rewrite Hn in Hc.
  - by eapply own_ok_access.
  - by apply (own_ok_save Hs S o c Hok).
  - eexists. eapply (own_ok_switch Hs S o c Hok (bare b)); try done.
    + by rewrite Hc.
    + by destruct b.
    + intros pl. eapply own_step_quiet; [exact Hok| |done]. eapply no_locks; [exact Hok|]. by rewrite Hc.
    + rewrite inside_bare. apply sections_upd.
    + rewrite on_cpu_eq. by eapply resume_climb.
    + apply on_cpu_ne.
    + intros th' b' k'. unfold drop_at. destruct (decide (th' = th)); [discriminate|apply Hsv].
  - eexists. eapply (own_ok_switch Hs S o c Hok None); try done.
    + by rewrite Hc.
    + rewrite Hc in Hsec. split; [done|by intros].
    + rewrite on_cpu_eq. by exists false.
    + apply on_cpu_ne.
  - destruct Hc as [b Hb]. rewrite Hb, inside_bare in Hsec. rewrite Hin in Hsec. subst b.
    eexists. eapply (own_ok_switch Hs S o c Hok (bare (begins_inside e))); try done.
    + rewrite Hb. by destruct (begins_inside e).
    + by destruct (begins_inside e).
    + rewrite inside_bare. split; [done|by intros].
    + rewrite on_cpu_eq. apply climb_seq; [apply order_entry; [|done]; intros task _; by eexists|]. intros _. by exists (begins_inside e).
    + apply on_cpu_ne.
  - assert (Hs c = None) as Hnone.
    { rewrite Hlk in Hsec. destruct (Hs c); [done|done]. }
    eexists. eapply (own_ok_switch Hs S o c Hok (Some [])); try done.
    + by rewrite Hnone.
    + intros pl. eapply own_step_quiet; [exact Hok| |done]. eapply no_locks; [exact Hok|]. by rewrite Hnone.
    + apply (sections_upd c true (save_thread th (sy_mem S))).
    + rewrite on_cpu_eq. apply climb_never_same, order_loop_resign.
    + apply on_cpu_ne.
    + intros th' b' k'. unfold save_at. case_decide; [|apply Hsv]. intros [= <- <-].
      pose proof (own_code _ _ _ Hok c) as Hcode. by rewrite Hnone in Hcode.
  - destruct Hc as [b0 Hb]. eexists. eapply (own_ok_switch Hs S o c Hok (bare b)); try done.
    + rewrite Hb. by destruct b0.
    + by destruct b.
    + rewrite inside_bare. apply sections_upd.
    + destruct (sy_code S c) as [[]|R f k|X B body x k|th body k|l]; simpl in Hn; try done; [by exists b|].
      by destruct (f c (sy_mem S)).
  - exists Hs. by destruct Hok.
Qed.

Lemma own_ok_steps x y :
  own_steps x y → (∃ Hs, own_ok Hs x.1 x.2) → ∃ Hs, own_ok Hs y.1 y.2.
Proof.
  intros Hsteps. induction Hsteps as [x|x y z (c & kd & Hstep & Hplain & Ho) _ IH]; [done|].
  intros [Hs Hok]. apply IH. rewrite Ho. by eapply own_ok_step.
Qed.

(** No CPU is in the scheduler, no thread was interrupted in it, no lock is held. *)
Record at_rest (S : sys) : Prop := {
  rest_outside : all_outside S;
  rest_locks : k_locks (sy_mem S) = ∅;
}.

Lemma own_ok_rest S : at_rest S → own_ok (λ c, bare (cpu_locked (k_cpus (sy_mem S) c))) S no_owners.
Proof.
  intros [[Hc Hs] Hl]. split; try done.
  - intros c. by destruct (cpu_locked _).
  - intros c. destruct (cpu_locked _); constructor.
  - intros c. by rewrite inside_bare.
  - intros c. rewrite Hc. by eexists.
  - intros th b k ->%Hs. by exists b.
  - intros l. rewrite Hl. set_solver.
Qed.

(** The states that can be reached. *)
Definition reached (S : sys) (o : owners) : Prop :=
  ∃ S0, at_rest S0 ∧ own_steps (S0, no_owners) (S, o).

Lemma reached_ok S o : reached S o → ∃ Hs, own_ok Hs S o.
Proof.
  intros (S0 & Hr & Hsteps). apply (own_ok_steps _ _ Hsteps). eexists. by apply own_ok_rest.
Qed.

(** ** Waiting CPUs *)

(** [c] waits for a lock that [c'] has taken. *)
Definition blocked_by (S : sys) (o : owners) (c c' : nat) : Prop :=
  ∃ l, waits_for S c l ∧ l ∈ o (at_cpu c').

Lemma waits_for_unique S c l l' : waits_for S c l → waits_for S c l' → l = l'.
Proof. unfold waits_for. congruence. Qed.

Lemma blocked_rank Hs S o c c' l l' :
  own_ok Hs S o → tc (blocked_by S o) c c' → waits_for S c l → waits_for S c' l' →
  (rank l < rank l')%nat.
Proof.
  intros Hok Htc. revert l. induction Htc as [c c' (l1 & Hw & Ho)|c c1 c' (l1 & Hw & Ho) Htc IH]; intros l Hl Hl'.
  - rewrite (waits_for_unique S c l l1 Hl Hw). by apply (waits_rank _ _ _ _ _ Hok Hl').
  - assert (∃ l2, waits_for S c1 l2) as [l2 Hl2] by (inversion Htc as [?? (? & ? & ?)|??? (? & ? & ?)]; eauto).
    specialize (IH l2 Hl2 Hl'). rewrite (waits_for_unique S c l l1 Hl Hw).
    destruct (waits_rank _ _ _ _ _ Hok Hl2) as [_ Hr]. specialize (Hr _ Ho). lia.
Qed.

(** The CPU has something to do that is not waiting. *)
Definition can_go_on (S : sys) (c : nat) : Prop :=
  match next_step c (sy_code S c) (sy_mem S) with
  | moved _ _ | undefined _ | saving _ _ _ | leaving (leave_abort _) => True
  | _ => False
  end.

(** [c] waits for [l]; the CPU that has taken [l] can go on, or [_free_task_method] has
    left [l] locked. *)
Definition waits_at_end (S : sys) (o : owners) (c : nat) (l : lock_id) : Prop :=
  waits_for S c l ∧
  ((∃ c', l ∈ o (at_cpu c') ∧ can_go_on S c') ∨ l ∈ o nowhere ∧ ∃ task, l = socketsLock task).

(** A CPU with a lock goes on or waits. *)
Lemma holder_goes_on Hs S o c l :
  own_ok Hs S o → l ∈ o (at_cpu c) → can_go_on S c ∨ ∃ l', waits_for S c l'.
Proof.
  intros Hok Hl. pose proof (code_leaves Hs S o c Hok) as Hc. rewrite (own_set _ _ _ Hok) in Hl.
  unfold can_go_on, waits_for. destruct (next_step c (sy_code S c) (sy_mem S)) as [| |l'| | |lv]; eauto.
  - destruct Hc as [b Hb]. rewrite Hb in Hl. destruct b; simpl in Hl; set_solver.
  - destruct lv; eauto; rewrite Hc in Hl; simpl in Hl; set_solver.
Qed.

Lemma blocked_end Hs S o : own_ok Hs S o →
  ∀ n c l, (3 - rank l ≤ n)%nat → waits_for S c l →
  ∃ c' l', rtc (blocked_by S o) c c' ∧ waits_at_end S o c' l'.
Proof.
  intros Hok n. induction n as [|n IH]; intros c l Hn Hw; [destruct l; simpl in Hn; lia|].
  destruct (waits_rank _ _ _ _ _ Hok Hw) as [Hl _]. destruct (own_all _ _ _ Hok l Hl) as [[c'|th|] Hpl].
  - destruct (holder_goes_on _ _ _ _ _ Hok Hpl) as [Hgo|[l' Hl']].
    + exists c, l. split; [done|]. split; [done|]. left. by exists c'.
    + destruct (IH c' l') as (c2 & l2 & Hr & Hend); [|done|].
      * destruct (waits_rank _ _ _ _ _ Hok Hl') as [_ Hr]. specialize (Hr _ Hpl). lia.
      * exists c2, l2. split; [|done]. eapply rtc_l; [|done]. by exists l.
  - rewrite (own_threads _ _ _ Hok) in Hpl. set_solver.
  - exists c, l. split; [done|]. split; [done|]. right. split; [done|]. by eapply own_lost.
Qed.

(** C2. There is no deadlock between CPUs: whatever functions of the scheduler any
    number of CPUs run, however their accesses interleave and whichever threads are
    switched, interrupted and resumed, no CPU ever waits, even through others, for a
    lock that it has taken itself, and from every CPU that waits the chain of the CPUs
    that hold the locks ends: at a CPU that can go on, or at a [socketsLock] that
    [_free_task_method] left locked. *)
Theorem no_cyclic_wait S o :
  reached S o →
  (∀ c, ¬ tc (blocked_by S o) c c) ∧
  (∀ c l, waits_for S c l → ∃ c' l', rtc (blocked_by S o) c c' ∧ waits_at_end S o c' l').
Proof.
  intros [Hs Hok]%reached_ok. split; [|intros c l; by eapply blocked_end].
  intros c Hc. assert (∃ l, waits_for S c l) as [l Hl] by (inversion Hc as [?? (? & ? & ?)|??? (? & ? & ?)]; eauto).
  pose proof (blocked_rank _ _ _ _ _ _ _ Hok Hc Hl Hl). lia.
Qed.

(** C16. Locks are held inside critical sections only, and by the code of CPUs only: a
    CPU outside critical sections has none, so that a thread interrupted at the end of
    its time slice has none; a CPU that returns from the scheduler, runs a thread or
    idles has given back every lock that it took; a thread whose state is saved inside
    the scheduler has none, except that [_free_task_method] may switch away with the
    lock on the sockets of its task. No CPU enters a critical section twice or leaves
    one it is not in. *)
Theorem switches_hold_no_lock S o :
  reached S o →
  (∀ th, o (at_thread th) = ∅) ∧
  (∀ l, l ∈ o nowhere → ∃ task, l = socketsLock task) ∧
  ∀ c, (cpu_locked (k_cpus (sy_mem S) c) = false → o (at_cpu c) = ∅) ∧
    match next_step c (sy_code S c) (sy_mem S) with
    | returned _ => o (at_cpu c) = ∅
    | leaving (leave_run _ _) => o (at_cpu c) = ∅ ∧ cpu_locked (k_cpus (sy_mem S) c) = true
    | leaving leave_idle => o (at_cpu c) = ∅ ∧ cpu_locked (k_cpus (sy_mem S) c) = false
    | saving _ _ _ => cpu_locked (k_cpus (sy_mem S) c) = true ∧
        (o (at_cpu c) = ∅ ∨ ∃ task, o (at_cpu c) = {[socketsLock task]})
    | undefined e => e ≠ bad_critical
    | _ => True
    end.
Proof.
  intros [Hs Hok]%reached_ok. split; [by eapply own_threads|]. split; [by eapply own_lost|]. intros c.
  pose proof (code_leaves _ _ _ c Hok) as Hc. rewrite (own_set _ _ _ Hok c), (own_section _ _ _ Hok c).
  split; [by destruct (Hs c)|].
  destruct (next_step c (sy_code S c) (sy_mem S)) as [| | | |th body k|l]; try done.
  - destruct Hc as [b ->]. by destruct b.
  - destruct Hc as ([->|(l & [task ->] & ->)] & _); [by split; [|left]|]. split; [done|]. right. exists task. simpl. set_solver.
  - destruct l; try done; by rewrite Hc.
Qed.

(** ** The lock that [_free_task_method] leaves locked *)

Lemma lost_lock_step Hs S o c kd S' l :
  own_ok Hs S o → sys_step c kd S S' → l ∈ o nowhere → l ∈ own_step c kd (sy_mem S) (sy_mem S') o nowhere.
Proof.
  intros Hok Hstep Hl.
  destruct Hstep as [S p' s' Hn|S th body k Hn Hth|S task th t b p Hn Ht Hr|S Hn|S e Hn Hin|S th Hlk Hth|S b Hn|S now];
    simpl; try done; rewrite ?(decide_True (P := nowhere = nowhere)) by done; [|set_solver|case_bool_decide; set_solver|set_solver].
  apply elem_of_intersection. split; [done|].
  pose proof (own_held _ _ _ Hok nowhere l Hl) as Hls.
  destruct (climb_next c _ _ _ _ _ _ (own_code _ _ _ Hok c) (own_section _ _ _ Hok c) Hn)
    as [(H' & Hmove & _)|[-> _]]; [|done].
  pose proof (own_set _ _ _ Hok c) as Hset.
  assert (nowhere ≠ at_cpu c) as Hne by done. pose proof (own_disjoint _ _ _ Hok _ _ Hne) as Hd.
  destruct Hmove as [Heq _ _|L Heq _|L l' Hl' Heq _|L l' Heq _|Heq _|Heq _]; rewrite Heq; try done; [set_solver|].
  apply elem_of_difference. split; [done|]. intros ->%elem_of_singleton.
  apply (Hd l' Hl). rewrite Hset. simpl. set_solver.
Qed.

(** A [socketsLock] with which [_free_task_method] saved its state is never free again:
    no code of any CPU will release it. *)
Theorem lost_lock_stays_locked S o S' o' l :
  reached S o → l ∈ o nowhere → own_steps (S, o) (S', o') → l ∈ o' nowhere ∧ l ∈ k_locks (sy_mem S').
Proof.
  intros [Hs Hok]%reached_ok Hl Hsteps.
  assert (l ∈ o' nowhere) as Hl'.
  { remember (S, o) as x eqn:Hx. remember (S', o') as y eqn:Hy. revert S o Hs Hx Hok Hl Hy.
    induction Hsteps as [x|x [S1 o1] y (c & kd & Hstep & Hplain & Ho) _ IH]; intros S o Hs -> Hok Hl Hy.
    - by injection Hy as <- <-.
    - simpl in *. destruct (own_ok_step _ _ _ _ _ _ Hok Hstep Hplain) as [Hs1 Hok1]. rewrite <- Ho in Hok1.
      apply (IH S1 o1 Hs1); [done|done| |done]. rewrite Ho. by eapply lost_lock_step. }
  split; [done|]. destruct (own_ok_steps _ _ Hsteps) as [Hs' Hok']; [by exists Hs|].
  by apply (own_held _ _ _ Hok' nowhere).
Qed.

Lemma pstep_l c {A} (p p' : prog A) s s' z :
  next_step c p s = moved p' s' → rtc (pstep c) (p', s') z → rtc (pstep c) (p, s) z.
Proof. intros Hn Hz. by apply rtc_l with (p', s'). Qed.

(** [wait_socket_gone] saves its state with the lock on the sockets of its task held as
    long as the socket is in its bucket, and what it does first when it is resumed is to
    wait for that lock. *)
Theorem wait_socket_gone_waits_for_itself c s T tk th i desc :
  k_tasks s !! T = Some tk → task_sockets tk !! Z.to_nat i = Some desc →
  socketsLock T ∉ k_locks s →
  ∃ s1 k, rtc (pstep c) (wait_socket_gone T th i desc, s) (Save th _resign_continuation k, s1) ∧
    socketsLock T ∈ k_locks s1 ∧
    ∀ c' s', is_Some (k_tasks s' !! T) → socketsLock T ∈ k_locks s' →
      ∃ k', pstep c' (k, s') (k', s') ∧ next_step c' k' s' = waiting (socketsLock T).
Proof.
  intros HT Hi Hlk. set (p := wait_socket_gone T th i desc).
  exists (add_lock (socketsLock T) s), p. split; [|split; [simpl; set_solver|]].
  - eapply pstep_l; [reflexivity|].
    eapply pstep_l; [simpl; rewrite HT, bool_decide_true, decide_False by done; reflexivity|].
    eapply pstep_l; [simpl; rewrite HT; reflexivity|].
    eapply pstep_l; [simpl; rewrite Hi; reflexivity|].
    simpl. rewrite decide_False by (by intros []). apply rtc_refl.
  - intros c' s' Ht Hl.
    match eval hnf in p with Loop ?body ?x ?k => exists (unroll body x k) end. split; [done|]. simpl.
    by rewrite bool_decide_true, decide_True by done.
Qed.

End deadlock.

(** ** Witnesses *)

#[export] Instance plain_step_dec kd : Decision (plain_step kd).
Proof. destruct kd as [| | | |[[]|[]|[]|[]|[]|[]|]| | |]; simpl; apply _. Defined.

Section drive.
Context `{Platform}.

Fixpoint drive_own (sched : list (nat * entry)) (x : sys * owners) : option (sys * owners) :=
  match sched with
  | [] => Some x
  | (c, e) :: sched =>
      match sys_go c e x.1 with
      | Some (kd, S1) =>
          if decide (plain_step kd) then
            drive_own sched (S1, own_step c kd (sy_mem x.1) (sy_mem S1) x.2)
          else None
      | None => None
      end
  end.

Lemma drive_own_steps sched : ∀ x y, drive_own sched x = Some y → own_steps x y.
Proof.
  induction sched as [|[c e] sched IH]; intros x y Hd; simpl in Hd; [by injection Hd as <-; apply rtc_refl|].
  destruct (sys_go c e x.1) as [[kd S1]|] eqn:Hgo; [|done]. case_decide as Hp; [|done].
  eapply rtc_l; [|by apply IH]. exists c, kd. split; [by eapply sys_go_step|done].
Qed.

Lemma drive_own_reaches sched x (P : sys * owners → bool) :
  match drive_own sched x with Some y => P y | None => false end = true →
  ∃ S o, own_steps x (S, o) ∧ P (S, o) = true.
Proof.
  destruct (drive_own sched x) as [[S o]|] eqn:Hd; [|done]. intros HP. exists S, o. split; [|done].
  by eapply drive_own_steps.
Qed.
End drive.

(** CPU 0 has taken [killLock] of task 0x10000 to take a reference, and CPU 1 waits for
    it to kill the task. *)
Definition contended : list (nat * entry) :=
  let ref := (0%nat, task_h (e_task_reference 0x10000)) in
  let kill := (1%nat, task_h (e_task_kill 0x10000 2)) in
  [ref; kill; ref; kill].

Definition lock_eqb (l l' : lock_id) : bool := bool_decide (l = l').

Definition waits_forb (c : nat) (l : lock_id) (x : sys * owners) : bool :=
  match next_step c (sy_code x.1 c) (sy_mem x.1) with waiting l' => lock_eqb l l' | _ => false end.

Lemma waits_forb_true c l x : waits_forb c l x = true → waits_for x.1 c l.
Proof.
  unfold waits_forb, waits_for. destruct (next_step c _ _) as [| |l'| | |]; try done.
  by intros ->%bool_decide_eq_true.
Qed.

Lemma demo_at_rest s : k_locks s = ∅ → at_rest (demo_sys s).
Proof. by split. Qed.

Lemma no_cyclic_wait_witness :
  ∃ S o, reached (PL := P0) S o ∧
    waits_for S 1 (killLock 0x10000) ∧ killLock 0x10000 ∈ o (at_cpu 0) ∧
    ¬ tc (blocked_by S o) 1%nat 1%nat ∧
    ∃ c' l', rtc (blocked_by S o) 1%nat c' ∧ waits_at_end S o c' l'.
Proof.
  destruct (drive_own_reaches (H := P0) contended (demo_sys (demo 0 2), no_owners)
    (λ x, waits_forb 1 (killLock 0x10000) x && bool_decide (killLock 0x10000 ∈ x.2 (at_cpu 0))))
    as (S & o & Hsteps & [Hw Ho]%andb_true_iff); [by vm_compute|].
  apply waits_forb_true in Hw. apply bool_decide_eq_true in Ho.
  assert (reached (PL := P0) S o) as Hr by (exists (demo_sys (demo 0 2)); split; [by apply demo_at_rest|done]).
  destruct (no_cyclic_wait (PL := P0) S o Hr) as [Hc He].
  exists S, o. split_and!; [exact Hr|exact Hw|exact Ho|apply Hc|by apply (He 1%nat _ Hw)].
Defined.

(** CPU 0 returns, and CPU 1, which waited, has the lock. *)
Definition handed_over : list (nat * entry) :=
  let ref := (0%nat, task_h (e_task_reference 0x10000)) in
  let kill := (1%nat, task_h (e_task_kill 0x10000 2)) in
  contended ++ [ref; ref; ref; ref; kill].

Definition returnedb (c : nat) (x : sys * owners) : bool :=
  match next_step c (sy_code x.1 c) (sy_mem x.1) with returned _ => true | _ => false end.

Lemma switches_hold_no_lock_witness :
  ∃ S o, reached (PL := P0) S o ∧ o (at_cpu 0) = ∅ ∧ killLock 0x10000 ∈ o (at_cpu 1) ∧
    ∀ th, o (at_thread th) = ∅.
Proof.
  destruct (drive_own_reaches (H := P0) handed_over (demo_sys (demo 0 2), no_owners)
    (λ x, returnedb 0 x && bool_decide (killLock 0x10000 ∈ x.2 (at_cpu 1))))
    as (S & o & Hsteps & [Hr Ho]%andb_true_iff); [by vm_compute|].
  apply bool_decide_eq_true in Ho.
  assert (reached (PL := P0) S o) as Hre by (exists (demo_sys (demo 0 2)); split; [by apply demo_at_rest|done]).
  destruct (switches_hold_no_lock (PL := P0) S o Hre) as (Ht & _ & Hs).
  exists S, o. split_and!; [done| |done|done].
  destruct (Hs 0%nat) as [_ Hc]. unfold returnedb in Hr. simpl in Hr.
  by destruct (next_step 0 (sy_code S 0) (sy_mem S)).
Defined.
