(* ===== verification/Race.v ===== *)
(** * Race: static variables and the locks that guard them

    The static variables of src/loop.c, src/pidmap.c, src/paging.c and src/interrupts.c
    ([guarded_same] in Order.v lists them by lock) are changed under their locks only, by
    any number of CPUs whose accesses interleave. While a CPU holds such a lock the
    others leave the variables alone, which is what the sequential theorems of the
    other files take for granted. [pagerThread] has no lock in the source and is not
    among them. *)
From S2P Require Import Prelude Types Machine Demo TaskRef Loop TaskLife Interface Steps Order Polite Smp Deadlock.

Section race.
Context `{PL : Platform}.

(** ** Lemmas *)

Lemma guarded_same_refl l s : guarded_same l s s.
Proof. by destruct l. Qed.

Lemma guarded_same_trans l s1 s2 s3 : guarded_same l s1 s2 → guarded_same l s2 s3 → guarded_same l s1 s3.
Proof. destruct l; simpl; try done; intuition congruence. Qed.

Lemma statics_kept_nil s s' l : statics_kept [] s s' → guarded_same l s s'.
Proof. intros Hs. destruct (Hs l) as [[]%not_elem_of_nil|?]; done. Qed.

Lemma move_statics c s s' H H' l :
  lock_move c s s' H H' → l ∈ locks_in H ∨ guarded_same l s s'.
Proof.
  intros [? ? ? Hk|L ? ? Hk|L l' ? ? ? Hk|L l' ? ? Hk|? ? Hk|? ? Hk]; first [by apply Hk | right; by apply statics_kept_nil].
Qed.

(** One step of CPU [c]. *)
Lemma step_statics Hs S o c kd S' l :
  own_ok Hs S o → sys_step c kd S S' → l ∈ o (at_cpu c) ∨ guarded_same l (sy_mem S) (sy_mem S').
Proof.
  intros Hok Hstep. rewrite (own_set _ _ _ Hok), elem_of_list_to_set.
  destruct Hstep as [S p' s' Hn|S th body k Hn Hth|S task th t b p Hn Ht Hr|S Hn|S e Hn Hin|S th Hlk Hth|S b Hn|S now];
    try (right; by destruct l).
  destruct (climb_next c _ _ _ _ _ _ (own_code _ _ _ Hok c) (own_section _ _ _ Hok c) Hn)
    as [(H' & Hmove & _)|[-> _]]; [by eapply move_statics|right; apply guarded_same_refl].
Qed.

(** A step of another CPU takes no lock away. *)
Lemma step_keeps_lock Hs S o c c' kd S' l :
  own_ok Hs S o → sys_step c' kd S S' → c ≠ c' → l ∈ o (at_cpu c) →
  l ∈ own_step c' kd (sy_mem S) (sy_mem S') o (at_cpu c).
Proof.
  intros Hok Hstep Hc Hl. assert (at_cpu c ≠ at_cpu c') as Hpl by congruence.
  destruct Hstep as [S p' s' Hn|S th body k Hn Hth|S task th t b p Hn Ht Hr|S Hn|S e Hn Hin|S th Hlk Hth|S b Hn|S now];
    simpl; try done; rewrite ?(decide_False (P := at_cpu c = at_cpu c')) by done; try done.
  - destruct (climb_next c' _ _ _ _ _ _ (own_code _ _ _ Hok c') (own_section _ _ _ Hok c') Hn)
      as [(H' & Hmove & _)|[-> _]].
    + destruct (own_access_sets c' _ _ _ _ o Hmove) as (_ & _ & Ho); [by apply Hok..|].
      by destruct (Ho _ Hpl) as [-> _].
    + apply elem_of_intersection. split; [done|]. by apply (own_held _ _ _ Hok (at_cpu c)).
  - rewrite decide_False; [done|]. by intros [?|?].
Qed.

(** Executions in which CPU [c] makes no step. *)
Definition steps_of_others (c : nat) : sys * owners → sys * owners → Prop :=
  rtc (λ x y, ∃ c' kd, c' ≠ c ∧ sys_step c' kd x.1 y.1 ∧ plain_step kd ∧
                y.2 = own_step c' kd (sy_mem x.1) (sy_mem y.1) x.2).

Lemma others_keep_statics c l x y :
  steps_of_others c x y → (∃ Hs, own_ok Hs x.1 x.2) → l ∈ x.2 (at_cpu c) →
  guarded_same l (sy_mem x.1) (sy_mem y.1) ∧ l ∈ y.2 (at_cpu c).
Proof.
  intros Hsteps. induction Hsteps as [x|x y z (c' & kd & Hc & Hstep & Hplain & Ho) _ IH].
  - split; [apply guarded_same_refl|done].
  - intros [Hs Hok] Hl. destruct IH as [Hu Hlz].
    + rewrite Ho. by eapply own_ok_step.
    + rewrite Ho. by eapply step_keeps_lock.
    + split; [|done]. eapply guarded_same_trans; [|exact Hu].
      destruct (step_statics _ _ _ _ _ _ l Hok Hstep) as [Hl'|?]; [|done].
      assert (at_cpu c ≠ at_cpu c') as Hpl by congruence.
      by destruct (own_disjoint _ _ _ Hok _ _ Hpl l).
Qed.

(** ** Correctness *)

(** C3. The scheduler's static variables are free of races: on any number of CPUs that
    run any functions of the scheduler with any interleaving, a step that changes the
    scheduling queue's variables, the table of tasks, the pool of identifiers, the queue
    of page faults or the interrupt thread and mask is made by the CPU that has taken the
    lock of these variables; and as long as a CPU has taken it and makes no step, they
    stay as they are, and its own, whatever all other CPUs do. *)
Theorem static_variables_are_race_free S o :
  reached S o →
  (∀ c kd S' l, sys_step c kd S S' → l ∈ o (at_cpu c) ∨ guarded_same l (sy_mem S) (sy_mem S')) ∧
  (∀ c l S' o', l ∈ o (at_cpu c) → steps_of_others c (S, o) (S', o') →
     guarded_same l (sy_mem S) (sy_mem S') ∧ l ∈ o' (at_cpu c)).
Proof.
  intros [Hs Hok]%reached_ok. split.
  - intros c kd S' l Hstep. by eapply step_statics.
  - intros c l S' o' Hl Hsteps. apply (others_keep_statics c l (S, o) (S', o') Hsteps); [exists Hs; exact Hok|exact Hl].
Qed.

End race.

(** ** Witness *)

(** CPU 0 has taken [loopLock] to queue thread 0x3000; CPU 1 goes for the lock too. *)
Definition queueing : list (nat * entry) :=
  replicate 6 (0%nat, loop_h (e_loop_push 0x3000)) ++ [(1%nat, loop_h (e_loop_delete 0x1000))].

Lemma static_variables_are_race_free_witness :
  ∃ S o, reached (PL := P0) S o ∧ loopLock ∈ o (at_cpu 0) ∧
    ∀ S' o', steps_of_others (PL := P0) 0 (S, o) (S', o') →
      k_loop (sy_mem S') = k_loop (sy_mem S).
Proof.
  destruct (drive_own_reaches (H := P0) queueing (demo_sys (demo 0 2), no_owners)
    (λ x, bool_decide (loopLock ∈ x.2 (at_cpu 0)))) as (S & o & Hsteps & Ho); [by vm_compute|].
  apply bool_decide_eq_true in Ho.
  assert (reached (PL := P0) S o) as Hr by (exists (demo_sys (demo 0 2)); split; [by apply demo_at_rest|done]).
  destruct (static_variables_are_race_free (PL := P0) S o Hr) as [_ Hst].
  exists S, o. split_and!; [done|done|]. intros S' o' Hs. by apply (Hst 0%nat loopLock S' o').
Defined.
